(** * kubetest: task scheduling, task building and sub-task execution

    A shallow embedding of the scheduling and pod-building core of the
    kubetest controller (package [v1]): the task and sub-task schedulers,
    [SubTask.Run] / [SubTaskGroup.Run], the task builder's mount rewriting,
    strategy-key expansion and pre-init selection, the log mask filter and
    the local execution backend's command construction.

    Conventions.
    - Go [string] and [[]byte] values are byte sequences: Rocq [string].
    - Go [int] is a 64-bit two's complement integer: [Z] with the wrap-around
      of every arithmetic operation written out ([GoInt]).
    - A Go [error] is its message; [nil] is [None].
    - A Go [map] is a [gmap]; the order in which [range] visits a map is not
      specified by the language, so every function that ranges over a map
      takes the order as an explicit [range_order] argument. *)

From Stdlib Require Import ZArith String Ascii List Lia Permutation Bool DecimalString Sorted.
From Stdlib Require DecimalZ DecimalPos.
From stdpp Require Import gmap strings list fin_maps.

Open Scope Z_scope.

(* stdpp freezes string concatenation under [simpl]; the proofs below
   compute with it. *)
Arguments String.append !s1 s2 : simpl nomatch.

(** ** Go runtime basics *)

Definition error := string.

(** A call either returns, panics (index out of range, division by zero,
    nil dereference) or, in the model only, exhausts the loop fuel. *)
Inductive outcome (A : Type) : Type :=
| Done (a : A)
| Panic (msg : string)
| OutOfFuel.
Arguments Done {A} a.
Arguments Panic {A} msg.
Arguments OutOfFuel {A}.

(** The Go idiom [(T, error)]. *)
Inductive result (A : Type) : Type :=
| Ok (a : A)
| Err (e : error).
Arguments Ok {A} a.
Arguments Err {A} e.

Module GoInt.

Definition int_min : Z := - 2 ^ 63.
Definition int_max : Z := 2 ^ 63 - 1.

Definition in_range (z : Z) : Prop := int_min <= z <= int_max.

Definition wrap (z : Z) : Z := (z + 2 ^ 63) mod 2 ^ 64 - 2 ^ 63.

Definition add (a b : Z) : Z := wrap (a + b).

(* Go's [/] truncates toward zero; the divisor is checked by the caller. *)
Definition quo (a b : Z) : Z := wrap (Z.quot a b).

End GoInt.

(** [len(s)] of a slice, as a Go [int]. *)
Definition len {A : Type} (l : list A) : Z := Z.of_nat (length l).

(** The slice expression [s[lo:hi]] on a slice whose capacity equals its
    length; out-of-range bounds panic. *)
Definition slice {A : Type} (l : list A) (lo hi : Z) : outcome (list A) :=
  if (0 <=? lo) && (lo <=? hi) && (hi <=? len l)
  then Done (firstn (Z.to_nat (hi - lo)) (skipn (Z.to_nat lo) l))
  else Panic "slice bounds out of range".

(** [s[lo:]] *)
Definition slice_from {A : Type} (l : list A) (lo : Z) : outcome (list A) :=
  slice l lo (len l).

(** [fmt.Sprintf("%d", n)] *)
Definition itoa (n : Z) : string := NilZero.string_of_int (Z.to_int n).

(** The order in which a [range] loop visits the entries of a map.  The
    runtime may pick any order, and a different one at every loop. *)
Definition range_order : Type := forall V : Type, gmap string V -> list (string * V).

Definition range_order_ok (rho : range_order) : Prop :=
  forall (V : Type) (m : gmap string V), Permutation (rho V m) (map_to_list m).

Definition range_sorted : range_order := fun V m => map_to_list m.
Definition range_reversed : range_order := fun V m => rev (map_to_list m).

(** ** Strings and paths (Go standard library) *)

Fixpoint strings_Repeat (s : string) (n : nat) : string :=
  match n with
  | O => EmptyString
  | S n' => (s ++ strings_Repeat s n')%string
  end.

Fixpoint string_drop (n : nat) (s : string) : string :=
  match n, s with
  | O, _ => s
  | S n', String _ s' => string_drop n' s'
  | S _, EmptyString => EmptyString
  end.

(** [strings.Replace(s, old, new, -1)] for a non-empty [old]: the leftmost
    non-overlapping occurrences are rewritten, scanning left to right. *)
Fixpoint replace_go (fuel : nat) (old new s : string) : string :=
  match fuel with
  | O => s
  | S fuel' =>
    match s with
    | EmptyString => EmptyString
    | String c s' =>
      if String.prefix old s
      then (new ++ replace_go fuel' old new (string_drop (String.length old) s))%string
      else String c (replace_go fuel' old new s')
    end
  end.

(** With an empty [old], Go inserts [new] before every UTF-8 sequence and
    at the end; the byte-wise version below agrees with it on ASCII text. *)
Fixpoint replace_empty (new s : string) : string :=
  match s with
  | EmptyString => new
  | String c s' => (new ++ String c (replace_empty new s'))%string
  end.

Definition strings_Replace (s old new : string) : string :=
  if String.eqb old new then s
  else match old with
       | EmptyString => replace_empty new s
       | String _ _ => replace_go (String.length s) old new s
       end.

(** [strings.Contains(s, substr)] *)
Fixpoint strings_Contains (s substr : string) : bool :=
  String.prefix substr s ||
  match s with
  | EmptyString => false
  | String _ s' => strings_Contains s' substr
  end.

(** [strings.Split(s, sep)] for a non-empty [sep]; [cur] is the piece being
    read. *)
Fixpoint split_go (fuel : nat) (sep cur s : string) : list string :=
  match fuel with
  | O => [cur]
  | S fuel' =>
    match s with
    | EmptyString => [cur]
    | String c s' =>
      if String.prefix sep s
      then cur :: split_go fuel' sep EmptyString (string_drop (String.length sep) s)
      else split_go fuel' sep (cur ++ String c EmptyString)%string s'
    end
  end.

(** With an empty [sep] Go explodes [s] into UTF-8 sequences; on ASCII text
    these are the single bytes. *)
Definition strings_Split (s sep : string) : list string :=
  match sep with
  | EmptyString => List.map (fun c => String c EmptyString) (list_ascii_of_string s)
  | String _ _ => split_go (String.length s) sep EmptyString s
  end.

Definition strings_Join (elems : list string) (sep : string) : string :=
  String.concat sep elems.

(** The components of a path between ['/'] separators. *)
Fixpoint split_char (sep : ascii) (s : string) : list string :=
  match s with
  | EmptyString => [EmptyString]
  | String c s' =>
    let r := split_char sep s' in
    if Ascii.eqb c sep then EmptyString :: r
    else match r with
         | x :: xs => String c x :: xs
         | [] => [String c EmptyString]
         end
  end.

Definition is_rooted (path : string) : bool :=
  match path with
  | String c _ => Ascii.eqb c "/"
  | EmptyString => false
  end.

(** One step of [filepath.Clean]: [stack] holds the elements written so far,
    last one first. *)
Definition clean_step (rooted : bool) (stack : list string) (elem : string) : list string :=
  if String.eqb elem EmptyString then stack
  else if String.eqb elem "." then stack
  else if String.eqb elem ".." then
    match stack with
    | top :: below =>
      if String.eqb top ".." then elem :: stack else below
    | [] => if rooted then [] else [elem]
    end
  else elem :: stack.

Definition filepath_Clean (path : string) : string :=
  if String.eqb path EmptyString then "."%string
  else
    let rooted := is_rooted path in
    let stack := fold_left (clean_step rooted) (split_char "/" path) [] in
    let body := String.concat "/" (rev stack) in
    if rooted then ("/" ++ body)%string
    else if String.eqb body EmptyString then "."%string else body.

Fixpoint dropwhile_empty (elem : list string) : list string :=
  match elem with
  | e :: rest => if String.eqb e EmptyString then dropwhile_empty rest else elem
  | [] => []
  end.

Definition filepath_Join (elem : list string) : string :=
  match dropwhile_empty elem with
  | [] => EmptyString
  | rest => filepath_Clean (strings_Join rest "/")
  end.

(** [filepath.Base] *)
Definition filepath_Base (path : string) : string :=
  if String.eqb path EmptyString then "."%string
  else match List.filter (fun e => negb (String.eqb e EmptyString)) (rev (split_char "/" path)) with
       | e :: _ => e
       | [] => "/"%string
       end.

(** ** Kubernetes API objects (the fields the controller reads or writes) *)

Module EnvVar.
Record t : Type := mk { Name : string; Value : string }.
End EnvVar.

Module VolumeMount.
Record t : Type := mk { Name : string; MountPath : string; ReadOnly : bool; SubPath : string }.
Definition with_MountPath (vm : t) (p : string) : t :=
  mk (Name vm) p (ReadOnly vm) (SubPath vm).
End VolumeMount.

Module Container.
Record t : Type := mk {
  Name : string;
  Image : string;
  Command : list string;
  Args : list string;
  WorkingDir : string;
  Env : list EnvVar.t;
  VolumeMounts : list VolumeMount.t;
  ImagePullPolicy : string
}.
Definition zero : t := mk EmptyString EmptyString [] [] EmptyString [] [] EmptyString.
Definition with_Name (c : t) (n : string) : t :=
  mk n (Image c) (Command c) (Args c) (WorkingDir c) (Env c) (VolumeMounts c) (ImagePullPolicy c).
Definition with_Env (c : t) (e : list EnvVar.t) : t :=
  mk (Name c) (Image c) (Command c) (Args c) (WorkingDir c) e (VolumeMounts c) (ImagePullPolicy c).
Definition with_VolumeMounts (c : t) (vms : list VolumeMount.t) : t :=
  mk (Name c) (Image c) (Command c) (Args c) (WorkingDir c) (Env c) vms (ImagePullPolicy c).
End Container.

(** [corev1.VolumeSource]: the builder only ever creates [EmptyDir]
    sources; any other source of a user volume is carried along
    unchanged. *)
Module VolumeSource.
Record t : Type := mk { EmptyDir : bool; Other : option string }.
Definition zero : t := mk false None.
Definition emptyDir : t := mk true None.
End VolumeSource.

Module Volume.
Record t : Type := mk { Name : string; Source : VolumeSource.t }.
End Volume.

Module PodSpec.
Record t : Type := mk {
  InitContainers : list Container.t;
  Containers : list Container.t;
  Volumes : list Volume.t
}.
End PodSpec.

Module ObjectMeta.
Record t : Type := mk {
  Name : string;
  Labels : gmap string string;
  Annotations : gmap string string
}.
End ObjectMeta.

Module Pod.
Record t : Type := mk { Meta : ObjectMeta.t; Spec : PodSpec.t }.
End Pod.

(** ** Test job objects *)

Module TestAgentSpec.
Record t : Type := mk { InstalledPath : string }.
End TestAgentSpec.

(** A user container: [corev1.Container] embedded, plus the agent. *)
Module TestJobContainer.
Record t : Type := mk { Container : Container.t; Agent : option TestAgentSpec.t }.
Definition zero : t := mk Container.zero None.
Definition Name (c : t) : string := Container.Name (Container c).
End TestJobContainer.

(** A template volume: at most one of the five test sources is consulted,
    in the order of the builder's [switch]; otherwise the raw source. *)
Module TestJobVolume.
Record t : Type := mk {
  Name : string;
  Repo : option string;
  Artifact : option string;
  Token : option string;
  Log : bool;
  Report : bool;
  Source : VolumeSource.t
}.
Definition zero : t := mk EmptyString None None None false false VolumeSource.zero.
End TestJobVolume.

Module ArtifactSpec.
Record t : Type := mk { Name : string; ContainerName : string; ContainerPath : string }.
End ArtifactSpec.

Module TestJobPodSpec.
Record t : Type := mk {
  Pod : PodSpec.t;
  InitContainers : list TestJobContainer.t;
  Containers : list TestJobContainer.t;
  FinalizerContainer : TestJobContainer.t;
  Volumes : list TestJobVolume.t;
  Artifacts : list ArtifactSpec.t
}.
Definition with_Containers (s : t) (cs : list TestJobContainer.t) : t :=
  mk (Pod s) (InitContainers s) cs (FinalizerContainer s) (Volumes s) (Artifacts s).
End TestJobPodSpec.

Module TestJobTemplateSpec.
Record t : Type := mk { Meta : ObjectMeta.t; Spec : TestJobPodSpec.t }.
End TestJobTemplateSpec.

(** The [Step] interface, as implemented by a template. *)
Module Step.
Record t : Type := mk { GetName : string; GetTemplate : TestJobTemplateSpec.t }.
End Step.

Inductive RunMode : Type := RunModeKubernetes | RunModeLocal | RunModeDryRun.

(** ** Job executors *)

(** The [JobExecutor] interface.  What a backend answers is fixed per
    executor: an executor owns one container execution. *)
Module JobExecutor.
Record t : Type := mk {
  Output : string * option error;
  OutputDuration : Z;
  Stop : option error;
  CopyFrom : string -> string -> option error;
  CopyTo : string -> string -> option error;
  Container : Container.t;
  ContainerIdx : Z;
  Pod : Pod.t;
  PrepareCommand : list string -> string * option error
}.
End JobExecutor.

(** ** Sub-tasks (subtask.go) *)

Inductive TaskResultStatus : Type := TaskResultSuccess | TaskResultFailure.

Definition TaskResultStatus_String (s : TaskResultStatus) : string :=
  match s with
  | TaskResultSuccess => "success"
  | TaskResultFailure => "failure"
  end.

(** What a sub-task does to the world besides returning its result. *)
Inductive Event : Type :=
| EvInfo (msg : string)
| EvLog (msg : string)
| EvWarn (msg : string)
| EvStop (container : string)
| EvLogGroup
| EvOnFinish (subtask : string).

Module SubTask.
Record t : Type := mk {
  Name : string;
  KeyEnvName : string;
  OnFinish : bool;
  exec : JobExecutor.t;
  isMain : bool;
  copyArtifact : JobExecutor.t -> bool -> option error
}.
End SubTask.

Module SubTaskResult.
Record t : Type := mk {
  Status : TaskResultStatus;
  ElapsedTime : Z;
  Out : string;
  Err : option error;
  ArtifactErr : option error;
  Name : string;
  Container : Container.t;
  Pod : Pod.t;
  KeyEnvName : string;
  IsMain : bool
}.
Definition with_Status (r : t) (s : TaskResultStatus) : t :=
  mk s (ElapsedTime r) (Out r) (Err r) (ArtifactErr r) (Name r) (Container r) (Pod r)
     (KeyEnvName r) (IsMain r).
Definition with_ArtifactErr (r : t) (e : option error) : t :=
  mk (Status r) (ElapsedTime r) (Out r) (Err r) e (Name r) (Container r) (Pod r)
     (KeyEnvName r) (IsMain r).
End SubTaskResult.

Definition SubTaskResult_Command (r : SubTaskResult.t) : string :=
  let cmd := strings_Join (Container.Command (SubTaskResult.Container r)
                           ++ Container.Args (SubTaskResult.Container r)) " " in
  let envName := SubTaskResult.KeyEnvName r in
  if negb (String.eqb envName EmptyString)
  then (envName ++ "=" ++ SubTaskResult.Name r ++ "; " ++ cmd)%string
  else cmd.

(** The deferred function of [SubTask.Run]: it runs after the return value
    has been fixed. *)
Definition SubTask_Run_deferred (t : SubTask.t) : list Event :=
  let e := SubTask.exec t in
  (match JobExecutor.Stop e with
   | Some err => [EvStop (Container.Name (JobExecutor.Container e));
                  EvWarn ("failed to stop " ++ err)%string]
   | None => [EvStop (Container.Name (JobExecutor.Container e))]
   end)
  ++ [EvLogGroup]
  ++ (if SubTask.OnFinish t then [EvOnFinish (SubTask.Name t)] else []).

(** [SubTask.Run]: the result, the returned error and the events in the
    order they happen. *)
Definition SubTask_Run (t : SubTask.t) : (SubTaskResult.t * option error) * list Event :=
  let e := SubTask.exec t in
  let '(out, err) := JobExecutor.Output e in
  let result :=
    SubTaskResult.mk TaskResultSuccess (JobExecutor.OutputDuration e) out err None
      (SubTask.Name t) (JobExecutor.Container e) (JobExecutor.Pod e)
      (SubTask.KeyEnvName t) (SubTask.isMain t) in
  let log1 := [EvInfo (SubTaskResult_Command result); EvLog out] in
  let '(result, log2) :=
    match err with
    | None => (SubTaskResult.with_Status result TaskResultSuccess, [])
    | Some msg => (SubTaskResult.with_Status result TaskResultFailure, [EvLog msg])
    end in
  let log3 := [EvInfo "elapsed time"] in
  let '(result, log4) :=
    match SubTask.copyArtifact t e (SubTask.isMain t) with
    | Some msg =>
      (SubTaskResult.with_ArtifactErr
         (SubTaskResult.with_Status result TaskResultFailure) (Some msg),
       [EvWarn ("failed to copy artifact: " ++ msg)%string])
    | None => (result, [])
    end in
  ((result, None), log1 ++ log2 ++ log3 ++ log4 ++ SubTask_Run_deferred t).

(** The two errors a sub-task can meet, and the result it returns. *)
Definition command_error (t : SubTask.t) : option error :=
  snd (JobExecutor.Output (SubTask.exec t)).

Definition artifact_error (t : SubTask.t) : option error :=
  SubTask.copyArtifact t (SubTask.exec t) (SubTask.isMain t).

Definition SubTask_result (t : SubTask.t) : SubTaskResult.t := fst (fst (SubTask_Run t)).

Module SubTaskGroup.
Record t : Type := mk { tasks : list SubTask.t }.
End SubTaskGroup.

Definition NewSubTaskGroup (tasks : list SubTask.t) : SubTaskGroup.t :=
  SubTaskGroup.mk tasks.

Module SubTaskResultGroup.
Record t : Type := mk { results : list SubTaskResult.t }.
Definition add (g : t) (result : SubTaskResult.t) : t := mk (results g ++ [result]).
End SubTaskResultGroup.

(** The state shared by the goroutines of one [errgroup.Group]: the result
    group (appended to under its mutex), the first error any goroutine
    returned, and the events so far. *)
Module GroupState.
Record t : Type := mk {
  rg : SubTaskResultGroup.t;
  firstErr : option error;
  events : list Event
}.
End GroupState.

(** The function handed to [eg.Go] for one task. *)
Definition SubTaskGroup_goroutine (task : SubTask.t) (st : GroupState.t) : GroupState.t :=
  let '((result, err), evs) := SubTask_Run task in
  match err with
  | Some e =>
    GroupState.mk (GroupState.rg st)
      (match GroupState.firstErr st with Some e0 => Some e0 | None => Some e end)
      (GroupState.events st ++ evs)
  | None =>
    GroupState.mk (SubTaskResultGroup.add (GroupState.rg st) result)
      (GroupState.firstErr st) (GroupState.events st ++ evs)
  end.

(** Take the [i]-th element (modulo the length) out of a list. *)
Definition pick {A : Type} (i : nat) (l : list A) : option (A * list A) :=
  match l with
  | [] => None
  | _ :: _ =>
    let j := (i mod length l)%nat in
    match nth_error l j with
    | Some x => Some (x, firstn j l ++ skipn (S j) l)
    | None => None
    end
  end.

(** The goroutines complete in an order chosen by the Go scheduler:
    [sched n] selects which of the still running goroutines finishes when
    [n] of them are left. *)
Fixpoint errgroup_run (sched : nat -> nat) (n : nat) (running : list SubTask.t)
  (st : GroupState.t) : GroupState.t :=
  match n with
  | O => st
  | S n' =>
    match pick (sched n) running with
    | Some (task, rest) => errgroup_run sched n' rest (SubTaskGroup_goroutine task st)
    | None => st
    end
  end.

(** [SubTaskGroup.Run] *)
Definition SubTaskGroup_Run (sched : nat -> nat) (g : SubTaskGroup.t)
  : option SubTaskResultGroup.t * option error :=
  let st0 := GroupState.mk (SubTaskResultGroup.mk []) None [] in
  let st := errgroup_run sched (length (SubTaskGroup.tasks g)) (SubTaskGroup.tasks g) st0 in
  match GroupState.firstErr st with
  | Some err => (None, Some err)
  | None => (Some (GroupState.rg st), None)
  end.

(** ** Schedulers (the sub-task and task schedulers) *)

Module SubTaskScheduler.
Record t : Type := mk { maxConcurrentNumPerPod : Z }.
End SubTaskScheduler.

Definition NewSubTaskScheduler (maxConcurrentNumPerPod : Z) : SubTaskScheduler.t :=
  SubTaskScheduler.mk maxConcurrentNumPerPod.

Definition getConcurrentNum (s : SubTaskScheduler.t) (taskNum : Z) : Z :=
  let maxConcurrentNum := SubTaskScheduler.maxConcurrentNumPerPod s in
  if maxConcurrentNum <=? 0 then taskNum
  else if maxConcurrentNum >? taskNum then taskNum
  else maxConcurrentNum.

(** The [for i := 0; i < taskNum; i += concurrent] loop of
    [SubTaskScheduler.Schedule]. *)
Fixpoint SubTaskScheduler_loop (fuel : nat) (tasks : list SubTask.t) (taskNum concurrent : Z)
  (i : Z) (groups : list SubTaskGroup.t) : outcome (list SubTaskGroup.t) :=
  if i <? taskNum then
    match fuel with
    | O => OutOfFuel
    | S fuel' =>
      let start := i in
      let end_ := GoInt.add i concurrent in
      let end_ := if end_ >? taskNum then taskNum else end_ in
      match slice tasks start end_ with
      | Done g =>
        SubTaskScheduler_loop fuel' tasks taskNum concurrent (GoInt.add i concurrent)
          (groups ++ [NewSubTaskGroup g])
      | Panic msg => Panic msg
      | OutOfFuel => OutOfFuel
      end
    end
  else Done groups.

Definition SubTaskScheduler_Schedule (s : SubTaskScheduler.t) (tasks : list SubTask.t)
  : outcome (list SubTaskGroup.t) :=
  let concurrentNum := getConcurrentNum s (len tasks) in
  let taskNum := len tasks in
  let groups := [] in
  if concurrentNum >? 0 then
    let concurrent := concurrentNum in
    SubTaskScheduler_loop (length tasks) tasks taskNum concurrent 0 groups
  else
    Done (groups ++ [NewSubTaskGroup tasks]).

(** ** Task builder (task_builder.go) *)

Definition kubetestLabel : string := "kubetest.io/testjob".
Definition keysAnnotation : string := "kubetest.io/strategyKeys".

Definition logMountPath : string := filepath_Join ["/"; "tmp"; "log"].
Definition logMountFilePath : string := filepath_Join [logMountPath; "kubetest.log"].
Definition reportMountPath : string := filepath_Join ["/"; "tmp"; "report"].
Definition reportMountFilePath : string := filepath_Join [reportMountPath; "report"].

Module StrategyKey.
Record t : Type := mk {
  ConcurrentIdx : Z;
  Keys : list string;
  Env : string;
  SubTaskScheduler : SubTaskScheduler.t;
  OnFinishSubTask : bool
}.
End StrategyKey.

Module TaskContainer.
Record t : Type := mk {
  container : TestJobContainer.t;
  repoNameToArchiveMountPath : gmap string string;
  repoNameToOrgMountPath : gmap string string;
  tokenNameToMountPath : gmap string string;
  tokenNameToOrgMountPath : gmap string string;
  artifactNameToMountPath : gmap string string;
  artifactNameToOrgMountPath : gmap string string;
  logOrgMountPaths : list string;
  reportOrgMountPaths : list string;
  podSpecVolumeMap : gmap string Volume.t;
  preInitVolumeMountMap : gmap string VolumeMount.t
}.
End TaskContainer.

Definition TaskContainer_hasTestVolumeMount (c : TaskContainer.t) : bool :=
  (len (map_to_list (TaskContainer.preInitVolumeMountMap c)) >? 0).

(** [for _, volume := range volumes { volumeNameToVolume[volume.Name] = volume }] *)
Definition volumeNameToVolume (volumes : list TestJobVolume.t) : gmap string TestJobVolume.t :=
  fold_left (fun m volume => <[TestJobVolume.Name volume := volume]> m) volumes ∅.

(** A map read [m[k]]: the zero value when the key is absent. *)
Definition lookup_volume (m : gmap string TestJobVolume.t) (name : string) : TestJobVolume.t :=
  match m !! name with
  | Some v => v
  | None => TestJobVolume.zero
  end.

Definition emptyDirVolume (name : string) : Volume.t := Volume.mk name VolumeSource.emptyDir.

Definition preInitMount (name path : string) : VolumeMount.t :=
  VolumeMount.mk name path false EmptyString.

(** The body of the loop over [c.VolumeMounts] in [newTaskContainer].  The
    first component is the task container under construction; the second is
    the element [c.VolumeMounts[idx]] after the iteration. *)
Definition newTaskContainer_step (vols : gmap string TestJobVolume.t)
  (tc : TaskContainer.t) (vm : VolumeMount.t) : TaskContainer.t * VolumeMount.t :=
  let volume := lookup_volume vols (VolumeMount.Name vm) in
  let vname := TestJobVolume.Name volume in
  match TestJobVolume.Repo volume, TestJobVolume.Artifact volume, TestJobVolume.Token volume with
  | Some repoName, _, _ =>
    let archiveMountPath := filepath_Join ["/"; "tmp"; "repo-archive"; vname] in
    (TaskContainer.mk (TaskContainer.container tc)
       (<[repoName := archiveMountPath]> (TaskContainer.repoNameToArchiveMountPath tc))
       (<[repoName := VolumeMount.MountPath vm]> (TaskContainer.repoNameToOrgMountPath tc))
       (TaskContainer.tokenNameToMountPath tc) (TaskContainer.tokenNameToOrgMountPath tc)
       (TaskContainer.artifactNameToMountPath tc) (TaskContainer.artifactNameToOrgMountPath tc)
       (TaskContainer.logOrgMountPaths tc) (TaskContainer.reportOrgMountPaths tc)
       (<[vname := emptyDirVolume vname]> (TaskContainer.podSpecVolumeMap tc))
       (<[vname := preInitMount vname archiveMountPath]> (TaskContainer.preInitVolumeMountMap tc)),
     VolumeMount.with_MountPath vm archiveMountPath)
  | None, Some artifactName, _ =>
    let archiveMountPath := filepath_Join ["/"; "tmp"; "artifact-archive"; vname] in
    (TaskContainer.mk (TaskContainer.container tc)
       (TaskContainer.repoNameToArchiveMountPath tc) (TaskContainer.repoNameToOrgMountPath tc)
       (TaskContainer.tokenNameToMountPath tc) (TaskContainer.tokenNameToOrgMountPath tc)
       (<[artifactName := archiveMountPath]> (TaskContainer.artifactNameToMountPath tc))
       (<[artifactName := VolumeMount.MountPath vm]> (TaskContainer.artifactNameToOrgMountPath tc))
       (TaskContainer.logOrgMountPaths tc) (TaskContainer.reportOrgMountPaths tc)
       (<[vname := emptyDirVolume vname]> (TaskContainer.podSpecVolumeMap tc))
       (<[vname := preInitMount vname archiveMountPath]> (TaskContainer.preInitVolumeMountMap tc)),
     VolumeMount.with_MountPath vm archiveMountPath)
  | None, None, Some tokenName =>
    let tokenMountPath := filepath_Join ["/"; "tmp"; "token"; vname] in
    (TaskContainer.mk (TaskContainer.container tc)
       (TaskContainer.repoNameToArchiveMountPath tc) (TaskContainer.repoNameToOrgMountPath tc)
       (<[tokenName := tokenMountPath]> (TaskContainer.tokenNameToMountPath tc))
       (<[tokenName := VolumeMount.MountPath vm]> (TaskContainer.tokenNameToOrgMountPath tc))
       (TaskContainer.artifactNameToMountPath tc) (TaskContainer.artifactNameToOrgMountPath tc)
       (TaskContainer.logOrgMountPaths tc) (TaskContainer.reportOrgMountPaths tc)
       (<[vname := emptyDirVolume vname]> (TaskContainer.podSpecVolumeMap tc))
       (<[vname := preInitMount vname tokenMountPath]> (TaskContainer.preInitVolumeMountMap tc)),
     VolumeMount.with_MountPath vm tokenMountPath)
  | None, None, None =>
    if TestJobVolume.Log volume then
      (TaskContainer.mk (TaskContainer.container tc)
         (TaskContainer.repoNameToArchiveMountPath tc) (TaskContainer.repoNameToOrgMountPath tc)
         (TaskContainer.tokenNameToMountPath tc) (TaskContainer.tokenNameToOrgMountPath tc)
         (TaskContainer.artifactNameToMountPath tc) (TaskContainer.artifactNameToOrgMountPath tc)
         (TaskContainer.logOrgMountPaths tc ++ [VolumeMount.MountPath vm])
         (TaskContainer.reportOrgMountPaths tc)
         (<[vname := emptyDirVolume vname]> (TaskContainer.podSpecVolumeMap tc))
         (<[vname := preInitMount vname logMountPath]> (TaskContainer.preInitVolumeMountMap tc)),
       VolumeMount.with_MountPath vm logMountPath)
    else if TestJobVolume.Report volume then
      (TaskContainer.mk (TaskContainer.container tc)
         (TaskContainer.repoNameToArchiveMountPath tc) (TaskContainer.repoNameToOrgMountPath tc)
         (TaskContainer.tokenNameToMountPath tc) (TaskContainer.tokenNameToOrgMountPath tc)
         (TaskContainer.artifactNameToMountPath tc) (TaskContainer.artifactNameToOrgMountPath tc)
         (TaskContainer.logOrgMountPaths tc)
         (TaskContainer.reportOrgMountPaths tc ++ [VolumeMount.MountPath vm])
         (<[vname := emptyDirVolume vname]> (TaskContainer.podSpecVolumeMap tc))
         (<[vname := preInitMount vname reportMountPath]> (TaskContainer.preInitVolumeMountMap tc)),
       VolumeMount.with_MountPath vm reportMountPath)
    else
      (TaskContainer.mk (TaskContainer.container tc)
         (TaskContainer.repoNameToArchiveMountPath tc) (TaskContainer.repoNameToOrgMountPath tc)
         (TaskContainer.tokenNameToMountPath tc) (TaskContainer.tokenNameToOrgMountPath tc)
         (TaskContainer.artifactNameToMountPath tc) (TaskContainer.artifactNameToOrgMountPath tc)
         (TaskContainer.logOrgMountPaths tc) (TaskContainer.reportOrgMountPaths tc)
         (<[vname := Volume.mk vname (TestJobVolume.Source volume)]> (TaskContainer.podSpecVolumeMap tc))
         (TaskContainer.preInitVolumeMountMap tc),
       vm)
  end.

(** The loop itself: the maps accumulate, and the mounts visited so far are
    collected in their rewritten form. *)
Fixpoint newTaskContainer_loop (vols : gmap string TestJobVolume.t)
  (tc : TaskContainer.t) (done : list VolumeMount.t) (todo : list VolumeMount.t)
  : TaskContainer.t * list VolumeMount.t :=
  match todo with
  | [] => (tc, done)
  | vm :: rest =>
    let '(tc', vm') := newTaskContainer_step vols tc vm in
    newTaskContainer_loop vols tc' (done ++ [vm']) rest
  end.

(** [newTaskContainer].  [c] is passed by value but its [VolumeMounts] slice
    shares its backing array with the caller's container, so the assignments
    [c.VolumeMounts[idx].MountPath = ...] are visible both in the returned
    [container] field and in the pod spec the container came from. *)
Definition newTaskContainer (c : TestJobContainer.t) (volumes : list TestJobVolume.t)
  : TaskContainer.t :=
  let vols := volumeNameToVolume volumes in
  let tc0 := TaskContainer.mk c ∅ ∅ ∅ ∅ ∅ ∅ [] [] ∅ ∅ in
  let '(tc, vms) :=
    newTaskContainer_loop vols tc0 [] (Container.VolumeMounts (TestJobContainer.Container c)) in
  let c' := TestJobContainer.mk
              (Container.with_VolumeMounts (TestJobContainer.Container c) vms)
              (TestJobContainer.Agent c) in
  TaskContainer.mk c'
    (TaskContainer.repoNameToArchiveMountPath tc) (TaskContainer.repoNameToOrgMountPath tc)
    (TaskContainer.tokenNameToMountPath tc) (TaskContainer.tokenNameToOrgMountPath tc)
    (TaskContainer.artifactNameToMountPath tc) (TaskContainer.artifactNameToOrgMountPath tc)
    (TaskContainer.logOrgMountPaths tc) (TaskContainer.reportOrgMountPaths tc)
    (TaskContainer.podSpecVolumeMap tc) (TaskContainer.preInitVolumeMountMap tc).

Module TaskContainerGroup.
Record t : Type := mk { containerMap : gmap string TaskContainer.t }.
End TaskContainerGroup.

(** [newTaskContainerGroup]: the group, and the caller's containers as the
    calls to [newTaskContainer] leave them. *)
Definition newTaskContainerGroup (containers : list TestJobContainer.t)
  (volumes : list TestJobVolume.t) : TaskContainerGroup.t * list TestJobContainer.t :=
  (TaskContainerGroup.mk
     (fold_left (fun m c => <[TestJobContainer.Name c := newTaskContainer c volumes]> m)
        containers ∅),
   List.map (fun c => TaskContainer.container (newTaskContainer c volumes)) containers).

(** [for k, v := range src { dst[k] = v }]: the keys of one map are
    distinct, so the result does not depend on the order of the visit. *)
Definition assign_all {V : Type} (src dst : gmap string V) : gmap string V := src ∪ dst.

(** The containers of a group in the order a [range] loop meets them. *)
Definition group_range (rho : range_order) (g : TaskContainerGroup.t) : list TaskContainer.t :=
  List.map snd (rho _ (TaskContainerGroup.containerMap g)).

Definition TaskContainerGroup_hasTestVolumeMount (rho : range_order)
  (g : TaskContainerGroup.t) : bool :=
  existsb TaskContainer_hasTestVolumeMount (group_range rho g).

Definition TaskContainerGroup_preInitImage (rho : range_order)
  (g : TaskContainerGroup.t) : string :=
  match List.find TaskContainer_hasTestVolumeMount (group_range rho g) with
  | Some c => Container.Image (TestJobContainer.Container (TaskContainer.container c))
  | None => EmptyString
  end.

Definition TaskContainerGroup_preInitImagePullPolicy (rho : range_order)
  (g : TaskContainerGroup.t) : string :=
  match List.find TaskContainer_hasTestVolumeMount (group_range rho g) with
  | Some c => Container.ImagePullPolicy (TestJobContainer.Container (TaskContainer.container c))
  | None => EmptyString
  end.

Definition TaskContainerGroup_preInitAgentPath (rho : range_order)
  (g : TaskContainerGroup.t) : string :=
  match List.find
          (fun c => TaskContainer_hasTestVolumeMount c
                    && bool_decide (is_Some (TestJobContainer.Agent (TaskContainer.container c))))
          (group_range rho g) with
  | Some c =>
    match TestJobContainer.Agent (TaskContainer.container c) with
    | Some a => TestAgentSpec.InstalledPath a
    | None => EmptyString
    end
  | None => EmptyString
  end.

Definition TaskContainerGroup_containerNameToInstalledAgentPathMap (rho : range_order)
  (g : TaskContainerGroup.t) : gmap string string :=
  fold_left
    (fun ret c =>
       match TestJobContainer.Agent (TaskContainer.container c) with
       | Some a => <[TestJobContainer.Name (TaskContainer.container c)
                     := TestAgentSpec.InstalledPath a]> ret
       | None => ret
       end)
    (group_range rho g) ∅.

Definition TaskContainerGroup_podSpecVolumeMap (rho : range_order)
  (g : TaskContainerGroup.t) : gmap string Volume.t :=
  fold_left (fun m c => assign_all (TaskContainer.podSpecVolumeMap c) m) (group_range rho g) ∅.

Definition TaskContainerGroup_preInitVolumeMountMap (rho : range_order)
  (g : TaskContainerGroup.t) : gmap string VolumeMount.t :=
  fold_left (fun m c => assign_all (TaskContainer.preInitVolumeMountMap c) m)
    (group_range rho g) ∅.

(** [sort.Strings] *)
Fixpoint insert_sorted (x : string) (l : list string) : list string :=
  match l with
  | [] => [x]
  | y :: l' => if String.leb x y then x :: l else y :: insert_sorted x l'
  end.

Definition sort_Strings (l : list string) : list string := fold_right insert_sorted [] l.

(** The [xxxNames] methods collect the keys of one map of every container
    into a set and return them sorted. *)
Definition group_names (field : TaskContainer.t -> gmap string string)
  (g : TaskContainerGroup.t) : list string :=
  sort_Strings (elements
    (map_fold (fun _ c (acc : gset string) => dom (field c) ∪ acc) ∅
       (TaskContainerGroup.containerMap g))).

Definition TaskContainerGroup_repoNames := group_names TaskContainer.repoNameToArchiveMountPath.
Definition TaskContainerGroup_tokenNames := group_names TaskContainer.tokenNameToMountPath.
Definition TaskContainerGroup_artifactNames := group_names TaskContainer.artifactNameToMountPath.

(** The [xxxNameToMountPath] methods return the entry of the first
    container, in range order, that has one. *)
Definition group_path (field : TaskContainer.t -> gmap string string) (rho : range_order)
  (g : TaskContainerGroup.t) (name : string) : string :=
  match List.find (fun c => bool_decide (is_Some (field c !! name))) (group_range rho g) with
  | Some c => default EmptyString (field c !! name)
  | None => EmptyString
  end.

Definition TaskContainerGroup_repoNameToArchiveMountPath :=
  group_path TaskContainer.repoNameToArchiveMountPath.
Definition TaskContainerGroup_tokenNameToMountPath :=
  group_path TaskContainer.tokenNameToMountPath.
Definition TaskContainerGroup_artifactNameToMountPath :=
  group_path TaskContainer.artifactNameToMountPath.

Module TaskBuildContext.
Record t : Type := mk {
  initContainers : TaskContainerGroup.t;
  containers : TaskContainerGroup.t;
  finalizerContainers : TaskContainerGroup.t;
  spec : TestJobPodSpec.t
}.
End TaskBuildContext.

Definition TaskBuildContext_taskContainer (c : TaskBuildContext.t) (name : string)
  (isInitContainer : bool) : option TaskContainer.t :=
  if isInitContainer
  then TaskContainerGroup.containerMap (TaskBuildContext.initContainers c) !! name
  else match TaskContainerGroup.containerMap (TaskBuildContext.finalizerContainers c) !! name with
       | Some task => Some task
       | None => TaskContainerGroup.containerMap (TaskBuildContext.containers c) !! name
       end.

Definition TaskBuildContext_needsToPreInit (rho : range_order) (c : TaskBuildContext.t) : bool :=
  TaskContainerGroup_hasTestVolumeMount rho (TaskBuildContext.initContainers c)
  || TaskContainerGroup_hasTestVolumeMount rho (TaskBuildContext.containers c)
  || TaskContainerGroup_hasTestVolumeMount rho (TaskBuildContext.finalizerContainers c).

Definition TaskBuildContext_preInitImage (rho : range_order) (c : TaskBuildContext.t) : string :=
  let image := TaskContainerGroup_preInitImage rho (TaskBuildContext.initContainers c) in
  if negb (String.eqb image EmptyString) then image
  else TaskContainerGroup_preInitImage rho (TaskBuildContext.containers c).

Definition TaskBuildContext_preInitImagePullPolicy (rho : range_order)
  (c : TaskBuildContext.t) : string :=
  let policy := TaskContainerGroup_preInitImagePullPolicy rho (TaskBuildContext.initContainers c) in
  if negb (String.eqb policy EmptyString) then policy
  else TaskContainerGroup_preInitImagePullPolicy rho (TaskBuildContext.containers c).

Definition TaskBuildContext_preInitAgentPath (rho : range_order) (c : TaskBuildContext.t) : string :=
  let path := TaskContainerGroup_preInitAgentPath rho (TaskBuildContext.initContainers c) in
  if negb (String.eqb path EmptyString) then path
  else TaskContainerGroup_preInitAgentPath rho (TaskBuildContext.containers c).

Definition TaskBuildContext_containerNameToInstalledAgentPathMap (rho : range_order)
  (c : TaskBuildContext.t) : gmap string string :=
  let ret := TaskContainerGroup_containerNameToInstalledAgentPathMap rho
               (TaskBuildContext.initContainers c) in
  let ret := assign_all (TaskContainerGroup_containerNameToInstalledAgentPathMap rho
                           (TaskBuildContext.containers c)) ret in
  let ret := assign_all (TaskContainerGroup_containerNameToInstalledAgentPathMap rho
                           (TaskBuildContext.finalizerContainers c)) ret in
  let path := TaskBuildContext_preInitAgentPath rho c in
  if negb (String.eqb path EmptyString) then <["preinit" := path]> ret else ret.

Definition TaskBuildContext_preInitVolumeMounts (rho : range_order) (c : TaskBuildContext.t)
  : list VolumeMount.t :=
  let m := assign_all (TaskContainerGroup_preInitVolumeMountMap rho
                         (TaskBuildContext.initContainers c)) ∅ in
  let m := assign_all (TaskContainerGroup_preInitVolumeMountMap rho
                         (TaskBuildContext.containers c)) m in
  let m := assign_all (TaskContainerGroup_preInitVolumeMountMap rho
                         (TaskBuildContext.finalizerContainers c)) m in
  List.map snd (rho _ m).

(** [TaskBuildContext.podSpec]: the volumes of the init and main groups are
    appended to the template's own; the finalizer group is not consulted. *)
Definition TaskBuildContext_podSpec (rho : range_order) (c : TaskBuildContext.t) : PodSpec.t :=
  let spec := TaskBuildContext.spec c in
  let podSpec := TestJobPodSpec.Pod spec in
  let initContainers := List.map TestJobContainer.Container (TestJobPodSpec.InitContainers spec) in
  let containers := List.map TestJobContainer.Container (TestJobPodSpec.Containers spec) in
  let m := assign_all (TaskContainerGroup_podSpecVolumeMap rho
                         (TaskBuildContext.initContainers c)) ∅ in
  let m := assign_all (TaskContainerGroup_podSpecVolumeMap rho
                         (TaskBuildContext.containers c)) m in
  PodSpec.mk initContainers containers (PodSpec.Volumes podSpec ++ List.map snd (rho _ m)).

Definition group_union_names (names : TaskContainerGroup.t -> list string)
  (c : TaskBuildContext.t) : list string :=
  sort_Strings (elements (list_to_set (C := gset string)
    (names (TaskBuildContext.initContainers c)
     ++ names (TaskBuildContext.containers c)
     ++ names (TaskBuildContext.finalizerContainers c)))).

Definition TaskBuildContext_repoNames := group_union_names TaskContainerGroup_repoNames.
Definition TaskBuildContext_tokenNames := group_union_names TaskContainerGroup_tokenNames.
Definition TaskBuildContext_artifactNames := group_union_names TaskContainerGroup_artifactNames.

Definition context_path (path : range_order -> TaskContainerGroup.t -> string -> string)
  (rho : range_order) (g : TaskBuildContext.t) (name : string) : string :=
  let p := path rho (TaskBuildContext.initContainers g) name in
  if negb (String.eqb p EmptyString) then p
  else
    let p := path rho (TaskBuildContext.containers g) name in
    if negb (String.eqb p EmptyString) then p
    else path rho (TaskBuildContext.finalizerContainers g) name.

Definition TaskBuildContext_repoNameToArchiveMountPath :=
  context_path TaskContainerGroup_repoNameToArchiveMountPath.
Definition TaskBuildContext_tokenNameToMountPath :=
  context_path TaskContainerGroup_tokenNameToMountPath.
Definition TaskBuildContext_artifactNameToMountPath :=
  context_path TaskContainerGroup_artifactNameToMountPath.

Definition TaskBuildContext_isUsedLogVolume (c : TaskBuildContext.t) : bool :=
  let used (g : TaskContainerGroup.t) :=
    existsb (fun c => negb (len (TaskContainer.logOrgMountPaths c) =? 0))
      (group_range range_sorted g) in
  used (TaskBuildContext.initContainers c) || used (TaskBuildContext.containers c)
  || used (TaskBuildContext.finalizerContainers c).

Definition TaskBuildContext_isUsedReportVolume (c : TaskBuildContext.t) : bool :=
  let used (g : TaskContainerGroup.t) :=
    existsb (fun c => negb (len (TaskContainer.reportOrgMountPaths c) =? 0))
      (group_range range_sorted g) in
  used (TaskBuildContext.initContainers c) || used (TaskBuildContext.containers c)
  || used (TaskBuildContext.finalizerContainers c).

(** [filepath.Dir]: the path up to its last separator, cleaned. *)
Definition filepath_Dir (path : string) : string :=
  match removelast (split_char "/" path) with
  | [] => filepath_Clean EmptyString
  | pre => filepath_Clean (String.concat "/" pre ++ "/")%string
  end.

(** The resource manager, seen from the builder: name lookups that fail
    on names that were never registered. *)
Module ResourceManager.
Record t : Type := mk {
  RepositoryPathByName : string -> result string;
  TokenPathByName : string -> result string;
  ArtifactPathByName : string -> result string;
  ArtifactPathByNameAndContainerName : string -> string -> result string;
  LogPath : result string;
  ReportPath : result string
}.
End ResourceManager.

Module TaskBuilder.
Record t : Type := mk {
  mgr : ResourceManager.t;
  namespace : string;
  runMode : RunMode
}.
End TaskBuilder.

Definition RunMode_eqb (a b : RunMode) : bool :=
  match a, b with
  | RunModeKubernetes, RunModeKubernetes => true
  | RunModeLocal, RunModeLocal => true
  | RunModeDryRun, RunModeDryRun => true
  | _, _ => false
  end.

(** One clone of the main container for the key at position [idx]. *)
Definition strategyKeyContainer (mainContainer : TestJobContainer.t) (strategyKey : StrategyKey.t)
  (idx : Z) (key : string) : TestJobContainer.t :=
  let c := TestJobContainer.Container mainContainer in
  let c := Container.with_Name c
             (Container.Name c ++ (itoa (StrategyKey.ConcurrentIdx strategyKey) ++ "-" ++ itoa idx))%string in
  let c := Container.with_Env c (Container.Env c ++ [EnvVar.mk (StrategyKey.Env strategyKey) key]) in
  TestJobContainer.mk c (TestJobContainer.Agent mainContainer).

(** [for idx, key := range strategyKey.Keys] *)
Fixpoint strategyKeyContainers (mainContainer : TestJobContainer.t) (strategyKey : StrategyKey.t)
  (idx : Z) (keys : list string) (containers : list TestJobContainer.t)
  : list TestJobContainer.t :=
  match keys with
  | [] => containers
  | key :: rest =>
    strategyKeyContainers mainContainer strategyKey (GoInt.add idx 1) rest
      (containers ++ [strategyKeyContainer mainContainer strategyKey idx key])
  end.

Definition addContainersByStrategyKey (podSpec : TestJobPodSpec.t)
  (mainContainer : TestJobContainer.t) (strategyKey : option StrategyKey.t) : TestJobPodSpec.t :=
  match strategyKey with
  | None => podSpec
  | Some strategyKey =>
    let containers :=
      strategyKeyContainers mainContainer strategyKey 0 (StrategyKey.Keys strategyKey) [] in
    let sideCarContainers :=
      fold_left
        (fun acc container =>
           if String.eqb (TestJobContainer.Name container) (TestJobContainer.Name mainContainer)
           then acc
           else acc ++ [container])
        (TestJobPodSpec.Containers podSpec) [] in
    TestJobPodSpec.with_Containers podSpec (sideCarContainers ++ containers)
  end.

Definition preInitContainer (rho_img rho_mounts rho_policy : range_order)
  (buildCtx : TaskBuildContext.t) : TestJobContainer.t :=
  TestJobContainer.mk
    (Container.mk "preinit"
       (TaskBuildContext_preInitImage rho_img buildCtx)
       ["echo"] ["-n"; "preinit"] EmptyString []
       (TaskBuildContext_preInitVolumeMounts rho_mounts buildCtx)
       (TaskBuildContext_preInitImagePullPolicy rho_policy buildCtx))
    None.

Module copyPath.
Record t : Type := mk { src : string; dst : string }.
End copyPath.

(** The [getCopyPathForXxx] loops: every name is resolved by the manager;
    the first failure aborts. *)
Fixpoint copy_paths_for (lookup : string -> result string) (dst_of : string -> string -> string)
  (names : list string) (acc : list copyPath.t) : result (list copyPath.t) :=
  match names with
  | [] => Ok acc
  | name :: rest =>
    match lookup name with
    | Err e => Err e
    | Ok src => copy_paths_for lookup dst_of rest (acc ++ [copyPath.mk src (dst_of name src)])
    end
  end.

Definition getCopyPathForRepository (b : TaskBuilder.t) (rho : range_order)
  (buildCtx : TaskBuildContext.t) (acc : list copyPath.t) : result (list copyPath.t) :=
  copy_paths_for (ResourceManager.RepositoryPathByName (TaskBuilder.mgr b))
    (fun name src =>
       filepath_Join [TaskBuildContext_repoNameToArchiveMountPath rho buildCtx name;
                      filepath_Base src])
    (TaskBuildContext_repoNames buildCtx) acc.

Definition getCopyPathForToken (b : TaskBuilder.t) (rho : range_order)
  (buildCtx : TaskBuildContext.t) (acc : list copyPath.t) : result (list copyPath.t) :=
  copy_paths_for (ResourceManager.TokenPathByName (TaskBuilder.mgr b))
    (fun name src =>
       filepath_Join [TaskBuildContext_tokenNameToMountPath rho buildCtx name;
                      filepath_Base src])
    (TaskBuildContext_tokenNames buildCtx) acc.

Definition getCopyPathForArtifact (b : TaskBuilder.t) (rho : range_order)
  (buildCtx : TaskBuildContext.t) (acc : list copyPath.t) : result (list copyPath.t) :=
  if RunMode_eqb (TaskBuilder.runMode b) RunModeDryRun then Ok acc
  else copy_paths_for (ResourceManager.ArtifactPathByName (TaskBuilder.mgr b))
         (fun name _ => TaskBuildContext_artifactNameToMountPath rho buildCtx name)
         (TaskBuildContext_artifactNames buildCtx) acc.

Definition getCopyPathForLog (b : TaskBuilder.t) (buildCtx : TaskBuildContext.t)
  (acc : list copyPath.t) : result (list copyPath.t) :=
  if RunMode_eqb (TaskBuilder.runMode b) RunModeDryRun then Ok acc
  else if TaskBuildContext_isUsedLogVolume buildCtx then
    match ResourceManager.LogPath (TaskBuilder.mgr b) with
    | Err e => Err e
    | Ok logPath => Ok (acc ++ [copyPath.mk logPath logMountFilePath])
    end
  else Ok acc.

Definition getCopyPathForReport (b : TaskBuilder.t) (buildCtx : TaskBuildContext.t)
  (acc : list copyPath.t) : result (list copyPath.t) :=
  if RunMode_eqb (TaskBuilder.runMode b) RunModeDryRun then Ok acc
  else if TaskBuildContext_isUsedReportVolume buildCtx then
    match ResourceManager.ReportPath (TaskBuilder.mgr b) with
    | Err e => Err e
    | Ok reportPath =>
      Ok (acc ++ [copyPath.mk reportPath (filepath_Join [reportMountPath; filepath_Base reportPath])])
    end
  else Ok acc.

(** [preInitCallback]: the copies the callback will perform, in order. *)
Definition preInitCallback (b : TaskBuilder.t) (rho : range_order)
  (buildCtx : TaskBuildContext.t) : result (list copyPath.t) :=
  match getCopyPathForRepository b rho buildCtx [] with
  | Err e => Err e
  | Ok copyPaths =>
  match getCopyPathForToken b rho buildCtx copyPaths with
  | Err e => Err e
  | Ok copyPaths =>
  match getCopyPathForArtifact b rho buildCtx copyPaths with
  | Err e => Err e
  | Ok copyPaths =>
  match getCopyPathForLog b buildCtx copyPaths with
  | Err e => Err e
  | Ok copyPaths => getCopyPathForReport b buildCtx copyPaths
  end end end end.

(** The command [mountRepository] hands to [PrepareCommand] for one
    repository. *)
Definition mountRepository_cmd (orgMountPath archiveMountPath : string) : list string :=
  ["rm"; "-rf"; orgMountPath;
   "&&";
   "mkdir"; "-p"; orgMountPath;
   "&&";
   "tar"; "-zxvf"; filepath_Join [archiveMountPath; "repo.tar.gz"]; "-C"; orgMountPath].

(** The loop of [mountRepository] over [repoNameToArchiveMountPath]:
    the commands handed to [PrepareCommand] so far, and the error that
    ended the loop, if any. *)
Fixpoint mountRepository_loop (taskContainer : TaskContainer.t) (exec : JobExecutor.t)
  (entries : list (string * string)) (issued : list (list string))
  : list (list string) * option error :=
  match entries with
  | [] => (issued, None)
  | (repoName, archiveMountPath) :: rest =>
    match TaskContainer.repoNameToOrgMountPath taskContainer !! repoName with
    | None => (issued, Some ("kubetest: failed to find org mount path by " ++ repoName)%string)
    | Some orgMountPath =>
      let cmd := mountRepository_cmd orgMountPath archiveMountPath in
      match JobExecutor.PrepareCommand exec cmd with
      | (out, Some err) =>
        (issued ++ [cmd],
         Some ("kubetest: failed to mount repository. " ++ out ++ ": " ++ err)%string)
      | (_, None) => mountRepository_loop taskContainer exec rest (issued ++ [cmd])
      end
    end
  end.

Definition mountRepository (rho : range_order) (taskContainer : TaskContainer.t)
  (exec : JobExecutor.t) : list (list string) * option error :=
  mountRepository_loop taskContainer exec
    (rho _ (TaskContainer.repoNameToArchiveMountPath taskContainer)) [].

(** A job on one of the three backends.  [preInit] and [mountContext] are
    what the backend keeps of the builder's [PreInit] and [Mount] calls:
    the cluster job registers both, the local job keeps the pre-init
    container and ignores mount callbacks, the dry-run job ignores both. *)
Module Job.
Record t : Type := mk {
  runMode : RunMode;
  meta : ObjectMeta.t;
  template : Pod.t;
  agentPaths : gmap string string;
  agent : option TestAgentSpec.t;
  finalizer : option Container.t;
  preInit : option (TestJobContainer.t * list copyPath.t);
  mountContext : option TaskBuildContext.t
}.
Definition PreInit (j : t) (c : TestJobContainer.t) (cb : list copyPath.t) : t :=
  match runMode j with
  | RunModeDryRun => j
  | RunModeKubernetes | RunModeLocal =>
    mk (runMode j) (meta j) (template j) (agentPaths j) (agent j) (finalizer j)
       (Some (c, cb)) (mountContext j)
  end.
Definition Mount (j : t) (ctx : TaskBuildContext.t) : t :=
  match runMode j with
  | RunModeKubernetes =>
    mk (runMode j) (meta j) (template j) (agentPaths j) (agent j) (finalizer j)
       (preInit j) (Some ctx)
  | RunModeLocal | RunModeDryRun => j
  end.
End Job.

(** The start of the callback registered with [job.Mount]: the task
    container is looked up by the executor's container name and its
    repositories are mounted; the token, artifact, log and report mounts
    follow when this step returns no error. *)
Definition mountCallback_repository (rho : range_order) (buildCtx : TaskBuildContext.t)
  (exec : JobExecutor.t) (isInitContainer : bool)
  : outcome (list (list string) * option error) :=
  let containerName := Container.Name (JobExecutor.Container exec) in
  match TaskBuildContext_taskContainer buildCtx containerName isInitContainer with
  | None => Panic "invalid memory address or nil pointer dereference"
  | Some taskContainer => Done (mountRepository rho taskContainer exec)
  end.

Module Task.
Record t : Type := mk {
  Name : string;
  OnFinishSubTask : bool;
  job : Job.t;
  strategyKey : option StrategyKey.t;
  mainContainerName : string
}.
End Task.

(** [NewTaskGroup] *)
Module TaskGroup.
Record t : Type := mk { tasks : list Task.t }.
End TaskGroup.

Module TaskResult.
Record t : Type := mk { results : list SubTaskResult.t }.
End TaskResult.

(** Modelled from the spec: [TaskResult.MainTaskResults] is declared outside
    the sources at hand; a task result holds the ordered sub-task results,
    each with its is-main flag, and the main results are those flagged. *)
Definition MainTaskResults (r : TaskResult.t) : list SubTaskResult.t :=
  List.filter SubTaskResult.IsMain (TaskResult.results r).

Module StrategyDynamicKeySource.
Record t : Type := mk { Spec : Step.t; Filter : string; Delim : string }.
End StrategyDynamicKeySource.

Module StrategyKeySource.
Record t : Type := mk { Static : list string; Dynamic : option StrategyDynamicKeySource.t }.
End StrategyKeySource.

Module Strategy.
Record t : Type := mk {
  KeyEnv : string;
  KeySource : StrategyKeySource.t;
  MaxContainersPerPod : Z;
  MaxConcurrentNumPerPod : Z
}.
End Strategy.

Module TaskScheduler.
Record t : Type := mk { strategy : option Strategy.t; builder : TaskBuilder.t }.
End TaskScheduler.

(** The first half of [buildJob]: the template's pod spec is copied, the
    main container is expanded over the strategy keys and the three
    container groups are built; building them rewrites the volume mounts
    held by the spec. *)
Definition buildJob_context (mainContainer : TestJobContainer.t)
  (tmpl : TestJobTemplateSpec.t) (strategyKey : option StrategyKey.t) : TaskBuildContext.t :=
  let spec := TestJobTemplateSpec.Spec tmpl in
  let spec := addContainersByStrategyKey spec mainContainer strategyKey in
  let '(initG, inits) :=
    newTaskContainerGroup (TestJobPodSpec.InitContainers spec) (TestJobPodSpec.Volumes spec) in
  let '(mainG, mains) :=
    newTaskContainerGroup (TestJobPodSpec.Containers spec) (TestJobPodSpec.Volumes spec) in
  let '(finG, fins) :=
    newTaskContainerGroup [TestJobPodSpec.FinalizerContainer spec] (TestJobPodSpec.Volumes spec) in
  let spec :=
    TestJobPodSpec.mk (TestJobPodSpec.Pod spec) inits mains
      (hd (TestJobPodSpec.FinalizerContainer spec) fins)
      (TestJobPodSpec.Volumes spec) (TestJobPodSpec.Artifacts spec) in
  TaskBuildContext.mk initG mainG finG spec.

Section Building.

(** What lies outside the builder: the selection of the main container of
    a template, JSON encoding, and the creation of a job on the chosen
    backend (cluster client or temporary directory), which may fail. *)
Variable getMainContainerFromTmpl : TestJobTemplateSpec.t -> result TestJobContainer.t.
Variable json_Marshal : list string -> result string.
Variable backend_error : RunMode -> option error.

(** The order of every [range] over a map during one build, by loop. *)
Variable rhos : nat -> range_order.

Definition JobBuilder_BuildWithJob (runMode : RunMode) (finalizer : option Container.t)
  (meta : ObjectMeta.t) (template : Pod.t) (agentPaths : gmap string string)
  (agent : option TestAgentSpec.t) : result Job.t :=
  match backend_error runMode with
  | Some e => Err e
  | None => Ok (Job.mk runMode meta template agentPaths agent finalizer None None)
  end.

Definition TaskBuilder_buildJob (b : TaskBuilder.t) (mainContainer : TestJobContainer.t)
  (tmpl : TestJobTemplateSpec.t) (strategyKey : option StrategyKey.t) : result Job.t :=
  let buildCtx := buildJob_context mainContainer tmpl strategyKey in
  let spec := TaskBuildContext.spec buildCtx in
  let podSpec := TaskBuildContext_podSpec (rhos 0) buildCtx in
  let podMeta := TestJobTemplateSpec.Meta tmpl in
  let labels := assign_all (ObjectMeta.Labels podMeta) ∅ in
  let labels := <[kubetestLabel := "true"%string]> labels in
  let annotations := assign_all (ObjectMeta.Annotations podMeta) ∅ in
  let annotations_or_err :=
    match strategyKey with
    | Some sk =>
      match json_Marshal (StrategyKey.Keys sk) with
      | Err e => Err ("kubetest: failed to encode strategy keys: " ++ e)%string
      | Ok keys => Ok (<[keysAnnotation := keys]> annotations)
      end
    | None => Ok annotations
    end in
  match annotations_or_err with
  | Err e => Err e
  | Ok annotations =>
    let podMeta := ObjectMeta.mk (ObjectMeta.Name podMeta) labels annotations in
    let finalizer :=
      if negb (String.eqb (TestJobContainer.Name (TestJobPodSpec.FinalizerContainer spec)) EmptyString)
      then Some (TestJobContainer.Container (TestJobPodSpec.FinalizerContainer spec))
      else None in
    match JobBuilder_BuildWithJob (TaskBuilder.runMode b) finalizer
            (TestJobTemplateSpec.Meta tmpl) (Pod.mk podMeta podSpec)
            (TaskBuildContext_containerNameToInstalledAgentPathMap (rhos 1) buildCtx)
            (TestJobContainer.Agent mainContainer) with
    | Err e => Err e
    | Ok job =>
      let job_or_err :=
        if TaskBuildContext_needsToPreInit (rhos 2) buildCtx then
          match preInitCallback b (rhos 3) buildCtx with
          | Err e => Err e
          | Ok callback =>
            Ok (Job.PreInit job (preInitContainer (rhos 4) (rhos 5) (rhos 6) buildCtx) callback)
          end
        else Ok job in
      match job_or_err with
      | Err e => Err e
      | Ok job => Ok (Job.Mount job buildCtx)
      end
    end
  end.

Definition TaskBuilder_BuildWithKey (b : TaskBuilder.t) (step : Step.t)
  (strategyKey : option StrategyKey.t) : result Task.t :=
  let tmpl := Step.GetTemplate step in
  match getMainContainerFromTmpl tmpl with
  | Err e => Err e
  | Ok mainContainer =>
    if String.eqb (TestJobContainer.Name mainContainer) EmptyString
    then Err "kubetest: main container name must be specified"
    else
      match TaskBuilder_buildJob b mainContainer tmpl strategyKey with
      | Err e => Err e
      | Ok job =>
        let onFinishSubTask :=
          match strategyKey with
          | Some sk => StrategyKey.OnFinishSubTask sk
          | None => false
          end in
        Ok (Task.mk (Step.GetName step) onFinishSubTask job strategyKey
              (TestJobContainer.Name mainContainer))
      end
  end.

Definition TaskBuilder_Build (b : TaskBuilder.t) (step : Step.t) : result Task.t :=
  TaskBuilder_BuildWithKey b step None.

End Building.

(** ** Task scheduler *)

Section Scheduling.

Variable getMainContainerFromTmpl : TestJobTemplateSpec.t -> result TestJobContainer.t.
Variable json_Marshal : list string -> result string.
Variable backend_error : RunMode -> option error.

(** Range orders of the build of the task with a given concurrent index
    (the key-generating task is built under index [-1]). *)
Variable rhos : Z -> nat -> range_order.

(** Running a task on its backend ([Task.Run]). *)
Variable Task_Run : Task.t -> result TaskResult.t.

(** Package [regexp] and [strings.TrimSpace]. *)
Variable Regexp : Type.
Variable regexp_Compile : string -> result Regexp.
Variable Regexp_MatchString : Regexp -> string -> bool.
Variable strings_TrimSpace : string -> string.

Definition BuildWithKey (s : TaskScheduler.t) (idx : Z) (step : Step.t)
  (strategyKey : option StrategyKey.t) : result Task.t :=
  TaskBuilder_BuildWithKey getMainContainerFromTmpl json_Marshal backend_error (rhos idx)
    (TaskScheduler.builder s) step strategyKey.

Definition TaskScheduler_sourceFilter (filter : string) : result (option Regexp) :=
  if String.eqb filter EmptyString then Ok None
  else match regexp_Compile filter with
       | Ok r => Ok (Some r)
       | Err e => Err e
       end.

Definition TaskScheduler_sourceDelim (delim : string) : string :=
  let defaultDelim := String "010"%char EmptyString in
  if String.eqb delim EmptyString then defaultDelim else delim.

(** The body of the loop over the pieces of the output in [dynamicKeys]. *)
Definition dynamicKeys_step (filter : option Regexp) (keys : list string) (key : string)
  : list string :=
  if String.eqb (strings_TrimSpace key) EmptyString then keys
  else
    match filter with
    | Some f => if negb (Regexp_MatchString f key) then keys else keys ++ [key]
    | None => keys ++ [key]
    end.

Definition TaskScheduler_dynamicKeys (s : TaskScheduler.t) (source : StrategyDynamicKeySource.t)
  : result (list string) :=
  match BuildWithKey s (-1) (StrategyDynamicKeySource.Spec source) None with
  | Err e => Err e
  | Ok keyTask =>
    match Task_Run keyTask with
    | Err e => Err e
    | Ok result =>
      let mainResults := MainTaskResults result in
      if len mainResults =? 0
      then Err "kubetest: failed to find main task results for dynamic keys"
      else if len mainResults >? 1
      then Err "kubetest: found multiple main task results"
      else
        match mainResults with
        | [] => Err "kubetest: failed to find main task results for dynamic keys"
        | r0 :: _ =>
          let out := SubTaskResult.Out r0 in
          match TaskScheduler_sourceFilter (StrategyDynamicKeySource.Filter source) with
          | Err e => Err e
          | Ok filter =>
            Ok (fold_left (dynamicKeys_step filter)
                  (strings_Split out
                     (TaskScheduler_sourceDelim (StrategyDynamicKeySource.Delim source)))
                  [])
          end
        end
    end
  end.

Definition TaskScheduler_getScheduleKeys (s : TaskScheduler.t) (source : StrategyKeySource.t)
  : result (list string) :=
  if len (StrategyKeySource.Static source) >? 0 then Ok (StrategyKeySource.Static source)
  else match StrategyKeySource.Dynamic source with
       | Some dynamic => TaskScheduler_dynamicKeys s dynamic
       | None => Err "kubetest: invalid schedule key source"
       end.

(** The [for i := 0; i <= concurrent; i++] loop of [Schedule]. *)
Fixpoint TaskScheduler_loop (fuel : nat) (s : TaskScheduler.t) (tmpl : Step.t) (env : string)
  (subTaskScheduler : SubTaskScheduler.t) (keys : list string) (maxContainers concurrent : Z)
  (i sum : Z) (tasks : list Task.t) : outcome (result (list Task.t)) :=
  if i <=? concurrent then
    match fuel with
    | O => OutOfFuel
    | S fuel' =>
      let taskKeys :=
        if i =? concurrent then slice_from keys sum
        else slice keys sum (GoInt.add sum maxContainers) in
      match taskKeys with
      | Done taskKeys =>
        match BuildWithKey s i tmpl
                (Some (StrategyKey.mk i taskKeys env subTaskScheduler true)) with
        | Err e => Done (Err e)
        | Ok task =>
          TaskScheduler_loop fuel' s tmpl env subTaskScheduler keys maxContainers concurrent
            (GoInt.add i 1) (GoInt.add sum maxContainers) (tasks ++ [task])
        end
      | Panic msg => Panic msg
      | OutOfFuel => OutOfFuel
      end
    end
  else Done (Ok tasks).

Definition TaskScheduler_Schedule (s : TaskScheduler.t) (tmpl : Step.t)
  : outcome (result TaskGroup.t) :=
  match TaskScheduler.strategy s with
  | None =>
    match BuildWithKey s 0 tmpl None with
    | Err e => Done (Err e)
    | Ok task => Done (Ok (TaskGroup.mk [task]))
    end
  | Some strategy =>
    match TaskScheduler_getScheduleKeys s (Strategy.KeySource strategy) with
    | Err e => Done (Err e)
    | Ok keys =>
      let subTaskScheduler := NewSubTaskScheduler (Strategy.MaxConcurrentNumPerPod strategy) in
      let maxContainers := Strategy.MaxContainersPerPod strategy in
      if len keys <=? maxContainers then
        match BuildWithKey s 0 tmpl
                (Some (StrategyKey.mk 0 keys (Strategy.KeyEnv strategy) subTaskScheduler true)) with
        | Err e => Done (Err e)
        | Ok task => Done (Ok (TaskGroup.mk [task]))
        end
      else if maxContainers =? 0 then Panic "integer divide by zero"
      else
        let concurrent := GoInt.quo (len keys) maxContainers in
        match TaskScheduler_loop (Z.to_nat (concurrent + 1)) s tmpl (Strategy.KeyEnv strategy)
                subTaskScheduler keys maxContainers concurrent 0 0 [] with
        | Done (Ok tasks) => Done (Ok (TaskGroup.mk tasks))
        | Done (Err e) => Done (Err e)
        | Panic msg => Panic msg
        | OutOfFuel => OutOfFuel
        end
    end
  end.

(** The key lists handed to the tasks of a group, in task order. *)
Definition TaskGroup_keys (g : TaskGroup.t) : list (list string) :=
  List.map (fun t => match Task.strategyKey t with
                     | Some sk => StrategyKey.Keys sk
                     | None => []
                     end) (TaskGroup.tasks g).

End Scheduling.

(** ** Log masking *)

Module MaskedMessage.
Record t : Type := mk { msg : string; masks : list string }.
End MaskedMessage.

Definition newMaskedMessage (msg : string) (masks : list string) : MaskedMessage.t :=
  MaskedMessage.mk msg masks.

Definition MaskedMessage_addMask (m : MaskedMessage.t) (mask : string) : MaskedMessage.t :=
  MaskedMessage.mk (MaskedMessage.msg m) (MaskedMessage.masks m ++ [mask]).

Definition MaskedMessage_mask (msg : string) (masks : list string) : string :=
  fold_left
    (fun maskedMsg mask =>
       let genMaskText := strings_Repeat "*" (String.length mask) in
       strings_Replace maskedMsg mask genMaskText)
    masks msg.

Definition MaskedMessage_Filter (m : MaskedMessage.t) (msg : string) : string :=
  let masks := MaskedMessage.masks m in
  MaskedMessage_mask msg masks.

(** ** Local execution backend *)

(** [exec.Cmd]; [Path] is the command name as given (the binary lookup is
    the operating system's). *)
Module Cmd.
Record t : Type := mk { Path : string; Args : list string; Env : list string; Dir : string }.
End Cmd.

Definition exec_Command (name : string) (args : list string) : Cmd.t :=
  Cmd.mk name (name :: args) [] EmptyString.

Module localJobExecutor.
Record t : Type := mk { rootDir : string; container : Container.t; containerIdx : Z }.
End localJobExecutor.

(** The loop over [e.container.Env] in [localJobExecutor.cmd]. *)
Definition localJobExecutor_env_step (cmdEnv : list string) (env : EnvVar.t) : list string :=
  if String.eqb (EnvVar.Value env) EmptyString then cmdEnv
  else cmdEnv ++ [(EnvVar.Name env ++ "=" ++ EnvVar.Value env)%string].

Definition localJobExecutor_cmd (e : localJobExecutor.t) : result Cmd.t :=
  let c := localJobExecutor.container e in
  let cmdarr := Container.Command c ++ Container.Args c in
  match cmdarr with
  | [] => Err "kubetest: invalid command. command is empty"
  | name :: args =>
    let cmd := exec_Command name args in
    let env := fold_left localJobExecutor_env_step (Container.Env c) (Cmd.Env cmd) in
    Ok (Cmd.mk (Cmd.Path cmd) (Cmd.Args cmd) env
          (filepath_Join [localJobExecutor.rootDir e; Container.WorkingDir c]))
  end.

(** [Output]: the command is handed to the operating system, [os_Output]
    standing for the Output method of exec.Cmd. *)
Definition localJobExecutor_Output (os_Output : Cmd.t -> string * option error)
  (e : localJobExecutor.t) : string * option error :=
  match localJobExecutor_cmd e with
  | Err err => (EmptyString, Some err)
  | Ok cmd => os_Output cmd
  end.

(** The environment a process started from a command runs with: the
    command's own, or the parent's when the command's is nil. *)
Definition Cmd_environ (parent : list string) (cmd : Cmd.t) : list string :=
  match Cmd.Env cmd with
  | [] => parent
  | env => env
  end.

(** ** Sample objects

    Small concrete jobs on which the definitions above are evaluated. *)

Definition sample_pod : Pod.t := Pod.mk (ObjectMeta.mk "pod" ∅ ∅) (PodSpec.mk [] [] []).

Definition sample_container (name : string) : Container.t :=
  Container.mk name "alpine" ["echo"] ["$TEST"] EmptyString [] [] EmptyString.

(** An executor whose command prints [out] and fails with [err]. *)
Definition sample_exec (name out : string) (err : option error) : JobExecutor.t :=
  JobExecutor.mk (out, err) 1 None (fun _ _ => None) (fun _ _ => None)
    (sample_container name) 0 sample_pod (fun _ => (EmptyString, None)).

Definition sample_subtask (name out : string) (err copyErr : option error) : SubTask.t :=
  SubTask.mk name "TEST" true (sample_exec name out err) true (fun _ _ => copyErr).

Definition sample_subtasks : list SubTask.t :=
  [sample_subtask "A" "a" None None;
   sample_subtask "B" "b" (Some "exit status 1"%string) None;
   sample_subtask "C" "c" None (Some "no such file"%string);
   sample_subtask "D" "d" None None;
   sample_subtask "E" "e" None None].

Definition sample_main : TestJobContainer.t :=
  TestJobContainer.mk (sample_container "test") None.

Definition sample_template (containers : list TestJobContainer.t) : Step.t :=
  Step.mk "step"
    (TestJobTemplateSpec.mk (ObjectMeta.mk "job" ∅ ∅)
       (TestJobPodSpec.mk (PodSpec.mk [] [] []) [] containers TestJobContainer.zero [] [])).

(** A stand-in for the main container selection: the first container. *)
Definition sample_getMainContainer (tmpl : TestJobTemplateSpec.t) : result TestJobContainer.t :=
  match TestJobPodSpec.Containers (TestJobTemplateSpec.Spec tmpl) with
  | c :: _ => Ok c
  | [] => Err "kubetest: main container is not found"
  end.

Definition sample_manager : ResourceManager.t :=
  ResourceManager.mk
    (fun name => Ok ("/var/kubetest/repo/" ++ name ++ "/repo.tar.gz")%string)
    (fun name => Ok ("/var/kubetest/token/" ++ name ++ "/token")%string)
    (fun name => Ok ("/var/kubetest/artifact/" ++ name)%string)
    (fun name container => Ok ("/var/kubetest/artifact/" ++ name ++ "/" ++ container)%string)
    (Ok "/var/kubetest/log/kubetest.log"%string)
    (Ok "/var/kubetest/report/report.json"%string).

Definition sample_builder : TaskBuilder.t :=
  TaskBuilder.mk sample_manager "default" RunModeKubernetes.

Definition sample_scheduler (keys : list string) (maxContainersPerPod : Z) : TaskScheduler.t :=
  TaskScheduler.mk
    (Some (Strategy.mk "TEST" (StrategyKeySource.mk keys None) maxContainersPerPod 10))
    sample_builder.

(** [Schedule] with every external collaborator fixed: builds always
    succeed, maps are visited in key order. *)
Definition sample_Schedule (s : TaskScheduler.t) (tmpl : Step.t) : outcome (result TaskGroup.t) :=
  TaskScheduler_Schedule sample_getMainContainer (fun _ => Ok "[]"%string) (fun _ => None)
    (fun _ _ => range_sorted) (fun _ => Err "not run"%string)
    unit (fun _ => Ok tt) (fun _ _ => true) (fun s => s) s tmpl.

(** A container as [newTaskContainer] leaves it in the pod spec. *)
Definition rewritten (volumes : list TestJobVolume.t) (c : TestJobContainer.t)
  : TestJobContainer.t :=
  TaskContainer.container (newTaskContainer c volumes).

(** Everything of a container but its volume mounts. *)
Definition Container_without_mounts (c : Container.t) : Container.t :=
  Container.with_VolumeMounts c [].

Definition EnvVar_String (env : EnvVar.t) : string :=
  (EnvVar.Name env ++ "=" ++ EnvVar.Value env)%string.

Definition EnvVar_hasValue (env : EnvVar.t) : bool := negb (String.eqb (EnvVar.Value env) EmptyString).

Definition sample_local_executor : localJobExecutor.t :=
  localJobExecutor.mk "/tmp/root"
    (Container.mk "test0-0" "alpine" ["sh"] ["-c"; "echo $TEST"] "/work"
       [EnvVar.mk "HOME" "/root"; EnvVar.mk "EMPTY" EmptyString; EnvVar.mk "TEST" EmptyString]
       [] EmptyString)
    0.

Definition sample_sidecar : TestJobContainer.t :=
  TestJobContainer.mk (Container.mk "sidecar" "redis" ["redis-server"] [] EmptyString [] [] EmptyString) None.

Definition sample_strategyKey : StrategyKey.t :=
  StrategyKey.mk 0 ["A"; "B"]%string "TEST" (NewSubTaskScheduler 10) true.

(** [buildJob] with its collaborators fixed as in [sample_Schedule]. *)
Definition sample_buildJob (mainContainer : TestJobContainer.t) (tmpl : Step.t)
  (strategyKey : option StrategyKey.t) : result Job.t :=
  TaskBuilder_buildJob (fun _ => Ok "[]"%string) (fun _ => None) (fun _ => range_sorted)
    sample_builder mainContainer (Step.GetTemplate tmpl) strategyKey.

Definition empty_job : Job.t :=
  Job.mk RunModeDryRun (ObjectMeta.mk EmptyString ∅ ∅) sample_pod ∅ None None None None.

Definition job_of (r : result Job.t) : Job.t :=
  match r with
  | Ok job => job
  | Err _ => empty_job
  end.

Definition sample_expanded_job : Job.t :=
  job_of (sample_buildJob sample_main (sample_template [sample_sidecar; sample_main])
            (Some sample_strategyKey)).

(** The test the loop of [dynamicKeys] applies to one piece of the output. *)
Definition key_accepted {Regexp : Type} (trimSpace : string -> string)
  (matchString : Regexp -> string -> bool) (filter : option Regexp) (key : string) : bool :=
  negb (String.eqb (trimSpace key) EmptyString)
  && match filter with
     | Some f => matchString f key
     | None => true
     end.

(** Stand-ins for [strings.TrimSpace] (ASCII white space only) and for
    package [regexp] (a pattern without metacharacters matches the strings
    that contain it). *)
Definition is_space (c : ascii) : bool :=
  let n := nat_of_ascii c in
  ((9 <=? n)%nat && (n <=? 13)%nat) || (n =? 32)%nat.

Fixpoint trim_left (s : string) : string :=
  match s with
  | String c s' => if is_space c then trim_left s' else s
  | EmptyString => EmptyString
  end.

Definition sample_TrimSpace (s : string) : string :=
  string_of_list_ascii (rev (list_ascii_of_string
    (trim_left (string_of_list_ascii (rev (list_ascii_of_string (trim_left s))))))).

Definition sample_key_result (out : string) : SubTaskResult.t :=
  SubTaskResult.mk TaskResultSuccess 1 out None None "list" (sample_container "list")
    sample_pod EmptyString true.

Definition sample_dynamic_source (filter delim : string) : StrategyDynamicKeySource.t :=
  StrategyDynamicKeySource.mk (sample_template [sample_main]) filter delim.

(** [dynamicKeys] where running the key task reports [results]. *)
Definition sample_dynamicKeys (results : list SubTaskResult.t)
  (source : StrategyDynamicKeySource.t) : result (list string) :=
  TaskScheduler_dynamicKeys sample_getMainContainer (fun _ => Ok "[]"%string) (fun _ => None)
    (fun _ _ => range_sorted) (fun _ => Ok (TaskResult.mk results))
    string (fun s => Ok s) (fun r s => strings_Contains s r) sample_TrimSpace
    (TaskScheduler.mk None sample_builder) source.

Definition line_feed : string := String "010"%char EmptyString.

Definition sample_key_output : string :=
  ("A" ++ line_feed ++ "B" ++ line_feed ++ "  " ++ line_feed ++ "C" ++ line_feed)%string.

Definition empty_task : Task.t := Task.mk EmptyString false empty_job None EmptyString.

Definition task_of (r : result Task.t) : Task.t :=
  match r with
  | Ok task => task
  | Err _ => empty_task
  end.

Definition sample_key_task : Task.t :=
  task_of (BuildWithKey sample_getMainContainer (fun _ => Ok "[]"%string) (fun _ => None)
             (fun _ _ => range_sorted) (TaskScheduler.mk None sample_builder) (-1)
             (sample_template [sample_main]) None).

(** A mask without the byte ['*']. *)
Fixpoint no_star (s : string) : bool :=
  match s with
  | EmptyString => true
  | String c s' => negb (Ascii.eqb c "*") && no_star s'
  end.

(** [starred s t]: [t] is [s] with some of its bytes overwritten by ['*']. *)
Inductive starred : string -> string -> Prop :=
| starred_nil : starred EmptyString EmptyString
| starred_keep (c : ascii) (s t : string) : starred s t -> starred (String c s) (String c t)
| starred_mask (c : ascii) (s t : string) : starred s t -> starred (String c s) (String "*" t).

(** One round of [MaskedMessage.mask]. *)
Definition mask_step (maskedMsg mask : string) : string :=
  strings_Replace maskedMsg mask (strings_Repeat "*" (String.length mask)).


(** The volumes the pre-init container stages: the five test sources. *)
Definition is_test_volume (v : TestJobVolume.t) : bool :=
  bool_decide (is_Some (TestJobVolume.Repo v))
  || bool_decide (is_Some (TestJobVolume.Artifact v))
  || bool_decide (is_Some (TestJobVolume.Token v))
  || TestJobVolume.Log v
  || TestJobVolume.Report v.

(** A container declares a test volume mount when one of its mounts names
    a Repo, Token, Artifact, Log or Report volume of the template. *)
Definition declares_test_volume (volumes : list TestJobVolume.t) (c : TestJobContainer.t) : bool :=
  existsb (fun vm => is_test_volume (lookup_volume (volumeNameToVolume volumes) (VolumeMount.Name vm)))
    (Container.VolumeMounts (TestJobContainer.Container c)).

Definition sample_repo_volume : TestJobVolume.t :=
  TestJobVolume.mk "repo-volume" (Some "repo"%string) None None false false VolumeSource.zero.

Definition sample_repo_mount : VolumeMount.t :=
  VolumeMount.mk "repo-volume" "/work" false EmptyString.

(** Two init containers that both mount the repository, declared in the
    order "setup", "fetch", and a main container without test volumes. *)
Definition sample_setup : TestJobContainer.t :=
  TestJobContainer.mk
    (Container.mk "setup" "golang:1.21" ["make"] ["deps"] EmptyString [] [sample_repo_mount] "Always")
    None.

Definition sample_fetch : TestJobContainer.t :=
  TestJobContainer.mk
    (Container.mk "fetch" "alpine/git" ["git"] ["status"] EmptyString [] [sample_repo_mount] "Never")
    None.

Definition sample_repo_template : TestJobTemplateSpec.t :=
  TestJobTemplateSpec.mk (ObjectMeta.mk "job" ∅ ∅)
    (TestJobPodSpec.mk (PodSpec.mk [] [] []) [sample_setup; sample_fetch] [sample_main]
       TestJobContainer.zero [sample_repo_volume] []).

(** A build in which every loop over a map meets its keys in descending
    order: the init group yields "fetch" before "setup". *)
Definition sample_rhos (n : nat) : range_order := range_reversed.

Definition sample_repo_job : Job.t :=
  job_of (TaskBuilder_buildJob (fun _ => Ok "[]"%string) (fun _ => None) sample_rhos
            sample_builder sample_main sample_repo_template None).

(** A build in which the loop of [preInitImagePullPolicy] meets the keys
    in descending order and every other loop in ascending order. *)
Definition sample_mixed_rhos (n : nat) : range_order :=
  if (n =? 6)%nat then range_reversed else range_sorted.

Definition sample_mixed_job : Job.t :=
  job_of (TaskBuilder_buildJob (fun _ => Ok "[]"%string) (fun _ => None) sample_mixed_rhos
            sample_builder sample_main sample_repo_template None).

(** A template whose only test volume mount is the finalizer's. *)
Definition sample_finalizer : TestJobContainer.t :=
  TestJobContainer.mk
    (Container.mk "cleanup" "busybox" ["rm"] ["-rf"; "/work/tmp"] EmptyString []
       [sample_repo_mount] "IfNotPresent")
    None.

Definition sample_finalizer_template : TestJobTemplateSpec.t :=
  TestJobTemplateSpec.mk (ObjectMeta.mk "job" ∅ ∅)
    (TestJobPodSpec.mk (PodSpec.mk [] [] []) [] [sample_main] sample_finalizer
       [sample_repo_volume] []).

Definition sample_finalizer_job : Job.t :=
  job_of (TaskBuilder_buildJob (fun _ => Ok "[]"%string) (fun _ => None) (fun _ => range_sorted)
            sample_builder sample_main sample_finalizer_template None).

(** The user containers of a pod spec: init, main and finalizer. *)
Definition user_containers (spec : TestJobPodSpec.t) : list TestJobContainer.t :=
  TestJobPodSpec.InitContainers spec ++ TestJobPodSpec.Containers spec
  ++ [TestJobPodSpec.FinalizerContainer spec].

(** A name that is a single, ordinary path element, as Kubernetes volume
    names (DNS labels) are. *)
Fixpoint no_slash (s : string) : bool :=
  match s with
  | EmptyString => true
  | String c s' => negb (Ascii.eqb c "/") && no_slash s'
  end.

Definition path_segment (s : string) : bool :=
  no_slash s
  && negb (String.eqb s EmptyString) && negb (String.eqb s ".") && negb (String.eqb s "..").

(** The mount of a container as the builder leaves it in the pod spec. *)
Definition rewritten_mount (vols : gmap string TestJobVolume.t) (vm : VolumeMount.t)
  : VolumeMount.t :=
  snd (newTaskContainer_step vols (TaskContainer.mk TestJobContainer.zero ∅ ∅ ∅ ∅ ∅ ∅ [] [] ∅ ∅) vm).

(** A container that mounts the same repository volume at two paths. *)
Definition sample_two_mounts : TestJobContainer.t :=
  TestJobContainer.mk
    (Container.mk "test" "alpine" ["ls"] ["/work"; "/src"] EmptyString []
       [VolumeMount.mk "repo-volume" "/work" false EmptyString;
        VolumeMount.mk "repo-volume" "/src" false EmptyString]
       EmptyString)
    None.

(** The keys a task was built with. *)
Definition Task_keys (t : Task.t) : list string :=
  match Task.strategyKey t with
  | Some sk => StrategyKey.Keys sk
  | None => []
  end.


Definition Event_isStop (e : Event) : bool :=
  match e with
  | EvStop _ => true
  | _ => false
  end.

Definition Event_isOnFinish (e : Event) : bool :=
  match e with
  | EvOnFinish _ => true
  | _ => false
  end.

Definition MaskedMessage_addMessage (m : MaskedMessage.t) (msg : string) : MaskedMessage.t :=
  MaskedMessage.mk (MaskedMessage.msg m ++ msg)%string (MaskedMessage.masks m).

Definition MaskedMessage_String (m : MaskedMessage.t) : string :=
  let msg := MaskedMessage.msg m in
  let masks := MaskedMessage.masks m in
  MaskedMessage_mask msg masks.

(** ** The test job runner (distributed tests) *)

(** Errors of package xerrors: the two sentinels of the runner, compared
    by identity, an error of some other origin, and [Errorf] with a
    trailing [: %w], which wraps its last operand. *)
Inductive xerror : Type :=
| ErrFailedTestJob
| ErrFatal
| xerrors_New (msg : string)
| xerrors_Errorf (msg : string) (wrapped : xerror).

Fixpoint xerror_Error (e : xerror) : string :=
  match e with
  | ErrFailedTestJob => "failed test job"
  | ErrFatal => "fatal error"
  | xerrors_New msg => msg
  | xerrors_Errorf msg wrapped => (msg ++ ": " ++ xerror_Error wrapped)%string
  end.

(** [xerrors.Is(err, ErrFatal)] and [xerrors.Is(err, ErrFailedTestJob)]. *)
Fixpoint xerrors_Is_ErrFatal (e : xerror) : bool :=
  match e with
  | ErrFatal => true
  | xerrors_Errorf _ wrapped => xerrors_Is_ErrFatal wrapped
  | _ => false
  end.

Fixpoint xerrors_Is_ErrFailedTestJob (e : xerror) : bool :=
  match e with
  | ErrFailedTestJob => true
  | xerrors_Errorf _ wrapped => xerrors_Is_ErrFailedTestJob wrapped
  | _ => false
  end.

Definition TestResultSuccess : string := "success".
Definition TestResultFailure : string := "failure".
Definition TestResultError : string := "error".

Module TestLog.
Record t : Type := mk {
  Name : string;
  TestResult : string;
  ElapsedTimeSec : Z;
  Message : MaskedMessage.t
}.
End TestLog.

(** [validateTestLogs]: every listed test must have a log. *)
Definition TestJobRunner_validateTestLogs (tests : list string) (testlogs : list TestLog.t)
  : option xerror :=
  let testLogMap : gset string :=
    fold_left (fun m log => {[TestLog.Name log]} ∪ m) testlogs ∅ in
  let invalidTests :=
    fold_left (fun invalid test =>
                 if bool_decide (test ∈ testLogMap) then invalid else invalid ++ [test])
      tests [] in
  if len invalidTests >? 0
  then Some (xerrors_Errorf
               ("failed to find [ " ++ strings_Join invalidTests "," ++ " ] test logs")%string
               ErrFatal)
  else None.

(** The counters of the runner that [retest] resets. *)
Module TestJobRunner.
Record t : Type := mk { testCount : Z; totalTestNum : Z }.
End TestJobRunner.

Section Retest.

(** [runTests] with the concurrency cap per pod in force: it runs the
    named tests on the cluster and advances the runner's counters. *)
Variable runTests :
  TestJobRunner.t -> Z -> list string -> (list TestLog.t * option xerror) * TestJobRunner.t.

(** The loop of [retest] over the indices of the logs: a log whose test
    was run again is replaced in place. *)
Definition retest_replace (retestLogMap : gmap string TestLog.t)
  (acc : list TestLog.t * bool) (log : TestLog.t) : list TestLog.t * bool :=
  let '(testLogs, existsFailedTest) := acc in
  match retestLogMap !! TestLog.Name log with
  | None => (testLogs ++ [log], existsFailedTest)
  | Some retestLog =>
    (testLogs ++ [retestLog],
     if String.eqb (TestLog.TestResult retestLog) TestResultFailure then true
     else existsFailedTest)
  end.

Definition TestJobRunner_retest (r : TestJobRunner.t) (testLogs failedTestLogs : list TestLog.t)
  : (list TestLog.t * option xerror) * TestJobRunner.t :=
  let tests := fold_left (fun tests log => tests ++ [TestLog.Name log]) failedTestLogs [] in
  let r := TestJobRunner.mk 0 (len tests) in
  let '((retestLogs, err), r) := runTests r 1 tests in
  let retestLogMap :=
    fold_left (fun m log => <[TestLog.Name log := log]> m) retestLogs ∅ in
  let '(testLogs, existsFailedTest) :=
    fold_left (retest_replace retestLogMap) testLogs ([], false) in
  match err with
  | Some err => ((testLogs, Some (xerrors_Errorf (xerror_Error err) ErrFailedTestJob)), r)
  | None =>
    if existsFailedTest then ((testLogs, Some ErrFailedTestJob), r)
    else ((testLogs, None), r)
  end.

End Retest.

Definition sample_log (name result : string) : TestLog.t :=
  TestLog.mk name result 1 (newMaskedMessage EmptyString []).

(** The last of the logs that carries a given test name. *)
Definition last_log_named (name : string) (logs : list TestLog.t) : option TestLog.t :=
  List.find (fun log => String.eqb (TestLog.Name log) name) (rev logs).

(** ** The local and dry-run jobs *)

(** What running a local job does to the world: the pre-init callback is
    called on an executor for the pre-init container, symbolic links are
    created, and the handler receives the executors. *)
Inductive LocalEvent : Type :=
| LEvPreInit (exec : localJobExecutor.t)
| LEvSymlink (oldPath newPath : string)
| LEvHandler (execs : list localJobExecutor.t).

(** [localJob]: [job] is the pod template of the batch job; the pre-init
    callback is given by the error it returns. *)
Module localJob.
Record t : Type := mk {
  rootDir : string;
  preInitContainer : Container.t;
  preInitCallback : option (localJobExecutor.t -> option error);
  job : Pod.t
}.
Definition PreInit (j : t) (c : Container.t) (cb : localJobExecutor.t -> option error) : t :=
  mk (rootDir j) c (Some cb) (job j).
End localJob.

Definition localJob_symlink_error (oldPath newPath : string) : error :=
  ("kubetest: failed to create symlink from " ++ oldPath ++ " to " ++ newPath
   ++ " for running local file system")%string.

Section LocalRun.

(** [os.Symlink]; its outcome may depend on the links made before. *)
Variable os_Symlink : list (string * string) -> string -> string -> option error.

(** The loop over the volume mounts of one container. *)
Fixpoint localJob_link_mounts (rootDir : string) (preInitNameToPath : gmap string string)
  (mounts : list VolumeMount.t) (linkedPathMap : gset string) (links : list (string * string))
  : (gset string * list (string * string)) * option error :=
  match mounts with
  | [] => ((linkedPathMap, links), None)
  | mount :: rest =>
    match preInitNameToPath !! VolumeMount.Name mount with
    | None => localJob_link_mounts rootDir preInitNameToPath rest linkedPathMap links
    | Some oldPath =>
      let newPath := filepath_Join [rootDir; VolumeMount.MountPath mount] in
      if bool_decide (newPath ∈ linkedPathMap)
      then localJob_link_mounts rootDir preInitNameToPath rest linkedPathMap links
      else
        match os_Symlink links oldPath newPath with
        | Some _ =>
          ((linkedPathMap, links), Some (localJob_symlink_error oldPath newPath))
        | None =>
          localJob_link_mounts rootDir preInitNameToPath rest
            ({[newPath]} ∪ linkedPathMap) (links ++ [(oldPath, newPath)])
        end
    end
  end.

(** The container an executor is created for: an unnamed container is
    named after its position. *)
Definition localJob_container (idx : Z) (container : Container.t) : Container.t :=
  if String.eqb (Container.Name container) EmptyString
  then Container.with_Name container ("container" ++ itoa idx)%string
  else container.

(** The loop over the containers of the pod. *)
Fixpoint localJob_containers (rootDir : string) (preInitNameToPath : gmap string string)
  (idx : Z) (containers : list Container.t) (linkedPathMap : gset string)
  (links : list (string * string)) (execs : list localJobExecutor.t)
  : (list (string * string) * list localJobExecutor.t) * option error :=
  match containers with
  | [] => ((links, execs), None)
  | container :: rest =>
    let container := localJob_container idx container in
    match localJob_link_mounts rootDir preInitNameToPath (Container.VolumeMounts container)
            linkedPathMap links with
    | ((_, links), Some err) => ((links, execs), Some err)
    | ((linkedPathMap, links), None) =>
      localJob_containers rootDir preInitNameToPath (GoInt.add idx 1) rest linkedPathMap links
        (execs ++ [localJobExecutor.mk rootDir container idx])
    end
  end.

Definition localJob_preInitNameToPath (j : localJob.t) : gmap string string :=
  match localJob.preInitCallback j with
  | Some _ =>
    fold_left
      (fun m volumeMount =>
         <[VolumeMount.Name volumeMount
           := filepath_Join [localJob.rootDir j; VolumeMount.MountPath volumeMount]]> m)
      (Container.VolumeMounts (localJob.preInitContainer j)) ∅
  | None => ∅
  end.

(** [localJob.RunWithExecutionHandler]: the events in order, and the
    returned error.  The error of the pre-init callback is dropped. *)
Definition localJob_RunWithExecutionHandler (j : localJob.t)
  (handler : list localJobExecutor.t -> option error) : list LocalEvent * option error :=
  let preInit :=
    match localJob.preInitCallback j with
    | Some _ => [LEvPreInit (localJobExecutor.mk (localJob.rootDir j) (localJob.preInitContainer j) 0)]
    | None => []
    end in
  let preInitNameToPath := localJob_preInitNameToPath j in
  match localJob_containers (localJob.rootDir j) preInitNameToPath 0
          (PodSpec.Containers (Pod.Spec (localJob.job j))) ∅ [] [] with
  | ((links, _), Some err) =>
    (preInit ++ List.map (fun l => LEvSymlink (fst l) (snd l)) links, Some err)
  | ((links, execs), None) =>
    (preInit ++ List.map (fun l => LEvSymlink (fst l) (snd l)) links ++ [LEvHandler execs],
     handler execs)
  end.

End LocalRun.

Definition LocalEvent_symlink (e : LocalEvent) : option (string * string) :=
  match e with
  | LEvSymlink oldPath newPath => Some (oldPath, newPath)
  | _ => None
  end.


(** The executors of a dry-run job: nothing is run; [elapsed] is the time
    a call of [Output] takes. *)
Definition dryRunJobExecutor (elapsed : Z) (container : Container.t) (containerIdx : Z)
  : JobExecutor.t :=
  JobExecutor.mk ("( dry running .... )"%string, None) elapsed None
    (fun _ _ => None) (fun _ _ => None) container containerIdx
    (Pod.mk (ObjectMeta.mk EmptyString ∅ ∅) (PodSpec.mk [] [] []))
    (fun _ => (EmptyString, None)).

(** [dryRunJob.RunWithExecutionHandler]: [job] is the pod template of the
    batch job. *)
Fixpoint dryRunJob_executors (elapsed : Z -> Z) (idx : Z) (containers : list Container.t)
  (execs : list JobExecutor.t) : list JobExecutor.t :=
  match containers with
  | [] => execs
  | container :: rest =>
    dryRunJob_executors elapsed (GoInt.add idx 1) rest
      (execs ++ [dryRunJobExecutor (elapsed idx) container idx])
  end.

Definition dryRunJob_RunWithExecutionHandler (elapsed : Z -> Z) (job : Pod.t)
  (handler : list JobExecutor.t -> option error) : option error :=
  handler (dryRunJob_executors elapsed 0 (PodSpec.Containers (Pod.Spec job)) []).

(** ** Artifacts of a sub-task *)

(** [artifactMap] of [BuildWithKey]: the artifacts of the template by the
    name of the container they come from. *)
Definition artifactMap (artifacts : list ArtifactSpec.t) : gmap string (list ArtifactSpec.t) :=
  fold_left
    (fun m artifact =>
       <[ArtifactSpec.ContainerName artifact
         := default [] (m !! ArtifactSpec.ContainerName artifact) ++ [artifact]]> m)
    artifacts ∅.

(** The loop of the [copyArtifact] closure: the [CopyFrom] calls made (source
    in the container, destination on the local side) and the error that
    ended the loop. *)
Fixpoint copyArtifact_loop (b : TaskBuilder.t) (mainContainer : TestJobContainer.t)
  (exec : JobExecutor.t) (artifacts : list ArtifactSpec.t) (copied : list (string * string))
  : list (string * string) * option error :=
  match artifacts with
  | [] => (copied, None)
  | artifact :: rest =>
    match ResourceManager.ArtifactPathByNameAndContainerName (TaskBuilder.mgr b)
            (ArtifactSpec.Name artifact) (Container.Name (JobExecutor.Container exec)) with
    | Err err => (copied, Some err)
    | Ok localPath =>
      let localPath :=
        match TestJobContainer.Agent mainContainer with
        | Some _ => filepath_Dir localPath
        | None => localPath
        end in
      match JobExecutor.CopyFrom exec (ArtifactSpec.ContainerPath artifact) localPath with
      | Some err => (copied ++ [(ArtifactSpec.ContainerPath artifact, localPath)], Some err)
      | None =>
        copyArtifact_loop b mainContainer exec rest
          (copied ++ [(ArtifactSpec.ContainerPath artifact, localPath)])
      end
    end
  end.

(** The [copyArtifact] closure [BuildWithKey] gives to a task, applied to
    the executor and the is-main flag of a sub-task. *)
Definition TaskBuilder_copyArtifact (b : TaskBuilder.t) (mainContainer : TestJobContainer.t)
  (artifacts : list ArtifactSpec.t) (exec : JobExecutor.t) (isMain : bool)
  : list (string * string) * option error :=
  if RunMode_eqb (TaskBuilder.runMode b) RunModeDryRun then ([], None)
  else
    let containerName :=
      if isMain then TestJobContainer.Name mainContainer
      else Container.Name (JobExecutor.Container exec) in
    match artifactMap artifacts !! containerName with
    | None => ([], None)
    | Some artifacts => copyArtifact_loop b mainContainer exec artifacts []
    end.

(** The source and the destination of the copy of one artifact. *)
Definition artifact_copy (b : TaskBuilder.t) (mainContainer : TestJobContainer.t)
  (exec : JobExecutor.t) (artifact : ArtifactSpec.t) : option (string * string) :=
  match ResourceManager.ArtifactPathByNameAndContainerName (TaskBuilder.mgr b)
          (ArtifactSpec.Name artifact) (Container.Name (JobExecutor.Container exec)) with
  | Err _ => None
  | Ok localPath =>
    Some (ArtifactSpec.ContainerPath artifact,
          match TestJobContainer.Agent mainContainer with
          | Some _ => filepath_Dir localPath
          | None => localPath
          end)
  end.

Definition sample_artifacts : list ArtifactSpec.t :=
  [ArtifactSpec.mk "report" "test" "/work/report.xml";
   ArtifactSpec.mk "dump" "sidecar" "/data/dump.rdb";
   ArtifactSpec.mk "coverage" "test" "/work/cover.out"].

(** A local job whose two containers mount the staged repository at the
    same place. *)
Definition sample_local_job : localJob.t :=
  localJob.mk "/tmp/root"
    (Container.mk "preinit" "alpine" ["echo"] ["-n"; "preinit"] EmptyString []
       [VolumeMount.mk "repo-volume" "/stage/repo" false EmptyString] EmptyString)
    (Some (fun _ => None))
    (Pod.mk (ObjectMeta.mk "pod" ∅ ∅)
       (PodSpec.mk []
          [Container.mk "test" "alpine" ["ls"] [] EmptyString []
             [VolumeMount.mk "repo-volume" "/work" false EmptyString] EmptyString;
           Container.mk "lint" "alpine" ["ls"] [] EmptyString []
             [VolumeMount.mk "repo-volume" "/work" false EmptyString] EmptyString]
          [])).


Definition sample_token_volume : TestJobVolume.t :=
  TestJobVolume.mk "token-volume" None None (Some "github-app-token"%string) false false
    VolumeSource.zero.

Definition sample_log_volume : TestJobVolume.t :=
  TestJobVolume.mk "log-volume" None None None true false VolumeSource.zero.

Definition sample_config_volume : TestJobVolume.t :=
  TestJobVolume.mk "config" None None None false false
    (VolumeSource.mk false (Some "configMap:settings"%string)).

(** A container with one mount of every sort: a repository, a token, the
    log (twice), a plain volume and a volume the template does not
    declare. *)
Definition sample_mixed_container : TestJobContainer.t :=
  TestJobContainer.mk
    (Container.mk "test" "alpine" ["make"] ["test"] "/work" []
       [VolumeMount.mk "repo-volume" "/work" false EmptyString;
        VolumeMount.mk "token-volume" "/work/github-token" true EmptyString;
        VolumeMount.mk "log-volume" "/work/kubetest.log" false EmptyString;
        VolumeMount.mk "config" "/etc/settings" true EmptyString;
        VolumeMount.mk "log-volume" "/var/log/kubetest.log" false EmptyString;
        VolumeMount.mk "scratch" "/scratch" false EmptyString]
       EmptyString)
    None.

Definition sample_mixed_volumes : list TestJobVolume.t :=
  [sample_repo_volume; sample_token_volume; sample_log_volume; sample_config_volume].

(** The pod volume the builder records for a template volume: an emptyDir
    for the five test kinds, the declared source otherwise. *)
Definition pod_volume (volume : TestJobVolume.t) : Volume.t :=
  if is_test_volume volume
  then emptyDirVolume (TestJobVolume.Name volume)
  else Volume.mk (TestJobVolume.Name volume) (TestJobVolume.Source volume).

(** The template of a pod whose main container is [sample_mixed_container]. *)
Definition sample_mixed_template : TestJobTemplateSpec.t :=
  TestJobTemplateSpec.mk (ObjectMeta.mk "job" ∅ ∅)
    (TestJobPodSpec.mk (PodSpec.mk [] [] []) [] [sample_mixed_container]
       TestJobContainer.zero sample_mixed_volumes []).

Definition sample_mixed_pod_job : Job.t :=
  job_of (TaskBuilder_buildJob (fun _ => Ok "[]"%string) (fun _ => None) (fun _ => range_sorted)
            sample_builder sample_mixed_container sample_mixed_template None).

(** ** Mounting tokens, artifacts, logs and reports *)

Definition mountToken_cmd (orgMountPath mountPath : string) : list string :=
  ["mkdir"; "-p"; filepath_Dir orgMountPath;
   "&&";
   "cp"; filepath_Join [mountPath; "token"]; orgMountPath].

(** The loop of [mountToken] over [tokenNameToMountPath]. *)
Fixpoint mountToken_loop (taskContainer : TaskContainer.t) (exec : JobExecutor.t)
  (entries : list (string * string)) (issued : list (list string))
  : list (list string) * option error :=
  match entries with
  | [] => (issued, None)
  | (tokenName, mountPath) :: rest =>
    match TaskContainer.tokenNameToOrgMountPath taskContainer !! tokenName with
    | None => (issued, Some ("kubetest: failed to find org mount path by " ++ tokenName)%string)
    | Some orgMountPath =>
      let cmd := mountToken_cmd orgMountPath mountPath in
      match JobExecutor.PrepareCommand exec cmd with
      | (out, Some err) =>
        (issued ++ [cmd], Some ("kubetest: failed to mount token. " ++ out ++ ": " ++ err)%string)
      | (_, None) => mountToken_loop taskContainer exec rest (issued ++ [cmd])
      end
    end
  end.

Definition mountToken (rho : range_order) (taskContainer : TaskContainer.t)
  (exec : JobExecutor.t) : list (list string) * option error :=
  mountToken_loop taskContainer exec
    (rho _ (TaskContainer.tokenNameToMountPath taskContainer)) [].

Definition mountArtifact_cmd (orgMountPath mountPath fileName : string) : list string :=
  ["mkdir"; "-p"; filepath_Dir orgMountPath;
   "&&";
   "rm"; "-rf"; orgMountPath;
   "&&";
   "cp"; "-rf"; filepath_Join [mountPath; fileName]; orgMountPath].

(** The loop of [mountArtifact] over [artifactNameToMountPath]. *)
Fixpoint mountArtifact_loop (b : TaskBuilder.t) (taskContainer : TaskContainer.t)
  (exec : JobExecutor.t) (entries : list (string * string)) (issued : list (list string))
  : list (list string) * option error :=
  match entries with
  | [] => (issued, None)
  | (artifactName, mountPath) :: rest =>
    match TaskContainer.artifactNameToOrgMountPath taskContainer !! artifactName with
    | None => (issued, Some ("kubetest: failed to find org mount path by " ++ artifactName)%string)
    | Some orgMountPath =>
      match ResourceManager.ArtifactPathByName (TaskBuilder.mgr b) artifactName with
      | Err err => (issued, Some err)
      | Ok localArtifactPath =>
        let fileName := filepath_Base localArtifactPath in
        let cmd := mountArtifact_cmd orgMountPath mountPath fileName in
        match JobExecutor.PrepareCommand exec cmd with
        | (out, Some err) =>
          (issued ++ [cmd],
           Some ("kubetest: failed to mount artifact. " ++ out ++ ": " ++ err)%string)
        | (_, None) => mountArtifact_loop b taskContainer exec rest (issued ++ [cmd])
        end
      end
    end
  end.

Definition mountArtifact (b : TaskBuilder.t) (rho : range_order) (taskContainer : TaskContainer.t)
  (exec : JobExecutor.t) : list (list string) * option error :=
  if RunMode_eqb (TaskBuilder.runMode b) RunModeDryRun then ([], None)
  else mountArtifact_loop b taskContainer exec
         (rho _ (TaskContainer.artifactNameToMountPath taskContainer)) [].

Definition mountLog_cmd (mountPath : string) : list string :=
  ["mkdir"; "-p"; filepath_Dir mountPath;
   "&&";
   "cp"; logMountFilePath; mountPath].

Definition mountReport_cmd (mountPath : string) : list string :=
  ["mkdir"; "-p"; filepath_Dir mountPath;
   "&&";
   "cp"; filepath_Join [reportMountPath; "report.json"]; mountPath].

(** The loops of [mountLog] and [mountReport] over the mount paths. *)
Fixpoint mount_paths_loop (what : string) (cmd_of : string -> list string) (exec : JobExecutor.t)
  (mountPaths : list string) (issued : list (list string))
  : list (list string) * option error :=
  match mountPaths with
  | [] => (issued, None)
  | mountPath :: rest =>
    let cmd := cmd_of mountPath in
    match JobExecutor.PrepareCommand exec cmd with
    | (out, Some err) =>
      (issued ++ [cmd],
       Some ("kubetest: failed to mount " ++ what ++ ". " ++ out ++ ": " ++ err)%string)
    | (_, None) => mount_paths_loop what cmd_of exec rest (issued ++ [cmd])
    end
  end.

Definition mountLog (taskContainer : TaskContainer.t) (exec : JobExecutor.t)
  : list (list string) * option error :=
  mount_paths_loop "log" mountLog_cmd exec (TaskContainer.logOrgMountPaths taskContainer) [].

Definition mountReport (taskContainer : TaskContainer.t) (exec : JobExecutor.t)
  : list (list string) * option error :=
  mount_paths_loop "report" mountReport_cmd exec
    (TaskContainer.reportOrgMountPaths taskContainer) [].

(** One mount step after the steps before it: the commands add up and the
    first error ends the sequence. *)
Definition mount_then (before : list (list string) * option error)
  (step : list (list string) * option error) : list (list string) * option error :=
  match before with
  | (cmds, Some err) => (cmds, Some err)
  | (cmds, None) => (cmds ++ fst step, snd step)
  end.

(** The callback [buildJob] registers with [job.Mount]: the commands handed
    to [PrepareCommand] and the returned error.  [rhos] gives the order of
    the three loops over maps. *)
Definition TaskBuilder_mountCallback (b : TaskBuilder.t) (rhos : nat -> range_order)
  (buildCtx : TaskBuildContext.t) (exec : JobExecutor.t) (isInitContainer : bool)
  : outcome (list (list string) * option error) :=
  let containerName := Container.Name (JobExecutor.Container exec) in
  match TaskBuildContext_taskContainer buildCtx containerName isInitContainer with
  | None => Panic "invalid memory address or nil pointer dereference"
  | Some taskContainer =>
    Done (mount_then
            (mount_then
               (mount_then
                  (mount_then (mountRepository (rhos 0%nat) taskContainer exec)
                     (mountToken (rhos 1%nat) taskContainer exec))
                  (mountArtifact b (rhos 2%nat) taskContainer exec))
               (mountLog taskContainer exec))
            (mountReport taskContainer exec))
  end.

(** The kind of a template volume, as the [switch] of [newTaskContainer]
    decides it. *)
Inductive VolumeKind : Type :=
| KindRepo | KindArtifact | KindToken | KindLog | KindReport | KindOther.

Definition volume_kind (volume : TestJobVolume.t) : VolumeKind :=
  match TestJobVolume.Repo volume, TestJobVolume.Artifact volume, TestJobVolume.Token volume with
  | Some _, _, _ => KindRepo
  | None, Some _, _ => KindArtifact
  | None, None, Some _ => KindToken
  | None, None, None =>
    if TestJobVolume.Log volume then KindLog
    else if TestJobVolume.Report volume then KindReport
    else KindOther
  end.

Definition VolumeKind_eqb (a b : VolumeKind) : bool :=
  match a, b with
  | KindRepo, KindRepo | KindArtifact, KindArtifact | KindToken, KindToken
  | KindLog, KindLog | KindReport, KindReport | KindOther, KindOther => true
  | _, _ => false
  end.

(** The declared paths of the mounts of a container whose volume is of a
    given kind, in the order of declaration. *)
Definition mount_paths_of_kind (kind : VolumeKind) (volumes : list TestJobVolume.t)
  (c : TestJobContainer.t) : list string :=
  List.map VolumeMount.MountPath
    (List.filter
       (fun vm => VolumeKind_eqb
                    (volume_kind (lookup_volume (volumeNameToVolume volumes) (VolumeMount.Name vm)))
                    kind)
       (Container.VolumeMounts (TestJobContainer.Container c))).

(** What the mount steps rely on: a token or an artifact with a staging
    path has an original mount path, and an artifact with a staging path is
    the artifact of a declared volume. *)
Definition mount_maps_ok (volumes : list TestJobVolume.t) (tc : TaskContainer.t) : Prop :=
  (forall k, is_Some (TaskContainer.tokenNameToMountPath tc !! k) ->
             is_Some (TaskContainer.tokenNameToOrgMountPath tc !! k)) /\
  (forall k, is_Some (TaskContainer.artifactNameToMountPath tc !! k) ->
             is_Some (TaskContainer.artifactNameToOrgMountPath tc !! k)) /\
  (forall k, is_Some (TaskContainer.artifactNameToMountPath tc !! k) ->
             exists v, In v volumes /\ TestJobVolume.Artifact v = Some k).

(** ** Resources staged by the pre-init container *)

(** The resource a volume of a given kind stands for: the repository, the
    artifact or the token it names, when the [switch] of [newTaskContainer]
    takes it for that kind. *)
Definition resource_name (kind : VolumeKind) (volume : TestJobVolume.t) : option string :=
  if VolumeKind_eqb (volume_kind volume) kind then
    match kind with
    | KindRepo => TestJobVolume.Repo volume
    | KindArtifact => TestJobVolume.Artifact volume
    | KindToken => TestJobVolume.Token volume
    | KindLog | KindReport | KindOther => None
    end
  else None.

(** The directory under /tmp, and the map of a task container, that hold
    the staging paths of the resources of a kind. *)
Definition staging_dir (kind : VolumeKind) : string :=
  match kind with
  | KindRepo => "repo-archive"
  | KindArtifact => "artifact-archive"
  | KindToken => "token"
  | KindLog | KindReport | KindOther => EmptyString
  end.

Definition staging_field (kind : VolumeKind) (tc : TaskContainer.t) : gmap string string :=
  match kind with
  | KindRepo => TaskContainer.repoNameToArchiveMountPath tc
  | KindArtifact => TaskContainer.artifactNameToMountPath tc
  | KindToken => TaskContainer.tokenNameToMountPath tc
  | KindLog | KindReport | KindOther => ∅
  end.

(** A container of the pod mounts a volume that stands for the resource
    [name] of the given kind. *)
Definition mounts_resource (spec : TestJobPodSpec.t) (kind : VolumeKind) (name : string)
  (c : TestJobContainer.t) (vm : VolumeMount.t) : Prop :=
  In c (user_containers spec) /\
  In vm (Container.VolumeMounts (TestJobContainer.Container c)) /\
  resource_name kind
    (lookup_volume (volumeNameToVolume (TestJobPodSpec.Volumes spec)) (VolumeMount.Name vm))
  = Some name.

(** A manager that knows no repository, under a dry-run builder. *)
Definition sample_dry_run_builder : TaskBuilder.t :=
  TaskBuilder.mk
    (ResourceManager.mk
       (fun name => Err ("kubetest: failed to find repository path by " ++ name)%string)
       (ResourceManager.TokenPathByName sample_manager)
       (ResourceManager.ArtifactPathByName sample_manager)
       (ResourceManager.ArtifactPathByNameAndContainerName sample_manager)
       (ResourceManager.LogPath sample_manager)
       (ResourceManager.ReportPath sample_manager))
    "default" RunModeDryRun.

(** The copies of the pre-init callback of the pod of
    [sample_mixed_template]. *)
Definition sample_mixed_copies : list copyPath.t :=
  match preInitCallback sample_builder range_sorted
          (buildJob_context sample_mixed_container sample_mixed_template None) with
  | Ok copies => copies
  | Err _ => []
  end.

(** A pod whose main container has an agent and mounts the repository. *)
Definition sample_agent_container : TestJobContainer.t :=
  TestJobContainer.mk
    (Container.mk "test" "alpine" ["make"] ["test"] "/work" [] [sample_repo_mount] EmptyString)
    (Some (TestAgentSpec.mk "/bin/kubetest-agent")).

Definition sample_agent_template : TestJobTemplateSpec.t :=
  TestJobTemplateSpec.mk (ObjectMeta.mk "job" ∅ ∅)
    (TestJobPodSpec.mk (PodSpec.mk [] [] []) [] [sample_agent_container]
       TestJobContainer.zero [sample_repo_volume] []).

Definition sample_agent_job : Job.t :=
  job_of (TaskBuilder_buildJob (fun _ => Ok "[]"%string) (fun _ => None) (fun _ => range_sorted)
            sample_builder sample_agent_container sample_agent_template None).

(** ** Masking, as a relation on texts *)



(** A pod with a side-car and a main container that has a working
    directory, volume mounts and a pull policy, expanded for two keys. *)
Definition sample_worker : TestJobContainer.t :=
  TestJobContainer.mk
    (Container.mk "test" "golang:1.21" ["go"] ["test"; "$TEST"] "/work"
       [EnvVar.mk "CGO_ENABLED" "0"]
       [VolumeMount.mk "repo-volume" "/work" false EmptyString;
        VolumeMount.mk "config" "/etc/settings" true EmptyString]
       "IfNotPresent")
    None.

Definition sample_worker_template : TestJobTemplateSpec.t :=
  TestJobTemplateSpec.mk (ObjectMeta.mk "job" ∅ ∅)
    (TestJobPodSpec.mk (PodSpec.mk [] [] []) [] [sample_sidecar; sample_worker]
       TestJobContainer.zero [sample_repo_volume; sample_config_volume] []).

Definition sample_worker_job : Job.t :=
  job_of (TaskBuilder_buildJob (fun _ => Ok "[]"%string) (fun _ => None) (fun _ => range_sorted)
            sample_builder sample_worker sample_worker_template (Some sample_strategyKey)).

(** A pod whose main container mounts the repository volume twice. *)
Definition sample_two_mounts_template : TestJobTemplateSpec.t :=
  TestJobTemplateSpec.mk (ObjectMeta.mk "job" ∅ ∅)
    (TestJobPodSpec.mk (PodSpec.mk [] [] []) [] [sample_two_mounts]
       TestJobContainer.zero [sample_repo_volume] []).

Definition sample_two_mounts_job : Job.t :=
  job_of (TaskBuilder_buildJob (fun _ => Ok "[]"%string) (fun _ => None) (fun _ => range_sorted)
            sample_builder sample_two_mounts sample_two_mounts_template None).

(** * Properties *)

(** ** Machine integers and slices *)

Lemma wrap_in_range (z : Z) : GoInt.in_range z -> GoInt.wrap z = z.
Proof.
  unfold GoInt.in_range, GoInt.wrap, GoInt.int_min, GoInt.int_max. intros H.
  rewrite Z.mod_small; lia.
Qed.

Lemma add_in_range (a b : Z) : GoInt.in_range (a + b) -> GoInt.add a b = a + b.
Proof. apply wrap_in_range. Qed.

Lemma range_sorted_ok : range_order_ok range_sorted.
Proof. intros V m. apply Permutation_refl. Qed.

Lemma range_reversed_ok : range_order_ok range_reversed.
Proof. intros V m. unfold range_reversed. symmetry. apply Permutation_rev. Qed.

Lemma slice_ok {A : Type} (l : list A) (lo hi : Z) :
  0 <= lo <= hi -> hi <= len l ->
  slice l lo hi = Done (firstn (Z.to_nat (hi - lo)) (skipn (Z.to_nat lo) l)).
Proof.
  intros H1 H2. unfold slice.
  destruct (0 <=? lo) eqn:E1; [| lia].
  destruct (lo <=? hi) eqn:E2; [| lia].
  destruct (hi <=? len l) eqn:E3; [| lia].
  reflexivity.
Qed.

Lemma len_firstn_skipn {A : Type} (l : list A) (lo hi : Z) :
  0 <= lo <= hi -> hi <= len l ->
  len (firstn (Z.to_nat (hi - lo)) (skipn (Z.to_nat lo) l)) = hi - lo.
Proof.
  intros H1 H2. unfold len in *. rewrite length_firstn, length_skipn. lia.
Qed.

Lemma skipn_firstn_skipn {A : Type} (l : list A) (a b : nat) :
  skipn b (skipn a l) = skipn (a + b) l.
Proof.
  revert l. induction a as [| a IH]; intros l; simpl.
  - reflexivity.
  - destruct l as [| x l]; simpl.
    + destruct b; reflexivity.
    + apply IH.
Qed.

(** ** The sub-task scheduler *)

Section SubTaskSchedulerLoop.

Variable tasks : list SubTask.t.
Variable c : Z.
Hypothesis c_pos : 0 < c.
Hypothesis no_overflow : len tasks + c <= GoInt.int_max.

(** The groups appended by the loop from position [i] on: they cover the
    rest of the slice in order, there are [ceil((N - i) / c)] of them, and
    only the last one may be short. *)
Lemma SubTaskScheduler_loop_inv (fuel : nat) :
  forall (i : Z) (groups : list SubTaskGroup.t),
    0 <= i < len tasks + c ->
    len tasks - i <= Z.of_nat fuel ->
    exists gs,
      SubTaskScheduler_loop fuel tasks (len tasks) c i groups = Done (groups ++ gs) /\
      concat (List.map SubTaskGroup.tasks gs) = skipn (Z.to_nat i) tasks /\
      len gs = (len tasks - i + c - 1) / c /\
      Forall (fun g => 0 < len (SubTaskGroup.tasks g) <= c) gs /\
      (forall (j : nat) g, nth_error gs j = Some g -> (S j < length gs)%nat ->
                           len (SubTaskGroup.tasks g) = c).
Proof.
  induction fuel as [| fuel IH]; intros i groups Hi Hfuel.
  - exists []. simpl. assert (E : (i <? len tasks) = false) by lia. rewrite E.
    rewrite app_nil_r. repeat split.
    + rewrite skipn_all2; [reflexivity | unfold len in *; lia].
    + unfold len at 1. simpl. symmetry. apply Z.div_small. lia.
    + constructor.
    + intros j g Hj. destruct j; discriminate.
  - simpl. destruct (i <? len tasks) eqn:E.
    + assert (Hadd : GoInt.add i c = i + c).
      { apply add_in_range. unfold GoInt.in_range, GoInt.int_min, GoInt.int_max in *.
        unfold len in *. lia. }
      rewrite Hadd.
      set (e := if i + c >? len tasks then len tasks else i + c).
      assert (He : i < e <= len tasks /\ e <= i + c /\ (i + c <= len tasks -> e = i + c)).
      { unfold e. destruct (i + c >? len tasks) eqn:E2; lia. }
      rewrite slice_ok by lia.
      destruct (IH (i + c) (groups ++ [NewSubTaskGroup
                  (firstn (Z.to_nat (e - i)) (skipn (Z.to_nat i) tasks))]))
        as (gs & Hrun & Hcat & Hlen & Hall & Hfull); [lia | lia |].
      exists (NewSubTaskGroup (firstn (Z.to_nat (e - i)) (skipn (Z.to_nat i) tasks)) :: gs).
      split; [| split; [| split; [| split]]].
      * rewrite Hrun, <- app_assoc. reflexivity.
      * simpl. rewrite Hcat.
        destruct (Z.le_gt_cases (i + c) (len tasks)) as [Hle | Hgt].
        -- replace e with (i + c) by (symmetry; apply He; lia).
           replace (Z.to_nat (i + c)) with (Z.to_nat i + Z.to_nat (i + c - i))%nat by lia.
           rewrite <- skipn_firstn_skipn. apply firstn_skipn.
        -- assert (e = len tasks) by (unfold e; destruct (i + c >? len tasks) eqn:E2; lia).
           subst e. rewrite (skipn_all2 tasks (n := Z.to_nat (i + c))) by (unfold len in *; lia).
           rewrite app_nil_r. apply firstn_all2. rewrite length_skipn. unfold len in *. lia.
      * unfold len at 1. simpl length. rewrite Nat2Z.inj_succ. fold (len gs). rewrite Hlen.
        replace (len tasks - i + c - 1) with ((len tasks - (i + c) + c - 1) + 1 * c) by lia.
        rewrite Z.div_add by lia. lia.
      * constructor; [| exact Hall]. simpl. rewrite len_firstn_skipn by lia. lia.
      * intros j g Hj Hlt. destruct j as [| j]; simpl in Hj.
        -- injection Hj as <-. simpl. rewrite len_firstn_skipn by lia.
           assert (0 < len gs) by (unfold len; simpl in Hlt; lia).
           rewrite Hlen in H.
           assert (len tasks - (i + c) + c - 1 >= c).
           { destruct (Z.lt_ge_cases (len tasks - (i + c) + c - 1) c) as [Hc | Hc]; [| lia].
             destruct (Z.lt_ge_cases (len tasks - (i + c) + c - 1) 0) as [Hn | Hn].
             - pose proof (Z.div_lt_upper_bound (len tasks - (i + c) + c - 1) c 0
                             ltac:(lia) ltac:(lia)). lia.
             - rewrite Z.div_small in H by lia. lia. }
           lia.
        -- apply (Hfull j g Hj). simpl in Hlt. lia.
    + exists []. rewrite app_nil_r. repeat split.
      * rewrite skipn_all2; [reflexivity | unfold len in *; lia].
      * unfold len at 1. simpl. symmetry. apply Z.div_small. lia.
      * constructor.
      * intros j g Hj. destruct j; discriminate.
Qed.

End SubTaskSchedulerLoop.

Lemma getConcurrentNum_cases (K N : Z) :
  0 <= N ->
  (K <= 0 \/ K >= N -> getConcurrentNum (NewSubTaskScheduler K) N = N) /\
  (0 < K < N -> getConcurrentNum (NewSubTaskScheduler K) N = K).
Proof.
  intros HN. unfold getConcurrentNum, NewSubTaskScheduler. simpl.
  destruct (K <=? 0) eqn:E1; destruct (K >? N) eqn:E2; split; intros H; lia.
Qed.

Lemma singleton_group_of_concat (tasks : list SubTask.t) (gs : list SubTaskGroup.t) :
  len gs = 1 -> concat (List.map SubTaskGroup.tasks gs) = tasks ->
  gs = [NewSubTaskGroup tasks].
Proof.
  intros Hlen Hcat. destruct gs as [| g [| g' gs]]; unfold len in Hlen; simpl in Hlen; try lia.
  simpl in Hcat. rewrite app_nil_r in Hcat. destruct g as [ts]. simpl in Hcat. subst ts.
  reflexivity.
Qed.

(** C2.  For a list of N sub-tasks and a cap K, the sub-task scheduler
    returns one group holding all N sub-tasks when K <= 0 or K >= N;
    otherwise it returns ceil(N/K) groups, in order, whose concatenation is
    the input list, every group of size K except a possibly shorter (but
    non-empty) last one.  The length bound says that twice the slice
    length is a Go int, which holds for every slice that fits in memory. *)
Theorem SubTaskScheduler_Schedule_groups (K : Z) (tasks : list SubTask.t) :
  2 * len tasks <= GoInt.int_max ->
  exists groups,
    SubTaskScheduler_Schedule (NewSubTaskScheduler K) tasks = Done groups /\
    concat (List.map SubTaskGroup.tasks groups) = tasks /\
    (K <= 0 \/ K >= len tasks -> groups = [NewSubTaskGroup tasks]) /\
    (0 < K < len tasks ->
     len groups = (len tasks + K - 1) / K /\
     Forall (fun g => 0 < len (SubTaskGroup.tasks g) <= K) groups /\
     (forall (j : nat) g, nth_error groups j = Some g -> (S j < length groups)%nat ->
                          len (SubTaskGroup.tasks g) = K)).
Proof.
  intros Hbound.
  assert (HN : 0 <= len tasks) by (unfold len; lia).
  destruct (getConcurrentNum_cases K (len tasks) HN) as [Hall Hcap].
  unfold SubTaskScheduler_Schedule.
  destruct (Z.eq_dec (len tasks) 0) as [Hz | Hnz].
  - (* no sub-task at all: the else branch emits the single, empty group *)
    rewrite Hall by lia. rewrite Hz. simpl.
    exists [NewSubTaskGroup tasks]. split; [reflexivity |]. split.
    + simpl. apply app_nil_r.
    + split; [reflexivity | lia].
  - destruct (Z_le_gt_dec K 0) as [HK | HK];
      [| destruct (Z_ge_lt_dec K (len tasks)) as [HK' | HK']].
    + rewrite Hall by lia.
      assert (E : (len tasks >? 0) = true) by lia. rewrite E.
      destruct (SubTaskScheduler_loop_inv tasks (len tasks) ltac:(lia) ltac:(lia)
                  (length tasks) 0 []) as (gs & Hrun & Hcat & Hlen & _);
        [lia | unfold len; lia |].
      exists gs. simpl in Hrun. split; [exact Hrun |]. split; [exact Hcat |].
      split; [| lia]. intros _. apply singleton_group_of_concat; [| exact Hcat].
      rewrite Hlen. replace (len tasks - 0 + len tasks - 1) with (len tasks - 1 + 1 * len tasks) by lia.
      rewrite Z.div_add by lia. rewrite Z.div_small by lia. reflexivity.
    + rewrite Hall by lia.
      assert (E : (len tasks >? 0) = true) by lia. rewrite E.
      destruct (SubTaskScheduler_loop_inv tasks (len tasks) ltac:(lia) ltac:(lia)
                  (length tasks) 0 []) as (gs & Hrun & Hcat & Hlen & _);
        [lia | unfold len; lia |].
      exists gs. simpl in Hrun. split; [exact Hrun |]. split; [exact Hcat |].
      split; [| lia]. intros _. apply singleton_group_of_concat; [| exact Hcat].
      rewrite Hlen. replace (len tasks - 0 + len tasks - 1) with (len tasks - 1 + 1 * len tasks) by lia.
      rewrite Z.div_add by lia. rewrite Z.div_small by lia. reflexivity.
    + rewrite Hcap by lia.
      assert (E : (K >? 0) = true) by lia. rewrite E.
      destruct (SubTaskScheduler_loop_inv tasks K ltac:(lia) ltac:(lia)
                  (length tasks) 0 []) as (gs & Hrun & Hcat & Hlen & Hsz & Hfull);
        [lia | unfold len; lia |].
      exists gs. simpl in Hrun. split; [exact Hrun |]. split; [exact Hcat |].
      split; [lia |]. intros _. split; [| split; assumption].
      rewrite Hlen. f_equal. lia.
Qed.

Lemma SubTaskScheduler_Schedule_groups_witness :
  exists groups,
    SubTaskScheduler_Schedule (NewSubTaskScheduler 2) sample_subtasks = Done groups /\
    concat (List.map SubTaskGroup.tasks groups) = sample_subtasks /\
    (2 <= 0 \/ 2 >= len sample_subtasks -> groups = [NewSubTaskGroup sample_subtasks]) /\
    (0 < 2 < len sample_subtasks ->
     len groups = (len sample_subtasks + 2 - 1) / 2 /\
     Forall (fun g => 0 < len (SubTaskGroup.tasks g) <= 2) groups /\
     (forall (j : nat) g, nth_error groups j = Some g -> (S j < length groups)%nat ->
                          len (SubTaskGroup.tasks g) = 2)).
Proof.
  apply (SubTaskScheduler_Schedule_groups 2 sample_subtasks).
  vm_compute. discriminate.
Defined.

Example SubTaskScheduler_Schedule_five_by_two :
  option_map (List.map (fun g => List.map SubTask.Name (SubTaskGroup.tasks g)))
    (match SubTaskScheduler_Schedule (NewSubTaskScheduler 2) sample_subtasks with
     | Done gs => Some gs
     | _ => None
     end)
  = Some [["A"; "B"]; ["C"; "D"]; ["E"]]%string.
Proof. reflexivity. Qed.

(** ** The task scheduler *)

(** C1.  With the four static keys A, B, C, D and maxContainersPerPod = 2
    the scheduler builds three tasks, not ceil(4/2) = 2: the loop runs for
    i = 0 .. N/M inclusive, and when M divides N the last task receives
    the empty slice keys[N:]. *)
Theorem TaskScheduler_Schedule_trailing_empty_task :
  exists g,
    sample_Schedule (sample_scheduler ["A"; "B"; "C"; "D"]%string 2)
      (sample_template [sample_main]) = Done (Ok g) /\
    TaskGroup_keys g = [["A"; "B"]; ["C"; "D"]; []]%string /\
    len (TaskGroup.tasks g) = 3 /\
    (len ["A"; "B"; "C"; "D"]%string + 2 - 1) / 2 = 2.
Proof.
  eexists. split; [vm_compute; reflexivity |].
  split; [reflexivity |]. split; reflexivity.
Qed.

(** When M does not divide N the tasks are the expected ones. *)
Example TaskScheduler_Schedule_five_keys :
  match sample_Schedule (sample_scheduler ["A"; "B"; "C"; "D"; "E"]%string 2)
          (sample_template [sample_main]) with
  | Done (Ok g) => TaskGroup_keys g
  | _ => []
  end = [["A"; "B"]; ["C"; "D"]; ["E"]]%string.
Proof. vm_compute. reflexivity. Qed.

(** ** Sub-task results *)

Lemma SubTask_Run_fields (t : SubTask.t) :
  SubTaskResult.Err (SubTask_result t) = command_error t /\
  SubTaskResult.ArtifactErr (SubTask_result t) = artifact_error t /\
  SubTaskResult.Status (SubTask_result t) =
    match command_error t, artifact_error t with
    | None, None => TaskResultSuccess
    | _, _ => TaskResultFailure
    end /\
  SubTaskResult.Name (SubTask_result t) = SubTask.Name t /\
  snd (fst (SubTask_Run t)) = None.
Proof.
  unfold SubTask_result, command_error, artifact_error, SubTask_Run.
  destruct (JobExecutor.Output (SubTask.exec t)) as [out err].
  destruct err as [msg |];
    destruct (SubTask.copyArtifact t (SubTask.exec t) (SubTask.isMain t)) as [amsg |];
    simpl; repeat split; reflexivity.
Qed.

(** C4.  The result of a completed [SubTask.Run] has status failure iff
    its Err or its ArtifactErr is non-nil, and status success iff both
    are nil; Err is the error of the command and ArtifactErr the error of
    the artifact copy. *)
Theorem SubTask_Run_status (t : SubTask.t) :
  let r := SubTask_result t in
  SubTaskResult.Err r = command_error t /\
  SubTaskResult.ArtifactErr r = artifact_error t /\
  (SubTaskResult.Status r = TaskResultFailure <->
   SubTaskResult.Err r <> None \/ SubTaskResult.ArtifactErr r <> None) /\
  (SubTaskResult.Status r = TaskResultSuccess <->
   SubTaskResult.Err r = None /\ SubTaskResult.ArtifactErr r = None).
Proof.
  intros r. subst r.
  destruct (SubTask_Run_fields t) as (HE & HA & HS & _).
  rewrite HE, HA, HS. split; [reflexivity |]. split; [reflexivity |].
  destruct (command_error t), (artifact_error t); split; split;
    try tauto; try discriminate; try (intros _; left; discriminate);
    try (intros _; right; discriminate); try (intros [? | ?]; congruence);
    try (intros [? ?]; congruence).
Qed.

Example SubTask_Run_command_failure :
  let r := SubTask_result (sample_subtask "B" "b" (Some "exit status 1"%string) None) in
  (SubTaskResult.Status r, SubTaskResult.Err r, SubTaskResult.ArtifactErr r)
  = (TaskResultFailure, Some "exit status 1"%string, None).
Proof. reflexivity. Qed.

Example SubTask_Run_artifact_failure :
  let r := SubTask_result (sample_subtask "C" "c" None (Some "no such file"%string)) in
  (SubTaskResult.Status r, SubTaskResult.Err r, SubTaskResult.ArtifactErr r)
  = (TaskResultFailure, None, Some "no such file"%string).
Proof. reflexivity. Qed.

(** ** Sub-task groups *)

Lemma pick_Some {A : Type} (i : nat) (l : list A) :
  l <> [] ->
  exists x rest, pick i l = Some (x, rest) /\ Permutation l (x :: rest).
Proof.
  intros Hne. unfold pick. destruct l as [| a l]; [congruence |].
  remember (a :: l) as l' eqn:El'.
  assert (Hj : (i mod length l' < length l')%nat).
  { apply Nat.mod_upper_bound. subst l'. simpl. lia. }
  remember (i mod length l')%nat as j eqn:Ej. clear Ej El' Hne.
  destruct (nth_error l' j) as [x |] eqn:E.
  - exists x, (firstn j l' ++ skipn (S j) l'). split; [reflexivity |].
    apply nth_error_split in E. destruct E as (l1 & l2 & Hl & Hlen). subst j l'.
    rewrite firstn_app, Nat.sub_diag, firstn_all. simpl firstn. rewrite app_nil_r.
    replace (l1 ++ x :: l2) with ((l1 ++ [x]) ++ l2) at 2
      by (rewrite <- app_assoc; reflexivity).
    replace (S (length l1)) with (length (l1 ++ [x]))
      by (rewrite length_app; simpl; lia).
    rewrite skipn_app, Nat.sub_diag, skipn_all. simpl.
    symmetry. apply Permutation_middle.
  - apply nth_error_None in E. lia.
Qed.

Lemma SubTaskGroup_goroutine_ok (task : SubTask.t) (st : GroupState.t) :
  GroupState.firstErr (SubTaskGroup_goroutine task st) = GroupState.firstErr st /\
  SubTaskResultGroup.results (GroupState.rg (SubTaskGroup_goroutine task st))
  = SubTaskResultGroup.results (GroupState.rg st) ++ [SubTask_result task].
Proof.
  unfold SubTaskGroup_goroutine, SubTask_result.
  pose proof (SubTask_Run_fields task) as (_ & _ & _ & _ & Hnil).
  destruct (SubTask_Run task) as [[result err] evs]. simpl in *. subst err.
  simpl. split; reflexivity.
Qed.

Lemma errgroup_run_results (sched : nat -> nat) (n : nat) :
  forall (running : list SubTask.t) (st : GroupState.t),
    length running = n ->
    GroupState.firstErr (errgroup_run sched n running st) = GroupState.firstErr st /\
    Permutation
      (SubTaskResultGroup.results (GroupState.rg (errgroup_run sched n running st)))
      (SubTaskResultGroup.results (GroupState.rg st) ++ List.map SubTask_result running).
Proof.
  induction n as [| n IH]; intros running st Hlen.
  - destruct running; [| discriminate]. simpl. rewrite app_nil_r. split; reflexivity.
  - assert (Hne : running <> []) by (destruct running; [discriminate | congruence]).
    destruct (pick_Some (sched (S n)) running Hne) as (task & rest & Hpick & Hperm).
    simpl. rewrite Hpick.
    assert (Hrest : length rest = n).
    { apply Permutation_length in Hperm. simpl in Hperm. lia. }
    destruct (IH rest (SubTaskGroup_goroutine task st) Hrest) as [Herr Hres].
    destruct (SubTaskGroup_goroutine_ok task st) as [Herr1 Hres1].
    split; [congruence |].
    rewrite Hres, Hres1, <- app_assoc. apply Permutation_app_head.
    change ([SubTask_result task] ++ List.map SubTask_result rest)
      with (List.map SubTask_result (task :: rest)).
    apply Permutation_map. symmetry. exact Hperm.
Qed.

(** C9.  [SubTask.Run] always returns a nil error.  Whatever order the
    goroutines of a group complete in, [SubTaskGroup.Run] returns a nil
    error and a result group holding exactly one result per sub-task (the
    results of the sub-tasks, in completion order); command and artifact
    failures show only in the Status, Err and ArtifactErr fields. *)
Theorem SubTaskGroup_Run_no_error (sched : nat -> nat) (g : SubTaskGroup.t) :
  (forall t : SubTask.t, snd (fst (SubTask_Run t)) = None) /\
  exists rg,
    SubTaskGroup_Run sched g = (Some rg, None) /\
    Permutation (SubTaskResultGroup.results rg)
      (List.map SubTask_result (SubTaskGroup.tasks g)) /\
    length (SubTaskResultGroup.results rg) = length (SubTaskGroup.tasks g) /\
    Forall (fun r => exists t, In t (SubTaskGroup.tasks g) /\ r = SubTask_result t /\
                               SubTaskResult.Err r = command_error t /\
                               SubTaskResult.ArtifactErr r = artifact_error t)
      (SubTaskResultGroup.results rg).
Proof.
  split.
  - intros t. apply SubTask_Run_fields.
  - unfold SubTaskGroup_Run.
    set (st0 := GroupState.mk (SubTaskResultGroup.mk []) None []).
    destruct (errgroup_run_results sched (length (SubTaskGroup.tasks g))
                (SubTaskGroup.tasks g) st0 eq_refl) as [Herr Hperm].
    simpl in Herr, Hperm. rewrite Herr.
    eexists. split; [reflexivity |]. split; [exact Hperm |]. split.
    + apply Permutation_length in Hperm. rewrite Hperm. apply length_map.
    + apply List.Forall_forall. intros r Hr.
      apply (Permutation_in _ Hperm) in Hr. apply in_map_iff in Hr.
      destruct Hr as (t & Hrt & Hin). exists t. split; [exact Hin |].
      split; [congruence |]. subst r.
      destruct (SubTask_Run_fields t) as (HE & HA & _). split; assumption.
Qed.

Example SubTaskGroup_Run_sample :
  match SubTaskGroup_Run (fun n => 2 * n + 1)%nat (NewSubTaskGroup sample_subtasks) with
  | (Some rg, None) =>
    List.map (fun r => (SubTaskResult.Name r, SubTaskResult.Status r))
      (SubTaskResultGroup.results rg)
  | _ => []
  end
  = [("B", TaskResultFailure); ("C", TaskResultFailure); ("D", TaskResultSuccess);
     ("E", TaskResultSuccess); ("A", TaskResultSuccess)]%string.
Proof. vm_compute. reflexivity. Qed.

(** ** The local backend's command *)

Lemma localJobExecutor_env_fold (envs : list EnvVar.t) :
  forall acc : list string,
    fold_left localJobExecutor_env_step envs acc
    = acc ++ List.map EnvVar_String (List.filter EnvVar_hasValue envs).
Proof.
  induction envs as [| env envs IH]; intros acc; simpl.
  - symmetry. apply app_nil_r.
  - rewrite IH. unfold localJobExecutor_env_step, EnvVar_hasValue at 2.
    destruct (String.eqb (EnvVar.Value env) EmptyString) eqn:E; simpl.
    + reflexivity.
    + rewrite <- app_assoc. reflexivity.
Qed.

(** C10.  In the local backend the command handed to the operating
    system by [Output] carries exactly the container's environment
    variables whose Value is non-empty, in order, as NAME=VALUE; a variable
    whose value is the empty string contributes no entry. *)
Theorem localJobExecutor_cmd_env (os_Output : Cmd.t -> string * option error)
  (e : localJobExecutor.t) :
  Container.Command (localJobExecutor.container e)
    ++ Container.Args (localJobExecutor.container e) <> [] ->
  exists cmd,
    localJobExecutor_cmd e = Ok cmd /\
    localJobExecutor_Output os_Output e = os_Output cmd /\
    Cmd.Env cmd = List.map EnvVar_String
                    (List.filter EnvVar_hasValue (Container.Env (localJobExecutor.container e))) /\
    (forall entry, In entry (Cmd.Env cmd) <->
       exists env, In env (Container.Env (localJobExecutor.container e)) /\
                   EnvVar.Value env <> EmptyString /\ entry = EnvVar_String env).
Proof.
  intros Hcmd. unfold localJobExecutor_Output, localJobExecutor_cmd.
  destruct (Container.Command (localJobExecutor.container e)
            ++ Container.Args (localJobExecutor.container e)) as [| name args];
    [congruence |].
  eexists. split; [reflexivity |]. split; [reflexivity |]. simpl Cmd.Env.
  rewrite localJobExecutor_env_fold. simpl app. split; [reflexivity |].
  intros entry. rewrite in_map_iff. split.
  - intros (env & Hentry & Hin). apply filter_In in Hin. destruct Hin as [Hin Hval].
    exists env. split; [exact Hin |]. split; [| congruence].
    unfold EnvVar_hasValue in Hval. apply negb_true_iff, String.eqb_neq in Hval. exact Hval.
  - intros (env & Hin & Hval & Hentry). exists env. split; [congruence |].
    apply filter_In. split; [exact Hin |].
    unfold EnvVar_hasValue. apply negb_true_iff, String.eqb_neq. exact Hval.
Qed.

Lemma localJobExecutor_cmd_env_witness :
  exists cmd,
    localJobExecutor_cmd sample_local_executor = Ok cmd /\
    localJobExecutor_Output (fun _ => ("ok"%string, None)) sample_local_executor
    = ("ok"%string, None) /\
    Cmd.Env cmd = ["HOME=/root"%string].
Proof.
  destruct (localJobExecutor_cmd_env (fun _ => ("ok"%string, None)) sample_local_executor)
    as (cmd & Hcmd & Hout & Henv & _).
  - vm_compute. discriminate.
  - exists cmd. split; [exact Hcmd |]. split; [exact Hout |]. exact Henv.
Defined.

(** ** Strings *)


Lemma append_assoc (a b c : string) : ((a ++ b) ++ c)%string = (a ++ (b ++ c))%string.
Proof. induction a as [| x a IH]; simpl; [reflexivity | rewrite IH; reflexivity]. Qed.

Lemma length_append (a b : string) :
  String.length (a ++ b) = (String.length a + String.length b)%nat.
Proof. induction a as [| x a IH]; simpl; [reflexivity | rewrite IH; reflexivity]. Qed.

Lemma append_fixpoint (s t : string) : (s ++ t)%string = s -> t = EmptyString.
Proof.
  intros H. apply (f_equal String.length) in H. rewrite length_append in H.
  destruct t; [reflexivity | simpl in H; lia].
Qed.

(** ** Strategy-key expansion *)

Lemma strategyKeyContainers_spec (mainContainer : TestJobContainer.t) (sk : StrategyKey.t)
  (keys : list string) :
  forall (idx : Z) (acc : list TestJobContainer.t),
    0 <= idx -> idx + len keys <= GoInt.int_max ->
    strategyKeyContainers mainContainer sk idx keys acc
    = acc ++ imap (fun j key => strategyKeyContainer mainContainer sk (idx + Z.of_nat j) key) keys.
Proof.
  induction keys as [| key keys IH]; intros idx acc Hidx Hmax; simpl.
  - symmetry. apply app_nil_r.
  - assert (Hadd : GoInt.add idx 1 = idx + 1).
    { apply add_in_range. unfold GoInt.in_range, GoInt.int_min, GoInt.int_max, len in *.
      simpl length in Hmax. lia. }
    rewrite Hadd, IH by (unfold len in *; simpl length in Hmax; lia).
    rewrite <- app_assoc. simpl. rewrite Z.add_0_r. do 2 f_equal.
    apply imap_ext. intros j x _. simpl. f_equal. lia.
Qed.

Lemma sideCarContainers_filter (name : string) (containers : list TestJobContainer.t) :
  forall acc : list TestJobContainer.t,
    fold_left
      (fun acc container =>
         if String.eqb (TestJobContainer.Name container) name then acc else acc ++ [container])
      containers acc
    = acc ++ List.filter (fun c => negb (String.eqb (TestJobContainer.Name c) name)) containers.
Proof.
  induction containers as [| c cs IH]; intros acc; simpl.
  - symmetry. apply app_nil_r.
  - rewrite IH. destruct (String.eqb (TestJobContainer.Name c) name); simpl.
    + reflexivity.
    + rewrite <- app_assoc. reflexivity.
Qed.

Lemma addContainersByStrategyKey_spec (podSpec : TestJobPodSpec.t)
  (mainContainer : TestJobContainer.t) (sk : StrategyKey.t) :
  len (StrategyKey.Keys sk) <= GoInt.int_max ->
  TestJobPodSpec.Containers (addContainersByStrategyKey podSpec mainContainer (Some sk))
  = List.filter
      (fun c => negb (String.eqb (TestJobContainer.Name c) (TestJobContainer.Name mainContainer)))
      (TestJobPodSpec.Containers podSpec)
    ++ imap (fun j key => strategyKeyContainer mainContainer sk (Z.of_nat j) key)
         (StrategyKey.Keys sk).
Proof.
  intros Hmax. unfold addContainersByStrategyKey. simpl.
  rewrite sideCarContainers_filter, strategyKeyContainers_spec by lia. reflexivity.
Qed.

Lemma rewritten_fields (volumes : list TestJobVolume.t) (c : TestJobContainer.t) :
  Container_without_mounts (TestJobContainer.Container (rewritten volumes c))
  = Container_without_mounts (TestJobContainer.Container c) /\
  TestJobContainer.Agent (rewritten volumes c) = TestJobContainer.Agent c.
Proof.
  unfold rewritten, newTaskContainer.
  destruct (newTaskContainer_loop _ _ _ _) as [tc vms]. simpl. split; reflexivity.
Qed.

Lemma rewritten_name (volumes : list TestJobVolume.t) (c : TestJobContainer.t) :
  TestJobContainer.Name (rewritten volumes c) = TestJobContainer.Name c.
Proof.
  destruct (rewritten_fields volumes c) as [H _].
  apply (f_equal Container.Name) in H. exact H.
Qed.

(** ** What [buildJob] returns *)

Lemma buildJob_inv (json_Marshal : list string -> result string)
  (backend_error : RunMode -> option error) (rhos : nat -> range_order)
  (b : TaskBuilder.t) (mainContainer : TestJobContainer.t) (tmpl : TestJobTemplateSpec.t)
  (strategyKey : option StrategyKey.t) (job : Job.t) :
  TaskBuilder_buildJob json_Marshal backend_error rhos b mainContainer tmpl strategyKey = Ok job ->
  let buildCtx := buildJob_context mainContainer tmpl strategyKey in
  Pod.Spec (Job.template job) = TaskBuildContext_podSpec (rhos 0%nat) buildCtx /\
  Job.runMode job = TaskBuilder.runMode b /\
  (if TaskBuildContext_needsToPreInit (rhos 2%nat) buildCtx
   then exists callback,
       preInitCallback b (rhos 3%nat) buildCtx = Ok callback /\
       Job.preInit job
       = match TaskBuilder.runMode b with
         | RunModeDryRun => None
         | _ => Some (preInitContainer (rhos 4%nat) (rhos 5%nat) (rhos 6%nat) buildCtx, callback)
         end
   else Job.preInit job = None).
Proof.
  unfold TaskBuilder_buildJob, JobBuilder_BuildWithJob. cbv zeta.
  set (buildCtx := buildJob_context mainContainer tmpl strategyKey).
  intros H.
  destruct (match strategyKey with Some _ => _ | None => _ end) as [annotations | e];
    [| discriminate].
  destruct (backend_error (TaskBuilder.runMode b)); [discriminate |].
  destruct (TaskBuildContext_needsToPreInit (rhos 2%nat) buildCtx).
  - destruct (preInitCallback b (rhos 3%nat) buildCtx) as [callback | e]; [| discriminate].
    injection H as <-. unfold Job.Mount, Job.PreInit.
    destruct (TaskBuilder.runMode b); simpl;
      (split; [reflexivity |]; split; [reflexivity |]; exists callback; split; reflexivity).
  - injection H as <-. unfold Job.Mount.
    destruct (TaskBuilder.runMode b); simpl; repeat split; reflexivity.
Qed.

Lemma buildJob_context_containers (mainContainer : TestJobContainer.t)
  (tmpl : TestJobTemplateSpec.t) (strategyKey : option StrategyKey.t) :
  TestJobPodSpec.Containers (TaskBuildContext.spec (buildJob_context mainContainer tmpl strategyKey))
  = List.map (rewritten (TestJobPodSpec.Volumes (TestJobTemplateSpec.Spec tmpl)))
      (TestJobPodSpec.Containers
         (addContainersByStrategyKey (TestJobTemplateSpec.Spec tmpl) mainContainer strategyKey)).
Proof.
  unfold buildJob_context, newTaskContainerGroup. cbv zeta. simpl.
  destruct strategyKey; reflexivity.
Qed.

(** The containers of the pod a job is built with. *)
Lemma buildJob_pod_containers (json_Marshal : list string -> result string)
  (backend_error : RunMode -> option error) (rhos : nat -> range_order)
  (b : TaskBuilder.t) (mainContainer : TestJobContainer.t) (tmpl : TestJobTemplateSpec.t)
  (strategyKey : option StrategyKey.t) (job : Job.t) :
  TaskBuilder_buildJob json_Marshal backend_error rhos b mainContainer tmpl strategyKey = Ok job ->
  PodSpec.Containers (Pod.Spec (Job.template job))
  = List.map (fun c => TestJobContainer.Container
                         (rewritten (TestJobPodSpec.Volumes (TestJobTemplateSpec.Spec tmpl)) c))
      (TestJobPodSpec.Containers
         (addContainersByStrategyKey (TestJobTemplateSpec.Spec tmpl) mainContainer strategyKey)).
Proof.
  intros H. apply buildJob_inv in H. destruct H as (Hpod & _).
  rewrite Hpod. unfold TaskBuildContext_podSpec. cbv zeta. cbn [PodSpec.Containers].
  rewrite buildJob_context_containers, List.map_map. reflexivity.
Qed.

Lemma strategyKeyContainer_fields (mainContainer : TestJobContainer.t) (sk : StrategyKey.t)
  (idx : Z) (key : string) :
  let clone := TestJobContainer.Container (strategyKeyContainer mainContainer sk idx key) in
  let main := TestJobContainer.Container mainContainer in
  Container.Name clone
  = (Container.Name main ++ (itoa (StrategyKey.ConcurrentIdx sk) ++ "-" ++ itoa idx))%string /\
  Container.Env clone = Container.Env main ++ [EnvVar.mk (StrategyKey.Env sk) key] /\
  Container.Image clone = Container.Image main /\
  Container.Command clone = Container.Command main /\
  Container.Args clone = Container.Args main /\
  Container.WorkingDir clone = Container.WorkingDir main /\
  Container.ImagePullPolicy clone = Container.ImagePullPolicy main.
Proof. simpl. repeat split; reflexivity. Qed.

Lemma strategyKeyContainer_name_fresh (mainContainer : TestJobContainer.t) (sk : StrategyKey.t)
  (idx : Z) (key : string) :
  TestJobContainer.Name (strategyKeyContainer mainContainer sk idx key)
  <> TestJobContainer.Name mainContainer.
Proof.
  unfold TestJobContainer.Name. simpl. intros H. apply append_fixpoint in H.
  apply (f_equal String.length) in H. rewrite length_append in H. simpl in H. lia.
Qed.

Example strategyKey_pod_containers_sample :
  List.map (fun c => (Container.Name c, List.map EnvVar_String (Container.Env c)))
    (PodSpec.Containers (Pod.Spec (Job.template sample_expanded_job)))
  = [("sidecar", []); ("test0-0", ["TEST=A"]); ("test0-1", ["TEST=B"])]%string.
Proof. vm_compute. reflexivity. Qed.

(** ** Dynamic keys *)

Lemma dynamicKeys_fold {Regexp : Type} (trimSpace : string -> string)
  (matchString : Regexp -> string -> bool) (filter : option Regexp) (pieces : list string) :
  forall keys : list string,
    fold_left (dynamicKeys_step Regexp matchString trimSpace filter) pieces keys
    = keys ++ List.filter (key_accepted trimSpace matchString filter) pieces.
Proof.
  induction pieces as [| key pieces IH]; intros keys; simpl.
  - symmetry. apply app_nil_r.
  - rewrite IH. unfold dynamicKeys_step, key_accepted at 2.
    destruct (String.eqb (trimSpace key) EmptyString); simpl; [reflexivity |].
    destruct filter as [f |]; [destruct (matchString f key) |]; simpl;
      rewrite <- ?app_assoc; reflexivity.
Qed.

Section DynamicKeys.

Variable getMainContainerFromTmpl : TestJobTemplateSpec.t -> result TestJobContainer.t.
Variable json_Marshal : list string -> result string.
Variable backend_error : RunMode -> option error.
Variable rhos : Z -> nat -> range_order.
Variable Task_Run : Task.t -> result TaskResult.t.
Variable Regexp : Type.
Variable regexp_Compile : string -> result Regexp.
Variable Regexp_MatchString : Regexp -> string -> bool.
Variable strings_TrimSpace : string -> string.

Let dynamicKeys :=
  TaskScheduler_dynamicKeys getMainContainerFromTmpl json_Marshal backend_error rhos Task_Run
    Regexp regexp_Compile Regexp_MatchString strings_TrimSpace.

Let build (s : TaskScheduler.t) (source : StrategyDynamicKeySource.t) :=
  BuildWithKey getMainContainerFromTmpl json_Marshal backend_error rhos s (-1)
    (StrategyDynamicKeySource.Spec source) None.

(** C3.  Let the key-generating task be built and run.  If it reports
    exactly one main sub-task result, with output out, the keys returned are
    exactly the pieces of strings.Split(out, delim) -- delim being the
    line feed when unset -- whose TrimSpace is non-empty and which match the
    regex filter when one is set, in the order of the pieces (a filter that
    does not compile is reported as an error instead).  If zero or several
    main results are reported, an error and no keys are returned. *)
Theorem dynamicKeys_spec (s : TaskScheduler.t) (source : StrategyDynamicKeySource.t)
  (keyTask : Task.t) (result : TaskResult.t) :
  build s source = Ok keyTask ->
  Task_Run keyTask = Ok result ->
  let delim := if String.eqb (StrategyDynamicKeySource.Delim source) EmptyString
               then String "010"%char EmptyString
               else StrategyDynamicKeySource.Delim source in
  let keys_of (filter : option Regexp) (out : string) :=
    List.filter (key_accepted strings_TrimSpace Regexp_MatchString filter)
      (strings_Split out delim) in
  (forall r : SubTaskResult.t,
     MainTaskResults result = [r] ->
     (StrategyDynamicKeySource.Filter source = EmptyString ->
      dynamicKeys s source = Ok (keys_of None (SubTaskResult.Out r))) /\
     (forall f : Regexp,
        StrategyDynamicKeySource.Filter source <> EmptyString ->
        regexp_Compile (StrategyDynamicKeySource.Filter source) = Ok f ->
        dynamicKeys s source = Ok (keys_of (Some f) (SubTaskResult.Out r))) /\
     (forall e : error,
        StrategyDynamicKeySource.Filter source <> EmptyString ->
        regexp_Compile (StrategyDynamicKeySource.Filter source) = Err e ->
        dynamicKeys s source = Err e)) /\
  (length (MainTaskResults result) <> 1%nat ->
   exists e : error, dynamicKeys s source = Err e).
Proof.
  intros Hbuild Hrun delim keys_of. subst dynamicKeys build keys_of delim.
  unfold TaskScheduler_dynamicKeys. cbv beta in Hbuild. rewrite Hbuild, Hrun. cbv zeta.
  split.
  - intros r Hmain. rewrite Hmain. unfold len. simpl length.
    change (Z.of_nat 1 =? 0) with false. change (Z.of_nat 1 >? 1) with false. cbv iota.
    unfold TaskScheduler_sourceFilter, TaskScheduler_sourceDelim. cbv zeta.
    split; [| split].
    + intros Hf. rewrite Hf. simpl String.eqb. cbv iota.
      rewrite dynamicKeys_fold. reflexivity.
    + intros f Hf Hc. apply String.eqb_neq in Hf. rewrite Hf, Hc.
      rewrite dynamicKeys_fold. reflexivity.
    + intros e Hf Hc. apply String.eqb_neq in Hf. rewrite Hf, Hc. reflexivity.
  - intros Hlen. destruct (MainTaskResults result) as [| r0 [| r1 rest]].
    + eexists. reflexivity.
    + simpl in Hlen. congruence.
    + eexists. unfold len. simpl length.
      assert (E1 : (Z.of_nat (S (S (length rest))) =? 0) = false) by (apply Z.eqb_neq; lia).
      assert (E2 : (Z.of_nat (S (S (length rest))) >? 1) = true) by (apply Z.gtb_lt; lia).
      rewrite E1, E2. reflexivity.
Qed.

End DynamicKeys.

Lemma dynamicKeys_spec_witness :
  sample_dynamicKeys [sample_key_result sample_key_output] (sample_dynamic_source EmptyString EmptyString)
  = Ok ["A"; "B"; "C"]%string /\
  exists e, sample_dynamicKeys [] (sample_dynamic_source EmptyString EmptyString) = Err e.
Proof.
  split.
  - destruct (dynamicKeys_spec sample_getMainContainer (fun _ => Ok "[]"%string) (fun _ => None)
                (fun _ _ => range_sorted)
                (fun _ => Ok (TaskResult.mk [sample_key_result sample_key_output]))
                string (fun s => Ok s) (fun r s => strings_Contains s r) sample_TrimSpace
                (TaskScheduler.mk None sample_builder)
                (sample_dynamic_source EmptyString EmptyString)
                sample_key_task (TaskResult.mk [sample_key_result sample_key_output]))
      as [Hone _].
    + vm_compute. reflexivity.
    + reflexivity.
    + destruct (Hone (sample_key_result sample_key_output) eq_refl) as (Hnofilter & _).
      exact (Hnofilter eq_refl).
  - destruct (dynamicKeys_spec sample_getMainContainer (fun _ => Ok "[]"%string) (fun _ => None)
                (fun _ _ => range_sorted) (fun _ => Ok (TaskResult.mk []))
                string (fun s => Ok s) (fun r s => strings_Contains s r) sample_TrimSpace
                (TaskScheduler.mk None sample_builder)
                (sample_dynamic_source EmptyString EmptyString)
                sample_key_task (TaskResult.mk []))
      as [_ Hnone].
    + vm_compute. reflexivity.
    + reflexivity.
    + apply Hnone. simpl. discriminate.
Defined.

Example dynamicKeys_filtered :
  sample_dynamicKeys [sample_key_result "Ax,Bx,,C, D "%string]
    (sample_dynamic_source "x" ",")
  = Ok ["Ax"; "Bx"]%string.
Proof. vm_compute. reflexivity. Qed.

(** ** Log masking *)

Lemma prefix_nil (s : string) : String.prefix EmptyString s = true.
Proof. destruct s; reflexivity. Qed.

Lemma prefix_cons (x c : ascii) (p t : string) :
  String.prefix (String x p) (String c t) = true <-> x = c /\ String.prefix p t = true.
Proof.
  simpl. destruct (ascii_dec x c) as [-> | Hne]; split.
  - intros H. split; [reflexivity | exact H].
  - intros [_ H]. exact H.
  - discriminate.
  - intros [H _]. contradiction.
Qed.

Lemma prefix_length (p s : string) :
  String.prefix p s = true -> (String.length p <= String.length s)%nat.
Proof.
  revert p. induction s as [| c s IH]; intros [| x p] H; simpl; try lia.
  - discriminate.
  - apply prefix_cons in H. destruct H as [_ H]. apply IH in H. lia.
Qed.

Lemma length_string_drop (n : nat) (s : string) :
  String.length (string_drop n s) = (String.length s - n)%nat.
Proof.
  revert s. induction n as [| n IH]; intros [| c s]; simpl; try reflexivity. apply IH.
Qed.

Lemma Contains_cons (c : ascii) (s m : string) :
  strings_Contains (String c s) m = String.prefix m (String c s) || strings_Contains s m.
Proof. reflexivity. Qed.

Lemma Contains_nil (m : string) : m <> EmptyString -> strings_Contains EmptyString m = false.
Proof. destruct m; [congruence | reflexivity]. Qed.

Lemma Contains_drop (n : nat) (s m : string) :
  strings_Contains (string_drop n s) m = true -> strings_Contains s m = true.
Proof.
  revert s. induction n as [| n IH]; intros [| c s] H; simpl string_drop in H; try exact H.
  rewrite Contains_cons. rewrite (IH s H). apply orb_true_r.
Qed.

Lemma no_star_cons (x : ascii) (p : string) :
  no_star (String x p) = true -> x <> "*"%char /\ no_star p = true.
Proof.
  simpl. intros H. apply andb_true_iff in H. destruct H as [Hx Hp].
  split; [| exact Hp]. apply negb_true_iff, Ascii.eqb_neq in Hx. exact Hx.
Qed.

Lemma Repeat_star_S (n : nat) :
  strings_Repeat "*" (S n) = String "*" (strings_Repeat "*" n).
Proof. reflexivity. Qed.

(** A mask free of ['*'] cannot start inside a run of stars. *)
Lemma Contains_stars (n : nat) (t m : string) :
  m <> EmptyString -> no_star m = true ->
  strings_Contains (strings_Repeat "*" n ++ t) m = true -> strings_Contains t m = true.
Proof.
  intros Hne Hm. induction n as [| n IH]; intros H.
  - exact H.
  - rewrite Repeat_star_S in H. simpl append in H. rewrite Contains_cons in H.
    apply orb_true_iff in H. destruct H as [H | H]; [| exact (IH H)].
    destruct m as [| x m]; [congruence |].
    apply prefix_cons in H. destruct H as [-> _].
    apply no_star_cons in Hm. destruct Hm as [Hx _]. congruence.
Qed.

Section ReplaceByStars.

Variable old : string.
Hypothesis old_nonempty : old <> EmptyString.

Let stars : string := strings_Repeat "*" (String.length old).
Let R (fuel : nat) (s : string) : string := replace_go fuel old stars s.

Lemma stars_head : exists n, stars = String "*" (strings_Repeat "*" n).
Proof.
  subst stars. destruct old as [| c o]; [congruence |]. exists (String.length o). reflexivity.
Qed.

Lemma R_step (fuel : nat) (c : ascii) (s : string) :
  R (S fuel) (String c s)
  = if String.prefix old (String c s)
    then (stars ++ R fuel (string_drop (String.length old) (String c s)))%string
    else String c (R fuel s).
Proof. reflexivity. Qed.

(** A star-free prefix of the rewritten text is a prefix of the text. *)
Lemma prefix_replace (fuel : nat) :
  forall s p : string,
    no_star p = true -> String.prefix p (R fuel s) = true -> String.prefix p s = true.
Proof.
  induction fuel as [| fuel IH]; intros s p Hp H.
  - exact H.
  - destruct p as [| x p]; [apply prefix_nil |].
    destruct s as [| c s]; [exact H |].
    rewrite R_step in H. destruct (String.prefix old (String c s)) eqn:E.
    + destruct stars_head as (n & Hs). rewrite Hs in H. simpl append in H.
      apply prefix_cons in H. destruct H as [-> _].
      apply no_star_cons in Hp. destruct Hp as [Hx _]. congruence.
    + apply prefix_cons in H. destruct H as [-> H]. apply prefix_cons.
      split; [reflexivity |]. apply no_star_cons in Hp. apply (IH s p); tauto.
Qed.

Lemma drop_fuel (fuel : nat) (c : ascii) (s : string) :
  (String.length (String c s) <= S fuel)%nat ->
  (String.length (string_drop (String.length old) (String c s)) <= fuel)%nat.
Proof.
  intros H. rewrite length_string_drop. destruct old as [| o os]; [congruence |].
  simpl in *. lia.
Qed.

(** Rewriting creates no occurrence of a star-free mask. *)
Lemma Contains_replace (fuel : nat) :
  forall s m : string,
    (String.length s <= fuel)%nat -> m <> EmptyString -> no_star m = true ->
    strings_Contains (R fuel s) m = true -> strings_Contains s m = true.
Proof.
  induction fuel as [| fuel IH]; intros s m Hlen Hne Hm H.
  - exact H.
  - destruct s as [| c s]; [exact H |].
    rewrite R_step in H. destruct (String.prefix old (String c s)) eqn:E.
    + apply Contains_stars in H; [| exact Hne | exact Hm].
      apply IH in H; [| apply drop_fuel; exact Hlen | exact Hne | exact Hm].
      apply Contains_drop in H. exact H.
    + rewrite Contains_cons in H. rewrite Contains_cons.
      apply orb_true_iff in H. apply orb_true_iff. destruct H as [H | H].
      * left. apply (prefix_replace (S fuel)); [exact Hm |].
        rewrite R_step, E. exact H.
      * right. apply (IH s m); [simpl in Hlen; lia | exact Hne | exact Hm | exact H].
Qed.

(** After the rewriting, a star-free [old] does not occur any more. *)
Lemma Contains_replace_self (fuel : nat) :
  forall s : string,
    (String.length s <= fuel)%nat -> no_star old = true ->
    strings_Contains (R fuel s) old = false.
Proof.
  induction fuel as [| fuel IH]; intros s Hlen Hold.
  - destruct s; [| simpl in Hlen; lia]. apply Contains_nil. exact old_nonempty.
  - destruct s as [| c s]; [apply Contains_nil; exact old_nonempty |].
    rewrite R_step. destruct (String.prefix old (String c s)) eqn:E.
    + destruct (strings_Contains (stars ++ _) old) eqn:C; [| reflexivity].
      apply Contains_stars in C; [| exact old_nonempty | exact Hold].
      rewrite IH in C; [discriminate | apply drop_fuel; exact Hlen | exact Hold].
    + rewrite Contains_cons, (IH s) by (simpl in Hlen; lia || exact Hold).
      rewrite orb_false_r.
      destruct (String.prefix old (String c (R fuel s))) eqn:P; [| reflexivity].
      assert (P' : String.prefix old (R (S fuel) (String c s)) = true)
        by (rewrite R_step, E; exact P).
      apply prefix_replace in P'; [congruence | exact Hold].
Qed.

Lemma starred_refl (s : string) : starred s s.
Proof. induction s; constructor; assumption. Qed.

Lemma starred_stars (n : nat) :
  forall s t : string,
    (n <= String.length s)%nat -> starred (string_drop n s) t ->
    starred s (strings_Repeat "*" n ++ t).
Proof.
  induction n as [| n IH]; intros s t Hn H.
  - exact H.
  - destruct s as [| c s]; [simpl in Hn; lia |].
    rewrite Repeat_star_S. simpl append. apply starred_mask.
    apply IH; [simpl in Hn; lia | exact H].
Qed.

Lemma starred_replace (fuel : nat) : forall s : string, starred s (R fuel s).
Proof.
  induction fuel as [| fuel IH]; intros s.
  - apply starred_refl.
  - destruct s as [| c s]; [constructor |].
    rewrite R_step. destruct (String.prefix old (String c s)) eqn:E.
    + apply starred_stars; [apply prefix_length; exact E | apply IH].
    + apply starred_keep, IH.
Qed.

End ReplaceByStars.

Lemma mask_step_cases (s old : string) :
  mask_step s old = s \/
  (old <> EmptyString /\
   mask_step s old
   = replace_go (String.length s) old (strings_Repeat "*" (String.length old)) s).
Proof.
  unfold mask_step, strings_Replace.
  destruct (String.eqb old (strings_Repeat "*" (String.length old))) eqn:E; [left; reflexivity |].
  destruct old as [| c o]; [discriminate E |]. right. split; [congruence | reflexivity].
Qed.

Lemma mask_step_preserves (s old m : string) :
  m <> EmptyString -> no_star m = true ->
  strings_Contains (mask_step s old) m = true -> strings_Contains s m = true.
Proof.
  intros Hne Hm H. destruct (mask_step_cases s old) as [E | [Hold E]]; rewrite E in H;
    [exact H |].
  apply (Contains_replace old Hold (String.length s)); [lia | exact Hne | exact Hm | exact H].
Qed.

Lemma mask_step_removes (s old : string) :
  old <> EmptyString -> no_star old = true ->
  strings_Contains (mask_step s old) old = false.
Proof.
  intros Hne Hold. unfold mask_step, strings_Replace.
  destruct (String.eqb old (strings_Repeat "*" (String.length old))) eqn:E.
  - apply String.eqb_eq in E. destruct old as [| c o]; [congruence |].
    simpl String.length in E. rewrite Repeat_star_S in E. injection E as -> _.
    apply no_star_cons in Hold. destruct Hold as [Hc _]. congruence.
  - destruct old as [| c o]; [congruence |].
    apply (Contains_replace_self (String c o) Hne (String.length s)); [lia | exact Hold].
Qed.

Lemma mask_step_starred (s old : string) : starred s (mask_step s old).
Proof.
  destruct (mask_step_cases s old) as [E | [Hold E]]; rewrite E.
  - apply starred_refl.
  - apply starred_replace.
Qed.

Lemma starred_trans (a b c : string) : starred a b -> starred b c -> starred a c.
Proof.
  intros Hab. revert c. induction Hab as [| x s t Hst IH | x s t Hst IH]; intros c Hbc.
  - exact Hbc.
  - inversion Hbc; subst; constructor; apply IH; assumption.
  - inversion Hbc; subst; constructor; apply IH; assumption.
Qed.

Lemma starred_length (a b : string) : starred a b -> String.length b = String.length a.
Proof. induction 1; simpl; congruence. Qed.

Lemma mask_fold_preserves (masks : list string) (m : string) :
  m <> EmptyString -> no_star m = true ->
  forall msg : string,
    strings_Contains (fold_left mask_step masks msg) m = true ->
    strings_Contains msg m = true.
Proof.
  intros Hne Hm. induction masks as [| old masks IH]; intros msg H; simpl in H.
  - exact H.
  - apply IH in H. apply (mask_step_preserves msg old m Hne Hm H).
Qed.

Lemma mask_fold_starred (masks : list string) :
  forall msg : string, starred msg (fold_left mask_step masks msg).
Proof.
  induction masks as [| old masks IH]; intros msg; simpl.
  - apply starred_refl.
  - apply (starred_trans _ (mask_step msg old)); [apply mask_step_starred | apply IH].
Qed.

Example MaskedMessage_Filter_sample :
  MaskedMessage_Filter (newMaskedMessage EmptyString ["s3cr3t"; "tok"]%string)
    "Bearer s3cr3t, tok and s3cr3tok"
  = "Bearer ******, *** and ******ok"%string.
Proof. vm_compute. reflexivity. Qed.

(** ** Task containers and their groups *)

Lemma hasTestVolumeMount_iff (tc : TaskContainer.t) :
  TaskContainer_hasTestVolumeMount tc = true <-> TaskContainer.preInitVolumeMountMap tc <> ∅.
Proof.
  unfold TaskContainer_hasTestVolumeMount, len.
  rewrite <- (map_to_list_empty_iff (TaskContainer.preInitVolumeMountMap tc)).
  destruct (map_to_list (TaskContainer.preInitVolumeMountMap tc)) as [| kv l]; simpl length.
  - split; [discriminate | congruence].
  - split; [discriminate | intros _; apply Z.gtb_lt; lia].
Qed.

(** One mount either adds an entry to the pre-init mounts (a test volume)
    or leaves them as they are (a raw volume). *)
Lemma newTaskContainer_step_preInit (vols : gmap string TestJobVolume.t)
  (tc : TaskContainer.t) (vm : VolumeMount.t) :
  let tc' := fst (newTaskContainer_step vols tc vm) in
  if is_test_volume (lookup_volume vols (VolumeMount.Name vm))
  then exists k v, TaskContainer.preInitVolumeMountMap tc'
                   = <[k := v]> (TaskContainer.preInitVolumeMountMap tc)
  else TaskContainer.preInitVolumeMountMap tc' = TaskContainer.preInitVolumeMountMap tc.
Proof.
  unfold newTaskContainer_step, is_test_volume. cbv zeta.
  destruct (lookup_volume vols (VolumeMount.Name vm)) as [vname repo artifact token log report src].
  simpl.
  destruct repo as [r |]; [simpl; eauto |].
  destruct artifact as [a |]; [simpl; eauto |].
  destruct token as [t |]; [simpl; eauto |].
  destruct log; [simpl; eauto |].
  destruct report; simpl; eauto.
Qed.

Lemma newTaskContainer_loop_preInit (vols : gmap string TestJobVolume.t)
  (todo : list VolumeMount.t) :
  forall (tc : TaskContainer.t) (done : list VolumeMount.t),
    TaskContainer.preInitVolumeMountMap (fst (newTaskContainer_loop vols tc done todo)) <> ∅
    <-> (TaskContainer.preInitVolumeMountMap tc <> ∅ \/
         existsb (fun vm => is_test_volume (lookup_volume vols (VolumeMount.Name vm))) todo = true).
Proof.
  induction todo as [| vm todo IH]; intros tc done; simpl.
  - split; [intros H; left; exact H | intros [H | H]; [exact H | discriminate]].
  - pose proof (newTaskContainer_step_preInit vols tc vm) as Hstep. cbv zeta in Hstep.
    destruct (newTaskContainer_step vols tc vm) as [tc' vm'] eqn:E. simpl in Hstep.
    rewrite IH.
    destruct (is_test_volume (lookup_volume vols (VolumeMount.Name vm))); simpl.
    + destruct Hstep as (k & v & ->). split; intros _; [right; reflexivity |].
      left. apply insert_non_empty.
    + rewrite Hstep. reflexivity.
Qed.

Lemma newTaskContainer_hasTestVolumeMount (c : TestJobContainer.t)
  (volumes : list TestJobVolume.t) :
  TaskContainer_hasTestVolumeMount (newTaskContainer c volumes) = declares_test_volume volumes c.
Proof.
  apply eq_true_iff_eq. rewrite hasTestVolumeMount_iff.
  unfold newTaskContainer, declares_test_volume. cbv zeta.
  pose proof (newTaskContainer_loop_preInit (volumeNameToVolume volumes)
                (Container.VolumeMounts (TestJobContainer.Container c))
                (TaskContainer.mk c ∅ ∅ ∅ ∅ ∅ ∅ [] [] ∅ ∅) []) as H.
  destruct (newTaskContainer_loop _ _ _ _) as [tc vms]. simpl in *.
  rewrite H. split; [intros [Hm | He]; [congruence | exact He] | intros He; right; exact He].
Qed.

Section GroupOfContainers.

Variable volumes : list TestJobVolume.t.

Let build (c : TestJobContainer.t) : TaskContainer.t := newTaskContainer c volumes.
Let ins (m : gmap string TaskContainer.t) (c : TestJobContainer.t) :=
  <[TestJobContainer.Name c := build c]> m.

Lemma containerMap_lookup_Some (containers : list TestJobContainer.t) :
  forall (m : gmap string TaskContainer.t) (k : string) (tc : TaskContainer.t),
    fold_left ins containers m !! k = Some tc ->
    (exists c, In c containers /\ TestJobContainer.Name c = k /\ tc = build c) \/
    m !! k = Some tc.
Proof.
  induction containers as [| c0 cs IH]; intros m k tc H; simpl in H.
  - right. exact H.
  - apply IH in H. destruct H as [(c & Hin & Hk & Htc) | H].
    + left. exists c. split; [right; exact Hin | split; assumption].
    + unfold ins in H. destruct (decide (TestJobContainer.Name c0 = k)) as [Hk | Hk].
      * rewrite Hk, lookup_insert_eq in H. injection H as <-.
        left. exists c0. split; [left; reflexivity | split; [exact Hk | reflexivity]].
      * rewrite lookup_insert_ne in H by exact Hk. right. exact H.
Qed.

Lemma containerMap_lookup_other (containers : list TestJobContainer.t) :
  forall (m : gmap string TaskContainer.t) (k : string),
    ~ In k (List.map TestJobContainer.Name containers) ->
    fold_left ins containers m !! k = m !! k.
Proof.
  induction containers as [| c0 cs IH]; intros m k Hk; simpl.
  - reflexivity.
  - simpl in Hk. rewrite IH by tauto. unfold ins. apply lookup_insert_ne. tauto.
Qed.

Lemma containerMap_lookup_In (containers : list TestJobContainer.t) :
  forall (m : gmap string TaskContainer.t) (c : TestJobContainer.t),
    List.NoDup (List.map TestJobContainer.Name containers) ->
    In c containers ->
    fold_left ins containers m !! TestJobContainer.Name c = Some (build c).
Proof.
  induction containers as [| c0 cs IH]; intros m c Hnd Hin; simpl.
  - destruct Hin.
  - simpl in Hnd. apply List.NoDup_cons_iff in Hnd. destruct Hnd as [Hc0 Hnd].
    destruct Hin as [<- | Hin].
    + rewrite containerMap_lookup_other by exact Hc0. unfold ins. apply lookup_insert_eq.
    + apply IH; assumption.
Qed.

(** The task containers a [range] over the group's map meets are those of
    the listed containers. *)
Lemma group_range_In (rho : range_order) (containers : list TestJobContainer.t)
  (tc : TaskContainer.t) :
  range_order_ok rho ->
  In tc (group_range rho (fst (newTaskContainerGroup containers volumes))) ->
  exists c, In c containers /\ tc = newTaskContainer c volumes.
Proof.
  intros Hrho Hin. unfold group_range, newTaskContainerGroup in Hin. simpl in Hin.
  apply in_map_iff in Hin. destruct Hin as ([k tc'] & Htc & Hin). simpl in Htc. subst tc'.
  apply (Permutation_in _ (Hrho _ _)) in Hin.
  apply list_elem_of_In, elem_of_map_to_list in Hin.
  apply containerMap_lookup_Some in Hin. destruct Hin as [(c & Hc & _ & Htc) | Hin].
  - exists c. split; assumption.
  - rewrite lookup_empty in Hin. discriminate.
Qed.

Lemma group_range_build (rho : range_order) (containers : list TestJobContainer.t)
  (c : TestJobContainer.t) :
  range_order_ok rho ->
  List.NoDup (List.map TestJobContainer.Name containers) ->
  In c containers ->
  In (newTaskContainer c volumes)
    (group_range rho (fst (newTaskContainerGroup containers volumes))).
Proof.
  intros Hrho Hnd Hin. unfold group_range, newTaskContainerGroup. simpl.
  apply in_map_iff. exists (TestJobContainer.Name c, newTaskContainer c volumes).
  split; [reflexivity |].
  apply (Permutation_in _ (Permutation_sym (Hrho _ _))).
  apply list_elem_of_In, elem_of_map_to_list.
  apply (containerMap_lookup_In containers ∅ c Hnd Hin).
Qed.

(** A group has a test volume mount iff one of its containers declares
    one. *)
Lemma group_hasTestVolumeMount (rho : range_order) (containers : list TestJobContainer.t) :
  range_order_ok rho ->
  List.NoDup (List.map TestJobContainer.Name containers) ->
  TaskContainerGroup_hasTestVolumeMount rho (fst (newTaskContainerGroup containers volumes)) = true
  <-> exists c, In c containers /\ declares_test_volume volumes c = true.
Proof.
  intros Hrho Hnd. unfold TaskContainerGroup_hasTestVolumeMount. rewrite existsb_exists. split.
  - intros (tc & Hin & Hhas). apply group_range_In in Hin; [| exact Hrho].
    destruct Hin as (c & Hc & ->). exists c. split; [exact Hc |].
    rewrite <- newTaskContainer_hasTestVolumeMount. exact Hhas.
  - intros (c & Hc & Hdecl). exists (newTaskContainer c volumes). split.
    + apply group_range_build; assumption.
    + rewrite newTaskContainer_hasTestVolumeMount. exact Hdecl.
Qed.


End GroupOfContainers.

(** ** The pre-init container *)

Lemma buildJob_context_groups (mainContainer : TestJobContainer.t)
  (tmpl : TestJobTemplateSpec.t) (strategyKey : option StrategyKey.t) :
  let spec := addContainersByStrategyKey (TestJobTemplateSpec.Spec tmpl) mainContainer strategyKey in
  let ctx := buildJob_context mainContainer tmpl strategyKey in
  TaskBuildContext.initContainers ctx
  = fst (newTaskContainerGroup (TestJobPodSpec.InitContainers spec) (TestJobPodSpec.Volumes spec)) /\
  TaskBuildContext.containers ctx
  = fst (newTaskContainerGroup (TestJobPodSpec.Containers spec) (TestJobPodSpec.Volumes spec)) /\
  TaskBuildContext.finalizerContainers ctx
  = fst (newTaskContainerGroup [TestJobPodSpec.FinalizerContainer spec]
           (TestJobPodSpec.Volumes spec)).
Proof. unfold buildJob_context, newTaskContainerGroup. simpl. repeat split; reflexivity. Qed.

Section PreInit.

Variable volumes : list TestJobVolume.t.
Variables inits mains : list TestJobContainer.t.
Variable fin : TestJobContainer.t.
Hypothesis inits_distinct : List.NoDup (List.map TestJobContainer.Name inits).
Hypothesis mains_distinct : List.NoDup (List.map TestJobContainer.Name mains).

Let initG := fst (newTaskContainerGroup inits volumes).
Let mainG := fst (newTaskContainerGroup mains volumes).
Let finG := fst (newTaskContainerGroup [fin] volumes).
Let declares := declares_test_volume volumes.

Lemma needsToPreInit_iff (rho : range_order) (spec : TestJobPodSpec.t) :
  range_order_ok rho ->
  TaskBuildContext_needsToPreInit rho (TaskBuildContext.mk initG mainG finG spec) = true
  <-> exists c, In c (inits ++ mains ++ [fin]) /\ declares c = true.
Proof.
  intros Hrho. unfold TaskBuildContext_needsToPreInit. simpl.
  rewrite !orb_true_iff.
  subst initG mainG finG declares.
  rewrite !group_hasTestVolumeMount;
    [| exact Hrho | repeat constructor; simpl; tauto | exact Hrho | exact mains_distinct
     | exact Hrho | exact inits_distinct].
  split.
  - intros [[(c & Hc & Hd) | (c & Hc & Hd)] | (c & Hc & Hd)]; exists c; split; try exact Hd;
      rewrite !in_app_iff; tauto.
  - intros (c & Hc & Hd). rewrite !in_app_iff in Hc.
    destruct Hc as [Hc | [Hc | Hc]]; [left; left | left; right | right]; exists c; tauto.
Qed.


End PreInit.


Lemma sample_mixed_rhos_ok : forall n : nat, range_order_ok (sample_mixed_rhos n).
Proof.
  intros n. unfold sample_mixed_rhos. destruct (n =? 6)%nat;
    [apply range_reversed_ok | apply range_sorted_ok].
Qed.


(** The image and the pull policy are chosen by two separate loops: when
    these meet the init containers in different orders, the image is that
    of one container and the pull policy that of another. *)
Example preInit_image_and_policy_of_different_containers :
  (forall n : nat, range_order_ok (sample_mixed_rhos n)) /\
  exists pre callback,
    Job.preInit sample_mixed_job = Some (pre, callback) /\
    Container.Image (TestJobContainer.Container pre)
    = Container.Image (TestJobContainer.Container sample_setup) /\
    Container.ImagePullPolicy (TestJobContainer.Container pre)
    = Container.ImagePullPolicy (TestJobContainer.Container sample_fetch) /\
    Container.ImagePullPolicy (TestJobContainer.Container pre)
    <> Container.ImagePullPolicy (TestJobContainer.Container sample_setup).
Proof.
  split; [exact sample_mixed_rhos_ok |].
  eexists. eexists. split; [vm_compute; reflexivity |].
  split; [reflexivity |]. split; [reflexivity |]. discriminate.
Qed.

(** When only the finalizer mounts a test volume, the pre-init container
    is added but no image is found for it: [preInitImage] asks the init
    and main groups only. *)
Example preInit_image_ignores_finalizer :
  exists pre callback,
    Job.preInit sample_finalizer_job = Some (pre, callback) /\
    Container.Image (TestJobContainer.Container pre) = EmptyString /\
    Container.Image (TestJobContainer.Container sample_finalizer) = "busybox"%string.
Proof.
  eexists. eexists. split; [vm_compute; reflexivity |]. split; reflexivity.
Qed.





(** ** Paths *)

Lemma split_char_nonempty (sep : ascii) (s : string) : split_char sep s <> [].
Proof.
  induction s as [| c s IH]; simpl; [discriminate |].
  destruct (Ascii.eqb c sep); [discriminate |].
  destruct (split_char sep s); [congruence | discriminate].
Qed.

Lemma split_char_segment (s : string) : no_slash s = true -> split_char "/" s = [s].
Proof.
  induction s as [| c s IH]; intros H; simpl in *; [reflexivity |].
  apply andb_true_iff in H. destruct H as [Hc Hs]. apply negb_true_iff in Hc.
  rewrite Hc, (IH Hs). reflexivity.
Qed.

Lemma split_char_app (a b : string) :
  split_char "/" (a ++ String "/" b) = split_char "/" a ++ split_char "/" b.
Proof.
  induction a as [| c a IH]; simpl.
  - reflexivity.
  - rewrite IH. destruct (Ascii.eqb c "/"); [reflexivity |].
    pose proof (split_char_nonempty "/" a) as Hne.
    destruct (split_char "/" a) as [| x xs]; [congruence | reflexivity].
Qed.

Lemma path_segment_inv (s : string) :
  path_segment s = true ->
  no_slash s = true /\ String.eqb s EmptyString = false /\ String.eqb s "." = false
  /\ String.eqb s ".." = false.
Proof.
  unfold path_segment. rewrite !andb_true_iff, !negb_true_iff. tauto.
Qed.

Lemma clean_step_segment (rooted : bool) (stack : list string) (s : string) :
  path_segment s = true -> clean_step rooted stack s = s :: stack.
Proof.
  intros H. apply path_segment_inv in H. destruct H as (_ & H1 & H2 & H3).
  unfold clean_step. rewrite H1, H2, H3. reflexivity.
Qed.

(** The staging directory of a repository volume and the archive in it. *)
Lemma Clean_rooted (c : ascii) (rest : string) :
  Ascii.eqb c "/" = true ->
  filepath_Clean (String c rest)
  = ("/" ++ String.concat "/" (rev (fold_left (clean_step true) (split_char "/" (String c rest)) [])))%string.
Proof.
  intros Hc. unfold filepath_Clean. 
  change (String.eqb (String c rest) EmptyString) with false. cbv iota.
  unfold is_rooted. rewrite Hc. reflexivity.
Qed.

Lemma repo_archive_path (V : string) :
  path_segment V = true ->
  filepath_Join ["/"; "tmp"; "repo-archive"; V]%string = ("/tmp/repo-archive/" ++ V)%string.
Proof.
  intros HV. pose proof (path_segment_inv V HV) as (Hns & _).
  unfold filepath_Join. 
  change (dropwhile_empty ["/"; "tmp"; "repo-archive"; V]%string) with ["/"; "tmp"; "repo-archive"; V]%string.
  cbv iota.
  change (strings_Join ["/"; "tmp"; "repo-archive"; V]%string "/")
    with (String "/" ("/tmp/repo-archive" ++ String "/" V))%string.
  rewrite Clean_rooted by reflexivity.
  change (String "/" ("/tmp/repo-archive" ++ String "/" V))%string
    with ("//tmp/repo-archive" ++ String "/" V)%string.
  rewrite split_char_app, (split_char_segment V Hns).
  change (split_char "/" "//tmp/repo-archive") with [""; ""; "tmp"; "repo-archive"]%string.
  rewrite fold_left_app.
  change (fold_left (clean_step true) [""; ""; "tmp"; "repo-archive"]%string [])
    with ["repo-archive"; "tmp"]%string.
  cbn [fold_left]. rewrite clean_step_segment by exact HV.
  reflexivity.
Qed.

Lemma repo_archive_file (V : string) :
  path_segment V = true ->
  filepath_Join [("/tmp/repo-archive/" ++ V)%string; "repo.tar.gz"%string]
  = ("/tmp/repo-archive/" ++ V ++ "/repo.tar.gz")%string.
Proof.
  intros HV. pose proof (path_segment_inv V HV) as (Hns & _).
  unfold filepath_Join.
  change (dropwhile_empty [("/tmp/repo-archive/" ++ V)%string; "repo.tar.gz"%string])
    with [("/tmp/repo-archive/" ++ V)%string; "repo.tar.gz"%string].
  cbv iota.
  change (strings_Join [("/tmp/repo-archive/" ++ V)%string; "repo.tar.gz"%string] "/")
    with (String "/" ("tmp/repo-archive" ++ String "/" (V ++ String "/" "repo.tar.gz")))%string.
  rewrite Clean_rooted by reflexivity.
  change (String "/" ("tmp/repo-archive" ++ String "/" (V ++ String "/" "repo.tar.gz")))%string
    with ("/tmp/repo-archive" ++ String "/" (V ++ String "/" "repo.tar.gz"))%string.
  rewrite !split_char_app, (split_char_segment V Hns).
  change (split_char "/" "/tmp/repo-archive") with [""; "tmp"; "repo-archive"]%string.
  change (split_char "/" "repo.tar.gz") with ["repo.tar.gz"]%string.
  rewrite !fold_left_app.
  change (fold_left (clean_step true) [""; "tmp"; "repo-archive"]%string [])
    with ["repo-archive"; "tmp"]%string.
  cbn [fold_left]. rewrite (clean_step_segment true _ V HV).
  change (clean_step true (V :: ["repo-archive"; "tmp"]%string) "repo.tar.gz")
    with ("repo.tar.gz" :: V :: ["repo-archive"; "tmp"])%string.
  cbn [rev app]. cbn [String.concat]. reflexivity.
Qed.

(** ** Volume mounts of a task container *)

Lemma volumeNameToVolume_name (volumes : list TestJobVolume.t) (k : string)
  (v : TestJobVolume.t) :
  volumeNameToVolume volumes !! k = Some v -> TestJobVolume.Name v = k.
Proof.
  unfold volumeNameToVolume.
  assert (H : forall (m : gmap string TestJobVolume.t),
             (forall k v, m !! k = Some v -> TestJobVolume.Name v = k) ->
             forall k v, fold_left (fun m volume => <[TestJobVolume.Name volume := volume]> m)
                           volumes m !! k = Some v -> TestJobVolume.Name v = k).
  { induction volumes as [| v0 vs IH]; intros m Hm k' v' Hl; simpl in Hl.
    - apply (Hm k' v' Hl).
    - apply (IH (<[TestJobVolume.Name v0 := v0]> m)); [| exact Hl].
      intros k0 v1 Hk.
      destruct (decide (TestJobVolume.Name v0 = k0)) as [Heq | Hne].
      + rewrite <- Heq, lookup_insert_eq in Hk. congruence.
      + rewrite lookup_insert_ne in Hk by exact Hne. apply (Hm _ _ Hk). }
  apply H. intros k0 v0 Hk. rewrite lookup_empty in Hk. discriminate.
Qed.

Lemma lookup_volume_name (volumes : list TestJobVolume.t) (name : string) :
  let v := lookup_volume (volumeNameToVolume volumes) name in
  TestJobVolume.Name v = name \/ v = TestJobVolume.zero.
Proof.
  unfold lookup_volume. destruct (volumeNameToVolume volumes !! name) as [v |] eqn:E; cbv zeta.
  - left. apply (volumeNameToVolume_name volumes name v E).
  - right. reflexivity.
Qed.

Lemma newTaskContainer_step_mount (vols : gmap string TestJobVolume.t)
  (tc : TaskContainer.t) (vm : VolumeMount.t) :
  snd (newTaskContainer_step vols tc vm) = rewritten_mount vols vm.
Proof.
  unfold rewritten_mount, newTaskContainer_step. cbv zeta.
  destruct (lookup_volume vols (VolumeMount.Name vm)) as [vname repo artifact token log report src].
  simpl. destruct repo, artifact, token, log, report; reflexivity.
Qed.

Lemma newTaskContainer_loop_mounts (vols : gmap string TestJobVolume.t)
  (todo : list VolumeMount.t) :
  forall (tc : TaskContainer.t) (done : list VolumeMount.t),
    snd (newTaskContainer_loop vols tc done todo) = done ++ List.map (rewritten_mount vols) todo.
Proof.
  induction todo as [| vm todo IH]; intros tc done; simpl.
  - symmetry. apply app_nil_r.
  - pose proof (newTaskContainer_step_mount vols tc vm) as Hs.
    destruct (newTaskContainer_step vols tc vm) as [tc' vm']. simpl in Hs. subst vm'.
    rewrite IH, <- app_assoc. reflexivity.
Qed.

Lemma newTaskContainer_loop_app (vols : gmap string TestJobVolume.t)
  (a b : list VolumeMount.t) :
  forall (tc : TaskContainer.t) (done : list VolumeMount.t),
    newTaskContainer_loop vols tc done (a ++ b)
    = newTaskContainer_loop vols (fst (newTaskContainer_loop vols tc done a))
        (snd (newTaskContainer_loop vols tc done a)) b.
Proof.
  induction a as [| vm a IH]; intros tc done; simpl.
  - reflexivity.
  - destruct (newTaskContainer_step vols tc vm) as [tc' vm']. apply IH.
Qed.

(** A property of the task container that every iteration over mounts
    satisfying [Q] preserves holds after the loop. *)
Lemma newTaskContainer_loop_preserves (vols : gmap string TestJobVolume.t)
  (P : TaskContainer.t -> Prop) (Q : VolumeMount.t -> Prop) :
  (forall tc vm, Q vm -> P tc -> P (fst (newTaskContainer_step vols tc vm))) ->
  forall (todo : list VolumeMount.t) (tc : TaskContainer.t) (done : list VolumeMount.t),
    Forall Q todo -> P tc -> P (fst (newTaskContainer_loop vols tc done todo)).
Proof.
  intros Hstep. induction todo as [| vm todo IH]; intros tc done HQ HP; simpl.
  - exact HP.
  - apply Forall_cons_1 in HQ. destruct HQ as [Hvm Htodo].
    pose proof (Hstep tc vm Hvm HP) as HP'.
    destruct (newTaskContainer_step vols tc vm) as [tc' vm']. simpl in HP'.
    apply IH; assumption.
Qed.

Lemma newTaskContainer_fields (c : TestJobContainer.t) (volumes : list TestJobVolume.t) :
  let loop := newTaskContainer_loop (volumeNameToVolume volumes)
                (TaskContainer.mk c ∅ ∅ ∅ ∅ ∅ ∅ [] [] ∅ ∅) []
                (Container.VolumeMounts (TestJobContainer.Container c)) in
  let tc := newTaskContainer c volumes in
  TaskContainer.repoNameToArchiveMountPath tc = TaskContainer.repoNameToArchiveMountPath (fst loop) /\
  TaskContainer.repoNameToOrgMountPath tc = TaskContainer.repoNameToOrgMountPath (fst loop) /\
  TaskContainer.podSpecVolumeMap tc = TaskContainer.podSpecVolumeMap (fst loop) /\
  Container.VolumeMounts (TestJobContainer.Container (TaskContainer.container tc))
  = List.map (rewritten_mount (volumeNameToVolume volumes))
      (Container.VolumeMounts (TestJobContainer.Container c)).
Proof.
  cbv zeta. unfold newTaskContainer. cbv zeta.
  pose proof (newTaskContainer_loop_mounts (volumeNameToVolume volumes)
                (Container.VolumeMounts (TestJobContainer.Container c))
                (TaskContainer.mk c ∅ ∅ ∅ ∅ ∅ ∅ [] [] ∅ ∅) []) as Hm.
  destruct (newTaskContainer_loop _ _ _ _) as [tc vms]. simpl in *.
  repeat split; try reflexivity. exact Hm.
Qed.

Section RepoMount.

Variable volumes : list TestJobVolume.t.
Variable V : string.
Variable volume : TestJobVolume.t.
Variable repoName : string.
Hypothesis V_volume : volumeNameToVolume volumes !! V = Some volume.
Hypothesis volume_repo : TestJobVolume.Repo volume = Some repoName.
Hypothesis V_segment : path_segment V = true.

Let vols := volumeNameToVolume volumes.
Let staging : string := ("/tmp/repo-archive/" ++ V)%string.

Lemma repo_volume_name : TestJobVolume.Name volume = V.
Proof. apply (volumeNameToVolume_name volumes V volume V_volume). Qed.

Lemma repo_volume_lookup : lookup_volume vols V = volume.
Proof. unfold lookup_volume, vols. rewrite V_volume. reflexivity. Qed.

Lemma V_nonempty : V <> EmptyString.
Proof.
  pose proof (path_segment_inv V V_segment) as (_ & H & _).
  apply String.eqb_neq. exact H.
Qed.

(** A mount whose volume is named [V] resolves to [volume]. *)
Lemma lookup_volume_named_V (name : string) :
  TestJobVolume.Name (lookup_volume vols name) = V -> lookup_volume vols name = volume.
Proof.
  intros H. destruct (lookup_volume_name volumes name) as [Hn | Hz];
    [fold vols in Hn | fold vols in Hz].
  - rewrite H in Hn. subst name. apply repo_volume_lookup.
  - rewrite Hz in H. simpl in H. pose proof V_nonempty. congruence.
Qed.

(** The iteration over a mount of the volume [V]. *)
Lemma newTaskContainer_step_repo (tc : TaskContainer.t) (vm : VolumeMount.t) :
  VolumeMount.Name vm = V ->
  let tc' := fst (newTaskContainer_step vols tc vm) in
  TaskContainer.repoNameToArchiveMountPath tc'
  = <[repoName := staging]> (TaskContainer.repoNameToArchiveMountPath tc) /\
  TaskContainer.repoNameToOrgMountPath tc'
  = <[repoName := VolumeMount.MountPath vm]> (TaskContainer.repoNameToOrgMountPath tc) /\
  TaskContainer.podSpecVolumeMap tc'
  = <[V := emptyDirVolume V]> (TaskContainer.podSpecVolumeMap tc) /\
  snd (newTaskContainer_step vols tc vm) = VolumeMount.with_MountPath vm staging.
Proof.
  intros Hname. unfold newTaskContainer_step. cbv zeta.
  rewrite Hname, repo_volume_lookup, volume_repo, repo_volume_name.
  rewrite (repo_archive_path V V_segment). simpl. repeat split; reflexivity.
Qed.

Lemma rewritten_mount_repo (vm : VolumeMount.t) :
  VolumeMount.Name vm = V ->
  rewritten_mount vols vm = VolumeMount.with_MountPath vm staging.
Proof.
  intros Hname. unfold rewritten_mount.
  apply (newTaskContainer_step_repo _ vm Hname).
Qed.

(** Once the pod volume [V] is the emptyDir, it stays so. *)
Lemma podSpecVolume_preserved (tc : TaskContainer.t) (vm : VolumeMount.t) :
  TaskContainer.podSpecVolumeMap tc !! V = Some (emptyDirVolume V) ->
  TaskContainer.podSpecVolumeMap (fst (newTaskContainer_step vols tc vm)) !! V
  = Some (emptyDirVolume V).
Proof.
  intros H.
  destruct (decide (TestJobVolume.Name (lookup_volume vols (VolumeMount.Name vm)) = V))
    as [HK | HK].
  - pose proof (lookup_volume_named_V _ HK) as Hv.
    unfold newTaskContainer_step. cbv zeta.
    rewrite Hv, volume_repo, repo_volume_name. simpl. apply lookup_insert_eq.
  - unfold newTaskContainer_step. cbv zeta.
    destruct (lookup_volume vols (VolumeMount.Name vm))
      as [vname repo artifact token log report src]. simpl in HK.
    destruct repo, artifact, token, log, report; simpl;
      rewrite lookup_insert_ne by exact HK; exact H.
Qed.

(** The entries of the repository survive the mounts of other
    repositories and of other kinds of volume. *)
Lemma repo_entries_preserved (P : string) (tc : TaskContainer.t) (vm : VolumeMount.t) :
  TestJobVolume.Repo (lookup_volume vols (VolumeMount.Name vm)) <> Some repoName ->
  TaskContainer.repoNameToArchiveMountPath tc !! repoName = Some staging /\
  TaskContainer.repoNameToOrgMountPath tc !! repoName = Some P ->
  TaskContainer.repoNameToArchiveMountPath (fst (newTaskContainer_step vols tc vm)) !! repoName
  = Some staging /\
  TaskContainer.repoNameToOrgMountPath (fst (newTaskContainer_step vols tc vm)) !! repoName
  = Some P.
Proof.
  intros Hother [Ha Ho]. unfold newTaskContainer_step. cbv zeta.
  destruct (lookup_volume vols (VolumeMount.Name vm))
    as [vname repo artifact token log report src]. simpl in Hother.
  destruct repo as [r |].
  - simpl. rewrite !lookup_insert_ne by congruence. split; assumption.
  - destruct artifact, token, log, report; simpl; split; assumption.
Qed.

End RepoMount.

(** Every repository with a staging path has an original mount path. *)
Lemma repo_maps_same_keys (vols : gmap string TestJobVolume.t) (tc : TaskContainer.t)
  (vm : VolumeMount.t) :
  (forall k, is_Some (TaskContainer.repoNameToArchiveMountPath tc !! k) ->
             is_Some (TaskContainer.repoNameToOrgMountPath tc !! k)) ->
  forall k,
    is_Some (TaskContainer.repoNameToArchiveMountPath (fst (newTaskContainer_step vols tc vm)) !! k) ->
    is_Some (TaskContainer.repoNameToOrgMountPath (fst (newTaskContainer_step vols tc vm)) !! k).
Proof.
  intros H k. unfold newTaskContainer_step. cbv zeta.
  destruct (lookup_volume vols (VolumeMount.Name vm))
    as [vname repo artifact token log report src].
  destruct repo as [r |].
  - simpl. destruct (decide (r = k)) as [-> | Hne].
    + rewrite !lookup_insert_eq. eauto.
    + rewrite !lookup_insert_ne by exact Hne. apply H.
  - destruct artifact, token, log, report; simpl; apply H.
Qed.

(** When no [PrepareCommand] fails, [mountRepository] issues one command
    per repository of the task container. *)
Lemma mountRepository_loop_all (tc : TaskContainer.t) (exec : JobExecutor.t)
  (entries : list (string * string)) :
  (forall cmd, snd (JobExecutor.PrepareCommand exec cmd) = None) ->
  (forall k a, In (k, a) entries -> is_Some (TaskContainer.repoNameToOrgMountPath tc !! k)) ->
  forall issued : list (list string),
    mountRepository_loop tc exec entries issued
    = (issued ++ List.map (fun e => mountRepository_cmd
                                      (default EmptyString
                                         (TaskContainer.repoNameToOrgMountPath tc !! fst e))
                                      (snd e)) entries,
       None).
Proof.
  intros Hok. induction entries as [| [k a] entries IH]; intros Horg issued; simpl.
  - rewrite app_nil_r. reflexivity.
  - destruct (Horg k a (or_introl eq_refl)) as [org Hk]. rewrite Hk.
    pose proof (Hok (mountRepository_cmd org a)) as Hcmd.
    destruct (JobExecutor.PrepareCommand exec (mountRepository_cmd org a)) as [out err].
    simpl in Hcmd. subst err. rewrite IH.
    + rewrite <- app_assoc. reflexivity.
    + intros k' a' Hin. apply (Horg k' a'). right. exact Hin.
Qed.

(** A container mounts the repository volume at /work and at /src.
    Whatever the range order, [mountRepository] hands a single command to
    [PrepareCommand], the one for /src: no command prepares /work. *)
Lemma mountRepository_one_command_per_repository :
  let tc := newTaskContainer sample_two_mounts [sample_repo_volume] in
  Container.VolumeMounts (TestJobContainer.Container sample_two_mounts) !! 0%nat
  = Some (VolumeMount.mk "repo-volume" "/work" false EmptyString) /\
  TestJobVolume.Repo (lookup_volume (volumeNameToVolume [sample_repo_volume]) "repo-volume")
  = Some "repo"%string /\
  forall rho : range_order,
    range_order_ok rho ->
    mountRepository rho tc (sample_exec "test" EmptyString None)
    = ([["rm"; "-rf"; "/src"; "&&"; "mkdir"; "-p"; "/src"; "&&";
         "tar"; "-zxvf"; "/tmp/repo-archive/repo-volume/repo.tar.gz"; "-C"; "/src"]%string],
       None) /\
    ~ In ["rm"; "-rf"; "/work"; "&&"; "mkdir"; "-p"; "/work"; "&&";
          "tar"; "-zxvf"; "/tmp/repo-archive/repo-volume/repo.tar.gz"; "-C"; "/work"]%string
         (fst (mountRepository rho tc (sample_exec "test" EmptyString None))).
Proof.
  cbv zeta. split; [reflexivity |]. split; [vm_compute; reflexivity |].
  intros rho Hrho.
  assert (E : mountRepository rho (newTaskContainer sample_two_mounts [sample_repo_volume])
                (sample_exec "test" EmptyString None)
              = ([["rm"; "-rf"; "/src"; "&&"; "mkdir"; "-p"; "/src"; "&&";
                   "tar"; "-zxvf"; "/tmp/repo-archive/repo-volume/repo.tar.gz"; "-C"; "/src"]%string],
                 None)).
  { unfold mountRepository.
    pose proof (Hrho _ (TaskContainer.repoNameToArchiveMountPath
                          (newTaskContainer sample_two_mounts [sample_repo_volume]))) as Hp.
    assert (Hm : map_to_list (TaskContainer.repoNameToArchiveMountPath
                                (newTaskContainer sample_two_mounts [sample_repo_volume]))
                 = [("repo", "/tmp/repo-archive/repo-volume")]%string)
      by (vm_compute; reflexivity).
    rewrite Hm in Hp. symmetry in Hp. apply Permutation_length_1_inv in Hp. rewrite Hp.
    vm_compute. reflexivity. }
  rewrite E. split; [reflexivity |].
  simpl. intros [H | []]. discriminate H.
Qed.

(** What building the task container does for a mount of a Repo volume:
    the mount is rewritten, the pod volume is recorded, and, unless a later
    mount refers to the same repository, the two repository maps hold the
    staging path and the original path of this mount. *)
Lemma newTaskContainer_repo_mount (volumes : list TestJobVolume.t)
  (c : TestJobContainer.t) (i : nat) (vm : VolumeMount.t) (volume : TestJobVolume.t)
  (repoName : string) :
  Container.VolumeMounts (TestJobContainer.Container c) !! i = Some vm ->
  volumeNameToVolume volumes !! VolumeMount.Name vm = Some volume ->
  TestJobVolume.Repo volume = Some repoName ->
  path_segment (VolumeMount.Name vm) = true ->
  let V := VolumeMount.Name vm in
  let staging := ("/tmp/repo-archive/" ++ V)%string in
  let tc := newTaskContainer c volumes in
  Container.VolumeMounts (TestJobContainer.Container (TaskContainer.container tc)) !! i
  = Some (VolumeMount.with_MountPath vm staging) /\
  TaskContainer.podSpecVolumeMap tc !! V = Some (emptyDirVolume V) /\
  ((forall (j : nat) (vm' : VolumeMount.t),
      (i < j)%nat ->
      Container.VolumeMounts (TestJobContainer.Container c) !! j = Some vm' ->
      TestJobVolume.Repo (lookup_volume (volumeNameToVolume volumes) (VolumeMount.Name vm'))
      <> Some repoName) ->
   TaskContainer.repoNameToArchiveMountPath tc !! repoName = Some staging /\
   TaskContainer.repoNameToOrgMountPath tc !! repoName = Some (VolumeMount.MountPath vm)) /\
  (forall k, is_Some (TaskContainer.repoNameToArchiveMountPath tc !! k) ->
             is_Some (TaskContainer.repoNameToOrgMountPath tc !! k)).
Proof.
  intros Hi Hvol Hrepo Hseg V staging tc.
  set (P := VolumeMount.MountPath vm).
  set (vols := volumeNameToVolume volumes).
  set (mounts := Container.VolumeMounts (TestJobContainer.Container c)) in *.
  set (tc0 := TaskContainer.mk c ∅ ∅ ∅ ∅ ∅ ∅ [] [] ∅ ∅).
  destruct (newTaskContainer_fields c volumes) as (Harch & Horg & Hpod & Hmounts).
  cbv zeta in Harch, Horg, Hpod, Hmounts. fold vols mounts tc0 tc in Harch, Horg, Hpod, Hmounts.
  (* the loop, split at the mount *)
  pose proof (take_drop_middle mounts i vm Hi) as Hsplit.
  set (pre := take i mounts) in *. set (post := drop (S i) mounts) in *.
  assert (Hloop : fst (newTaskContainer_loop vols tc0 [] mounts)
                  = fst (newTaskContainer_loop vols
                           (fst (newTaskContainer_step vols
                                   (fst (newTaskContainer_loop vols tc0 [] pre)) vm))
                           (snd (newTaskContainer_loop vols tc0 [] pre)
                            ++ [snd (newTaskContainer_step vols
                                       (fst (newTaskContainer_loop vols tc0 [] pre)) vm)])
                           post)).
  { rewrite <- Hsplit at 1. rewrite newTaskContainer_loop_app. simpl.
    destruct (newTaskContainer_step vols (fst (newTaskContainer_loop vols tc0 [] pre)) vm).
    reflexivity. }
  set (tc1 := fst (newTaskContainer_loop vols tc0 [] pre)) in *.
  destruct (newTaskContainer_step_repo volumes V volume repoName Hvol Hrepo Hseg tc1 vm eq_refl)
    as (Ha2 & Ho2 & Hp2 & _).
  cbv zeta in Ha2, Ho2, Hp2. fold vols staging in Ha2, Ho2, Hp2.
  set (tc2 := fst (newTaskContainer_step vols tc1 vm)) in *.
  split; [| split; [| split]].
  - rewrite Hmounts. change (List.map ?f ?l) with (f <$> l).
    rewrite list_lookup_fmap, Hi. simpl. f_equal.
    apply (rewritten_mount_repo volumes V volume repoName Hvol Hrepo Hseg vm eq_refl).
  - rewrite Hpod, Hloop.
    apply (newTaskContainer_loop_preserves vols
             (fun t => TaskContainer.podSpecVolumeMap t !! V = Some (emptyDirVolume V))
             (fun _ => True)).
    + intros t vm' _ Ht.
      apply (podSpecVolume_preserved volumes V volume repoName Hvol Hrepo Hseg t vm' Ht).
    + apply Forall_forall. intros; exact I.
    + rewrite Hp2. apply lookup_insert_eq.
  - intros Hlater. rewrite Harch, Horg, Hloop.
    apply (newTaskContainer_loop_preserves vols
             (fun t => TaskContainer.repoNameToArchiveMountPath t !! repoName = Some staging /\
                       TaskContainer.repoNameToOrgMountPath t !! repoName = Some P)
             (fun vm' => TestJobVolume.Repo (lookup_volume vols (VolumeMount.Name vm'))
                         <> Some repoName)).
    + intros t vm' Hq Ht.
      apply (repo_entries_preserved volumes V volume repoName Hrepo P t vm' Hq Ht).
    + apply Forall_lookup. intros j vm' Hj. unfold post in Hj. rewrite lookup_drop in Hj.
      apply (Hlater (S i + j)%nat vm'); [lia | exact Hj].
    + rewrite Ha2, Ho2, !lookup_insert_eq. split; reflexivity.
  - rewrite Harch, Horg.
    apply (newTaskContainer_loop_preserves vols
             (fun t => forall k, is_Some (TaskContainer.repoNameToArchiveMountPath t !! k) ->
                                 is_Some (TaskContainer.repoNameToOrgMountPath t !! k))
             (fun _ => True)).
    + intros t vm' _ Ht. apply repo_maps_same_keys. exact Ht.
    + apply Forall_forall. intros; exact I.
    + intros k [x Hx]. simpl in Hx. rewrite lookup_empty in Hx. discriminate.
Qed.

(** The task container of a single mount.  Let a container mount, at path P, a volume named V that
    the template declares as a Repo volume, V being a single path
    element.  Building its task container rewrites that mount (in the
    container the pod spec holds) to the staging path /tmp/repo-archive/V
    and records an emptyDir pod volume V.  If, moreover, no later mount of
    the container refers to the same repository and no [PrepareCommand]
    fails, [mountRepository] hands [PrepareCommand] one command per
    repository of the container, and the one for this mount is exactly
    rm -rf P && mkdir -p P && tar -zxvf /tmp/repo-archive/V/repo.tar.gz -C P. *)
Theorem repo_mount_rewritten_and_extracted (volumes : list TestJobVolume.t)
  (c : TestJobContainer.t) (i : nat) (vm : VolumeMount.t) (volume : TestJobVolume.t)
  (repoName : string) (rho : range_order) (exec : JobExecutor.t) :
  Container.VolumeMounts (TestJobContainer.Container c) !! i = Some vm ->
  volumeNameToVolume volumes !! VolumeMount.Name vm = Some volume ->
  TestJobVolume.Repo volume = Some repoName ->
  path_segment (VolumeMount.Name vm) = true ->
  let V := VolumeMount.Name vm in
  let P := VolumeMount.MountPath vm in
  let tc := newTaskContainer c volumes in
  Container.VolumeMounts (TestJobContainer.Container (TaskContainer.container tc)) !! i
  = Some (VolumeMount.with_MountPath vm ("/tmp/repo-archive/" ++ V)%string) /\
  TaskContainer.podSpecVolumeMap tc !! V = Some (emptyDirVolume V) /\
  (range_order_ok rho ->
   (forall cmd, snd (JobExecutor.PrepareCommand exec cmd) = None) ->
   (forall (j : nat) (vm' : VolumeMount.t),
      (i < j)%nat ->
      Container.VolumeMounts (TestJobContainer.Container c) !! j = Some vm' ->
      TestJobVolume.Repo (lookup_volume (volumeNameToVolume volumes) (VolumeMount.Name vm'))
      <> Some repoName) ->
   exists issued : list (list string),
     mountRepository rho tc exec = (issued, None) /\
     In ["rm"; "-rf"; P; "&&"; "mkdir"; "-p"; P; "&&";
         "tar"; "-zxvf"; ("/tmp/repo-archive/" ++ V ++ "/repo.tar.gz")%string; "-C"; P]
        issued /\
     length issued = size (TaskContainer.repoNameToArchiveMountPath tc)).
Proof.
  intros Hi Hvol Hrepo Hseg V P tc.
  destruct (newTaskContainer_repo_mount volumes c i vm volume repoName Hi Hvol Hrepo Hseg)
    as (Hmount & Hpod & Hentries & Hkeys).
  cbv zeta in Hmount, Hpod, Hentries, Hkeys. fold V tc in Hmount, Hpod, Hentries, Hkeys.
  split; [exact Hmount |]. split; [exact Hpod |].
  intros Hrho Hok Hlater. destruct (Hentries Hlater) as [Harch_r Horg_r].
  set (entries := rho _ (TaskContainer.repoNameToArchiveMountPath tc)).
  assert (Hin_entries : forall k a, In (k, a) entries ->
                                    TaskContainer.repoNameToArchiveMountPath tc !! k = Some a).
  { intros k a Hin. apply (Permutation_in _ (Hrho _ _)) in Hin.
    apply list_elem_of_In, elem_of_map_to_list in Hin. exact Hin. }
  eexists. split; [| split].
  - unfold mountRepository. fold entries.
    rewrite (mountRepository_loop_all tc exec entries Hok); [reflexivity |].
    intros k a Hin. apply Hkeys. rewrite (Hin_entries k a Hin). eauto.
  - simpl app. apply in_map_iff. exists (repoName, ("/tmp/repo-archive/" ++ V)%string). split.
    + cbn [fst snd]. rewrite Horg_r. unfold mountRepository_cmd.
      rewrite (repo_archive_file V Hseg). reflexivity.
    + apply (Permutation_in _ (Permutation_sym (Hrho _ _))).
      apply list_elem_of_In, elem_of_map_to_list. exact Harch_r.
  - simpl app. rewrite length_map. unfold entries.
    rewrite (Permutation_length (Hrho _ _)). apply length_map_to_list.
Qed.

Lemma repo_mount_rewritten_and_extracted_witness :
  Container.VolumeMounts
    (TestJobContainer.Container
       (TaskContainer.container (newTaskContainer sample_setup [sample_repo_volume]))) !! 0%nat
  = Some (VolumeMount.mk "repo-volume" "/tmp/repo-archive/repo-volume" false EmptyString) /\
  exists issued : list (list string),
    mountRepository range_sorted (newTaskContainer sample_setup [sample_repo_volume])
      (sample_exec "setup" EmptyString None) = (issued, None) /\
    In ["rm"; "-rf"; "/work"; "&&"; "mkdir"; "-p"; "/work"; "&&";
        "tar"; "-zxvf"; "/tmp/repo-archive/repo-volume/repo.tar.gz"; "-C"; "/work"]%string
       issued.
Proof.
  destruct (repo_mount_rewritten_and_extracted [sample_repo_volume] sample_setup 0%nat
              sample_repo_mount sample_repo_volume "repo" range_sorted
              (sample_exec "setup" EmptyString None))
    as (Hmount & _ & Hcmd).
  - reflexivity.
  - vm_compute. reflexivity.
  - reflexivity.
  - vm_compute. reflexivity.
  - split; [exact Hmount |].
    destruct Hcmd as (issued & Hrun & Hin & _).
    + exact range_sorted_ok.
    + intros cmd. reflexivity.
    + intros j vm' Hj Hl. destruct j as [| j]; [lia |]. simpl in Hl. discriminate.
    + exists issued. split; [exact Hrun | exact Hin].
Defined.

Example repo_mount_pod_spec :
  PodSpec.Volumes (Pod.Spec (Job.template sample_repo_job))
  = [Volume.mk "repo-volume" VolumeSource.emptyDir] /\
  List.map (fun c => List.map VolumeMount.MountPath (Container.VolumeMounts c))
    (PodSpec.InitContainers (Pod.Spec (Job.template sample_repo_job)))
  = [["/tmp/repo-archive/repo-volume"]; ["/tmp/repo-archive/repo-volume"]]%string.
Proof. vm_compute. split; reflexivity. Qed.

(** ** The task scheduler on an arbitrary key list *)

Section TaskSchedulerLoop.

Variable getMainContainerFromTmpl : TestJobTemplateSpec.t -> result TestJobContainer.t.
Variable json_Marshal : list string -> result string.
Variable backend_error : RunMode -> option error.
Variable rhos : Z -> nat -> range_order.

Variable s : TaskScheduler.t.
Variable tmpl : Step.t.
Variable env : string.
Variable subTaskScheduler : SubTaskScheduler.t.
Variable keys : list string.
Variable M : Z.

Let build := BuildWithKey getMainContainerFromTmpl json_Marshal backend_error rhos s.
Let loop :=
  TaskScheduler_loop getMainContainerFromTmpl json_Marshal backend_error rhos.
Let N := len keys.
Let concurrent := N / M.

Hypothesis M_pos : 0 < M.
Hypothesis M_small : M <= len keys.
Hypothesis no_overflow : 2 * len keys <= GoInt.int_max.
Hypothesis builds : forall (idx : Z) (sk : StrategyKey.t), exists t, build idx tmpl (Some sk) = Ok t.

Lemma BuildWithKey_strategyKey (idx : Z) (sk : option StrategyKey.t) (t : Task.t) :
  build idx tmpl sk = Ok t -> Task.strategyKey t = sk.
Proof.
  subst build. unfold BuildWithKey, TaskBuilder_BuildWithKey. cbv zeta. intros H.
  destruct (getMainContainerFromTmpl _); [| discriminate].
  destruct (String.eqb _ _); [discriminate |].
  destruct (TaskBuilder_buildJob _ _ _ _ _ _ _); [| discriminate].
  injection H as <-. reflexivity.
Qed.

Lemma concurrent_bounds : 0 <= concurrent /\ concurrent * M <= N < (concurrent + 1) * M.
Proof.
  subst concurrent N. assert (0 <= len keys) by (unfold len; lia).
  pose proof (Z.div_pos (len keys) M ltac:(lia) M_pos).
  pose proof (Z.mul_div_le (len keys) M M_pos).
  pose proof (Z.mul_succ_div_gt (len keys) M M_pos). lia.
Qed.

(** The keys of the task built in iteration [i]. *)
Let slice_of (i : Z) : list string :=
  if i =? concurrent then skipn (Z.to_nat (concurrent * M)) keys
  else firstn (Z.to_nat M) (skipn (Z.to_nat (i * M)) keys).

Lemma TaskScheduler_loop_spec (fuel : nat) :
  forall (i : Z) (tasks : list Task.t),
    0 <= i <= concurrent + 1 ->
    concurrent + 1 - i <= Z.of_nat fuel ->
    exists ts : list Task.t,
      loop fuel s tmpl env subTaskScheduler keys M concurrent i (i * M) tasks
      = Done (Ok (tasks ++ ts)) /\
      len ts = concurrent + 1 - i /\
      concat (List.map Task_keys ts) = skipn (Z.to_nat (i * M)) keys /\
      (forall (j : nat) (t : Task.t),
         nth_error ts j = Some t -> Task_keys t = slice_of (i + Z.of_nat j)).
Proof.
  pose proof concurrent_bounds as (Hc0 & Hlo & Hhi).
  assert (HN : 0 <= N) by (subst N; unfold len; lia).
  assert (HlenN : Z.of_nat (length keys) = N) by reflexivity.
  induction fuel as [| fuel IH]; intros i tasks Hi Hfuel.
  - assert (i = concurrent + 1) by lia. subst i.
    exists []. subst loop. simpl.
    assert (E : (concurrent + 1 <=? concurrent) = false) by lia. rewrite E.
    rewrite app_nil_r. split; [reflexivity |]. split; [| split].
    + unfold len. simpl. lia.
    + rewrite skipn_all2; [reflexivity |]. lia.
    + intros j t Hj. destruct j; discriminate.
  - subst loop. simpl. destruct (i <=? concurrent) eqn:E.
    + assert (Hle : i <= concurrent) by lia.
      assert (HiM : 0 <= i * M <= concurrent * M) by nia.
      assert (Hsum : GoInt.add (i * M) M = (i + 1) * M).
      { rewrite add_in_range; [lia |].
        unfold GoInt.in_range, GoInt.int_min, GoInt.int_max in *. fold N in M_small, no_overflow.
        lia. }
      assert (Hinc : GoInt.add i 1 = i + 1).
      { apply add_in_range.
        unfold GoInt.in_range, GoInt.int_min, GoInt.int_max in *. fold N in M_small, no_overflow.
        nia. }
      assert (Hslice :
                (if i =? concurrent then slice_from keys (i * M)
                 else slice keys (i * M) (GoInt.add (i * M) M))
                = Done (slice_of i)).
      { subst slice_of. cbv beta. destruct (i =? concurrent) eqn:Ec.
        - assert (i = concurrent) by lia. subst i.
          unfold slice_from. rewrite slice_ok by (fold N; lia).
          f_equal. apply firstn_all2. rewrite length_skipn. fold N. lia.
        - rewrite Hsum. rewrite slice_ok by (fold N; nia).
          do 2 f_equal. lia. }
      rewrite Hslice.
      destruct (builds i (StrategyKey.mk i (slice_of i) env subTaskScheduler true))
        as (t & Ht).
      pose proof Ht as Ht'. unfold build in Ht'. rewrite Ht'. rewrite Hsum, Hinc.
      destruct (IH (i + 1) (tasks ++ [t])) as (ts & Hrun & Hlen & Hcat & Hkeys); [lia | lia |].
      exists (t :: ts). rewrite <- app_assoc in Hrun. split; [exact Hrun |].
      assert (Htk : Task_keys t = slice_of i).
      { unfold Task_keys.
        rewrite (BuildWithKey_strategyKey i _ t Ht). reflexivity. }
      split; [| split].
      * unfold len in *. simpl length. lia.
      * simpl. rewrite Hcat, Htk. subst slice_of. cbv beta.
        destruct (i =? concurrent) eqn:Ec.
        -- assert (i = concurrent) by lia. subst i.
           rewrite (skipn_all2 keys (n := Z.to_nat ((concurrent + 1) * M))) by lia.
           apply app_nil_r.
        -- replace (Z.to_nat ((i + 1) * M)) with (Z.to_nat (i * M) + Z.to_nat M)%nat by nia.
           rewrite <- skipn_firstn_skipn. apply firstn_skipn.
      * intros j t' Hj. destruct j as [| j]; simpl in Hj.
        -- injection Hj as <-. rewrite Z.add_0_r. exact Htk.
        -- rewrite (Hkeys j t' Hj). f_equal. lia.
    + exists []. rewrite app_nil_r. assert (i = concurrent + 1) by lia. subst i.
      split; [reflexivity |]. split; [| split].
      * unfold len. simpl. lia.
      * rewrite skipn_all2; [reflexivity |]. lia.
      * intros j t Hj. destruct j; discriminate.
Qed.

End TaskSchedulerLoop.

Lemma ceil_div_cases (N M : Z) :
  0 <= N -> 0 < M ->
  (N + M - 1) / M = N / M + (if N mod M =? 0 then 0 else 1).
Proof.
  intros HN HM. pose proof (Z.div_mod N M ltac:(lia)) as Hdm.
  pose proof (Z.mod_pos_bound N M HM) as Hmod.
  destruct (N mod M =? 0) eqn:E.
  - assert (Hz : N mod M = 0) by lia.
    replace (N + M - 1) with ((M - 1) + (N / M) * M) by lia.
    rewrite Z.div_add by lia. rewrite Z.div_small by lia. lia.
  - assert (Hz : N mod M <> 0) by lia.
    replace (N + M - 1) with ((N mod M - 1) + (N / M + 1) * M) by lia.
    rewrite Z.div_add by lia. rewrite Z.div_small by lia. lia.
Qed.

(** What [Schedule] does for N > M > 0 static keys when every build
    succeeds: it builds N/M + 1 tasks; task i < N/M carries the keys
    [i*M, (i+1)*M) and the last task the remainder keys[(N/M)*M:], which is
    empty exactly when M divides N.  So the number of tasks is ceil(N/M)
    iff M does not divide N. *)
Theorem TaskScheduler_Schedule_tasks
  (getMainContainerFromTmpl : TestJobTemplateSpec.t -> result TestJobContainer.t)
  (json_Marshal : list string -> result string) (backend_error : RunMode -> option error)
  (rhos : Z -> nat -> range_order) (Task_Run : Task.t -> result TaskResult.t)
  (Regexp : Type) (regexp_Compile : string -> result Regexp)
  (Regexp_MatchString : Regexp -> string -> bool) (strings_TrimSpace : string -> string)
  (b : TaskBuilder.t) (env : string) (keys : list string)
  (dynamic : option StrategyDynamicKeySource.t) (M K : Z) (tmpl : Step.t) :
  let s := TaskScheduler.mk
             (Some (Strategy.mk env (StrategyKeySource.mk keys dynamic) M K)) b in
  0 < M < len keys ->
  2 * len keys <= GoInt.int_max ->
  (forall (idx : Z) (sk : StrategyKey.t),
     exists t, BuildWithKey getMainContainerFromTmpl json_Marshal backend_error rhos s idx tmpl
                 (Some sk) = Ok t) ->
  exists g : TaskGroup.t,
    TaskScheduler_Schedule getMainContainerFromTmpl json_Marshal backend_error rhos Task_Run
      Regexp regexp_Compile Regexp_MatchString strings_TrimSpace s tmpl = Done (Ok g) /\
    len (TaskGroup.tasks g) = len keys / M + 1 /\
    concat (TaskGroup_keys g) = keys /\
    (forall (j : nat) (ks : list string),
       nth_error (TaskGroup_keys g) j = Some ks ->
       ks = if Z.of_nat j =? len keys / M
            then skipn (Z.to_nat (len keys / M * M)) keys
            else firstn (Z.to_nat M) (skipn (Z.to_nat (Z.of_nat j * M)) keys)) /\
    (len (TaskGroup.tasks g) = (len keys + M - 1) / M <-> len keys mod M <> 0).
Proof.
  intros s HM Hmax Hbuilds.
  assert (HN : 0 <= len keys) by (unfold len; lia).
  unfold TaskScheduler_Schedule. simpl TaskScheduler.strategy. cbv iota.
  unfold TaskScheduler_getScheduleKeys. simpl.
  assert (E1 : (len keys >? 0) = true) by lia. rewrite E1.
  assert (E2 : (len keys <=? M) = false) by lia. rewrite E2.
  assert (E3 : (M =? 0) = false) by lia. rewrite E3.
  assert (Hq : GoInt.quo (len keys) M = len keys / M).
  { unfold GoInt.quo. rewrite Z.quot_div_nonneg by lia. apply wrap_in_range.
    pose proof (Z.div_pos (len keys) M ltac:(lia) ltac:(lia)).
    pose proof (Z.div_le_upper_bound (len keys) M (len keys) ltac:(lia) ltac:(nia)).
    unfold GoInt.in_range, GoInt.int_min, GoInt.int_max in *. lia. }
  rewrite Hq.
  pose proof (Z.div_pos (len keys) M ltac:(lia) ltac:(lia)) as Hc0.
  destruct (TaskScheduler_loop_spec getMainContainerFromTmpl json_Marshal backend_error rhos
              s tmpl env (NewSubTaskScheduler K) keys M ltac:(lia) ltac:(lia) Hmax Hbuilds
              (Z.to_nat (len keys / M + 1)) 0 [])
    as (ts & Hrun & Hlen & Hcat & Hkeys); [lia | lia |].
  rewrite Z.mul_0_l in Hrun. rewrite Hrun. simpl app.
  exists (TaskGroup.mk ts). split; [reflexivity |]. simpl TaskGroup.tasks.
  split; [lia |]. split; [exact Hcat |]. split.
  - intros j ks Hj. unfold TaskGroup_keys in Hj. simpl in Hj.
    rewrite nth_error_map in Hj. destruct (nth_error ts j) as [t |] eqn:Et; [| discriminate].
    simpl in Hj. injection Hj as <-.
    pose proof (Hkeys j t Et) as Hk. rewrite Z.add_0_l in Hk. exact Hk.
  - rewrite Hlen, ceil_div_cases by lia. destruct (len keys mod M =? 0) eqn:E; lia.
Qed.

(** *** The sample job: every build succeeds *)

Lemma group_hasTestVolumeMount_declares (volumes : list TestJobVolume.t) (rho : range_order)
  (containers : list TestJobContainer.t) :
  range_order_ok rho ->
  TaskContainerGroup_hasTestVolumeMount rho (fst (newTaskContainerGroup containers volumes)) = true ->
  exists c, In c containers /\ declares_test_volume volumes c = true.
Proof.
  intros Hrho H. unfold TaskContainerGroup_hasTestVolumeMount in H.
  apply existsb_exists in H. destruct H as (tc & Hin & Hhas).
  apply group_range_In in Hin; [| exact Hrho]. destruct Hin as (c & Hc & ->).
  exists c. split; [exact Hc |]. rewrite <- newTaskContainer_hasTestVolumeMount. exact Hhas.
Qed.

Lemma needsToPreInit_declares (rho : range_order) (mainContainer : TestJobContainer.t)
  (tmpl : TestJobTemplateSpec.t) (strategyKey : option StrategyKey.t) :
  range_order_ok rho ->
  let spec := addContainersByStrategyKey (TestJobTemplateSpec.Spec tmpl) mainContainer strategyKey in
  TaskBuildContext_needsToPreInit rho (buildJob_context mainContainer tmpl strategyKey) = true ->
  exists c, In c (user_containers spec) /\
            declares_test_volume (TestJobPodSpec.Volumes spec) c = true.
Proof.
  intros Hrho spec H. unfold TaskBuildContext_needsToPreInit in H.
  destruct (buildJob_context_groups mainContainer tmpl strategyKey) as (Hi & Hm & Hf).
  cbv zeta in Hi, Hm, Hf. fold spec in Hi, Hm, Hf. rewrite Hi, Hm, Hf in H.
  apply orb_true_iff in H. destruct H as [H | H]; [apply orb_true_iff in H; destruct H as [H | H] |];
    apply group_hasTestVolumeMount_declares in H; try exact Hrho;
    destruct H as (c & Hc & Hd); exists c; split; try exact Hd;
    unfold user_containers; rewrite !in_app_iff; tauto.
Qed.

Lemma strategyKeyContainers_In (mainContainer : TestJobContainer.t) (sk : StrategyKey.t)
  (keys : list string) :
  forall (idx : Z) (acc : list TestJobContainer.t) (c : TestJobContainer.t),
    In c (strategyKeyContainers mainContainer sk idx keys acc) ->
    In c acc \/ exists i key, c = strategyKeyContainer mainContainer sk i key.
Proof.
  induction keys as [| key keys IH]; intros idx acc c H; simpl in H.
  - left. exact H.
  - apply IH in H. destruct H as [H | H]; [| right; exact H].
    apply in_app_iff in H. destruct H as [H | [<- | []]]; [left; exact H |].
    right. eauto.
Qed.

Lemma sample_needsToPreInit (sk : StrategyKey.t) :
  TaskBuildContext_needsToPreInit range_sorted
    (buildJob_context sample_main (Step.GetTemplate (sample_template [sample_main])) (Some sk))
  = false.
Proof.
  destruct (TaskBuildContext_needsToPreInit _ _) eqn:E; [| reflexivity].
  exfalso. apply needsToPreInit_declares in E; [| exact range_sorted_ok].
  destruct E as (c & Hc & Hd). unfold user_containers in Hc.
  assert (Hmounts : Container.VolumeMounts (TestJobContainer.Container c) = []).
  { unfold addContainersByStrategyKey in Hc. simpl in Hc.
    apply in_app_iff in Hc. destruct Hc as [Hc | [<- | []]]; [| reflexivity].
    apply strategyKeyContainers_In in Hc. destruct Hc as [[] | (i & key & ->)]. reflexivity. }
  unfold declares_test_volume in Hd. rewrite Hmounts in Hd. discriminate.
Qed.

Lemma sample_builds (keys0 : list string) (M K : Z) (idx : Z) (sk : StrategyKey.t) :
  exists t,
    BuildWithKey sample_getMainContainer (fun _ => Ok "[]"%string) (fun _ => None)
      (fun _ _ => range_sorted)
      (TaskScheduler.mk
         (Some (Strategy.mk "TEST" (StrategyKeySource.mk keys0 None) M K)) sample_builder)
      idx (sample_template [sample_main]) (Some sk) = Ok t.
Proof.
  unfold BuildWithKey, TaskBuilder_BuildWithKey. cbv zeta.
  change (sample_getMainContainer (Step.GetTemplate (sample_template [sample_main])))
    with (Ok sample_main). cbv iota.
  change (String.eqb (TestJobContainer.Name sample_main) EmptyString) with false. cbv iota.
  unfold TaskBuilder_buildJob, JobBuilder_BuildWithJob. cbv zeta. cbv beta iota.
  rewrite sample_needsToPreInit. eexists. reflexivity.
Qed.

(** On the sample job, for every key list and cap with N > M > 0. *)
Corollary sample_Schedule_tasks (keys : list string) (M : Z) :
  0 < M < len keys ->
  2 * len keys <= GoInt.int_max ->
  exists g : TaskGroup.t,
    sample_Schedule (sample_scheduler keys M) (sample_template [sample_main]) = Done (Ok g) /\
    len (TaskGroup.tasks g) = len keys / M + 1 /\
    concat (TaskGroup_keys g) = keys /\
    (len (TaskGroup.tasks g) = (len keys + M - 1) / M <-> len keys mod M <> 0).
Proof.
  intros HM Hmax.
  destruct (TaskScheduler_Schedule_tasks sample_getMainContainer (fun _ => Ok "[]"%string)
              (fun _ => None) (fun _ _ => range_sorted) (fun _ => Err "not run"%string)
              unit (fun _ => Ok tt) (fun _ _ => true) (fun s => s)
              sample_builder "TEST" keys None M 10 (sample_template [sample_main]) HM Hmax)
    as (g & Hrun & Hlen & Hcat & _ & Hceil).
  - intros idx sk. apply sample_builds.
  - exists g. split; [exact Hrun |]. split; [exact Hlen |]. split; [exact Hcat | exact Hceil].
Qed.

(** ** The volumes of the pod *)

(** The volume a group contributes under a key comes from one of its
    containers, and a key of one of its containers is a key of the
    group. *)
Lemma podSpecVolumeMap_fold (l : list TaskContainer.t) (k : string) :
  forall m : gmap string Volume.t,
    (forall x, fold_left (fun m c => assign_all (TaskContainer.podSpecVolumeMap c) m) l m !! k
               = Some x ->
               (exists tc, In tc l /\ TaskContainer.podSpecVolumeMap tc !! k = Some x)
               \/ m !! k = Some x) /\
    ((exists tc, In tc l /\ is_Some (TaskContainer.podSpecVolumeMap tc !! k))
     \/ is_Some (m !! k) ->
     is_Some (fold_left (fun m c => assign_all (TaskContainer.podSpecVolumeMap c) m) l m !! k)).
Proof.
  induction l as [| tc l IH]; intros m; simpl.
  - split; [intros x H; right; exact H | intros [(tc & [] & _) | H]; exact H].
  - destruct (IH (assign_all (TaskContainer.podSpecVolumeMap tc) m)) as [IH1 IH2]. split.
    + intros x H. apply IH1 in H. destruct H as [(tc' & Hin & Hx) | H].
      * left. exists tc'. split; [right; exact Hin | exact Hx].
      * unfold assign_all in H. apply lookup_union_Some_raw in H.
        destruct H as [H | [_ H]]; [left; exists tc; split; [left; reflexivity | exact H] |].
        right. exact H.
    + intros H. apply IH2. unfold assign_all. rewrite lookup_union_is_Some.
      destruct H as [(tc' & [<- | Hin] & Hs) | H].
      * right. left. exact Hs.
      * left. exists tc'. split; assumption.
      * right. right. exact H.
Qed.

Section PodVolumes.

Variable volumes : list TestJobVolume.t.
Variable V : string.
Variable volume : TestJobVolume.t.
Variable repoName : string.
Hypothesis V_volume : volumeNameToVolume volumes !! V = Some volume.
Hypothesis volume_repo : TestJobVolume.Repo volume = Some repoName.
Hypothesis V_segment : path_segment V = true.

(** Whatever a task container records under [V] is the emptyDir. *)
Lemma newTaskContainer_volume_only (c : TestJobContainer.t) (x : Volume.t) :
  TaskContainer.podSpecVolumeMap (newTaskContainer c volumes) !! V = Some x ->
  x = emptyDirVolume V.
Proof.
  destruct (newTaskContainer_fields c volumes) as (_ & _ & Hpod & _). cbv zeta in Hpod.
  rewrite Hpod. revert x.
  apply (newTaskContainer_loop_preserves (volumeNameToVolume volumes)
           (fun t => forall x, TaskContainer.podSpecVolumeMap t !! V = Some x ->
                               x = emptyDirVolume V)
           (fun _ => True)).
  - intros t vm _ Ht x Hx.
    destruct (TaskContainer.podSpecVolumeMap t !! V) as [y |] eqn:Ey.
    + rewrite (Ht y eq_refl) in Ey.
      rewrite (podSpecVolume_preserved volumes V volume repoName V_volume volume_repo
                 V_segment t vm Ey) in Hx. congruence.
    + revert Hx. unfold newTaskContainer_step. cbv zeta.
      destruct (decide (TestJobVolume.Name
                          (lookup_volume (volumeNameToVolume volumes) (VolumeMount.Name vm)) = V))
        as [HK | HK].
      * rewrite (lookup_volume_named_V volumes V volume V_volume V_segment _ HK).
        rewrite volume_repo, (repo_volume_name volumes V volume V_volume). simpl.
        rewrite lookup_insert_eq. congruence.
      * destruct (lookup_volume (volumeNameToVolume volumes) (VolumeMount.Name vm))
          as [vname repo artifact token log report src]. simpl in HK.
        destruct repo, artifact, token, log, report; simpl;
          rewrite lookup_insert_ne by exact HK; rewrite Ey; discriminate.
  - apply Forall_forall. intros; exact I.
  - intros x Hx. simpl in Hx. rewrite lookup_empty in Hx. discriminate.
Qed.

Lemma group_volume_only (rho : range_order) (containers : list TestJobContainer.t)
  (x : Volume.t) :
  range_order_ok rho ->
  TaskContainerGroup_podSpecVolumeMap rho (fst (newTaskContainerGroup containers volumes)) !! V
  = Some x ->
  x = emptyDirVolume V.
Proof.
  intros Hrho H. unfold TaskContainerGroup_podSpecVolumeMap in H.
  apply (proj1 (podSpecVolumeMap_fold _ V ∅)) in H. destruct H as [(tc & Hin & Hx) | H].
  - apply group_range_In in Hin; [| exact Hrho]. destruct Hin as (c & _ & ->).
    apply (newTaskContainer_volume_only c x Hx).
  - rewrite lookup_empty in H. discriminate.
Qed.

Lemma group_volume_present (rho : range_order) (containers : list TestJobContainer.t)
  (c : TestJobContainer.t) (vm : VolumeMount.t) :
  range_order_ok rho ->
  List.NoDup (List.map TestJobContainer.Name containers) ->
  In c containers ->
  In vm (Container.VolumeMounts (TestJobContainer.Container c)) ->
  VolumeMount.Name vm = V ->
  TaskContainerGroup_podSpecVolumeMap rho (fst (newTaskContainerGroup containers volumes)) !! V
  = Some (emptyDirVolume V).
Proof.
  intros Hrho Hnd Hc Hvm Hname.
  assert (Hsome : is_Some (TaskContainerGroup_podSpecVolumeMap rho
                             (fst (newTaskContainerGroup containers volumes)) !! V)).
  { unfold TaskContainerGroup_podSpecVolumeMap.
    apply (proj2 (podSpecVolumeMap_fold _ V ∅)). left.
    exists (newTaskContainer c volumes). split; [apply group_range_build; assumption |].
    apply list_elem_of_In, list_elem_of_lookup in Hvm. destruct Hvm as (i & Hi).
    subst V.
    destruct (newTaskContainer_repo_mount volumes c i vm volume repoName Hi V_volume
                volume_repo V_segment) as (_ & Hpod & _).
    cbv zeta in Hpod. rewrite Hpod. eauto. }
  destruct Hsome as [x Hx]. rewrite Hx. f_equal. apply (group_volume_only rho containers x Hrho Hx).
Qed.

End PodVolumes.

(** The pod built by [buildJob] carries the emptyDir volume of every Repo
    volume mounted by an init or main container. *)
Lemma buildJob_pod_repo_volume (json_Marshal : list string -> result string)
  (backend_error : RunMode -> option error) (rhos : nat -> range_order)
  (b : TaskBuilder.t) (mainContainer : TestJobContainer.t) (tmpl : TestJobTemplateSpec.t)
  (strategyKey : option StrategyKey.t) (job : Job.t)
  (c : TestJobContainer.t) (vm : VolumeMount.t) (volume : TestJobVolume.t) (repoName : string) :
  (forall n : nat, range_order_ok (rhos n)) ->
  TaskBuilder_buildJob json_Marshal backend_error rhos b mainContainer tmpl strategyKey = Ok job ->
  let spec := addContainersByStrategyKey (TestJobTemplateSpec.Spec tmpl) mainContainer strategyKey in
  List.NoDup (List.map TestJobContainer.Name (TestJobPodSpec.InitContainers spec)) ->
  List.NoDup (List.map TestJobContainer.Name (TestJobPodSpec.Containers spec)) ->
  In c (TestJobPodSpec.InitContainers spec ++ TestJobPodSpec.Containers spec) ->
  In vm (Container.VolumeMounts (TestJobContainer.Container c)) ->
  volumeNameToVolume (TestJobPodSpec.Volumes spec) !! VolumeMount.Name vm = Some volume ->
  TestJobVolume.Repo volume = Some repoName ->
  path_segment (VolumeMount.Name vm) = true ->
  In (emptyDirVolume (VolumeMount.Name vm)) (PodSpec.Volumes (Pod.Spec (Job.template job))).
Proof.
  intros Hrhos Hjob spec Hinits Hmains Hc Hvm Hvol Hrepo Hseg.
  apply buildJob_inv in Hjob. cbv zeta in Hjob. destruct Hjob as (Hpod & _).
  destruct (buildJob_context_groups mainContainer tmpl strategyKey) as (Hi & Hm & _).
  cbv zeta in Hi, Hm. fold spec in Hi, Hm.
  rewrite Hpod. unfold TaskBuildContext_podSpec. cbv zeta. cbn [PodSpec.Volumes].
  rewrite Hi, Hm. apply in_app_iff. right. apply in_map_iff.
  exists (VolumeMount.Name vm, emptyDirVolume (VolumeMount.Name vm)). split; [reflexivity |].
  apply (Permutation_in _ (Permutation_sym (Hrhos 0%nat _ _))).
  apply list_elem_of_In, elem_of_map_to_list. unfold assign_all.
  set (V := VolumeMount.Name vm) in *. set (vs := TestJobPodSpec.Volumes spec) in *.
  set (mainVols := TaskContainerGroup_podSpecVolumeMap (rhos 0%nat)
                     (fst (newTaskContainerGroup (TestJobPodSpec.Containers spec) vs))).
  set (initVols := TaskContainerGroup_podSpecVolumeMap (rhos 0%nat)
                     (fst (newTaskContainerGroup (TestJobPodSpec.InitContainers spec) vs))).
  destruct (mainVols !! V) as [x |] eqn:Ex.
  - apply lookup_union_Some_l. rewrite Ex. f_equal.
    apply (group_volume_only vs V volume repoName Hvol Hrepo Hseg (rhos 0%nat)
             (TestJobPodSpec.Containers spec) x (Hrhos 0%nat) Ex).
  - rewrite lookup_union_r by exact Ex. apply lookup_union_Some_l.
    apply in_app_iff in Hc. destruct Hc as [Hc | Hc].
    + apply (group_volume_present vs V volume repoName Hvol Hrepo Hseg (rhos 0%nat)
               (TestJobPodSpec.InitContainers spec) c vm (Hrhos 0%nat) Hinits Hc Hvm eq_refl).
    + pose proof (group_volume_present vs V volume repoName Hvol Hrepo Hseg (rhos 0%nat)
                    (TestJobPodSpec.Containers spec) c vm (Hrhos 0%nat) Hmains Hc Hvm eq_refl)
        as H.
      fold mainVols in H. congruence.
Qed.

(** The finalizer's mounts are rewritten like any other container's, but
    [podSpec] collects the volumes of the init and main groups only: when
    the finalizer alone mounts the repository, the pod has no volume for
    it. *)
Example finalizer_volume_not_in_pod :
  List.map VolumeMount.MountPath
    (match Job.finalizer sample_finalizer_job with
     | Some c => Container.VolumeMounts c
     | None => []
     end) = ["/tmp/repo-archive/repo-volume"%string] /\
  PodSpec.Volumes (Pod.Spec (Job.template sample_finalizer_job)) = [].
Proof. vm_compute. split; reflexivity. Qed.

(** ** The task scheduler outside the range N > M > 0 *)

Section ScheduleEdges.

Variable getMainContainerFromTmpl : TestJobTemplateSpec.t -> result TestJobContainer.t.
Variable json_Marshal : list string -> result string.
Variable backend_error : RunMode -> option error.
Variable rhos : Z -> nat -> range_order.
Variable Task_Run : Task.t -> result TaskResult.t.
Variable Regexp : Type.
Variable regexp_Compile : string -> result Regexp.
Variable Regexp_MatchString : Regexp -> string -> bool.
Variable strings_TrimSpace : string -> string.

Let Schedule :=
  TaskScheduler_Schedule getMainContainerFromTmpl json_Marshal backend_error rhos Task_Run
    Regexp regexp_Compile Regexp_MatchString strings_TrimSpace.
Let Build := BuildWithKey getMainContainerFromTmpl json_Marshal backend_error rhos.

Variable b : TaskBuilder.t.
Variable env : string.
Variable keys : list string.
Variable dynamic : option StrategyDynamicKeySource.t.
Variable K : Z.
Variable tmpl : Step.t.

Let scheduler (M : Z) : TaskScheduler.t :=
  TaskScheduler.mk (Some (Strategy.mk env (StrategyKeySource.mk keys dynamic) M K)) b.

(** With static keys and maxContainersPerPod = 0 the division
    [len(keys) / maxContainers] is reached and panics; no task is built. *)
Theorem TaskScheduler_Schedule_zero_cap_panics :
  keys <> [] ->
  Schedule (scheduler 0) tmpl = Panic "integer divide by zero".
Proof.
  intros Hkeys. subst Schedule scheduler. unfold TaskScheduler_Schedule. simpl TaskScheduler.strategy.
  cbv iota. unfold TaskScheduler_getScheduleKeys. simpl.
  assert (Hlen : 0 < len keys) by (unfold len; destruct keys; [congruence | simpl; lia]).
  assert (E1 : (len keys >? 0) = true) by lia. rewrite E1.
  assert (E2 : (len keys <=? 0) = false) by lia. rewrite E2. reflexivity.
Qed.

(** With a negative maxContainersPerPod whose magnitude does not exceed the
    number of static keys, the quotient is negative, the loop body never
    runs and [Schedule] returns an empty task group without an error: every
    key is dropped and nothing is built. *)
Theorem TaskScheduler_Schedule_negative_cap_drops_keys (M : Z) :
  GoInt.int_min < M < 0 ->
  - M <= len keys <= GoInt.int_max ->
  Schedule (scheduler M) tmpl = Done (Ok (TaskGroup.mk [])).
Proof.
  intros HM HN. subst Schedule scheduler. unfold TaskScheduler_Schedule. simpl TaskScheduler.strategy.
  cbv iota. unfold TaskScheduler_getScheduleKeys. simpl.
  assert (E1 : (len keys >? 0) = true) by lia. rewrite E1.
  assert (E2 : (len keys <=? M) = false) by lia. rewrite E2.
  assert (E3 : (M =? 0) = false) by lia. rewrite E3.
  assert (Hq : Z.quot (len keys) M = - (len keys / - M)).
  { rewrite <- (Z.opp_involutive M) at 1. rewrite Z.quot_opp_r by lia.
    rewrite Z.quot_div_nonneg by lia. reflexivity. }
  assert (Hd : 1 <= len keys / - M <= len keys).
  { split.
    - apply Z.div_le_lower_bound; lia.
    - apply Z.div_le_upper_bound; nia. }
  assert (Hw : GoInt.quo (len keys) M = - (len keys / - M)).
  { unfold GoInt.quo. rewrite Hq. apply wrap_in_range.
    unfold GoInt.in_range, GoInt.int_min, GoInt.int_max in *. lia. }
  rewrite Hw.
  set (c := - (len keys / - M)).
  assert (Hc : c < 0) by (subst c; lia).
  destruct (Z.to_nat (c + 1)); simpl;
    (assert (E4 : (0 <=? c) = false) by lia); rewrite E4; reflexivity.
Qed.

(** For a positive cap and static keys, when every build succeeds,
    [Schedule] hands every key to exactly one task, in order, and no task
    gets more than maxContainersPerPod keys. *)
Theorem TaskScheduler_Schedule_partitions_keys (M : Z) :
  keys <> [] ->
  0 < M ->
  2 * len keys <= GoInt.int_max ->
  (forall (idx : Z) (sk : StrategyKey.t), exists t, Build (scheduler M) idx tmpl (Some sk) = Ok t) ->
  exists g : TaskGroup.t,
    Schedule (scheduler M) tmpl = Done (Ok g) /\
    concat (TaskGroup_keys g) = keys /\
    Forall (fun ks => len ks <= M) (TaskGroup_keys g) /\
    len (TaskGroup.tasks g) = (if len keys <=? M then 1 else len keys / M + 1).
Proof.
  intros Hkeys HM Hmax Hbuilds.
  assert (Hlen : 0 < len keys) by (unfold len; destruct keys; [congruence | simpl; lia]).
  destruct (len keys <=? M) eqn:Ecap.
  - subst Schedule scheduler. unfold TaskScheduler_Schedule. simpl TaskScheduler.strategy.
    cbv iota. unfold TaskScheduler_getScheduleKeys. simpl.
    assert (E1 : (len keys >? 0) = true) by lia. rewrite E1, Ecap.
    destruct (Hbuilds 0 (StrategyKey.mk 0 keys env (NewSubTaskScheduler K) true)) as (t & Ht).
    subst Build. cbv beta in Ht. simpl in Ht. rewrite Ht.
    exists (TaskGroup.mk [t]). split; [reflexivity |].
    assert (Hk : Task.strategyKey t = Some (StrategyKey.mk 0 keys env (NewSubTaskScheduler K) true)).
    { apply (BuildWithKey_strategyKey getMainContainerFromTmpl json_Marshal backend_error rhos
               _ tmpl 0 _ t Ht). }
    unfold TaskGroup_keys. simpl. rewrite Hk. simpl. rewrite app_nil_r.
    split; [reflexivity |]. split; [| reflexivity].
    constructor; [lia | constructor].
  - destruct (TaskScheduler_Schedule_tasks getMainContainerFromTmpl json_Marshal backend_error
                rhos Task_Run Regexp regexp_Compile Regexp_MatchString strings_TrimSpace
                b env keys dynamic M K tmpl ltac:(lia) Hmax Hbuilds)
      as (g & Hrun & Hn & Hcat & Hnth & _).
    exists g. split; [exact Hrun |]. split; [exact Hcat |]. split; [| exact Hn].
    apply List.Forall_forall. intros ks Hin. apply In_nth_error in Hin. destruct Hin as [j Hj].
    rewrite (Hnth j ks Hj).
    destruct (Z.of_nat j =? len keys / M); unfold len.
    + rewrite length_skipn.
      pose proof (Z.mul_succ_div_gt (len keys) M HM). unfold len in *. lia.
    + rewrite length_firstn. lia.
Qed.

End ScheduleEdges.

Lemma TaskScheduler_Schedule_zero_cap_panics_witness :
  sample_Schedule (sample_scheduler ["A"; "B"]%string 0) (sample_template [sample_main])
  = Panic "integer divide by zero".
Proof.
  apply (TaskScheduler_Schedule_zero_cap_panics sample_getMainContainer (fun _ => Ok "[]"%string)
           (fun _ => None) (fun _ _ => range_sorted) (fun _ => Err "not run"%string)
           unit (fun _ => Ok tt) (fun _ _ => true) (fun s => s)
           sample_builder "TEST" ["A"; "B"]%string None 10 (sample_template [sample_main])).
  discriminate.
Defined.

Lemma TaskScheduler_Schedule_negative_cap_drops_keys_witness :
  sample_Schedule (sample_scheduler ["A"; "B"; "C"; "D"]%string (-2)) (sample_template [sample_main])
  = Done (Ok (TaskGroup.mk [])).
Proof.
  apply (TaskScheduler_Schedule_negative_cap_drops_keys sample_getMainContainer
           (fun _ => Ok "[]"%string)
           (fun _ => None) (fun _ _ => range_sorted) (fun _ => Err "not run"%string)
           unit (fun _ => Ok tt) (fun _ _ => true) (fun s => s)
           sample_builder "TEST" ["A"; "B"; "C"; "D"]%string None 10
           (sample_template [sample_main]) (-2)).
  - unfold GoInt.int_min. lia.
  - unfold len, GoInt.int_max. simpl. lia.
Defined.

Lemma TaskScheduler_Schedule_partitions_keys_witness :
  exists g : TaskGroup.t,
    sample_Schedule (sample_scheduler ["A"; "B"; "C"; "D"; "E"]%string 2)
      (sample_template [sample_main]) = Done (Ok g) /\
    concat (TaskGroup_keys g) = ["A"; "B"; "C"; "D"; "E"]%string /\
    Forall (fun ks => len ks <= 2) (TaskGroup_keys g) /\
    len (TaskGroup.tasks g) = 3.
Proof.
  apply (TaskScheduler_Schedule_partitions_keys sample_getMainContainer
           (fun _ => Ok "[]"%string)
           (fun _ => None) (fun _ _ => range_sorted) (fun _ => Err "not run"%string)
           unit (fun _ => Ok tt) (fun _ _ => true) (fun s => s)
           sample_builder "TEST" ["A"; "B"; "C"; "D"; "E"]%string None 10
           (sample_template [sample_main]) 2).
  - discriminate.
  - lia.
  - unfold len, GoInt.int_max. simpl. lia.
  - intros idx sk. apply sample_builds.
Defined.

(** ** Sub-task results: the combined error and the end of a run *)


(** Whatever the command and the artifact copy do, a run stops its
    executor exactly once and, when a callback is set, reports its end
    exactly once, as the last thing it does; a failing [Stop] changes
    neither the result nor the returned error. *)
Theorem SubTask_Run_finishes_once (t : SubTask.t) :
  let evs := snd (SubTask_Run t) in
  length (List.filter Event_isStop evs) = 1%nat /\
  length (List.filter Event_isOnFinish evs) = (if SubTask.OnFinish t then 1%nat else 0%nat) /\
  (SubTask.OnFinish t = true -> List.last evs EvLogGroup = EvOnFinish (SubTask.Name t)) /\
  (forall stop : option error,
     let t' := SubTask.mk (SubTask.Name t) (SubTask.KeyEnvName t) (SubTask.OnFinish t)
                 (JobExecutor.mk (JobExecutor.Output (SubTask.exec t))
                    (JobExecutor.OutputDuration (SubTask.exec t)) stop
                    (JobExecutor.CopyFrom (SubTask.exec t)) (JobExecutor.CopyTo (SubTask.exec t))
                    (JobExecutor.Container (SubTask.exec t))
                    (JobExecutor.ContainerIdx (SubTask.exec t))
                    (JobExecutor.Pod (SubTask.exec t))
                    (JobExecutor.PrepareCommand (SubTask.exec t)))
                 (SubTask.isMain t)
                 (fun _ isMain => SubTask.copyArtifact t (SubTask.exec t) isMain) in
     fst (SubTask_Run t') = fst (SubTask_Run t)).
Proof.
  unfold SubTask_Run, SubTask_Run_deferred. cbv zeta.
  destruct (JobExecutor.Output (SubTask.exec t)) as [out err] eqn:Eout.
  split; [| split; [| split]].
  - destruct err, (SubTask.copyArtifact t (SubTask.exec t) (SubTask.isMain t)),
      (JobExecutor.Stop (SubTask.exec t)), (SubTask.OnFinish t); reflexivity.
  - destruct err, (SubTask.copyArtifact t (SubTask.exec t) (SubTask.isMain t)),
      (JobExecutor.Stop (SubTask.exec t)), (SubTask.OnFinish t); reflexivity.
  - intros Hfin. rewrite Hfin.
    destruct err, (SubTask.copyArtifact t (SubTask.exec t) (SubTask.isMain t)),
      (JobExecutor.Stop (SubTask.exec t)); reflexivity.
  - intros stop. simpl.
    destruct err, (SubTask.copyArtifact t (SubTask.exec t) (SubTask.isMain t)); reflexivity.
Qed.

(** ** Dynamic keys and the delimiter *)


Lemma prefix_refl (a : string) : String.prefix a a = true.
Proof. induction a as [| x a IH]; [reflexivity |]. apply prefix_cons. split; [reflexivity | exact IH]. Qed.




Section DynamicKeysContent.

Variable getMainContainerFromTmpl : TestJobTemplateSpec.t -> result TestJobContainer.t.
Variable json_Marshal : list string -> result string.
Variable backend_error : RunMode -> option error.
Variable rhos : Z -> nat -> range_order.
Variable Task_Run : Task.t -> result TaskResult.t.
Variable Regexp : Type.
Variable regexp_Compile : string -> result Regexp.
Variable Regexp_MatchString : Regexp -> string -> bool.
Variable strings_TrimSpace : string -> string.


End DynamicKeysContent.


(** ** Log masking: what the filter leaves alone *)

Lemma replace_go_absent (old new : string) (fuel : nat) :
  forall s : string, strings_Contains s old = false -> replace_go fuel old new s = s.
Proof.
  induction fuel as [| fuel IH]; intros s H; [reflexivity |].
  destruct s as [| c s]; [reflexivity |].
  rewrite Contains_cons in H. apply orb_false_iff in H. destruct H as [Hp Hc].
  cbn [replace_go]. rewrite Hp. f_equal. apply IH. exact Hc.
Qed.

Lemma mask_step_absent (s old : string) :
  old = EmptyString \/ strings_Contains s old = false -> mask_step s old = s.
Proof.
  intros H. destruct (mask_step_cases s old) as [E | [Hold E]]; [exact E |].
  rewrite E. apply replace_go_absent. destruct H as [H | H]; [contradiction | exact H].
Qed.

Lemma mask_fold_absent (masks : list string) (msg : string) :
  Forall (fun mask => mask = EmptyString \/ strings_Contains msg mask = false) masks ->
  fold_left mask_step masks msg = msg.
Proof.
  induction 1 as [| old masks Hold Hrest IH]; simpl; [reflexivity |].
  rewrite (mask_step_absent msg old Hold). exact IH.
Qed.

Lemma mask_fold_removes (masks : list string) :
  Forall (fun mask => mask <> EmptyString /\ no_star mask = true) masks ->
  forall (msg mask : string),
    In mask masks -> strings_Contains (fold_left mask_step masks msg) mask = false.
Proof.
  induction 1 as [| old masks [Hne Hold] Hrest IH]; intros msg mask Hin.
  - destruct Hin.
  - simpl. destruct Hin as [<- | Hin].
    + destruct (strings_Contains (fold_left mask_step masks (mask_step msg old)) old) eqn:C;
        [| reflexivity].
      apply mask_fold_preserves in C; [| exact Hne | exact Hold].
      rewrite mask_step_removes in C; [discriminate | exact Hne | exact Hold].
    + apply IH. exact Hin.
Qed.

Lemma MaskedMessage_mask_fold (msg : string) (masks : list string) :
  MaskedMessage_mask msg masks = fold_left mask_step masks msg.
Proof. reflexivity. Qed.

(** A message in which no registered non-empty mask occurs passes through
    [Filter] unchanged, whatever the masks are. *)
Theorem MaskedMessage_Filter_clean_message (m : MaskedMessage.t) (msg : string) :
  (forall mask : string,
     In mask (MaskedMessage.masks m) -> mask <> EmptyString ->
     strings_Contains msg mask = false) ->
  MaskedMessage_Filter m msg = msg.
Proof.
  intros H. unfold MaskedMessage_Filter. cbv zeta. rewrite MaskedMessage_mask_fold.
  apply mask_fold_absent. apply List.Forall_forall. intros mask Hin.
  destruct (String.eqb mask EmptyString) eqn:E.
  - left. apply String.eqb_eq. exact E.
  - right. apply H; [exact Hin | apply String.eqb_neq; exact E].
Qed.

Lemma MaskedMessage_Filter_clean_message_witness :
  MaskedMessage_Filter (newMaskedMessage EmptyString [EmptyString; "tok"]%string) "no secret here"
  = "no secret here"%string.
Proof.
  apply MaskedMessage_Filter_clean_message.
  intros mask [<- | [<- | []]] Hne; [congruence | vm_compute; reflexivity].
Defined.

(** Filtering is idempotent when the masks are non-empty and free of
    ['*']: a filtered message passes through the same filter unchanged. *)
Theorem MaskedMessage_Filter_idempotent (m : MaskedMessage.t) (msg : string) :
  Forall (fun mask => mask <> EmptyString /\ no_star mask = true) (MaskedMessage.masks m) ->
  MaskedMessage_Filter m (MaskedMessage_Filter m msg) = MaskedMessage_Filter m msg.
Proof.
  intros Hok. unfold MaskedMessage_Filter. cbv zeta. rewrite !MaskedMessage_mask_fold.
  apply mask_fold_absent. apply List.Forall_forall. intros mask Hin. right.
  apply mask_fold_removes; assumption.
Qed.

Lemma MaskedMessage_Filter_idempotent_witness :
  let m := newMaskedMessage EmptyString ["s3cr3t"; "tok"]%string in
  MaskedMessage_Filter m (MaskedMessage_Filter m "Bearer s3cr3t, tok and s3cr3tok")
  = MaskedMessage_Filter m "Bearer s3cr3t, tok and s3cr3tok".
Proof.
  apply MaskedMessage_Filter_idempotent. repeat constructor; discriminate.
Defined.

(** For any masks at all, [String] returns the accumulated message with
    some bytes overwritten by ['*'] and nothing else changed: same length,
    every byte either kept or a star.  Text appended with [addMessage] is
    masked together with what was there, so a mask lying across the joint
    is hidden too. *)
Theorem MaskedMessage_String_starred (m : MaskedMessage.t) (msg : string) :
  let m' := MaskedMessage_addMessage m msg in
  starred (MaskedMessage.msg m ++ msg) (MaskedMessage_String m') /\
  String.length (MaskedMessage_String m')
  = (String.length (MaskedMessage.msg m) + String.length msg)%nat /\
  MaskedMessage_String m' = MaskedMessage_Filter m (MaskedMessage.msg m ++ msg).
Proof.
  intros m'. subst m'. unfold MaskedMessage_String, MaskedMessage_addMessage, MaskedMessage_Filter.
  cbn [MaskedMessage.msg MaskedMessage.masks]. cbv zeta. rewrite MaskedMessage_mask_fold.
  split; [apply mask_fold_starred |]. split; [| reflexivity].
  rewrite (starred_length _ _ (mask_fold_starred _ _)). apply length_append.
Qed.

Example MaskedMessage_String_across_chunks :
  let m := newMaskedMessage "token=s3c" ["s3cr3t"]%string in
  MaskedMessage_String (MaskedMessage_addMessage m "r3t done") = "token=****** done"%string /\
  (MaskedMessage_Filter m "token=s3c" ++ MaskedMessage_Filter m "r3t done")%string
  = "token=s3cr3t done"%string.
Proof. vm_compute. split; reflexivity. Qed.

(** ** The test job runner: validating and merging test logs *)

Lemma testLogMap_elem (testlogs : list TestLog.t) (name : string) :
  forall m : gset string,
    name ∈ fold_left (fun m log => {[TestLog.Name log]} ∪ m) testlogs m
    <-> name ∈ m \/ exists log, In log testlogs /\ TestLog.Name log = name.
Proof.
  induction testlogs as [| log testlogs IH]; intros m; simpl.
  - split; [tauto | intros [H | (log & [] & _)]; exact H].
  - rewrite IH. rewrite elem_of_union, elem_of_singleton. split.
    + intros [[-> | H] | (l & Hin & Hn)]; [right; eauto | left; exact H | right; eauto].
    + intros [H | (l & [<- | Hin] & Hn)]; [left; right; exact H | left; left; congruence |
                                            right; eauto].
Qed.

Lemma invalidTests_filter (P : string -> bool) (tests : list string) :
  forall invalid : list string,
    fold_left (fun invalid test => if P test then invalid else invalid ++ [test]) tests invalid
    = invalid ++ List.filter (fun test => negb (P test)) tests.
Proof.
  induction tests as [| test tests IH]; intros invalid; simpl.
  - symmetry. apply app_nil_r.
  - rewrite IH. destruct (P test); simpl; [reflexivity |]. rewrite <- app_assoc. reflexivity.
Qed.

(** [validateTestLogs] accepts exactly when every listed test has a log of
    its name.  Otherwise the error is fatal and names the tests without a
    log, in the order of the list. *)
Theorem TestJobRunner_validateTestLogs_spec (tests : list string) (testlogs : list TestLog.t) :
  let has_log (test : string) : bool :=
    existsb (fun log => String.eqb (TestLog.Name log) test) testlogs in
  (TestJobRunner_validateTestLogs tests testlogs = None <->
   forall test, In test tests -> exists log, In log testlogs /\ TestLog.Name log = test) /\
  (forall e : xerror,
     TestJobRunner_validateTestLogs tests testlogs = Some e ->
     xerrors_Is_ErrFatal e = true /\
     xerror_Error e
     = ("failed to find [ "
        ++ strings_Join (List.filter (fun test => negb (has_log test)) tests) ","
        ++ " ] test logs: fatal error")%string).
Proof.
  intros has_log. unfold TestJobRunner_validateTestLogs. cbv zeta.
  set (testLogMap := fold_left (fun m log => {[TestLog.Name log]} ∪ m) testlogs (∅ : gset string)).
  assert (Hmap : forall test, bool_decide (test ∈ testLogMap) = has_log test).
  { intros test. subst testLogMap has_log. cbv beta.
    destruct (existsb _ testlogs) eqn:E.
    - apply bool_decide_eq_true. apply testLogMap_elem. right.
      apply existsb_exists in E. destruct E as (log & Hin & Hn).
      exists log. split; [exact Hin | apply String.eqb_eq; exact Hn].
    - apply bool_decide_eq_false. intros H. apply testLogMap_elem in H.
      destruct H as [H | (log & Hin & Hn)]; [set_solver |].
      assert (existsb (fun log => String.eqb (TestLog.Name log) test) testlogs = true).
      { apply existsb_exists. exists log. split; [exact Hin | apply String.eqb_eq; exact Hn]. }
      congruence. }
  rewrite (invalidTests_filter (fun test => bool_decide (test ∈ testLogMap))). simpl app.
  assert (Hfilter : List.filter (fun test => negb (bool_decide (test ∈ testLogMap))) tests
                    = List.filter (fun test => negb (has_log test)) tests).
  { apply filter_ext. intros test. rewrite Hmap. reflexivity. }
  rewrite Hfilter. set (invalid := List.filter (fun test => negb (has_log test)) tests).
  assert (Hinv : invalid = [] <->
                 forall test, In test tests -> exists log, In log testlogs /\ TestLog.Name log = test).
  { subst invalid. split.
    - intros Hnil test Hin. destruct (has_log test) eqn:E.
      + subst has_log. cbv beta in E. apply existsb_exists in E. destruct E as (log & Hl & Hn).
        exists log. split; [exact Hl | apply String.eqb_eq; exact Hn].
      + assert (Hf : In test (List.filter (fun test => negb (has_log test)) tests)).
        { apply filter_In. split; [exact Hin | rewrite E; reflexivity]. }
        rewrite Hnil in Hf. destruct Hf.
    - intros Hall.
      destruct (List.filter (fun test => negb (has_log test)) tests) as [| test rest] eqn:E;
        [reflexivity |].
      assert (Hf : In test (List.filter (fun test => negb (has_log test)) tests))
        by (rewrite E; left; reflexivity).
      apply filter_In in Hf. destruct Hf as [Hin Hno].
      destruct (Hall test Hin) as (log & Hl & Hn).
      assert (has_log test = true).
      { subst has_log. cbv beta. apply existsb_exists. exists log.
        split; [exact Hl | apply String.eqb_eq; exact Hn]. }
      rewrite H in Hno. discriminate. }
  destruct invalid as [| test rest] eqn:Einv.
  - simpl. split; [| intros e He; discriminate].
    split; [intros _; apply Hinv; reflexivity | reflexivity].
  - assert (E : (len (test :: rest) >? 0) = true).
    { apply Z.gtb_lt. unfold len. rewrite length_cons. lia. }
    rewrite E. split.
    + split; [discriminate |]. intros Hall. apply Hinv in Hall. discriminate.
    + intros e He. injection He as <-. split; [reflexivity |].
      simpl xerror_Error. rewrite !append_assoc. reflexivity.
Qed.

Example TestJobRunner_validateTestLogs_missing :
  option_map xerror_Error
    (TestJobRunner_validateTestLogs ["TestA"; "TestB"; "TestC"]%string
       [sample_log "TestB" TestResultSuccess])
  = Some "failed to find [ TestA,TestC ] test logs: fatal error"%string.
Proof. vm_compute. reflexivity. Qed.

Lemma find_app_first {A : Type} (P : A -> bool) (a b : list A) :
  List.find P (a ++ b) = match List.find P a with
                         | Some x => Some x
                         | None => List.find P b
                         end.
Proof.
  induction a as [| x a IH]; simpl; [reflexivity |]. destruct (P x); [reflexivity | exact IH].
Qed.

Lemma retestLogMap_lookup (name : string) (logs : list TestLog.t) :
  forall m : gmap string TestLog.t,
    fold_left (fun m log => <[TestLog.Name log := log]> m) logs m !! name
    = match last_log_named name logs with
      | Some log => Some log
      | None => m !! name
      end.
Proof.
  unfold last_log_named. induction logs as [| log logs IH]; intros m; simpl; [reflexivity |].
  rewrite IH, find_app_first. destruct (List.find _ (rev logs)); [reflexivity |].
  simpl. destruct (String.eqb (TestLog.Name log) name) eqn:E.
  - apply String.eqb_eq in E. subst name. apply lookup_insert_eq.
  - apply String.eqb_neq in E. apply lookup_insert_ne. exact E.
Qed.

Lemma last_log_named_name (name : string) (logs : list TestLog.t) (log : TestLog.t) :
  last_log_named name logs = Some log -> TestLog.Name log = name /\ In log logs.
Proof.
  unfold last_log_named. intros H. apply find_some in H. destruct H as [Hin Hn].
  split; [apply String.eqb_eq; exact Hn | apply in_rev; exact Hin].
Qed.

Lemma last_log_named_None (name : string) (logs : list TestLog.t) :
  last_log_named name logs = None <-> forall log, In log logs -> TestLog.Name log <> name.
Proof.
  unfold last_log_named. split.
  - intros H log Hin. apply in_rev in Hin. apply (find_none _ _ H) in Hin.
    apply String.eqb_neq. exact Hin.
  - intros H. destruct (List.find _ (rev logs)) as [log |] eqn:E; [| reflexivity].
    apply find_some in E. destruct E as [Hin Hn]. apply in_rev in Hin.
    apply String.eqb_eq in Hn. destruct (H log Hin Hn).
Qed.

Section RetestMerge.

Variable retestLogs : list TestLog.t.

Let retestLogMap : gmap string TestLog.t :=
  fold_left (fun m log => <[TestLog.Name log := log]> m) retestLogs ∅.

(** What [retest] leaves at the place of one log, and whether it counts
    as a failed retest. *)
Let merged (log : TestLog.t) : TestLog.t :=
  default log (last_log_named (TestLog.Name log) retestLogs).
Let failed_again (log : TestLog.t) : bool :=
  match last_log_named (TestLog.Name log) retestLogs with
  | Some retestLog => String.eqb (TestLog.TestResult retestLog) TestResultFailure
  | None => false
  end.

Lemma retest_replace_step (acc : list TestLog.t) (flag : bool) (log : TestLog.t) :
  retest_replace retestLogMap (acc, flag) log
  = (acc ++ [merged log], flag || failed_again log).
Proof.
  unfold retest_replace. subst retestLogMap merged failed_again. cbv beta.
  rewrite retestLogMap_lookup, lookup_empty.
  destruct (last_log_named (TestLog.Name log) retestLogs) as [retestLog |]; simpl.
  - destruct (String.eqb (TestLog.TestResult retestLog) TestResultFailure);
      [rewrite orb_true_r | rewrite orb_false_r]; reflexivity.
  - rewrite orb_false_r. reflexivity.
Qed.

Lemma retest_replace_fold (testLogs : list TestLog.t) :
  forall (acc : list TestLog.t) (flag : bool),
    fold_left (retest_replace retestLogMap) testLogs (acc, flag)
    = (acc ++ List.map merged testLogs, flag || existsb failed_again testLogs).
Proof.
  induction testLogs as [| log testLogs IH]; intros acc flag.
  - simpl. rewrite app_nil_r, orb_false_r. reflexivity.
  - cbn [fold_left]. rewrite retest_replace_step, IH. rewrite <- app_assoc, <- orb_assoc.
    reflexivity.
Qed.

End RetestMerge.

(** [retest] runs the failed tests again, one at a time, with the counters
    reset, and merges the new logs into the old ones in place: the log of a
    test that was reported again is replaced by the last new log of that
    name, every other log stays (a failed test the retest reports nothing
    about keeps its failure log).  The result is an error, always a
    failed-test-job error, exactly when running the tests failed or one of
    the replacing logs is a failure. *)
Theorem TestJobRunner_retest_spec
  (runTests : TestJobRunner.t -> Z -> list string
              -> (list TestLog.t * option xerror) * TestJobRunner.t)
  (r : TestJobRunner.t) (testLogs failedTestLogs : list TestLog.t) :
  let tests := List.map TestLog.Name failedTestLogs in
  let ran := runTests (TestJobRunner.mk 0 (len tests)) 1 tests in
  let retestLogs := fst (fst ran) in
  let runErr := snd (fst ran) in
  let out := TestJobRunner_retest runTests r testLogs failedTestLogs in
  let logs := fst (fst out) in
  let err := snd (fst out) in
  snd out = snd ran /\
  logs = List.map (fun log => default log (last_log_named (TestLog.Name log) retestLogs))
           testLogs /\
  List.map TestLog.Name logs = List.map TestLog.Name testLogs /\
  (err = None <->
   runErr = None /\
   forall log retestLog,
     In log testLogs -> last_log_named (TestLog.Name log) retestLogs = Some retestLog ->
     TestLog.TestResult retestLog <> TestResultFailure) /\
  (forall e, err = Some e -> xerrors_Is_ErrFailedTestJob e = true).
Proof.
  intros tests ran retestLogs runErr out logs err.
  assert (Htests : forall acc,
             fold_left (fun tests log => tests ++ [TestLog.Name log]) failedTestLogs acc
             = acc ++ tests).
  { subst tests. clear. induction failedTestLogs as [| log l IH]; intros acc; simpl.
    - symmetry. apply app_nil_r.
    - rewrite IH, <- app_assoc. reflexivity. }
  subst out logs err. unfold TestJobRunner_retest. cbv zeta. rewrite Htests. simpl app.
  fold tests. fold ran. subst retestLogs runErr.
  destruct ran as [[retestLogs runErr] r1]. cbn [fst snd].
  rewrite retest_replace_fold. simpl app. rewrite orb_false_l.
  set (merged := fun log => default log (last_log_named (TestLog.Name log) retestLogs)).
  set (failed_again := fun log : TestLog.t => match last_log_named (TestLog.Name log) retestLogs with
                                 | Some retestLog =>
                                   String.eqb (TestLog.TestResult retestLog) TestResultFailure
                                 | None => false
                                 end).
  assert (Hnames : List.map TestLog.Name (List.map merged testLogs)
                   = List.map TestLog.Name testLogs).
  { rewrite List.map_map. apply map_ext. intros log. subst merged. cbv beta.
    destruct (last_log_named (TestLog.Name log) retestLogs) as [rl |] eqn:E; [| reflexivity].
    apply last_log_named_name in E. destruct E as [E _]. exact E. }
  assert (Hagain : existsb failed_again testLogs = false <->
                   forall log retestLog,
                     In log testLogs ->
                     last_log_named (TestLog.Name log) retestLogs = Some retestLog ->
                     TestLog.TestResult retestLog <> TestResultFailure).
  { split.
    - intros H log rl Hin Hl Hf.
      assert (existsb failed_again testLogs = true).
      { apply existsb_exists. exists log. split; [exact Hin |]. subst failed_again. cbv beta.
        rewrite Hl. apply String.eqb_eq. exact Hf. }
      congruence.
    - intros H. destruct (existsb failed_again testLogs) eqn:E; [| reflexivity].
      apply existsb_exists in E. destruct E as (log & Hin & Hf). subst failed_again.
      cbv beta in Hf. destruct (last_log_named (TestLog.Name log) retestLogs) as [rl |] eqn:El;
        [| discriminate].
      apply String.eqb_eq in Hf. destruct (H log rl Hin El Hf). }
  destruct runErr as [e |].
  - cbn [fst snd]. split; [reflexivity |]. split; [reflexivity |]. split; [exact Hnames |].
    split; [split; [discriminate | intros [H _]; discriminate] |].
    intros e' He. injection He as <-. reflexivity.
  - destruct (existsb failed_again testLogs) eqn:E; cbn [fst snd].
    + split; [reflexivity |]. split; [reflexivity |]. split; [exact Hnames |]. split.
      * split; [discriminate |]. intros [_ H]. apply Hagain in H. discriminate.
      * intros e' He. injection He as <-. reflexivity.
    + split; [reflexivity |]. split; [reflexivity |]. split; [exact Hnames |]. split.
      * split; [| reflexivity]. intros _. split; [reflexivity |]. apply Hagain. reflexivity.
      * intros e' He. discriminate.
Qed.

(** A retest that reports nothing about a failed test succeeds, and the
    failure log stays in the result. *)
Example TestJobRunner_retest_silent :
  fst (TestJobRunner_retest (fun r _ _ => (([], None), r)) (TestJobRunner.mk 3 3)
         [sample_log "TestA" TestResultSuccess; sample_log "TestB" TestResultFailure]
         [sample_log "TestB" TestResultFailure])
  = ([sample_log "TestA" TestResultSuccess; sample_log "TestB" TestResultFailure], None).
Proof. vm_compute. reflexivity. Qed.

(** ** Artifacts of a sub-task *)

Lemma artifactMap_fold (name : string) (artifacts : list ArtifactSpec.t) :
  forall m : gmap string (list ArtifactSpec.t),
    fold_left
      (fun m artifact =>
         <[ArtifactSpec.ContainerName artifact
           := default [] (m !! ArtifactSpec.ContainerName artifact) ++ [artifact]]> m)
      artifacts m !! name
    = match m !! name,
            List.filter (fun a => String.eqb (ArtifactSpec.ContainerName a) name) artifacts with
      | None, [] => None
      | o, l => Some (default [] o ++ l)
      end.
Proof.
  induction artifacts as [| a artifacts IH]; intros m.
  - simpl. destruct (m !! name) as [l |]; [rewrite app_nil_r |]; reflexivity.
  - cbn [fold_left List.filter]. rewrite IH.
    destruct (String.eqb (ArtifactSpec.ContainerName a) name) eqn:E.
    + apply String.eqb_eq in E. rewrite E, lookup_insert_eq.
      destruct (m !! name) as [l |]; simpl.
      * destruct (List.filter _ artifacts); rewrite <- app_assoc; reflexivity.
      * destruct (List.filter _ artifacts); reflexivity.
    + apply String.eqb_neq in E. rewrite lookup_insert_ne by exact E. reflexivity.
Qed.

Lemma artifactMap_lookup (name : string) (artifacts : list ArtifactSpec.t) :
  artifactMap artifacts !! name
  = match List.filter (fun a => String.eqb (ArtifactSpec.ContainerName a) name) artifacts with
    | [] => None
    | l => Some l
    end.
Proof.
  unfold artifactMap. rewrite artifactMap_fold, lookup_empty.
  destruct (List.filter _ artifacts); reflexivity.
Qed.

Lemma copyArtifact_loop_spec (b : TaskBuilder.t) (mainContainer : TestJobContainer.t)
  (exec : JobExecutor.t) (artifacts : list ArtifactSpec.t) :
  forall copied : list (string * string),
    exists made : list (string * string),
      fst (copyArtifact_loop b mainContainer exec artifacts copied) = copied ++ made /\
      (forall call, In call made ->
         exists a, In a artifacts /\ artifact_copy b mainContainer exec a = Some call) /\
      (snd (copyArtifact_loop b mainContainer exec artifacts copied) = None <->
       forall a, In a artifacts ->
         exists call, artifact_copy b mainContainer exec a = Some call /\
                      JobExecutor.CopyFrom exec (fst call) (snd call) = None) /\
      (snd (copyArtifact_loop b mainContainer exec artifacts copied) = None ->
       made = omap (artifact_copy b mainContainer exec) artifacts /\
       length made = length artifacts).
Proof.
  induction artifacts as [| a artifacts IH]; intros copied.
  - exists []. simpl. rewrite app_nil_r. split; [reflexivity |]. split; [intros ? [] |].
    split; [split; [intros _ ? [] | reflexivity] |]. intros _. split; reflexivity.
  - cbn [copyArtifact_loop].
    destruct (ResourceManager.ArtifactPathByNameAndContainerName (TaskBuilder.mgr b)
                (ArtifactSpec.Name a) (Container.Name (JobExecutor.Container exec)))
      as [localPath | err] eqn:Epath.
    + set (dst := match TestJobContainer.Agent mainContainer with
                  | Some _ => filepath_Dir localPath
                  | None => localPath
                  end).
      assert (Hcopy : artifact_copy b mainContainer exec a
                      = Some (ArtifactSpec.ContainerPath a, dst)).
      { unfold artifact_copy. rewrite Epath. reflexivity. }
      destruct (JobExecutor.CopyFrom exec (ArtifactSpec.ContainerPath a) dst) as [err |] eqn:Ecp.
      * exists [(ArtifactSpec.ContainerPath a, dst)]. cbn [fst snd].
        split; [reflexivity |]. split.
        -- intros call [<- | []]. exists a. split; [left; reflexivity | exact Hcopy].
        -- split; [| discriminate]. split; [discriminate |]. intros H.
           destruct (H a (or_introl eq_refl)) as (call & Hc & Hn).
           rewrite Hcopy in Hc. injection Hc as <-. cbn [fst snd] in Hn. congruence.
      * destruct (IH (copied ++ [(ArtifactSpec.ContainerPath a, dst)]))
          as (made & Hfst & Hmade & Hiff & Hnone).
        exists ((ArtifactSpec.ContainerPath a, dst) :: made).
        split; [rewrite Hfst, <- app_assoc; reflexivity |]. split.
        -- intros call [<- | Hin]; [exists a; split; [left; reflexivity | exact Hcopy] |].
           destruct (Hmade call Hin) as (a' & Ha' & Hc). exists a'. split; [right; exact Ha' | exact Hc].
        -- split.
           ++ rewrite Hiff. split.
              ** intros H a' [<- | Hin]; [| apply H; exact Hin].
                 exists (ArtifactSpec.ContainerPath a, dst). split; [exact Hcopy | exact Ecp].
              ** intros H a' Hin. apply H. right. exact Hin.
           ++ intros Herr. destruct (Hnone Herr) as [Hm Hl]. cbn [omap list_omap]. rewrite Hcopy.
              split; [rewrite Hm; reflexivity | simpl; rewrite Hl; reflexivity].
    + exists []. cbn [fst snd]. rewrite app_nil_r. split; [reflexivity |].
      split; [intros ? [] |]. split; [| discriminate]. split; [discriminate |].
      intros H. destruct (H a (or_introl eq_refl)) as (call & Hc & _).
      unfold artifact_copy in Hc. rewrite Epath in Hc. discriminate.
Qed.

(** The artifact copy of a sub-task.  In dry-run mode nothing is copied.
    Otherwise the artifacts concerned are those the template declares for
    the container name -- the main container's own name for a main
    sub-task, whatever its clone is called, the executor's container name
    otherwise --, in the order of declaration; each is copied from its path
    in the container to the path the manager gives for the artifact and the
    executor's container (its directory when the agent is enabled).  The
    copy succeeds exactly when every lookup and every copy does, and then
    every such artifact has been copied, once. *)
Theorem TaskBuilder_copyArtifact_spec (b : TaskBuilder.t) (mainContainer : TestJobContainer.t)
  (artifacts : list ArtifactSpec.t) (exec : JobExecutor.t) (isMain : bool) :
  let containerName :=
    if isMain then TestJobContainer.Name mainContainer
    else Container.Name (JobExecutor.Container exec) in
  let mine := List.filter (fun a => String.eqb (ArtifactSpec.ContainerName a) containerName)
                artifacts in
  let out := TaskBuilder_copyArtifact b mainContainer artifacts exec isMain in
  match TaskBuilder.runMode b with
  | RunModeDryRun => out = ([], None)
  | _ =>
    (forall call, In call (fst out) ->
       exists a, In a mine /\ artifact_copy b mainContainer exec a = Some call) /\
    (snd out = None <->
     forall a, In a mine ->
       exists call, artifact_copy b mainContainer exec a = Some call /\
                    JobExecutor.CopyFrom exec (fst call) (snd call) = None) /\
    (snd out = None -> fst out = omap (artifact_copy b mainContainer exec) mine /\
                       length (fst out) = length mine)
  end.
Proof.
  intros containerName mine out. subst out. unfold TaskBuilder_copyArtifact.
  assert (Hbody :
            let out := match artifactMap artifacts !! containerName with
                       | Some l => copyArtifact_loop b mainContainer exec l []
                       | None => ([], None)
                       end in
            (forall call, In call (fst out) ->
               exists a, In a mine /\ artifact_copy b mainContainer exec a = Some call) /\
            (snd out = None <->
             forall a, In a mine ->
               exists call, artifact_copy b mainContainer exec a = Some call /\
                            JobExecutor.CopyFrom exec (fst call) (snd call) = None) /\
            (snd out = None -> fst out = omap (artifact_copy b mainContainer exec) mine /\
                               length (fst out) = length mine)).
  { cbv zeta. rewrite artifactMap_lookup. fold mine.
    destruct (copyArtifact_loop_spec b mainContainer exec mine [])
      as (made & Hfst & Hmade & Hiff & Hnone).
    simpl app in Hfst.
    destruct mine as [| a rest] eqn:Emine.
    - cbn [fst snd]. split; [intros ? [] |]. split; [split; [intros _ ? [] | reflexivity] |].
      intros _. split; reflexivity.
    - rewrite Hfst. split; [exact Hmade |]. split; [exact Hiff |]. exact Hnone. }
  destruct (TaskBuilder.runMode b); simpl RunMode_eqb; cbv iota;
    [exact Hbody | exact Hbody | reflexivity].
Qed.

Example TaskBuilder_copyArtifact_main_clone :
  TaskBuilder_copyArtifact sample_builder sample_main sample_artifacts
    (sample_exec "test0-1" "ok" None) true
  = ([("/work/report.xml", "/var/kubetest/artifact/report/test0-1");
      ("/work/cover.out", "/var/kubetest/artifact/coverage/test0-1")]%string, None).
Proof. vm_compute. reflexivity. Qed.

Lemma dryRunJob_executors_In (elapsed : Z -> Z) (containers : list Container.t) :
  forall (idx : Z) (execs : list JobExecutor.t) (exec : JobExecutor.t),
    In exec (dryRunJob_executors elapsed idx containers execs) ->
    In exec execs \/
    exists i container, In container containers /\
                        exec = dryRunJobExecutor (elapsed i) container i.
Proof.
  induction containers as [| container containers IH]; intros idx execs exec H; simpl in H.
  - left. exact H.
  - apply IH in H. destruct H as [H | (i & c & Hc & ->)].
    + apply in_app_iff in H. destruct H as [H | [<- | []]]; [left; exact H |].
      right. exists idx, container. split; [left; reflexivity | reflexivity].
    + right. exists i, c. split; [right; exact Hc | reflexivity].
Qed.

(** In dry-run mode every sub-task reports success: each executor the
    dry-run job hands to its handler only pretends to run its container,
    and the artifact copy of the builder does nothing. *)
Theorem SubTask_Run_dry_run (b : TaskBuilder.t) (mainContainer : TestJobContainer.t)
  (artifacts : list ArtifactSpec.t) (elapsed : Z -> Z) (job : Pod.t) (exec : JobExecutor.t)
  (name keyEnvName : string) (onFinish isMain : bool) :
  TaskBuilder.runMode b = RunModeDryRun ->
  In exec (dryRunJob_executors elapsed 0 (PodSpec.Containers (Pod.Spec job)) []) ->
  let t := SubTask.mk name keyEnvName onFinish exec isMain
             (fun exec isMain =>
                snd (TaskBuilder_copyArtifact b mainContainer artifacts exec isMain)) in
  let r := SubTask_result t in
  SubTaskResult.Status r = TaskResultSuccess /\
  SubTaskResult.Out r = "( dry running .... )"%string /\
  SubTaskResult.Err r = None /\
  SubTaskResult.ArtifactErr r = None /\
  In (SubTaskResult.Container r) (PodSpec.Containers (Pod.Spec job)).
Proof.
  intros Hmode Hexec t r. subst r t.
  apply dryRunJob_executors_In in Hexec. destruct Hexec as [[] | (i & container & Hc & ->)].
  unfold SubTask_result, SubTask_Run. cbn [SubTask.exec].
  unfold dryRunJobExecutor at 1. cbn [JobExecutor.Output SubTask.copyArtifact SubTask.isMain].
  unfold TaskBuilder_copyArtifact. rewrite Hmode. simpl. repeat split; try reflexivity. exact Hc.
Qed.

Lemma SubTask_Run_dry_run_witness :
  let b := TaskBuilder.mk sample_manager "default" RunModeDryRun in
  let t := SubTask.mk "A" "TEST" true (dryRunJobExecutor 1 (sample_container "test0-0") 0) true
             (fun exec isMain =>
                snd (TaskBuilder_copyArtifact b sample_main sample_artifacts exec isMain)) in
  SubTaskResult.Status (SubTask_result t) = TaskResultSuccess.
Proof.
  apply (SubTask_Run_dry_run (TaskBuilder.mk sample_manager "default" RunModeDryRun)
           sample_main sample_artifacts (fun _ => 1)
           (Pod.mk (ObjectMeta.mk "pod" ∅ ∅) (PodSpec.mk [] [sample_container "test0-0"] []))
           (dryRunJobExecutor 1 (sample_container "test0-0") 0) "A" "TEST" true true).
  - reflexivity.
  - left. reflexivity.
Defined.

(** ** The local job: symbolic links and executors *)

Section LocalRunFacts.

Variable os_Symlink : list (string * string) -> string -> string -> option error.
Variable rootDir : string.
Variable preInitNameToPath : gmap string string.

(** The links made so far and the set that remembers their new paths
    agree, and no new path was linked twice. *)
Let links_ok (linkedPathMap : gset string) (links : list (string * string)) : Prop :=
  (forall p, p ∈ linkedPathMap <-> In p (List.map snd links)) /\
  List.NoDup (List.map snd links).

(** Where a link comes from. *)
Let link_of (mounts : list VolumeMount.t) (l : string * string) : Prop :=
  exists mount, In mount mounts /\
    preInitNameToPath !! VolumeMount.Name mount = Some (fst l) /\
    snd l = filepath_Join [rootDir; VolumeMount.MountPath mount].

Lemma localJob_link_mounts_inv (mounts : list VolumeMount.t) :
  forall (linkedPathMap : gset string) (links : list (string * string)),
    links_ok linkedPathMap links ->
    exists made,
      snd (fst (localJob_link_mounts os_Symlink rootDir preInitNameToPath mounts
                  linkedPathMap links)) = links ++ made /\
      links_ok (fst (fst (localJob_link_mounts os_Symlink rootDir preInitNameToPath mounts
                            linkedPathMap links))) (links ++ made) /\
      Forall (link_of mounts) made /\
      ((forall l o n, os_Symlink l o n = None) ->
       snd (localJob_link_mounts os_Symlink rootDir preInitNameToPath mounts
              linkedPathMap links) = None) /\
      (forall e,
         snd (localJob_link_mounts os_Symlink rootDir preInitNameToPath mounts
                linkedPathMap links) = Some e ->
         exists o n, e = localJob_symlink_error o n).
Proof.
  induction mounts as [| mount mounts IH]; intros linked links Hok.
  - exists []. simpl. rewrite app_nil_r. split; [reflexivity |]. split; [exact Hok |].
    split; [constructor |]. split; [reflexivity | discriminate].
  - cbn [localJob_link_mounts].
    assert (Hweak : forall made, Forall (link_of mounts) made -> Forall (link_of (mount :: mounts)) made).
    { intros made Hm. eapply List.Forall_impl; [| exact Hm].
      intros l (m & Hin & H). exists m. split; [right; exact Hin | exact H]. }
    destruct (preInitNameToPath !! VolumeMount.Name mount) as [oldPath |] eqn:Eold.
    + set (newPath := filepath_Join [rootDir; VolumeMount.MountPath mount]).
      destruct (bool_decide (newPath ∈ linked)) eqn:Elinked.
      * destruct (IH linked links Hok) as (made & H1 & H2 & H3 & H4).
        exists made. split; [exact H1 |]. split; [exact H2 |]. split; [apply Hweak; exact H3 | exact H4].
      * apply bool_decide_eq_false in Elinked.
        destruct (os_Symlink links oldPath newPath) as [err |] eqn:Esym.
        -- exists []. cbn [fst snd]. rewrite app_nil_r. split; [reflexivity |].
           split; [exact Hok |]. split; [constructor |]. split.
           ++ intros Hall. rewrite Hall in Esym. discriminate.
           ++ intros e He. injection He as <-. eauto.
        -- assert (Hok' : links_ok ({[newPath]} ∪ linked) (links ++ [(oldPath, newPath)])).
           { destruct Hok as [Hmem Hnd]. split.
             - intros p. rewrite elem_of_union, elem_of_singleton, Hmem.
               rewrite List.map_app, in_app_iff. simpl. split.
               + intros [-> | H]; [right; left; reflexivity | left; exact H].
               + intros [H | [<- | []]]; [right; exact H | left; reflexivity].
             - rewrite List.map_app. simpl.
               apply (Permutation_NoDup (l := newPath :: List.map snd links)).
               + change (newPath :: List.map snd links)
                   with ([newPath] ++ List.map snd links).
                 apply Permutation_app_comm.
               + constructor; [| exact Hnd]. intros Hin. apply Elinked, Hmem. exact Hin. }
           destruct (IH _ _ Hok') as (made & H1 & H2 & H3 & H4).
           exists ((oldPath, newPath) :: made). rewrite <- app_assoc in H1, H2.
           split; [exact H1 |]. split; [exact H2 |]. split; [| exact H4].
           constructor; [| apply Hweak; exact H3].
           exists mount. split; [left; reflexivity |]. split; [exact Eold | reflexivity].
    + destruct (IH linked links Hok) as (made & H1 & H2 & H3 & H4).
      exists made. split; [exact H1 |]. split; [exact H2 |]. split; [apply Hweak; exact H3 | exact H4].
Qed.

End LocalRunFacts.

Lemma localJob_container_mounts (idx : Z) (container : Container.t) :
  Container.VolumeMounts (localJob_container idx container) = Container.VolumeMounts container.
Proof. unfold localJob_container. destruct (String.eqb _ _); reflexivity. Qed.

Section LocalContainers.

Variable os_Symlink : list (string * string) -> string -> string -> option error.
Variable rootDir : string.
Variable preInitNameToPath : gmap string string.

(** A link comes from a mount of a container whose name the pre-init
    container staged. *)
Let link_from (containers : list Container.t) (l : string * string) : Prop :=
  exists container mount,
    In container containers /\ In mount (Container.VolumeMounts container) /\
    preInitNameToPath !! VolumeMount.Name mount = Some (fst l) /\
    snd l = filepath_Join [rootDir; VolumeMount.MountPath mount].

Lemma localJob_containers_inv (containers : list Container.t) :
  forall (idx : Z) (linkedPathMap : gset string) (links : list (string * string))
         (execs : list localJobExecutor.t),
    (forall p, p ∈ linkedPathMap <-> In p (List.map snd links)) ->
    List.NoDup (List.map snd links) ->
    0 <= idx -> idx + len containers <= GoInt.int_max ->
    let out := localJob_containers os_Symlink rootDir preInitNameToPath idx containers
                 linkedPathMap links execs in
    exists made,
      fst (fst out) = links ++ made /\
      List.NoDup (List.map snd (links ++ made)) /\
      Forall (link_from containers) made /\
      (snd out = None ->
       snd (fst out)
       = execs ++ imap (fun i c => localJobExecutor.mk rootDir
                                     (localJob_container (idx + Z.of_nat i) c)
                                     (idx + Z.of_nat i)) containers) /\
      ((forall l o n, os_Symlink l o n = None) -> snd out = None) /\
      (forall e, snd out = Some e -> exists o n, e = localJob_symlink_error o n).
Proof.
  induction containers as [| container containers IH];
    intros idx linked links execs Hmem Hnd Hidx Hmax out; subst out.
  - exists []. simpl. rewrite !app_nil_r. split; [reflexivity |]. split; [exact Hnd |].
    split; [constructor |]. split; [reflexivity |]. split; [reflexivity | discriminate].
  - cbn [localJob_containers]. cbv zeta.
    destruct (localJob_link_mounts_inv os_Symlink rootDir preInitNameToPath
                (Container.VolumeMounts (localJob_container idx container)) linked links
                (conj Hmem Hnd))
      as (made1 & H1 & [Hmem1 Hnd1] & Hfrom1 & Hall1 & Herr1).
    assert (Hfrom1' : Forall (link_from (container :: containers)) made1).
    { eapply List.Forall_impl; [| exact Hfrom1]. intros l (mount & Hin & Hold & Hnew).
      exists container, mount. rewrite localJob_container_mounts in Hin.
      split; [left; reflexivity |]. split; [exact Hin |]. split; assumption. }
    destruct (localJob_link_mounts os_Symlink rootDir preInitNameToPath
                (Container.VolumeMounts (localJob_container idx container)) linked links)
      as [[linked1 links1] err1].
    cbn [fst snd] in H1, Hmem1, Hnd1, Hall1, Herr1. subst links1.
    destruct err1 as [e |].
    + exists made1. cbn [fst snd]. split; [reflexivity |]. split; [exact Hnd1 |].
      split; [exact Hfrom1' |]. split; [discriminate |]. split.
      * intros Hall. specialize (Hall1 Hall). discriminate.
      * intros e' He'. injection He' as <-. apply Herr1. reflexivity.
    + assert (Hadd : GoInt.add idx 1 = idx + 1).
      { apply add_in_range. unfold GoInt.in_range, GoInt.int_min, GoInt.int_max, len in *.
        rewrite length_cons in Hmax. lia. }
      rewrite Hadd.
      destruct (IH (idx + 1) linked1 (links ++ made1)
                  (execs ++ [localJobExecutor.mk rootDir (localJob_container idx container) idx])
                  Hmem1 Hnd1 ltac:(lia)
                  ltac:(unfold len in *; rewrite length_cons in Hmax; lia))
        as (made2 & H2 & Hnd2 & Hfrom2 & Hex2 & Hall2 & Herr2).
      exists (made1 ++ made2). rewrite app_assoc. split; [exact H2 |]. split; [exact Hnd2 |].
      split.
      * apply Forall_app. split; [exact Hfrom1' |].
        eapply List.Forall_impl; [| exact Hfrom2]. intros l (c & mount & Hc & H).
        exists c, mount. split; [right; exact Hc | exact H].
      * split; [| split; [exact Hall2 | exact Herr2]].
        intros Hnone. rewrite (Hex2 Hnone), <- app_assoc. f_equal. simpl.
        rewrite Z.add_0_r. f_equal. apply imap_ext. intros i c _. simpl.
        replace (idx + 1 + Z.of_nat i) with (idx + Z.of_nat (S i)) by lia. reflexivity.
Qed.

End LocalContainers.

Lemma preInitNameToPath_lookup (rootDir : string) (mounts : list VolumeMount.t) (name path : string) :
  forall m : gmap string string,
    fold_left
      (fun m volumeMount =>
         <[VolumeMount.Name volumeMount
           := filepath_Join [rootDir; VolumeMount.MountPath volumeMount]]> m)
      mounts m !! name = Some path ->
    m !! name = Some path \/
    exists volumeMount, In volumeMount mounts /\ VolumeMount.Name volumeMount = name /\
                        path = filepath_Join [rootDir; VolumeMount.MountPath volumeMount].
Proof.
  induction mounts as [| vm mounts IH]; intros m H; simpl in H; [left; exact H |].
  apply IH in H. destruct H as [H | (vm' & Hin & Hn & Hp)].
  - destruct (decide (VolumeMount.Name vm = name)) as [E | E].
    + rewrite <- E, lookup_insert_eq in H. injection H as <-. right.
      exists vm. split; [left; reflexivity |]. split; [exact E | reflexivity].
    + rewrite lookup_insert_ne in H by exact E. left. exact H.
  - right. exists vm'. split; [right; exact Hin |]. split; assumption.
Qed.

Lemma omap_symlink_events (pre : list LocalEvent) (links : list (string * string))
  (post : list LocalEvent) :
  omap LocalEvent_symlink pre = [] -> omap LocalEvent_symlink post = [] ->
  omap LocalEvent_symlink (pre ++ List.map (fun l => LEvSymlink (fst l) (snd l)) links ++ post)
  = links.
Proof.
  intros Hpre Hpost.
  assert (H : omap LocalEvent_symlink (List.map (fun l => LEvSymlink (fst l) (snd l)) links)
              = links).
  { induction links as [| [o n] links IH]; [reflexivity |].
    cbn [List.map omap list_omap LocalEvent_symlink fst snd]. f_equal. exact IH. }
  rewrite !omap_app, Hpre, Hpost, H, app_nil_r. reflexivity.
Qed.


(** A local run links every path at most once, whatever the file system
    answers; each link leads from the place where the pre-init container
    mounts a volume to the place where a container of the pod mounts the
    volume of the same name, both under the root directory; and without a
    pre-init callback no link is made at all. *)
Theorem localJob_links_once
  (os_Symlink : list (string * string) -> string -> string -> option error)
  (j : localJob.t) (handler : list localJobExecutor.t -> option error) :
  let containers := PodSpec.Containers (Pod.Spec (localJob.job j)) in
  let links := omap LocalEvent_symlink
                 (fst (localJob_RunWithExecutionHandler os_Symlink j handler)) in
  len containers <= GoInt.int_max ->
  List.NoDup (List.map snd links) /\
  (forall l, In l links ->
     exists container mount preInitMount,
       In container containers /\ In mount (Container.VolumeMounts container) /\
       In preInitMount (Container.VolumeMounts (localJob.preInitContainer j)) /\
       VolumeMount.Name preInitMount = VolumeMount.Name mount /\
       fst l = filepath_Join [localJob.rootDir j; VolumeMount.MountPath preInitMount] /\
       snd l = filepath_Join [localJob.rootDir j; VolumeMount.MountPath mount]) /\
  (localJob.preInitCallback j = None -> links = []).
Proof.
  intros containers links Hlen.
  assert (Hmain : exists made,
                    links = made /\ List.NoDup (List.map snd made) /\
                    Forall (fun l => exists container mount,
                                In container containers /\
                                In mount (Container.VolumeMounts container) /\
                                localJob_preInitNameToPath j !! VolumeMount.Name mount
                                = Some (fst l) /\
                                snd l = filepath_Join [localJob.rootDir j;
                                                       VolumeMount.MountPath mount]) made).
  { subst links. unfold localJob_RunWithExecutionHandler. cbv zeta.
    destruct (localJob_containers_inv os_Symlink (localJob.rootDir j)
                (localJob_preInitNameToPath j) containers 0 ∅ [] []
                ltac:(intros p; simpl; set_solver) ltac:(constructor) ltac:(lia) ltac:(lia))
      as (made & H1 & Hnd & Hfrom & _).
    fold containers.
    destruct (localJob_containers os_Symlink (localJob.rootDir j) (localJob_preInitNameToPath j)
                0 containers ∅ [] []) as [[links' execs] err].
    cbn [fst snd] in H1. simpl app in H1, Hnd. subst links'.
    exists made. split; [| split; [exact Hnd | exact Hfrom]].
    destruct err as [e |]; cbn [fst].
    - rewrite <- (app_nil_r (List.map _ made)).
      apply omap_symlink_events; [destruct (localJob.preInitCallback j); reflexivity | reflexivity].
    - apply omap_symlink_events; [destruct (localJob.preInitCallback j); reflexivity | reflexivity]. }
  destruct Hmain as (made & -> & Hnd & Hfrom). split; [exact Hnd |]. split.
  - intros l Hin. rewrite List.Forall_forall in Hfrom.
    destruct (Hfrom l Hin) as (container & mount & Hc & Hm & Hold & Hnew).
    unfold localJob_preInitNameToPath in Hold.
    destruct (localJob.preInitCallback j); [| rewrite lookup_empty in Hold; discriminate].
    apply preInitNameToPath_lookup in Hold.
    destruct Hold as [Hold | (pm & Hpm & Hn & Hp)]; [rewrite lookup_empty in Hold; discriminate |].
    exists container, mount, pm. repeat split; assumption.
  - intros Hnil. destruct made as [| l made]; [reflexivity |]. exfalso.
    inversion Hfrom as [| ? ? (container & mount & _ & _ & Hold & _) _]; subst.
    unfold localJob_preInitNameToPath in Hold. rewrite Hnil, lookup_empty in Hold. discriminate.
Qed.

Lemma localJob_links_once_witness :
  omap LocalEvent_symlink
    (fst (localJob_RunWithExecutionHandler (fun _ _ _ => None) sample_local_job (fun _ => None)))
  = [("/tmp/root/stage/repo", "/tmp/root/work")]%string /\
  List.NoDup
    (List.map snd
       (omap LocalEvent_symlink
          (fst (localJob_RunWithExecutionHandler (fun _ _ _ => None) sample_local_job
                  (fun _ => None))))).
Proof.
  split; [vm_compute; reflexivity |].
  apply (localJob_links_once (fun _ _ _ => None) sample_local_job (fun _ => None)).
  unfold len, GoInt.int_max. simpl. lia.
Defined.



(** ** Staging paths of the volume mounts *)






Example volume_mounts_staged_sample :
  List.map VolumeMount.MountPath
    (Container.VolumeMounts
       (TestJobContainer.Container (rewritten sample_mixed_volumes sample_mixed_container)))
  = ["/tmp/repo-archive/repo-volume"; "/tmp/token/token-volume"; "/tmp/log"; "/etc/settings";
     "/tmp/log"; "/scratch"]%string.
Proof. vm_compute. reflexivity. Qed.

(** ** Names of the strategy-key clones *)

Lemma to_int_not_nil (n : Z) :
  Z.to_int n <> Decimal.Pos Decimal.Nil /\ Z.to_int n <> Decimal.Neg Decimal.Nil.
Proof.
  destruct n as [| p | p]; simpl; split; try discriminate;
    intros H; injection H as H; exact (DecimalPos.Unsigned.to_uint_nonnil p H).
Qed.

Lemma itoa_inj (a b : Z) : itoa a = itoa b -> a = b.
Proof.
  unfold itoa. intros H. apply (f_equal NilZero.int_of_string) in H.
  destruct (to_int_not_nil a) as [Ha1 Ha2]. destruct (to_int_not_nil b) as [Hb1 Hb2].
  rewrite !NilZero.isi in H by assumption. injection H as H.
  apply DecimalZ.to_int_inj. exact H.
Qed.

Lemma append_inj_r (a x y : string) : (a ++ x)%string = (a ++ y)%string -> x = y.
Proof.
  induction a as [| c a IH]; simpl; intros H; [exact H |]. injection H as H. exact (IH H).
Qed.

Lemma strategyKeyContainer_name_inj (mainContainer : TestJobContainer.t) (sk : StrategyKey.t)
  (i j : Z) (k1 k2 : string) :
  TestJobContainer.Name (strategyKeyContainer mainContainer sk i k1)
  = TestJobContainer.Name (strategyKeyContainer mainContainer sk j k2) ->
  i = j.
Proof.
  unfold TestJobContainer.Name, strategyKeyContainer. cbn. intros H.
  apply append_inj_r, append_inj_r in H. injection H as H. apply itoa_inj. exact H.
Qed.

(** The clones of the main container get pairwise different names, none
    of them the name of the main container itself: the n keys of a
    strategy key give n separate containers in the pod and n entries in the
    map of task containers. *)
Theorem strategyKey_clone_names_distinct (mainContainer : TestJobContainer.t)
  (sk : StrategyKey.t) :
  len (StrategyKey.Keys sk) <= GoInt.int_max ->
  let clones := strategyKeyContainers mainContainer sk 0 (StrategyKey.Keys sk) [] in
  length clones = length (StrategyKey.Keys sk) /\
  List.NoDup (List.map TestJobContainer.Name clones) /\
  Forall (fun clone => TestJobContainer.Name clone <> TestJobContainer.Name mainContainer) clones.
Proof.
  intros Hmax clones. subst clones.
  rewrite strategyKeyContainers_spec by lia. simpl app.
  split; [apply length_imap |]. split.
  - apply NoDup_ListNoDup, NoDup_alt. intros i j name Hi Hj.
    rewrite list_lookup_fmap, list_lookup_imap in Hi, Hj.
    destruct (StrategyKey.Keys sk !! i) as [k1 |]; [| discriminate].
    destruct (StrategyKey.Keys sk !! j) as [k2 |]; [| discriminate].
    simpl in Hi, Hj. injection Hi as Hi. injection Hj as Hj. rewrite <- Hj in Hi.
    apply strategyKeyContainer_name_inj in Hi. lia.
  - apply List.Forall_forall. intros clone Hin. apply list_elem_of_In, elem_of_lookup_imap in Hin.
    destruct Hin as (i & key & -> & _). apply strategyKeyContainer_name_fresh.
Qed.

Lemma strategyKey_clone_names_distinct_witness :
  List.NoDup
    (List.map TestJobContainer.Name
       (strategyKeyContainers sample_main sample_strategyKey 0
          (StrategyKey.Keys sample_strategyKey) [])).
Proof.
  apply (strategyKey_clone_names_distinct sample_main sample_strategyKey).
  unfold len, GoInt.int_max. simpl. lia.
Defined.

(** ** Labels and annotations of the pod *)

(** The pod template of every job carries the label
    kubetest.io/testjob = "true", whatever the template says about that
    label, and all other labels of the template; the job's own metadata is
    the template's, without the label.  The annotations are the template's,
    plus the JSON encoding of the keys under kubetest.io/strategyKeys when
    the job is built for a strategy key. *)
Theorem buildJob_labels (json_Marshal : list string -> result string)
  (backend_error : RunMode -> option error) (rhos : nat -> range_order)
  (b : TaskBuilder.t) (mainContainer : TestJobContainer.t) (tmpl : TestJobTemplateSpec.t)
  (strategyKey : option StrategyKey.t) (job : Job.t) :
  TaskBuilder_buildJob json_Marshal backend_error rhos b mainContainer tmpl strategyKey = Ok job ->
  let podMeta := Pod.Meta (Job.template job) in
  let meta := TestJobTemplateSpec.Meta tmpl in
  ObjectMeta.Labels podMeta !! kubetestLabel = Some "true"%string /\
  (forall k, k <> kubetestLabel -> ObjectMeta.Labels podMeta !! k = ObjectMeta.Labels meta !! k) /\
  Job.meta job = meta /\
  match strategyKey with
  | None => ObjectMeta.Annotations podMeta = ObjectMeta.Annotations meta
  | Some sk =>
    exists keys, json_Marshal (StrategyKey.Keys sk) = Ok keys /\
                 ObjectMeta.Annotations podMeta
                 = <[keysAnnotation := keys]> (ObjectMeta.Annotations meta)
  end.
Proof.
  unfold TaskBuilder_buildJob, JobBuilder_BuildWithJob. cbv zeta.
  set (buildCtx := buildJob_context mainContainer tmpl strategyKey).
  unfold assign_all. rewrite !(right_id_L ∅ (∪)).
  intros H.
  assert (Hjob : exists annotations preInit mount,
             match strategyKey with
             | None => annotations = ObjectMeta.Annotations (TestJobTemplateSpec.Meta tmpl)
             | Some sk =>
               exists keys, json_Marshal (StrategyKey.Keys sk) = Ok keys /\
                            annotations
                            = <[keysAnnotation := keys]>
                                (ObjectMeta.Annotations (TestJobTemplateSpec.Meta tmpl))
             end /\
             Job.meta job = TestJobTemplateSpec.Meta tmpl /\
             Pod.Meta (Job.template job)
             = ObjectMeta.mk (ObjectMeta.Name (TestJobTemplateSpec.Meta tmpl))
                 (<[kubetestLabel := "true"%string]>
                    (ObjectMeta.Labels (TestJobTemplateSpec.Meta tmpl)))
                 annotations /\
             Job.preInit job = preInit /\ Job.mountContext job = mount).
  { destruct strategyKey as [sk |].
    - destruct (json_Marshal (StrategyKey.Keys sk)) as [keys | e] eqn:Ekeys; [| discriminate].
      destruct (backend_error (TaskBuilder.runMode b)); [discriminate |].
      destruct (TaskBuildContext_needsToPreInit (rhos 2%nat) buildCtx).
      + destruct (preInitCallback b (rhos 3%nat) buildCtx) as [callback | e]; [| discriminate].
        injection H as <-. unfold Job.Mount, Job.PreInit.
        destruct (TaskBuilder.runMode b); simpl; eexists; eexists; eexists;
          (split; [exists keys; split; reflexivity | repeat split; reflexivity]).
      + injection H as <-. unfold Job.Mount.
        destruct (TaskBuilder.runMode b); simpl; eexists; eexists; eexists;
          (split; [exists keys; split; reflexivity | repeat split; reflexivity]).
    - destruct (backend_error (TaskBuilder.runMode b)); [discriminate |].
      destruct (TaskBuildContext_needsToPreInit (rhos 2%nat) buildCtx).
      + destruct (preInitCallback b (rhos 3%nat) buildCtx) as [callback | e]; [| discriminate].
        injection H as <-. unfold Job.Mount, Job.PreInit.
        destruct (TaskBuilder.runMode b); simpl; eexists; eexists; eexists;
          (split; [reflexivity | repeat split; reflexivity]).
      + injection H as <-. unfold Job.Mount.
        destruct (TaskBuilder.runMode b); simpl; eexists; eexists; eexists;
          (split; [reflexivity | repeat split; reflexivity]). }
  destruct Hjob as (annotations & _ & _ & Hann & Hmeta & Hpod & _).
  cbv zeta. rewrite Hpod. cbn [ObjectMeta.Labels ObjectMeta.Annotations].
  split; [apply lookup_insert_eq |].
  split; [intros k Hk; apply lookup_insert_ne; congruence |].
  split; [exact Hmeta |].
  destruct strategyKey as [sk |]; exact Hann.
Qed.

Lemma buildJob_labels_witness :
  ObjectMeta.Labels (Pod.Meta (Job.template sample_expanded_job)) !! kubetestLabel
  = Some "true"%string.
Proof.
  apply (buildJob_labels (fun _ => Ok "[]"%string) (fun _ => None) (fun _ => range_sorted)
           sample_builder sample_main
           (Step.GetTemplate (sample_template [sample_sidecar; sample_main]))
           (Some sample_strategyKey) sample_expanded_job).
  vm_compute. reflexivity.
Defined.

(** ** The volumes of the pod and the mounts of the pre-init container *)

Lemma pod_volume_name (volume : TestJobVolume.t) :
  Volume.Name (pod_volume volume) = TestJobVolume.Name volume.
Proof. unfold pod_volume. destruct (is_test_volume volume); reflexivity. Qed.

(** What one mount adds to the two maps of a task container. *)
Lemma newTaskContainer_step_maps (vols : gmap string TestJobVolume.t)
  (tc : TaskContainer.t) (vm : VolumeMount.t) :
  let v := lookup_volume vols (VolumeMount.Name vm) in
  let tc' := fst (newTaskContainer_step vols tc vm) in
  TaskContainer.podSpecVolumeMap tc'
  = <[TestJobVolume.Name v := pod_volume v]> (TaskContainer.podSpecVolumeMap tc) /\
  TaskContainer.preInitVolumeMountMap tc'
  = if is_test_volume v
    then <[TestJobVolume.Name v
           := preInitMount (TestJobVolume.Name v)
                (VolumeMount.MountPath (rewritten_mount vols vm))]>
           (TaskContainer.preInitVolumeMountMap tc)
    else TaskContainer.preInitVolumeMountMap tc.
Proof.
  cbv zeta. unfold rewritten_mount, newTaskContainer_step, pod_volume, is_test_volume. cbv zeta.
  destruct (lookup_volume vols (VolumeMount.Name vm)) as [vname repo artifact token log report src].
  cbn [TestJobVolume.Name TestJobVolume.Repo TestJobVolume.Artifact TestJobVolume.Token
       TestJobVolume.Log TestJobVolume.Report TestJobVolume.Source].
  destruct repo as [r |]; [split; reflexivity |].
  destruct artifact as [a |]; [split; reflexivity |].
  destruct token as [t |]; [split; reflexivity |].
  destruct log; [split; reflexivity |].
  destruct report; split; reflexivity.
Qed.

Section TaskContainerMaps.

Variable vols : gmap string TestJobVolume.t.

Let vol (vm : VolumeMount.t) : TestJobVolume.t := lookup_volume vols (VolumeMount.Name vm).

Lemma newTaskContainer_loop_volumes (todo : list VolumeMount.t) :
  forall (tc : TaskContainer.t) (done : list VolumeMount.t),
    let tc' := fst (newTaskContainer_loop vols tc done todo) in
    (forall k x, TaskContainer.podSpecVolumeMap tc' !! k = Some x ->
                 TaskContainer.podSpecVolumeMap tc !! k = Some x \/
                 exists vm, In vm todo /\ k = TestJobVolume.Name (vol vm) /\
                            x = pod_volume (vol vm)) /\
    (forall k, is_Some (TaskContainer.podSpecVolumeMap tc !! k) \/
               (exists vm, In vm todo /\ k = TestJobVolume.Name (vol vm)) ->
               is_Some (TaskContainer.podSpecVolumeMap tc' !! k)).
Proof.
  induction todo as [| vm todo IH]; intros tc done; cbn [newTaskContainer_loop].
  - cbv zeta. cbn [fst]. split; [intros k x H; left; exact H |].
    intros k [H | (vm & [] & _)]. exact H.
  - destruct (newTaskContainer_step_maps vols tc vm) as [Hpod _]. cbv zeta in Hpod.
    destruct (newTaskContainer_step vols tc vm) as [tc1 vm1]. cbn [fst] in Hpod.
    destruct (IH tc1 (done ++ [vm1])) as [IH1 IH2]. cbv zeta in *. split.
    + intros k x H. apply IH1 in H. destruct H as [H | (vm' & Hin & Hk & Hx)].
      * rewrite Hpod in H.
        destruct (decide (TestJobVolume.Name (lookup_volume vols (VolumeMount.Name vm)) = k))
          as [E | E].
        -- rewrite <- E, lookup_insert_eq in H. injection H as <-. right.
           exists vm. split; [left; reflexivity |]. split; [symmetry; exact E | reflexivity].
        -- rewrite lookup_insert_ne in H by exact E. left. exact H.
      * right. exists vm'. split; [right; exact Hin |]. split; assumption.
    + intros k H. apply IH2. rewrite Hpod.
      destruct (decide (TestJobVolume.Name (lookup_volume vols (VolumeMount.Name vm)) = k))
        as [E | E].
      * left. rewrite <- E, lookup_insert_eq. eauto.
      * destruct H as [H | (vm' & [<- | Hin] & Hk)].
        -- left. rewrite lookup_insert_ne by exact E. exact H.
        -- subst k. contradiction.
        -- right. exists vm'. split; assumption.
Qed.


End TaskContainerMaps.

Lemma newTaskContainer_maps (c : TestJobContainer.t) (volumes : list TestJobVolume.t) :
  let loop := newTaskContainer_loop (volumeNameToVolume volumes)
                (TaskContainer.mk c ∅ ∅ ∅ ∅ ∅ ∅ [] [] ∅ ∅) []
                (Container.VolumeMounts (TestJobContainer.Container c)) in
  let tc := newTaskContainer c volumes in
  TaskContainer.podSpecVolumeMap tc = TaskContainer.podSpecVolumeMap (fst loop) /\
  TaskContainer.preInitVolumeMountMap tc = TaskContainer.preInitVolumeMountMap (fst loop) /\
  TaskContainer.logOrgMountPaths tc = TaskContainer.logOrgMountPaths (fst loop) /\
  TaskContainer.reportOrgMountPaths tc = TaskContainer.reportOrgMountPaths (fst loop) /\
  TaskContainer.tokenNameToMountPath tc = TaskContainer.tokenNameToMountPath (fst loop) /\
  TaskContainer.tokenNameToOrgMountPath tc = TaskContainer.tokenNameToOrgMountPath (fst loop) /\
  TaskContainer.artifactNameToMountPath tc = TaskContainer.artifactNameToMountPath (fst loop) /\
  TaskContainer.artifactNameToOrgMountPath tc
  = TaskContainer.artifactNameToOrgMountPath (fst loop).
Proof.
  cbv zeta. unfold newTaskContainer. cbv zeta.
  destruct (newTaskContainer_loop _ _ _ _) as [tc vms]. simpl. repeat split; reflexivity.
Qed.

Section VolumesOfContainers.

Variable volumes : list TestJobVolume.t.

Let vols := volumeNameToVolume volumes.
Let vol (vm : VolumeMount.t) : TestJobVolume.t := lookup_volume vols (VolumeMount.Name vm).

(** A volume of a task container stems from one of its mounts, and every
    mount leaves a volume. *)
Lemma newTaskContainer_volumes (c : TestJobContainer.t) :
  let mounts := Container.VolumeMounts (TestJobContainer.Container c) in
  let m := TaskContainer.podSpecVolumeMap (newTaskContainer c volumes) in
  (forall k x, m !! k = Some x ->
     exists vm, In vm mounts /\ k = TestJobVolume.Name (vol vm) /\ x = pod_volume (vol vm)) /\
  (forall vm, In vm mounts -> is_Some (m !! TestJobVolume.Name (vol vm))).
Proof.
  cbv zeta. destruct (newTaskContainer_maps c volumes) as (Hpod & _). cbv zeta in Hpod.
  rewrite Hpod.
  destruct (newTaskContainer_loop_volumes vols
              (Container.VolumeMounts (TestJobContainer.Container c))
              (TaskContainer.mk c ∅ ∅ ∅ ∅ ∅ ∅ [] [] ∅ ∅) []) as [H1 H2].
  cbv zeta in H1, H2. split.
  - intros k x H. apply H1 in H. destruct H as [H | H]; [| exact H].
    simpl in H. rewrite lookup_empty in H. discriminate.
  - intros vm Hin. apply H2. right. exists vm. split; [exact Hin | reflexivity].
Qed.


End VolumesOfContainers.

(** Merging one map of every container of a list, [range] style. *)
Lemma assign_all_fold {V : Type} (f : TaskContainer.t -> gmap string V)
  (l : list TaskContainer.t) (k : string) :
  forall m : gmap string V,
    (forall x, fold_left (fun m c => assign_all (f c) m) l m !! k = Some x ->
               (exists tc, In tc l /\ f tc !! k = Some x) \/ m !! k = Some x) /\
    ((exists tc, In tc l /\ is_Some (f tc !! k)) \/ is_Some (m !! k) ->
     is_Some (fold_left (fun m c => assign_all (f c) m) l m !! k)).
Proof.
  induction l as [| tc l IH]; intros m; simpl.
  - split; [intros x H; right; exact H | intros [(tc & [] & _) | H]; exact H].
  - destruct (IH (assign_all (f tc) m)) as [IH1 IH2]. split.
    + intros x H. apply IH1 in H. destruct H as [(tc' & Hin & Hx) | H].
      * left. exists tc'. split; [right; exact Hin | exact Hx].
      * unfold assign_all in H. apply lookup_union_Some_raw in H.
        destruct H as [H | [_ H]]; [left; exists tc; split; [left; reflexivity | exact H] |].
        right. exact H.
    + intros H. apply IH2. unfold assign_all. rewrite lookup_union_is_Some.
      destruct H as [(tc' & [<- | Hin] & Hs) | H].
      * right. left. exact Hs.
      * left. exists tc'. split; assumption.
      * right. right. exact H.
Qed.

Section VolumesOfGroups.

Variable volumes : list TestJobVolume.t.

Let vols := volumeNameToVolume volumes.
Let vol (vm : VolumeMount.t) : TestJobVolume.t := lookup_volume vols (VolumeMount.Name vm).
Let group (containers : list TestJobContainer.t) : TaskContainerGroup.t :=
  fst (newTaskContainerGroup containers volumes).

Lemma group_volumes (rho : range_order) (containers : list TestJobContainer.t) :
  range_order_ok rho ->
  let m := TaskContainerGroup_podSpecVolumeMap rho (group containers) in
  (forall k x, m !! k = Some x ->
     exists c vm, In c containers /\
                  In vm (Container.VolumeMounts (TestJobContainer.Container c)) /\
                  k = TestJobVolume.Name (vol vm) /\ x = pod_volume (vol vm)) /\
  (List.NoDup (List.map TestJobContainer.Name containers) ->
   forall c vm, In c containers ->
                In vm (Container.VolumeMounts (TestJobContainer.Container c)) ->
                is_Some (m !! TestJobVolume.Name (vol vm))).
Proof.
  intros Hrho m. subst m. unfold TaskContainerGroup_podSpecVolumeMap. split.
  - intros k x H.
    apply (proj1 (assign_all_fold TaskContainer.podSpecVolumeMap _ k ∅)) in H.
    destruct H as [(tc & Hin & Hx) | H]; [| rewrite lookup_empty in H; discriminate].
    apply group_range_In in Hin; [| exact Hrho]. destruct Hin as (c & Hc & ->).
    apply (proj1 (newTaskContainer_volumes volumes c)) in Hx.
    destruct Hx as (vm & Hvm & Hk & Hx). exists c, vm. repeat split; assumption.
  - intros Hnd c vm Hc Hvm.
    apply (proj2 (assign_all_fold TaskContainer.podSpecVolumeMap _ _ ∅)). left.
    exists (newTaskContainer c volumes). split; [apply group_range_build; assumption |].
    apply (proj2 (newTaskContainer_volumes volumes c)). exact Hvm.
Qed.


End VolumesOfGroups.

(** The values a [range] over a map yields, when every value carries its
    key as its name, have pairwise different names. *)
Lemma range_values_distinct {V : Type} (name : V -> string) (rho : range_order)
  (m : gmap string V) :
  range_order_ok rho ->
  (forall k x, m !! k = Some x -> name x = k) ->
  List.NoDup (List.map name (List.map snd (rho V m))).
Proof.
  intros Hrho Hname.
  assert (Hfst : List.map name (List.map snd (rho V m)) = List.map fst (rho V m)).
  { rewrite List.map_map. apply map_ext_in. intros [k x] Hin. simpl.
    apply Hname. apply elem_of_map_to_list, list_elem_of_In.
    apply (Permutation_in _ (Hrho V m)). exact Hin. }
  rewrite Hfst. apply NoDup_ListNoDup.
  apply (NoDup_Permutation_proper _ _ (fmap_Permutation fst _ _ (Permutation_sym (Hrho V m)))).
  apply NoDup_fst_map_to_list.
Qed.

Lemma range_values_In {V : Type} (rho : range_order) (m : gmap string V) (x : V) :
  range_order_ok rho ->
  In x (List.map snd (rho V m)) <-> exists k, m !! k = Some x.
Proof.
  intros Hrho. rewrite in_map_iff. split.
  - intros ([k y] & Hy & Hin). simpl in Hy. subst y. exists k.
    apply elem_of_map_to_list, list_elem_of_In. apply (Permutation_in _ (Hrho V m)). exact Hin.
  - intros (k & Hk). exists (k, x). split; [reflexivity |].
    apply (Permutation_in _ (Permutation_sym (Hrho V m))).
    apply list_elem_of_In, elem_of_map_to_list. exact Hk.
Qed.

(** A named volume of the template is the only volume whose name it has. *)
Lemma lookup_volume_declared (volumes : list TestJobVolume.t) (name k : string) :
  k <> EmptyString ->
  TestJobVolume.Name (lookup_volume (volumeNameToVolume volumes) name) = k ->
  name = k /\
  volumeNameToVolume volumes !! k
  = Some (lookup_volume (volumeNameToVolume volumes) name).
Proof.
  unfold lookup_volume. intros Hk H.
  destruct (volumeNameToVolume volumes !! name) as [v |] eqn:E.
  - pose proof (volumeNameToVolume_name volumes name v E) as Hn.
    assert (Hnk : name = k) by congruence. split; [exact Hnk |]. rewrite <- Hnk. exact E.
  - simpl in H. congruence.
Qed.

Section PodOfJob.

Variable json_Marshal : list string -> result string.
Variable backend_error : RunMode -> option error.
Variable rhos : nat -> range_order.
Variable b : TaskBuilder.t.
Variable mainContainer : TestJobContainer.t.
Variable tmpl : TestJobTemplateSpec.t.
Variable strategyKey : option StrategyKey.t.
Variable job : Job.t.

Hypothesis rhos_ok : forall n : nat, range_order_ok (rhos n).
Hypothesis built :
  TaskBuilder_buildJob json_Marshal backend_error rhos b mainContainer tmpl strategyKey = Ok job.

Let spec := addContainersByStrategyKey (TestJobTemplateSpec.Spec tmpl) mainContainer strategyKey.
Let volumes := TestJobPodSpec.Volumes spec.
Let vols := volumeNameToVolume volumes.
Let vol (vm : VolumeMount.t) : TestJobVolume.t := lookup_volume vols (VolumeMount.Name vm).
Let inits := TestJobPodSpec.InitContainers spec.
Let mains := TestJobPodSpec.Containers spec.

(** The volumes [podSpec] collects from the init and main groups. *)
Let collected : gmap string Volume.t :=
  assign_all (TaskContainerGroup_podSpecVolumeMap (rhos 0%nat)
                (fst (newTaskContainerGroup mains volumes)))
    (assign_all (TaskContainerGroup_podSpecVolumeMap (rhos 0%nat)
                   (fst (newTaskContainerGroup inits volumes))) ∅).

Lemma buildJob_pod_volumes_collected :
  PodSpec.Volumes (Pod.Spec (Job.template job))
  = PodSpec.Volumes (TestJobPodSpec.Pod (TestJobTemplateSpec.Spec tmpl))
    ++ List.map snd (rhos 0%nat _ collected).
Proof.
  pose proof built as Hjob. apply buildJob_inv in Hjob. cbv zeta in Hjob.
  destruct Hjob as (Hpod & _).
  destruct (buildJob_context_groups mainContainer tmpl strategyKey) as (Hi & Hm & _).
  cbv zeta in Hi, Hm. fold spec in Hi, Hm.
  rewrite Hpod. unfold TaskBuildContext_podSpec. cbv zeta. cbn [PodSpec.Volumes].
  rewrite Hi, Hm. f_equal.
  unfold buildJob_context. cbv zeta. cbn [TaskBuildContext.spec TestJobPodSpec.Pod].
  destruct strategyKey; reflexivity.
Qed.

Lemma collected_from_mount (k : string) (x : Volume.t) :
  collected !! k = Some x ->
  exists c vm, In c (inits ++ mains) /\
               In vm (Container.VolumeMounts (TestJobContainer.Container c)) /\
               k = TestJobVolume.Name (vol vm) /\ x = pod_volume (vol vm).
Proof.
  subst collected. unfold assign_all. intros H.
  apply lookup_union_Some_raw in H. destruct H as [H | [_ H]].
  - apply (proj1 (group_volumes volumes (rhos 0%nat) mains (rhos_ok 0%nat))) in H.
    destruct H as (c & vm & Hc & H). exists c, vm. split; [apply in_app_iff; right; exact Hc | exact H].
  - apply lookup_union_Some_raw in H. destruct H as [H | [_ H]];
      [| rewrite lookup_empty in H; discriminate].
    apply (proj1 (group_volumes volumes (rhos 0%nat) inits (rhos_ok 0%nat))) in H.
    destruct H as (c & vm & Hc & H). exists c, vm. split; [apply in_app_iff; left; exact Hc | exact H].
Qed.

Lemma collected_of_mount (c : TestJobContainer.t) (vm : VolumeMount.t) :
  List.NoDup (List.map TestJobContainer.Name inits) ->
  List.NoDup (List.map TestJobContainer.Name mains) ->
  In c (inits ++ mains) ->
  In vm (Container.VolumeMounts (TestJobContainer.Container c)) ->
  is_Some (collected !! TestJobVolume.Name (vol vm)).
Proof.
  intros Hinits Hmains Hc Hvm. subst collected. unfold assign_all.
  rewrite !lookup_union_is_Some. apply in_app_iff in Hc. destruct Hc as [Hc | Hc].
  - right. left.
    apply (proj2 (group_volumes volumes (rhos 0%nat) inits (rhos_ok 0%nat)) Hinits c vm Hc Hvm).
  - left.
    apply (proj2 (group_volumes volumes (rhos 0%nat) mains (rhos_ok 0%nat)) Hmains c vm Hc Hvm).
Qed.

End PodOfJob.

(** The volumes the builder adds to the pod of a job: they come after the
    volumes the template's pod spec already has, they stem from the volume
    mounts of the init and main containers, and no two of them have the
    same name, in whatever order the maps are ranged over. *)
Theorem buildJob_pod_volumes_distinct (json_Marshal : list string -> result string)
  (backend_error : RunMode -> option error) (rhos : nat -> range_order)
  (b : TaskBuilder.t) (mainContainer : TestJobContainer.t) (tmpl : TestJobTemplateSpec.t)
  (strategyKey : option StrategyKey.t) (job : Job.t) :
  (forall n : nat, range_order_ok (rhos n)) ->
  TaskBuilder_buildJob json_Marshal backend_error rhos b mainContainer tmpl strategyKey = Ok job ->
  let spec := addContainersByStrategyKey (TestJobTemplateSpec.Spec tmpl) mainContainer strategyKey in
  let vols := volumeNameToVolume (TestJobPodSpec.Volumes spec) in
  exists added : list Volume.t,
    PodSpec.Volumes (Pod.Spec (Job.template job))
    = PodSpec.Volumes (TestJobPodSpec.Pod (TestJobTemplateSpec.Spec tmpl)) ++ added /\
    List.NoDup (List.map Volume.Name added) /\
    forall x, In x added ->
      exists c vm,
        In c (TestJobPodSpec.InitContainers spec ++ TestJobPodSpec.Containers spec) /\
        In vm (Container.VolumeMounts (TestJobContainer.Container c)) /\
        x = pod_volume (lookup_volume vols (VolumeMount.Name vm)).
Proof.
  intros Hrhos Hjob spec vols.
  rewrite (buildJob_pod_volumes_collected json_Marshal backend_error rhos b mainContainer tmpl
             strategyKey job Hjob).
  eexists. split; [reflexivity |]. split.
  - apply range_values_distinct; [apply Hrhos |]. intros k x Hx.
    apply (collected_from_mount rhos mainContainer tmpl strategyKey Hrhos) in Hx.
    destruct Hx as (c & vm & _ & _ & -> & ->). apply pod_volume_name.
  - intros x Hx. apply range_values_In in Hx; [| apply Hrhos]. destruct Hx as (k & Hk).
    apply (collected_from_mount rhos mainContainer tmpl strategyKey Hrhos) in Hk.
    destruct Hk as (c & vm & Hc & Hvm & _ & ->). exists c, vm. repeat split; assumption.
Qed.

Lemma buildJob_pod_volumes_distinct_witness :
  List.map Volume.Name (PodSpec.Volumes (Pod.Spec (Job.template sample_mixed_pod_job)))
  = ["config"; "repo-volume"; "log-volume"; "token-volume"; EmptyString]%string /\
  exists added : list Volume.t,
    PodSpec.Volumes (Pod.Spec (Job.template sample_mixed_pod_job)) = [] ++ added /\
    List.NoDup (List.map Volume.Name added).
Proof.
  split; [vm_compute; reflexivity |].
  destruct (buildJob_pod_volumes_distinct (fun _ => Ok "[]"%string) (fun _ => None)
              (fun _ => range_sorted) sample_builder sample_mixed_container
              sample_mixed_template None sample_mixed_pod_job)
    as (added & Hv & Hnd & _).
  - intros n. exact range_sorted_ok.
  - vm_compute. reflexivity.
  - exists added. split; [exact Hv | exact Hnd].
Defined.

(** Every volume an init or main container mounts under a name the
    template declares is a volume of the pod: an emptyDir of that name for
    a Repo, Artifact, Token, Log or Report volume, the declared source
    otherwise. *)
Theorem buildJob_pod_volume_of_mount (json_Marshal : list string -> result string)
  (backend_error : RunMode -> option error) (rhos : nat -> range_order)
  (b : TaskBuilder.t) (mainContainer : TestJobContainer.t) (tmpl : TestJobTemplateSpec.t)
  (strategyKey : option StrategyKey.t) (job : Job.t)
  (c : TestJobContainer.t) (vm : VolumeMount.t) (volume : TestJobVolume.t) :
  (forall n : nat, range_order_ok (rhos n)) ->
  TaskBuilder_buildJob json_Marshal backend_error rhos b mainContainer tmpl strategyKey = Ok job ->
  let spec := addContainersByStrategyKey (TestJobTemplateSpec.Spec tmpl) mainContainer strategyKey in
  List.NoDup (List.map TestJobContainer.Name (TestJobPodSpec.InitContainers spec)) ->
  List.NoDup (List.map TestJobContainer.Name (TestJobPodSpec.Containers spec)) ->
  In c (TestJobPodSpec.InitContainers spec ++ TestJobPodSpec.Containers spec) ->
  In vm (Container.VolumeMounts (TestJobContainer.Container c)) ->
  volumeNameToVolume (TestJobPodSpec.Volumes spec) !! VolumeMount.Name vm = Some volume ->
  VolumeMount.Name vm <> EmptyString ->
  In (pod_volume volume) (PodSpec.Volumes (Pod.Spec (Job.template job))) /\
  Volume.Name (pod_volume volume) = VolumeMount.Name vm.
Proof.
  intros Hrhos Hjob spec Hinits Hmains Hc Hvm Hvol Hname. subst spec.
  pose proof (volumeNameToVolume_name _ _ _ Hvol) as Hvn.
  split; [| rewrite pod_volume_name; exact Hvn].
  rewrite (buildJob_pod_volumes_collected json_Marshal backend_error rhos b mainContainer tmpl
             strategyKey job Hjob).
  apply in_app_iff. right. apply range_values_In; [apply Hrhos |].
  exists (VolumeMount.Name vm).
  pose proof (collected_of_mount rhos mainContainer tmpl strategyKey Hrhos c vm
                Hinits Hmains Hc Hvm) as [x Hx].
  unfold lookup_volume in Hx at 1. rewrite Hvol, Hvn in Hx.
  rewrite Hx. f_equal.
  apply (collected_from_mount rhos mainContainer tmpl strategyKey Hrhos) in Hx.
  destruct Hx as (c' & vm' & _ & _ & Hk & ->). symmetry in Hk.
  apply lookup_volume_declared in Hk; [| exact Hname]. destruct Hk as [_ Hk].
  rewrite Hvol in Hk. injection Hk as <-. reflexivity.
Qed.

Lemma buildJob_pod_volume_of_mount_witness :
  In (Volume.mk "config" (VolumeSource.mk false (Some "configMap:settings"%string)))
    (PodSpec.Volumes (Pod.Spec (Job.template sample_mixed_pod_job))).
Proof.
  apply (buildJob_pod_volume_of_mount (fun _ => Ok "[]"%string) (fun _ => None)
           (fun _ => range_sorted) sample_builder sample_mixed_container
           sample_mixed_template None sample_mixed_pod_job sample_mixed_container
           (VolumeMount.mk "config" "/etc/settings" true EmptyString) sample_config_volume).
  - intros n. exact range_sorted_ok.
  - vm_compute. reflexivity.
  - constructor.
  - constructor; [simpl; tauto | constructor].
  - simpl. auto.
  - simpl. auto 10.
  - vm_compute. reflexivity.
  - discriminate.
Defined.



Section PreInitMounts.

Variable mainContainer : TestJobContainer.t.
Variable tmpl : TestJobTemplateSpec.t.
Variable strategyKey : option StrategyKey.t.
Variable rho : range_order.
Hypothesis rho_ok : range_order_ok rho.

Let spec := addContainersByStrategyKey (TestJobTemplateSpec.Spec tmpl) mainContainer strategyKey.
Let volumes := TestJobPodSpec.Volumes spec.
Let vols := volumeNameToVolume volumes.
Let vol (vm : VolumeMount.t) : TestJobVolume.t := lookup_volume vols (VolumeMount.Name vm).
Let inits := TestJobPodSpec.InitContainers spec.
Let mains := TestJobPodSpec.Containers spec.
Let fins := [TestJobPodSpec.FinalizerContainer spec].

(** The mounts [preInitVolumeMounts] merges from the three groups. *)
Let staged : gmap string VolumeMount.t :=
  assign_all (TaskContainerGroup_preInitVolumeMountMap rho
                (fst (newTaskContainerGroup fins volumes)))
    (assign_all (TaskContainerGroup_preInitVolumeMountMap rho
                   (fst (newTaskContainerGroup mains volumes)))
       (assign_all (TaskContainerGroup_preInitVolumeMountMap rho
                      (fst (newTaskContainerGroup inits volumes))) ∅)).




End PreInitMounts.




(** ** Mounting logs and reports *)

Lemma newTaskContainer_step_paths (vols : gmap string TestJobVolume.t)
  (tc : TaskContainer.t) (vm : VolumeMount.t) :
  let kind := volume_kind (lookup_volume vols (VolumeMount.Name vm)) in
  let tc' := fst (newTaskContainer_step vols tc vm) in
  TaskContainer.logOrgMountPaths tc'
  = TaskContainer.logOrgMountPaths tc
    ++ (if VolumeKind_eqb kind KindLog then [VolumeMount.MountPath vm] else []) /\
  TaskContainer.reportOrgMountPaths tc'
  = TaskContainer.reportOrgMountPaths tc
    ++ (if VolumeKind_eqb kind KindReport then [VolumeMount.MountPath vm] else []).
Proof.
  cbv zeta. unfold newTaskContainer_step, volume_kind. cbv zeta.
  destruct (lookup_volume vols (VolumeMount.Name vm)) as [vname repo artifact token log report src].
  cbn [TestJobVolume.Name TestJobVolume.Repo TestJobVolume.Artifact TestJobVolume.Token
       TestJobVolume.Log TestJobVolume.Report TestJobVolume.Source].
  destruct repo as [r |]; [cbn; rewrite !app_nil_r; split; reflexivity |].
  destruct artifact as [a |]; [cbn; rewrite !app_nil_r; split; reflexivity |].
  destruct token as [t |]; [cbn; rewrite !app_nil_r; split; reflexivity |].
  destruct log; [cbn; rewrite !app_nil_r; split; reflexivity |].
  destruct report; cbn; rewrite !app_nil_r; split; reflexivity.
Qed.

Lemma newTaskContainer_loop_paths (vols : gmap string TestJobVolume.t)
  (todo : list VolumeMount.t) :
  forall (tc : TaskContainer.t) (done : list VolumeMount.t),
    let tc' := fst (newTaskContainer_loop vols tc done todo) in
    let paths (kind : VolumeKind) :=
      List.map VolumeMount.MountPath
        (List.filter
           (fun vm => VolumeKind_eqb (volume_kind (lookup_volume vols (VolumeMount.Name vm))) kind)
           todo) in
    TaskContainer.logOrgMountPaths tc' = TaskContainer.logOrgMountPaths tc ++ paths KindLog /\
    TaskContainer.reportOrgMountPaths tc'
    = TaskContainer.reportOrgMountPaths tc ++ paths KindReport.
Proof.
  induction todo as [| vm todo IH]; intros tc done; cbn [newTaskContainer_loop].
  - cbv zeta. simpl. rewrite !app_nil_r. split; reflexivity.
  - destruct (newTaskContainer_step_paths vols tc vm) as [Hlog Hrep]. cbv zeta in Hlog, Hrep.
    destruct (newTaskContainer_step vols tc vm) as [tc1 vm1]. cbn [fst] in Hlog, Hrep.
    destruct (IH tc1 (done ++ [vm1])) as [IHlog IHrep]. cbv zeta in *.
    rewrite IHlog, IHrep, Hlog, Hrep. cbn [List.filter].
    destruct (VolumeKind_eqb (volume_kind (lookup_volume vols (VolumeMount.Name vm))) KindLog),
      (VolumeKind_eqb (volume_kind (lookup_volume vols (VolumeMount.Name vm))) KindReport);
      cbn [List.map]; rewrite <- ?app_assoc; simpl; split; reflexivity.
Qed.

Lemma newTaskContainer_paths (c : TestJobContainer.t) (volumes : list TestJobVolume.t) :
  TaskContainer.logOrgMountPaths (newTaskContainer c volumes)
  = mount_paths_of_kind KindLog volumes c /\
  TaskContainer.reportOrgMountPaths (newTaskContainer c volumes)
  = mount_paths_of_kind KindReport volumes c.
Proof.
  destruct (newTaskContainer_maps c volumes) as (_ & _ & Hlog & Hrep & _).
  cbv zeta in Hlog, Hrep. rewrite Hlog, Hrep.
  destruct (newTaskContainer_loop_paths (volumeNameToVolume volumes)
              (Container.VolumeMounts (TestJobContainer.Container c))
              (TaskContainer.mk c ∅ ∅ ∅ ∅ ∅ ∅ [] [] ∅ ∅) []) as [H1 H2].
  cbv zeta in H1, H2. rewrite H1, H2. split; reflexivity.
Qed.

Lemma mount_paths_loop_all (what : string) (cmd_of : string -> list string)
  (exec : JobExecutor.t) (mountPaths : list string) :
  (forall cmd, snd (JobExecutor.PrepareCommand exec cmd) = None) ->
  forall issued : list (list string),
    mount_paths_loop what cmd_of exec mountPaths issued
    = (issued ++ List.map cmd_of mountPaths, None).
Proof.
  intros Hok. induction mountPaths as [| p ps IH]; intros issued; simpl.
  - rewrite app_nil_r. reflexivity.
  - specialize (Hok (cmd_of p)). destruct (JobExecutor.PrepareCommand exec (cmd_of p)) as [out err].
    simpl in Hok. subst err. rewrite IH, <- app_assoc. reflexivity.
Qed.

Lemma mount_paths_loop_prefix (what : string) (cmd_of : string -> list string)
  (exec : JobExecutor.t) (mountPaths : list string) :
  forall issued : list (list string),
    exists n : nat,
      fst (mount_paths_loop what cmd_of exec mountPaths issued)
      = issued ++ List.map cmd_of (firstn n mountPaths).
Proof.
  induction mountPaths as [| p ps IH]; intros issued; simpl.
  - exists 0%nat. simpl. rewrite app_nil_r. reflexivity.
  - destruct (JobExecutor.PrepareCommand exec (cmd_of p)) as [out [err |]].
    + exists 1%nat. reflexivity.
    + destruct (IH (issued ++ [cmd_of p])) as (n & Hn). exists (S n).
      rewrite Hn, <- app_assoc. reflexivity.
Qed.

(** Logs and reports are mounted once per volume mount: for a container
    that mounts Log volumes at the paths P1, ..., Pn (in this order, the
    same volume possibly several times), [mountLog] copies the log file to
    each Pi in turn, creating its directory first, and [mountReport] does
    the same with the report for the mounts of Report volumes; a failing
    command ends the sequence. *)
Theorem mountLog_per_mount (volumes : list TestJobVolume.t) (c : TestJobContainer.t)
  (exec : JobExecutor.t) :
  let tc := newTaskContainer c volumes in
  let dir_and_copy (file mountPath : string) :=
    ["mkdir"; "-p"; filepath_Dir mountPath; "&&"; "cp"; file; mountPath]%string in
  let logs := List.map (dir_and_copy "/tmp/log/kubetest.log"%string)
                (mount_paths_of_kind KindLog volumes c) in
  let reports := List.map (dir_and_copy "/tmp/report/report.json"%string)
                   (mount_paths_of_kind KindReport volumes c) in
  (exists n, fst (mountLog tc exec) = firstn n logs) /\
  (exists n, fst (mountReport tc exec) = firstn n reports) /\
  ((forall cmd, snd (JobExecutor.PrepareCommand exec cmd) = None) ->
   mountLog tc exec = (logs, None) /\ mountReport tc exec = (reports, None)).
Proof.
  intros tc dir_and_copy logs reports. subst tc logs reports.
  unfold mountLog, mountReport.
  destruct (newTaskContainer_paths c volumes) as [Hlog Hrep]. rewrite Hlog, Hrep.
  assert (Hlc : mountLog_cmd = dir_and_copy "/tmp/log/kubetest.log"%string) by reflexivity.
  assert (Hrc : mountReport_cmd = dir_and_copy "/tmp/report/report.json"%string) by reflexivity.
  rewrite Hlc, Hrc. split; [| split].
  - destruct (mount_paths_loop_prefix "log" (dir_and_copy "/tmp/log/kubetest.log"%string) exec
                (mount_paths_of_kind KindLog volumes c) []) as (n & Hn).
    exists n. rewrite Hn. simpl app. symmetry. apply firstn_map.
  - destruct (mount_paths_loop_prefix "report" (dir_and_copy "/tmp/report/report.json"%string)
                exec (mount_paths_of_kind KindReport volumes c) []) as (n & Hn).
    exists n. rewrite Hn. simpl app. symmetry. apply firstn_map.
  - intros Hok. rewrite !mount_paths_loop_all by exact Hok. split; reflexivity.
Qed.

Example mountLog_twice :
  List.map (fun cmd => String.concat " " cmd)
    (fst (mountLog (newTaskContainer sample_mixed_container sample_mixed_volumes)
            (sample_exec "test" "ok" None)))
  = ["mkdir -p /work && cp /tmp/log/kubetest.log /work/kubetest.log";
     "mkdir -p /var/log && cp /tmp/log/kubetest.log /var/log/kubetest.log"]%string.
Proof. vm_compute. reflexivity. Qed.

(** ** The mount callback *)

Lemma volumeNameToVolume_In (volumes : list TestJobVolume.t) (k : string)
  (v : TestJobVolume.t) :
  volumeNameToVolume volumes !! k = Some v -> In v volumes.
Proof.
  unfold volumeNameToVolume.
  assert (H : forall (m : gmap string TestJobVolume.t),
             fold_left (fun m volume => <[TestJobVolume.Name volume := volume]> m)
               volumes m !! k = Some v -> In v volumes \/ m !! k = Some v).
  { induction volumes as [| v0 vs IH]; intros m Hl; simpl in Hl.
    - right. exact Hl.
    - apply IH in Hl. destruct Hl as [Hl | Hl]; [left; right; exact Hl |].
      destruct (decide (TestJobVolume.Name v0 = k)) as [Hk | Hk].
      + rewrite Hk, lookup_insert_eq in Hl. injection Hl as <-. left. left. reflexivity.
      + rewrite lookup_insert_ne in Hl by exact Hk. right. exact Hl. }
  intros Hl. apply H in Hl. destruct Hl as [Hl | Hl]; [exact Hl |].
  rewrite lookup_empty in Hl. discriminate.
Qed.

Lemma mount_maps_ok_step (volumes : list TestJobVolume.t) (tc : TaskContainer.t)
  (vm : VolumeMount.t) :
  mount_maps_ok volumes tc ->
  mount_maps_ok volumes (fst (newTaskContainer_step (volumeNameToVolume volumes) tc vm)).
Proof.
  intros (Htok & Hart & Hdecl). unfold newTaskContainer_step. cbv zeta.
  pose proof (fun k v => volumeNameToVolume_In volumes k v) as Hin.
  unfold lookup_volume.
  destruct (volumeNameToVolume volumes !! VolumeMount.Name vm) as [v |] eqn:E.
  - specialize (Hin _ _ E).
    destruct v as [vname repo artifact token log report src].
    cbn [TestJobVolume.Name TestJobVolume.Repo TestJobVolume.Artifact TestJobVolume.Token
         TestJobVolume.Log TestJobVolume.Report TestJobVolume.Source].
    destruct repo as [r |]; [repeat split; assumption |].
    destruct artifact as [a |].
    + split; [exact Htok |]. cbn. split.
      * intros k. destruct (decide (a = k)) as [-> | Hne].
        -- rewrite !lookup_insert_eq. eauto.
        -- rewrite !lookup_insert_ne by exact Hne. apply Hart.
      * intros k. destruct (decide (a = k)) as [-> | Hne].
        -- intros _. eexists. split; [exact Hin | reflexivity].
        -- rewrite !lookup_insert_ne by exact Hne. apply Hdecl.
    + destruct token as [t |].
      * split; [| split; assumption].
        cbn. intros k. destruct (decide (t = k)) as [-> | Hne].
        -- rewrite !lookup_insert_eq. eauto.
        -- rewrite !lookup_insert_ne by exact Hne. apply Htok.
      * destruct log, report; cbn; repeat split; assumption.
  - cbn. repeat split; assumption.
Qed.

Lemma newTaskContainer_mount_maps_ok (volumes : list TestJobVolume.t) (c : TestJobContainer.t) :
  mount_maps_ok volumes (newTaskContainer c volumes) /\
  (forall k, is_Some (TaskContainer.repoNameToArchiveMountPath (newTaskContainer c volumes) !! k) ->
             is_Some (TaskContainer.repoNameToOrgMountPath (newTaskContainer c volumes) !! k)).
Proof.
  destruct (newTaskContainer_maps c volumes) as (_ & _ & _ & _ & H1 & H2 & H3 & H4).
  destruct (newTaskContainer_fields c volumes) as (H5 & H6 & _).
  cbv zeta in H1, H2, H3, H4, H5, H6. split.
  - unfold mount_maps_ok. rewrite H1, H2, H3, H4.
    apply (newTaskContainer_loop_preserves (volumeNameToVolume volumes)
             (mount_maps_ok volumes) (fun _ => True)).
    + intros t vm _ Ht. apply mount_maps_ok_step. exact Ht.
    + apply List.Forall_forall. intros; exact I.
    + unfold mount_maps_ok. cbn.
      repeat split; intros k [x Hx]; rewrite lookup_empty in Hx; discriminate.
  - rewrite H5, H6.
    apply (newTaskContainer_loop_preserves (volumeNameToVolume volumes)
             (fun t => forall k, is_Some (TaskContainer.repoNameToArchiveMountPath t !! k) ->
                                 is_Some (TaskContainer.repoNameToOrgMountPath t !! k))
             (fun _ => True)).
    + intros t vm _ Ht. apply repo_maps_same_keys. exact Ht.
    + apply List.Forall_forall. intros; exact I.
    + intros k [x Hx]. simpl in Hx. rewrite lookup_empty in Hx. discriminate.
Qed.

Lemma mountToken_loop_all (tc : TaskContainer.t) (exec : JobExecutor.t)
  (entries : list (string * string)) :
  (forall cmd, snd (JobExecutor.PrepareCommand exec cmd) = None) ->
  (forall k a, In (k, a) entries -> is_Some (TaskContainer.tokenNameToOrgMountPath tc !! k)) ->
  forall issued : list (list string),
    exists cmds : list (list string),
      mountToken_loop tc exec entries issued = (issued ++ cmds, None) /\
      length cmds = length entries.
Proof.
  intros Hok. induction entries as [| [k a] rest IH]; intros Horg issued; simpl.
  - exists []. rewrite app_nil_r. split; reflexivity.
  - destruct (Horg k a (or_introl eq_refl)) as [org Hk]. rewrite Hk.
    pose proof (Hok (mountToken_cmd org a)) as Hcmd.
    destruct (JobExecutor.PrepareCommand exec (mountToken_cmd org a)) as [out err].
    simpl in Hcmd. subst err.
    destruct (IH (fun k' a' H => Horg k' a' (or_intror H)) (issued ++ [mountToken_cmd org a]))
      as (cmds & Hc & Hl).
    exists (mountToken_cmd org a :: cmds). rewrite Hc, <- app_assoc. simpl.
    split; [reflexivity | f_equal; exact Hl].
Qed.

Lemma mountArtifact_loop_all (b : TaskBuilder.t) (tc : TaskContainer.t) (exec : JobExecutor.t)
  (entries : list (string * string)) :
  (forall cmd, snd (JobExecutor.PrepareCommand exec cmd) = None) ->
  (forall k a, In (k, a) entries ->
               is_Some (TaskContainer.artifactNameToOrgMountPath tc !! k) /\
               exists p, ResourceManager.ArtifactPathByName (TaskBuilder.mgr b) k = Ok p) ->
  forall issued : list (list string),
    exists cmds : list (list string),
      mountArtifact_loop b tc exec entries issued = (issued ++ cmds, None) /\
      length cmds = length entries.
Proof.
  intros Hok. induction entries as [| [k a] rest IH]; intros Horg issued; simpl.
  - exists []. rewrite app_nil_r. split; reflexivity.
  - destruct (Horg k a (or_introl eq_refl)) as ([org Hk] & p & Hp). rewrite Hk, Hp.
    pose proof (Hok (mountArtifact_cmd org a (filepath_Base p))) as Hcmd.
    destruct (JobExecutor.PrepareCommand exec (mountArtifact_cmd org a (filepath_Base p)))
      as [out err].
    simpl in Hcmd. subst err.
    destruct (IH (fun k' a' H => Horg k' a' (or_intror H))
                (issued ++ [mountArtifact_cmd org a (filepath_Base p)]))
      as (cmds & Hc & Hl).
    exists (mountArtifact_cmd org a (filepath_Base p) :: cmds). rewrite Hc, <- app_assoc. simpl.
    split; [reflexivity | f_equal; exact Hl].
Qed.

Lemma range_lookup (rho : range_order) (V : Type) (m : gmap string V) (k : string) (a : V) :
  range_order_ok rho -> In (k, a) (rho V m) -> m !! k = Some a.
Proof.
  intros Hrho Hin. apply (Permutation_in _ (Hrho _ _)) in Hin.
  apply list_elem_of_In, elem_of_map_to_list in Hin. exact Hin.
Qed.

Lemma range_length (rho : range_order) (V : Type) (m : gmap string V) :
  range_order_ok rho -> length (rho V m) = size m.
Proof.
  intros Hrho. rewrite (Permutation_length (Hrho _ _)). apply length_map_to_list.
Qed.

(** The five mount steps on a task container the builder made, when no
    command fails and the manager knows the declared artifacts. *)
Lemma mount_steps_all (b : TaskBuilder.t) (rhos : nat -> range_order)
  (volumes : list TestJobVolume.t) (c : TestJobContainer.t) (exec : JobExecutor.t) :
  range_order_ok (rhos 0%nat) -> range_order_ok (rhos 1%nat) -> range_order_ok (rhos 2%nat) ->
  (forall cmd, snd (JobExecutor.PrepareCommand exec cmd) = None) ->
  (TaskBuilder.runMode b = RunModeDryRun \/
   forall v a, In v volumes -> TestJobVolume.Artifact v = Some a ->
               exists p, ResourceManager.ArtifactPathByName (TaskBuilder.mgr b) a = Ok p) ->
  let tc := newTaskContainer c volumes in
  exists cmds : list (list string),
    mount_then
      (mount_then
         (mount_then
            (mount_then (mountRepository (rhos 0%nat) tc exec) (mountToken (rhos 1%nat) tc exec))
            (mountArtifact b (rhos 2%nat) tc exec))
         (mountLog tc exec))
      (mountReport tc exec)
    = (cmds, None) /\
    length cmds
    = (size (TaskContainer.repoNameToArchiveMountPath tc)
       + size (TaskContainer.tokenNameToMountPath tc)
       + (if RunMode_eqb (TaskBuilder.runMode b) RunModeDryRun then 0
          else size (TaskContainer.artifactNameToMountPath tc))
       + length (TaskContainer.logOrgMountPaths tc)
       + length (TaskContainer.reportOrgMountPaths tc))%nat.
Proof.
  intros H0 H1 H2 Hok Hmgr tc.
  destruct (newTaskContainer_mount_maps_ok volumes c) as ((Htok & Hart & Hdecl) & Hrepo).
  fold tc in Htok, Hart, Hdecl, Hrepo.
  unfold mountRepository.
  rewrite (mountRepository_loop_all tc exec _ Hok)
    by (intros k a Hin; apply Hrepo; rewrite (range_lookup _ _ _ _ _ H0 Hin); eauto).
  destruct (mountToken_loop_all tc exec (rhos 1%nat _ (TaskContainer.tokenNameToMountPath tc)) Hok)
    with (issued := @nil (list string)) as (tcmds & Ht & Htl).
  { intros k a Hin. apply Htok. rewrite (range_lookup _ _ _ _ _ H1 Hin). eauto. }
  unfold mountToken. rewrite Ht.
  assert (Ha : exists acmds,
             mountArtifact b (rhos 2%nat) tc exec = (acmds, None) /\
             length acmds = if RunMode_eqb (TaskBuilder.runMode b) RunModeDryRun then 0%nat
                            else size (TaskContainer.artifactNameToMountPath tc)).
  { unfold mountArtifact.
    destruct (RunMode_eqb (TaskBuilder.runMode b) RunModeDryRun) eqn:Emode.
    - exists []. split; reflexivity.
    - destruct Hmgr as [Hdry | Hmgr]; [rewrite Hdry in Emode; discriminate |].
      destruct (mountArtifact_loop_all b tc exec
                  (rhos 2%nat _ (TaskContainer.artifactNameToMountPath tc)) Hok)
        with (issued := @nil (list string)) as (acmds & Hc & Hl).
      + intros k a Hin. pose proof (range_lookup _ _ _ _ _ H2 Hin) as Hk. split.
        * apply Hart. rewrite Hk. eauto.
        * destruct (Hdecl k) as (v & Hv & Hva); [rewrite Hk; eauto |].
          apply (Hmgr v k Hv Hva).
      + exists acmds. split; [exact Hc |]. rewrite Hl. apply range_length. exact H2. }
  destruct Ha as (acmds & Ha & Hal). rewrite Ha.
  unfold mountLog, mountReport. rewrite !mount_paths_loop_all by exact Hok.
  cbn [mount_then fst snd app]. eexists. split; [reflexivity |].
  rewrite !length_app, !length_map, Htl, Hal, !range_length by assumption. reflexivity.
Qed.

Lemma containerMap_lookup_is_Some (volumes : list TestJobVolume.t)
  (containers : list TestJobContainer.t) (c : TestJobContainer.t) :
  In c containers ->
  exists c', In c' containers /\ TestJobContainer.Name c' = TestJobContainer.Name c /\
    TaskContainerGroup.containerMap (fst (newTaskContainerGroup containers volumes))
      !! TestJobContainer.Name c
    = Some (newTaskContainer c' volumes).
Proof.
  intros Hin. unfold newTaskContainerGroup. cbn [fst TaskContainerGroup.containerMap].
  assert (H : forall (k : string), In k (List.map TestJobContainer.Name containers) ->
             forall (m : gmap string TaskContainer.t),
               is_Some (fold_left
                          (fun m c => <[TestJobContainer.Name c := newTaskContainer c volumes]> m)
                          containers m !! k)).
  { clear c Hin. induction containers as [| c0 cs IH]; intros k Hk m; [destruct Hk |]. simpl.
    destruct (in_dec string_dec k (List.map TestJobContainer.Name cs)) as [Hlater | Hlater].
    - apply IH. exact Hlater.
    - rewrite (containerMap_lookup_other volumes cs _ _ Hlater).
      destruct Hk as [<- | Hk]; [| contradiction].
      rewrite lookup_insert_eq. eauto. }
  destruct (H _ (in_map TestJobContainer.Name _ _ Hin) ∅) as [tc Htc].
  destruct (containerMap_lookup_Some volumes containers ∅ _ tc Htc) as [(c' & Hc' & Hn & ->) | He].
  - exists c'. split; [exact Hc' |]. split; [exact Hn |]. exact Htc.
  - rewrite lookup_empty in He. discriminate.
Qed.

(** The mount callback of a job on the containers of its pod.  For an
    executor whose container is named like an init container of the
    template (called with [isInitContainer]) or like a main or the
    finalizer container (called without), the callback finds a task
    container built from a container of that name, so it does not panic.
    If, moreover, no [PrepareCommand] fails and, outside the dry-run mode,
    the manager knows the artifact of every declared Artifact volume, it
    returns no error, so the error about a missing original mount path
    cannot occur, and it has issued one command per mounted repository,
    token and (outside the dry-run mode) artifact, and one per mount of a
    Log or Report volume. *)
Theorem mountCallback_of_pod_container (b : TaskBuilder.t) (rhos : nat -> range_order)
  (mainContainer : TestJobContainer.t) (tmpl : TestJobTemplateSpec.t)
  (strategyKey : option StrategyKey.t) (exec : JobExecutor.t) (isInitContainer : bool)
  (c : TestJobContainer.t) :
  let spec := addContainersByStrategyKey (TestJobTemplateSpec.Spec tmpl) mainContainer strategyKey in
  let ctx := buildJob_context mainContainer tmpl strategyKey in
  let candidates :=
    if isInitContainer then TestJobPodSpec.InitContainers spec
    else TestJobPodSpec.Containers spec ++ [TestJobPodSpec.FinalizerContainer spec] in
  In c candidates ->
  Container.Name (JobExecutor.Container exec) = TestJobContainer.Name c ->
  exists c' : TestJobContainer.t,
    In c' candidates /\
    TestJobContainer.Name c' = TestJobContainer.Name c /\
    TaskBuildContext_taskContainer ctx (TestJobContainer.Name c) isInitContainer
    = Some (newTaskContainer c' (TestJobPodSpec.Volumes spec)) /\
    (exists r, TaskBuilder_mountCallback b rhos ctx exec isInitContainer = Done r) /\
    (range_order_ok (rhos 0%nat) -> range_order_ok (rhos 1%nat) -> range_order_ok (rhos 2%nat) ->
     (forall cmd, snd (JobExecutor.PrepareCommand exec cmd) = None) ->
     (TaskBuilder.runMode b = RunModeDryRun \/
      forall v a, In v (TestJobPodSpec.Volumes spec) -> TestJobVolume.Artifact v = Some a ->
                  exists p, ResourceManager.ArtifactPathByName (TaskBuilder.mgr b) a = Ok p) ->
     exists cmds : list (list string),
       TaskBuilder_mountCallback b rhos ctx exec isInitContainer = Done (cmds, None) /\
       let tc := newTaskContainer c' (TestJobPodSpec.Volumes spec) in
       length cmds
       = (size (TaskContainer.repoNameToArchiveMountPath tc)
          + size (TaskContainer.tokenNameToMountPath tc)
          + (if RunMode_eqb (TaskBuilder.runMode b) RunModeDryRun then 0
             else size (TaskContainer.artifactNameToMountPath tc))
          + length (TaskContainer.logOrgMountPaths tc)
          + length (TaskContainer.reportOrgMountPaths tc))%nat).
Proof.
  intros spec ctx candidates Hin Hname.
  destruct (buildJob_context_groups mainContainer tmpl strategyKey) as (Hi & Hm & Hf).
  cbv zeta in Hi, Hm, Hf. fold spec ctx in Hi, Hm, Hf.
  assert (Hfind : exists c', In c' candidates /\
                    TestJobContainer.Name c' = TestJobContainer.Name c /\
                    TaskBuildContext_taskContainer ctx (TestJobContainer.Name c) isInitContainer
                    = Some (newTaskContainer c' (TestJobPodSpec.Volumes spec))).
  { unfold TaskBuildContext_taskContainer. subst candidates. destruct isInitContainer.
    - rewrite Hi.
      destruct (containerMap_lookup_is_Some (TestJobPodSpec.Volumes spec) _ c Hin)
        as (c' & Hc' & Hn & Hl).
      exists c'. split; [exact Hc' |]. split; [exact Hn | exact Hl].
    - rewrite Hf, Hm.
      destruct (TaskContainerGroup.containerMap
                  (fst (newTaskContainerGroup [TestJobPodSpec.FinalizerContainer spec]
                          (TestJobPodSpec.Volumes spec))) !! TestJobContainer.Name c)
        as [tc |] eqn:Efin.
      + unfold newTaskContainerGroup in Efin. cbn [fst TaskContainerGroup.containerMap] in Efin.
        cbn [fold_left] in Efin.
        destruct (decide (TestJobContainer.Name (TestJobPodSpec.FinalizerContainer spec)
                          = TestJobContainer.Name c)) as [Hn | Hn].
        * rewrite Hn, lookup_insert_eq in Efin. injection Efin as <-.
          exists (TestJobPodSpec.FinalizerContainer spec).
          split; [apply in_or_app; right; left; reflexivity |]. split; [exact Hn | reflexivity].
        * rewrite lookup_insert_ne, lookup_empty in Efin by exact Hn. discriminate.
      + apply in_app_or in Hin. destruct Hin as [Hin | [<- | []]].
        * destruct (containerMap_lookup_is_Some (TestJobPodSpec.Volumes spec) _ c Hin)
            as (c' & Hc' & Hn & Hl).
          exists c'. split; [apply in_or_app; left; exact Hc' |]. split; [exact Hn | exact Hl].
        * unfold newTaskContainerGroup in Efin.
          cbn [fst TaskContainerGroup.containerMap fold_left] in Efin.
          rewrite lookup_insert_eq in Efin. discriminate. }
  destruct Hfind as (c' & Hc' & Hn & Hl).
  exists c'. split; [exact Hc' |]. split; [exact Hn |]. split; [exact Hl |].
  unfold TaskBuilder_mountCallback. cbv zeta. rewrite Hname, Hl. split; [eauto |].
  intros H0 H1 H2 Hok Hmgr.
  destruct (mount_steps_all b rhos (TestJobPodSpec.Volumes spec) c' exec H0 H1 H2 Hok Hmgr)
    as (cmds & Hcmds & Hlen).
  exists cmds. split; [| exact Hlen]. rewrite Hcmds. reflexivity.
Qed.

Lemma mountCallback_of_pod_container_witness :
  exists cmds : list (list string),
    TaskBuilder_mountCallback sample_builder (fun _ => range_sorted)
      (buildJob_context sample_mixed_container sample_mixed_template None)
      (sample_exec "test" EmptyString None) false
    = Done (cmds, None) /\
    length cmds = 4%nat.
Proof.
  destruct (mountCallback_of_pod_container sample_builder (fun _ => range_sorted)
              sample_mixed_container sample_mixed_template None
              (sample_exec "test" EmptyString None) false sample_mixed_container)
    as (c' & Hc' & Hn & _ & _ & Hall).
  - simpl. auto.
  - reflexivity.
  - destruct Hall as (cmds & Hrun & Hlen).
    + exact range_sorted_ok.
    + exact range_sorted_ok.
    + exact range_sorted_ok.
    + intros cmd. reflexivity.
    + right. intros v a _ _. eexists. reflexivity.
    + exists cmds. split; [exact Hrun |].
      assert (Hc : c' = sample_mixed_container).
      { simpl in Hc'. destruct Hc' as [<- | [<- | []]]; [reflexivity | discriminate Hn]. }
      subst c'. rewrite Hlen. vm_compute. reflexivity.
Defined.

(** The mount callback has no error for a container the builder does not
    know: for an executor whose container name is none of the init
    containers' (when called with [isInitContainer]) or none of the main
    and finalizer containers' (when called without), no task container is
    found and mounting the repositories dereferences nil. *)
Theorem mountCallback_unknown_container_panics (b : TaskBuilder.t) (rhos : nat -> range_order)
  (mainContainer : TestJobContainer.t) (tmpl : TestJobTemplateSpec.t)
  (strategyKey : option StrategyKey.t) (exec : JobExecutor.t) (isInitContainer : bool) :
  let spec := addContainersByStrategyKey (TestJobTemplateSpec.Spec tmpl) mainContainer strategyKey in
  let ctx := buildJob_context mainContainer tmpl strategyKey in
  let candidates :=
    if isInitContainer then TestJobPodSpec.InitContainers spec
    else TestJobPodSpec.Containers spec ++ [TestJobPodSpec.FinalizerContainer spec] in
  ~ In (Container.Name (JobExecutor.Container exec))
       (List.map TestJobContainer.Name candidates) ->
  TaskBuilder_mountCallback b rhos ctx exec isInitContainer
  = Panic "invalid memory address or nil pointer dereference".
Proof.
  intros spec ctx candidates Hnot.
  destruct (buildJob_context_groups mainContainer tmpl strategyKey) as (Hi & Hm & Hf).
  cbv zeta in Hi, Hm, Hf. fold spec ctx in Hi, Hm, Hf.
  unfold TaskBuilder_mountCallback, TaskBuildContext_taskContainer. cbv zeta.
  subst candidates. destruct isInitContainer.
  - rewrite Hi. unfold newTaskContainerGroup. cbn [fst TaskContainerGroup.containerMap].
    rewrite (containerMap_lookup_other _ _ _ _ Hnot), lookup_empty. reflexivity.
  - rewrite List.map_app, in_app_iff in Hnot.
    rewrite Hf, Hm. unfold newTaskContainerGroup. cbn [fst TaskContainerGroup.containerMap].
    rewrite (containerMap_lookup_other _ [TestJobPodSpec.FinalizerContainer spec] _ _)
      by (intros H; apply Hnot; right; exact H).
    rewrite lookup_empty.
    rewrite (containerMap_lookup_other _ _ _ _ (fun H => Hnot (or_introl H))), lookup_empty.
    reflexivity.
Qed.

Lemma mountCallback_unknown_container_panics_witness :
  TaskBuilder_mountCallback sample_builder (fun _ => range_sorted)
    (buildJob_context sample_mixed_container sample_mixed_template None)
    (sample_exec "preinit" EmptyString None) true
  = Panic "invalid memory address or nil pointer dereference".
Proof.
  apply (mountCallback_unknown_container_panics sample_builder (fun _ => range_sorted)
           sample_mixed_container sample_mixed_template None
           (sample_exec "preinit" EmptyString None) true).
  simpl. tauto.
Defined.

(** ** Resources staged by the pre-init container *)

Lemma staging_field_step (kind : VolumeKind) (vols : gmap string TestJobVolume.t)
  (tc : TaskContainer.t) (vm : VolumeMount.t) :
  let volume := lookup_volume vols (VolumeMount.Name vm) in
  staging_field kind (fst (newTaskContainer_step vols tc vm))
  = match resource_name kind volume with
    | Some name =>
      <[name := filepath_Join ["/"%string; "tmp"%string; staging_dir kind;
                               TestJobVolume.Name volume]]>
        (staging_field kind tc)
    | None => staging_field kind tc
    end.
Proof.
  cbv zeta. unfold newTaskContainer_step, resource_name, volume_kind. cbv zeta.
  destruct (lookup_volume vols (VolumeMount.Name vm)) as [vname repo artifact token log report src].
  cbn [TestJobVolume.Name TestJobVolume.Repo TestJobVolume.Artifact TestJobVolume.Token
       TestJobVolume.Log TestJobVolume.Report TestJobVolume.Source].
  destruct repo as [r |]; [destruct kind; reflexivity |].
  destruct artifact as [a |]; [destruct kind; reflexivity |].
  destruct token as [t |]; [destruct kind; reflexivity |].
  destruct log; [destruct kind; reflexivity |].
  destruct report; destruct kind; reflexivity.
Qed.

Lemma staging_field_loop (kind : VolumeKind) (vols : gmap string TestJobVolume.t)
  (todo : list VolumeMount.t) :
  forall (tc : TaskContainer.t) (done : list VolumeMount.t) (name : string),
    let tc' := fst (newTaskContainer_loop vols tc done todo) in
    (forall p, staging_field kind tc' !! name = Some p ->
       staging_field kind tc !! name = Some p \/
       exists vm, In vm todo /\
         resource_name kind (lookup_volume vols (VolumeMount.Name vm)) = Some name /\
         p = filepath_Join ["/"%string; "tmp"%string; staging_dir kind;
                            TestJobVolume.Name (lookup_volume vols (VolumeMount.Name vm))]) /\
    (is_Some (staging_field kind tc !! name) \/
     (exists vm, In vm todo /\
        resource_name kind (lookup_volume vols (VolumeMount.Name vm)) = Some name) ->
     is_Some (staging_field kind tc' !! name)).
Proof.
  induction todo as [| vm todo IH]; intros tc done name; cbn [newTaskContainer_loop].
  - cbv zeta. cbn [fst]. split.
    + intros p Hp. left. exact Hp.
    + intros [H | (vm & [] & _)]. exact H.
  - pose proof (staging_field_step kind vols tc vm) as Hstep. cbv zeta in Hstep.
    destruct (newTaskContainer_step vols tc vm) as [tc1 vm1]. cbn [fst] in Hstep.
    destruct (IH tc1 (done ++ [vm1]) name) as [IH1 IH2]. cbv zeta in IH1, IH2 |- *.
    split.
    + intros p Hp. apply IH1 in Hp. destruct Hp as [Hp | (vm' & Hin & Hres & Hpath)].
      * rewrite Hstep in Hp.
        destruct (resource_name kind (lookup_volume vols (VolumeMount.Name vm))) as [n |] eqn:En.
        -- destruct (decide (n = name)) as [-> | Hne].
           ++ rewrite lookup_insert_eq in Hp. injection Hp as <-.
              right. exists vm. split; [left; reflexivity |]. split; [exact En | reflexivity].
           ++ rewrite lookup_insert_ne in Hp by exact Hne. left. exact Hp.
        -- left. exact Hp.
      * right. exists vm'. split; [right; exact Hin |]. split; assumption.
    + intros H. apply IH2. rewrite Hstep.
      destruct (resource_name kind (lookup_volume vols (VolumeMount.Name vm))) as [n |] eqn:En.
      * destruct (decide (n = name)) as [-> | Hne].
        -- left. rewrite lookup_insert_eq. eauto.
        -- rewrite lookup_insert_ne by exact Hne.
           destruct H as [H | (vm' & [<- | Hin] & Hres)].
           ++ left. exact H.
           ++ congruence.
           ++ right. exists vm'. split; assumption.
      * destruct H as [H | (vm' & [<- | Hin] & Hres)].
        -- left. exact H.
        -- congruence.
        -- right. exists vm'. split; assumption.
Qed.

Lemma staging_field_newTaskContainer (kind : VolumeKind) (c : TestJobContainer.t)
  (volumes : list TestJobVolume.t) :
  staging_field kind (newTaskContainer c volumes)
  = staging_field kind
      (fst (newTaskContainer_loop (volumeNameToVolume volumes)
              (TaskContainer.mk c ∅ ∅ ∅ ∅ ∅ ∅ [] [] ∅ ∅) []
              (Container.VolumeMounts (TestJobContainer.Container c)))).
Proof.
  destruct (newTaskContainer_maps c volumes) as (_ & _ & _ & _ & H1 & _ & H3 & _).
  destruct (newTaskContainer_fields c volumes) as (H5 & _).
  cbv zeta in H1, H3, H5. destruct kind; cbn [staging_field]; auto.
Qed.

(** The staging entries of a task container: one per resource of a mounted
    volume, at the staging path of such a volume. *)
Lemma staging_field_entries (kind : VolumeKind) (c : TestJobContainer.t)
  (volumes : list TestJobVolume.t) (name : string) :
  let vol vm := lookup_volume (volumeNameToVolume volumes) (VolumeMount.Name vm) in
  let mounts := Container.VolumeMounts (TestJobContainer.Container c) in
  (forall p, staging_field kind (newTaskContainer c volumes) !! name = Some p ->
     exists vm, In vm mounts /\ resource_name kind (vol vm) = Some name /\
       p = filepath_Join ["/"%string; "tmp"%string; staging_dir kind;
                          TestJobVolume.Name (vol vm)]) /\
  ((exists vm, In vm mounts /\ resource_name kind (vol vm) = Some name) ->
   is_Some (staging_field kind (newTaskContainer c volumes) !! name)).
Proof.
  cbv zeta. rewrite staging_field_newTaskContainer.
  destruct (staging_field_loop kind (volumeNameToVolume volumes)
              (Container.VolumeMounts (TestJobContainer.Container c))
              (TaskContainer.mk c ∅ ∅ ∅ ∅ ∅ ∅ [] [] ∅ ∅) [] name) as [H1 H2].
  cbv zeta in H1, H2. split.
  - intros p Hp. apply H1 in Hp. destruct Hp as [Hp | Hp]; [| exact Hp].
    destruct kind; cbn in Hp; rewrite lookup_empty in Hp; discriminate.
  - intros H. apply H2. right. exact H.
Qed.

Lemma staging_join_nonempty (dir V : string) :
  filepath_Join ["/"%string; "tmp"%string; dir; V] <> EmptyString.
Proof.
  unfold filepath_Join. cbn [dropwhile_empty String.eqb Ascii.eqb]. cbv iota.
  unfold filepath_Clean, strings_Join. cbn [String.concat].
  change ("/" ++ "/" ++ "tmp" ++ "/" ++ dir ++ "/" ++ V)%string
    with (String "/" ("/" ++ "tmp" ++ "/" ++ dir ++ "/" ++ V))%string.
  cbn [String.eqb is_rooted Ascii.eqb Bool.eqb]. cbv iota. discriminate.
Qed.

Lemma insert_sorted_In (x y : string) (l : list string) :
  In y (insert_sorted x l) <-> y = x \/ In y l.
Proof.
  induction l as [| z l IH]; simpl.
  - intuition congruence.
  - destruct (String.leb x z); simpl; [intuition congruence |].
    rewrite IH. intuition congruence.
Qed.

Lemma sort_Strings_In (y : string) (l : list string) : In y (sort_Strings l) <-> In y l.
Proof.
  unfold sort_Strings. induction l as [| x l IH]; simpl; [tauto |].
  rewrite insert_sorted_In, IH. intuition congruence.
Qed.

Lemma insert_sorted_NoDup (x : string) (l : list string) :
  ~ In x l -> List.NoDup l -> List.NoDup (insert_sorted x l).
Proof.
  induction l as [| z l IH]; intros Hx Hnd; simpl.
  - constructor; [tauto | constructor].
  - destruct (String.leb x z).
    + constructor; assumption.
    + apply List.NoDup_cons_iff in Hnd. destruct Hnd as [Hz Hnd].
      constructor.
      * rewrite insert_sorted_In. simpl in Hx. intuition congruence.
      * apply IH; [simpl in Hx; tauto | exact Hnd].
Qed.

Lemma sort_Strings_NoDup (l : list string) : List.NoDup l -> List.NoDup (sort_Strings l).
Proof.
  unfold sort_Strings. induction l as [| x l IH]; intros Hnd; simpl; [constructor |].
  apply List.NoDup_cons_iff in Hnd. destruct Hnd as [Hx Hnd].
  apply insert_sorted_NoDup; [| apply IH; exact Hnd].
  intros H. apply Hx. apply (sort_Strings_In x l). exact H.
Qed.

Lemma insert_sorted_Sorted (x : string) (l : list string) :
  Sorted (fun a b => String.leb a b = true) l ->
  Sorted (fun a b => String.leb a b = true) (insert_sorted x l).
Proof.
  induction l as [| z l IH]; intros Hs; simpl.
  - repeat constructor.
  - destruct (String.leb x z) eqn:E.
    + constructor; [exact Hs | constructor; exact E].
    + apply Sorted_inv in Hs. destruct Hs as [Hs Hhd]. constructor; [apply IH; exact Hs |].
      assert (Hzx : String.leb z x = true)
        by (destruct (String.leb_total x z) as [H | H]; [congruence | exact H]).
      destruct l as [| w l]; simpl.
      * constructor. exact Hzx.
      * destruct (String.leb x w); constructor; [exact Hzx |].
        apply HdRel_inv in Hhd. exact Hhd.
Qed.

Lemma sort_Strings_Sorted (l : list string) :
  Sorted (fun a b => String.leb a b = true) (sort_Strings l).
Proof.
  unfold sort_Strings. induction l as [| x l IH]; simpl; [constructor |].
  apply insert_sorted_Sorted. exact IH.
Qed.

Lemma group_names_In (field : TaskContainer.t -> gmap string string)
  (g : TaskContainerGroup.t) (name : string) :
  In name (group_names field g)
  <-> exists k tc, TaskContainerGroup.containerMap g !! k = Some tc /\
                   is_Some (field tc !! name).
Proof.
  unfold group_names. rewrite sort_Strings_In, <- list_elem_of_In, elem_of_elements.
  rewrite map_fold_foldr.
  assert (H : forall l : list (string * TaskContainer.t),
             name ∈ foldr (uncurry (fun (_ : string) c (acc : gset string) => dom (field c) ∪ acc))
                      ∅ l
             <-> exists k tc, (k, tc) ∈ l /\ is_Some (field tc !! name)).
  { induction l as [| [k tc] l IH]; simpl.
    - split; [intros H; apply not_elem_of_empty in H; destruct H |].
      intros (k & tc & H & _). apply elem_of_nil in H. destruct H.
    - rewrite elem_of_union, IH, elem_of_dom. split.
      + intros [H | (k' & tc' & Hin & H)].
        * exists k, tc. split; [left | exact H].
        * exists k', tc'. split; [right; exact Hin | exact H].
      + intros (k' & tc' & Hin & H). apply elem_of_cons in Hin.
        destruct Hin as [Heq | Hin].
        * injection Heq as -> ->. left. exact H.
        * right. exists k', tc'. split; assumption. }
  rewrite H. split; intros (k & tc & Hin & Hn); exists k, tc; split; try exact Hn.
  - apply elem_of_map_to_list. exact Hin.
  - apply elem_of_map_to_list. exact Hin.
Qed.

Lemma group_names_NoDup (field : TaskContainer.t -> gmap string string)
  (g : TaskContainerGroup.t) : List.NoDup (group_names field g).
Proof.
  unfold group_names. apply sort_Strings_NoDup. apply NoDup_ListNoDup, NoDup_elements.
Qed.

Lemma group_union_names_In (names : TaskContainerGroup.t -> list string)
  (ctx : TaskBuildContext.t) (name : string) :
  In name (group_union_names names ctx)
  <-> In name (names (TaskBuildContext.initContainers ctx)) \/
      In name (names (TaskBuildContext.containers ctx)) \/
      In name (names (TaskBuildContext.finalizerContainers ctx)).
Proof.
  unfold group_union_names.
  rewrite sort_Strings_In, <- list_elem_of_In, elem_of_elements, elem_of_list_to_set.
  rewrite !elem_of_app, !list_elem_of_In. reflexivity.
Qed.

Lemma group_union_names_sorted (names : TaskContainerGroup.t -> list string)
  (ctx : TaskBuildContext.t) :
  List.NoDup (group_union_names names ctx) /\
  Sorted (fun a b => String.leb a b = true) (group_union_names names ctx).
Proof.
  unfold group_union_names. split.
  - apply sort_Strings_NoDup. apply NoDup_ListNoDup, NoDup_elements.
  - apply sort_Strings_Sorted.
Qed.

(** The staging path a group answers for a name is the entry of one of its
    containers, when one has an entry; it is empty otherwise. *)
Lemma group_path_spec (field : TaskContainer.t -> gmap string string) (rho : range_order)
  (g : TaskContainerGroup.t) (name : string) :
  range_order_ok rho ->
  (exists k tc, TaskContainerGroup.containerMap g !! k = Some tc /\
                field tc !! name = Some (group_path field rho g name)) \/
  (group_path field rho g name = EmptyString /\
   forall k tc, TaskContainerGroup.containerMap g !! k = Some tc -> field tc !! name = None).
Proof.
  intros Hrho. unfold group_path.
  destruct (List.find _ (group_range rho g)) as [tc |] eqn:E.
  - left. apply find_some in E. destruct E as [Hin Hsome].
    apply bool_decide_eq_true in Hsome. destruct Hsome as [p Hp].
    unfold group_range in Hin. apply in_map_iff in Hin. destruct Hin as ([k tc'] & <- & Hin).
    apply (Permutation_in _ (Hrho _ _)) in Hin.
    apply list_elem_of_In, elem_of_map_to_list in Hin.
    exists k, tc'. split; [exact Hin |]. cbn [snd] in Hp |- *. rewrite Hp. reflexivity.
  - right. split; [reflexivity |]. intros k tc Hk.
    pose proof (find_none _ _ E tc) as Hnone.
    destruct (field tc !! name) as [p |] eqn:Ep; [| reflexivity].
    assert (Hin : In tc (group_range rho g)).
    { unfold group_range. apply in_map_iff. exists (k, tc). split; [reflexivity |].
      apply (Permutation_in _ (Permutation_sym (Hrho _ _))).
      apply list_elem_of_In, elem_of_map_to_list. exact Hk. }
    specialize (Hnone Hin). apply bool_decide_eq_false in Hnone.
    exfalso. apply Hnone. rewrite Ep. eauto.
Qed.

Lemma copy_paths_for_Ok (lookup : string -> result string) (dst_of : string -> string -> string)
  (names : list string) :
  forall (acc r : list copyPath.t),
    copy_paths_for lookup dst_of names acc = Ok r ->
    exists cps, r = acc ++ cps /\
      Forall2 (fun name cp => lookup name = Ok (copyPath.src cp) /\
                              copyPath.dst cp = dst_of name (copyPath.src cp)) names cps.
Proof.
  induction names as [| n names IH]; intros acc r H; simpl in H.
  - injection H as <-. exists []. rewrite app_nil_r. split; [reflexivity | constructor].
  - destruct (lookup n) as [src | e] eqn:E; [| discriminate].
    apply IH in H. destruct H as (cps & -> & Hall).
    exists (copyPath.mk src (dst_of n src) :: cps). rewrite <- app_assoc. split; [reflexivity |].
    constructor; [| exact Hall]. split; [exact E | reflexivity].
Qed.

Lemma copy_paths_for_Err (lookup : string -> result string) (dst_of : string -> string -> string)
  (names : list string) (name : string) (e0 : error) :
  In name names -> lookup name = Err e0 ->
  forall acc : list copyPath.t, exists e, copy_paths_for lookup dst_of names acc = Err e.
Proof.
  intros Hin Herr. induction names as [| n names IH]; [destruct Hin |]. intros acc. simpl.
  destruct (lookup n) as [src | e] eqn:E; [| eauto].
  destruct Hin as [-> | Hin]; [congruence |]. apply IH. exact Hin.
Qed.

Section StagedResources.

Variable mainContainer : TestJobContainer.t.
Variable tmpl : TestJobTemplateSpec.t.
Variable strategyKey : option StrategyKey.t.

Let spec := addContainersByStrategyKey (TestJobTemplateSpec.Spec tmpl) mainContainer strategyKey.
Let ctx := buildJob_context mainContainer tmpl strategyKey.
Let volumes := TestJobPodSpec.Volumes spec.
Let vol (vm : VolumeMount.t) := lookup_volume (volumeNameToVolume volumes) (VolumeMount.Name vm).

(** A task container of the build context is built from a container of the
    pod. *)
Lemma context_task_container (k : string) (tc : TaskContainer.t) :
  TaskContainerGroup.containerMap (TaskBuildContext.initContainers ctx) !! k = Some tc \/
  TaskContainerGroup.containerMap (TaskBuildContext.containers ctx) !! k = Some tc \/
  TaskContainerGroup.containerMap (TaskBuildContext.finalizerContainers ctx) !! k = Some tc ->
  exists c, In c (user_containers spec) /\ tc = newTaskContainer c volumes.
Proof.
  destruct (buildJob_context_groups mainContainer tmpl strategyKey) as (Hi & Hm & Hf).
  cbv zeta in Hi, Hm, Hf. fold spec ctx volumes in Hi, Hm, Hf. rewrite Hi, Hm, Hf.
  unfold newTaskContainerGroup, user_containers. cbn [fst TaskContainerGroup.containerMap].
  intros [H | [H | H]]; apply containerMap_lookup_Some in H;
    destruct H as [(c & Hc & _ & ->) | H]; try (rewrite lookup_empty in H; discriminate);
    exists c; (split; [| reflexivity]); rewrite !in_app_iff; auto.
Qed.

Lemma context_has_task_container (c : TestJobContainer.t) :
  List.NoDup (List.map TestJobContainer.Name (TestJobPodSpec.InitContainers spec)) ->
  List.NoDup (List.map TestJobContainer.Name (TestJobPodSpec.Containers spec)) ->
  In c (user_containers spec) ->
  let k := TestJobContainer.Name c in
  let tc := newTaskContainer c volumes in
  TaskContainerGroup.containerMap (TaskBuildContext.initContainers ctx) !! k = Some tc \/
  TaskContainerGroup.containerMap (TaskBuildContext.containers ctx) !! k = Some tc \/
  TaskContainerGroup.containerMap (TaskBuildContext.finalizerContainers ctx) !! k = Some tc.
Proof.
  intros Hni Hnm Hin. cbv zeta.
  destruct (buildJob_context_groups mainContainer tmpl strategyKey) as (Hi & Hm & Hf).
  cbv zeta in Hi, Hm, Hf. fold spec ctx volumes in Hi, Hm, Hf. rewrite Hi, Hm, Hf.
  unfold newTaskContainerGroup. cbn [fst TaskContainerGroup.containerMap].
  unfold user_containers in Hin. rewrite !in_app_iff in Hin. destruct Hin as [H | [H | H]].
  - left. apply containerMap_lookup_In; assumption.
  - right. left. apply containerMap_lookup_In; assumption.
  - right. right. apply containerMap_lookup_In; [| exact H].
    constructor; [simpl; tauto | constructor].
Qed.

(** The names the context lists for a kind are the resources of the
    volumes its containers mount. *)
Lemma context_names_mounted (kind : VolumeKind) (name : string) :
  In name (group_union_names (group_names (staging_field kind)) ctx) ->
  exists c vm, mounts_resource spec kind name c vm.
Proof.
  rewrite group_union_names_In, !group_names_In.
  intros H.
  assert (H' : exists k tc,
             (TaskContainerGroup.containerMap (TaskBuildContext.initContainers ctx) !! k = Some tc \/
              TaskContainerGroup.containerMap (TaskBuildContext.containers ctx) !! k = Some tc \/
              TaskContainerGroup.containerMap (TaskBuildContext.finalizerContainers ctx) !! k
              = Some tc) /\ is_Some (staging_field kind tc !! name)).
  { destruct H as [(k & tc & H & Hn) | [(k & tc & H & Hn) | (k & tc & H & Hn)]];
      exists k, tc; auto. }
  destruct H' as (k & tc & Hk & [p Hp]).
  apply context_task_container in Hk. destruct Hk as (c & Hc & ->).
  destruct (staging_field_entries kind c volumes name) as [Hent _]. cbv zeta in Hent.
  destruct (Hent p Hp) as (vm & Hvm & Hres & _).
  exists c, vm. split; [exact Hc |]. split; [exact Hvm | exact Hres].
Qed.

Lemma context_names_of_mount (kind : VolumeKind) (name : string) (c : TestJobContainer.t)
  (vm : VolumeMount.t) :
  List.NoDup (List.map TestJobContainer.Name (TestJobPodSpec.InitContainers spec)) ->
  List.NoDup (List.map TestJobContainer.Name (TestJobPodSpec.Containers spec)) ->
  mounts_resource spec kind name c vm ->
  In name (group_union_names (group_names (staging_field kind)) ctx).
Proof.
  intros Hni Hnm (Hc & Hvm & Hres).
  rewrite group_union_names_In, !group_names_In.
  destruct (staging_field_entries kind c volumes name) as [_ Hent]. cbv zeta in Hent.
  assert (Hsome : is_Some (staging_field kind (newTaskContainer c volumes) !! name))
    by (apply Hent; exists vm; split; assumption).
  destruct (context_has_task_container c Hni Hnm Hc) as [H | [H | H]];
    [left | right; left | right; right]; eexists; eexists; (split; [exact H | exact Hsome]).
Qed.

(** The staging path the context answers for a listed name is that of a
    mounted volume standing for it. *)
Lemma context_path_staged (kind : VolumeKind) (rho : range_order) (name : string) :
  range_order_ok rho ->
  In name (group_union_names (group_names (staging_field kind)) ctx) ->
  exists c vm,
    mounts_resource spec kind name c vm /\
    context_path (group_path (staging_field kind)) rho ctx name
    = filepath_Join ["/"%string; "tmp"%string; staging_dir kind; TestJobVolume.Name (vol vm)].
Proof.
  intros Hrho Hin.
  assert (Hentry : forall k tc p,
             TaskContainerGroup.containerMap (TaskBuildContext.initContainers ctx) !! k = Some tc \/
             TaskContainerGroup.containerMap (TaskBuildContext.containers ctx) !! k = Some tc \/
             TaskContainerGroup.containerMap (TaskBuildContext.finalizerContainers ctx) !! k
             = Some tc ->
             staging_field kind tc !! name = Some p ->
             exists c vm,
               mounts_resource spec kind name c vm /\
               p = filepath_Join ["/"%string; "tmp"%string; staging_dir kind;
                                  TestJobVolume.Name (vol vm)]).
  { intros k tc p Hk Hp. apply context_task_container in Hk. destruct Hk as (c & Hc & ->).
    destruct (staging_field_entries kind c volumes name) as [Hent _]. cbv zeta in Hent.
    destruct (Hent p Hp) as (vm & Hvm & Hres & Hpath).
    exists c, vm. split; [| exact Hpath]. split; [exact Hc |]. split; [exact Hvm | exact Hres]. }
  unfold context_path.
  destruct (group_path_spec (staging_field kind) rho (TaskBuildContext.initContainers ctx) name Hrho)
    as [(k & tc & Hk & Hp) | [Hempty Hnone_i]].
  - destruct (Hentry k tc _ (or_introl Hk) Hp) as (c & vm & Hm & Hpath).
    exists c, vm. split; [exact Hm |].
    rewrite Hpath at 1.
    destruct (String.eqb_spec
                (filepath_Join ["/"%string; "tmp"%string; staging_dir kind;
                                TestJobVolume.Name (vol vm)]) EmptyString) as [He | _].
    + exfalso. apply (staging_join_nonempty _ _ He).
    + cbn [negb]. exact Hpath.
  - rewrite Hempty. cbn [String.eqb negb].
    destruct (group_path_spec (staging_field kind) rho (TaskBuildContext.containers ctx) name Hrho)
      as [(k & tc & Hk & Hp) | [Hempty_m Hnone_m]].
    + destruct (Hentry k tc _ (or_intror (or_introl Hk)) Hp) as (c & vm & Hm & Hpath).
      exists c, vm. split; [exact Hm |].
      rewrite Hpath at 1.
      destruct (String.eqb_spec
                  (filepath_Join ["/"%string; "tmp"%string; staging_dir kind;
                                  TestJobVolume.Name (vol vm)]) EmptyString) as [He | _].
      * exfalso. apply (staging_join_nonempty _ _ He).
      * cbn [negb]. exact Hpath.
    + rewrite Hempty_m. cbn [String.eqb negb].
      destruct (group_path_spec (staging_field kind) rho
                  (TaskBuildContext.finalizerContainers ctx) name Hrho)
        as [(k & tc & Hk & Hp) | [_ Hnone_f]].
      * destruct (Hentry k tc _ (or_intror (or_intror Hk)) Hp) as (c & vm & Hm & Hpath).
        exists c, vm. split; [exact Hm | exact Hpath].
      * exfalso. apply group_union_names_In in Hin. rewrite !group_names_In in Hin.
        destruct Hin as [(k & tc & H & [p Hn]) | [(k & tc & H & [p Hn]) | (k & tc & H & [p Hn])]].
        -- rewrite (Hnone_i k tc H) in Hn. discriminate.
        -- rewrite (Hnone_m k tc H) in Hn. discriminate.
        -- rewrite (Hnone_f k tc H) in Hn. discriminate.
Qed.

End StagedResources.

(** The repositories, tokens and artifacts the build context lists, in a
    pod whose init containers have distinct names and whose main containers
    have distinct names: a name is listed iff some container (init, main or
    finalizer) mounts a volume that the template declares for that
    resource, the kind of a volume being decided in the order Repo,
    Artifact, Token; every list is sorted and free of duplicates, so a
    resource mounted by several containers, or through several volumes, is
    listed once. *)
Theorem TaskBuildContext_names_of_mounts (mainContainer : TestJobContainer.t)
  (tmpl : TestJobTemplateSpec.t) (strategyKey : option StrategyKey.t) :
  let spec := addContainersByStrategyKey (TestJobTemplateSpec.Spec tmpl) mainContainer strategyKey in
  let ctx := buildJob_context mainContainer tmpl strategyKey in
  List.NoDup (List.map TestJobContainer.Name (TestJobPodSpec.InitContainers spec)) ->
  List.NoDup (List.map TestJobContainer.Name (TestJobPodSpec.Containers spec)) ->
  let listed (kind : VolumeKind) (names : list string) :=
    (forall name, In name names <-> exists c vm, mounts_resource spec kind name c vm) /\
    List.NoDup names /\
    Sorted (fun a b => String.leb a b = true) names in
  listed KindRepo (TaskBuildContext_repoNames ctx) /\
  listed KindToken (TaskBuildContext_tokenNames ctx) /\
  listed KindArtifact (TaskBuildContext_artifactNames ctx).
Proof.
  intros spec ctx Hni Hnm listed.
  assert (H : forall kind,
             listed kind (group_union_names (group_names (staging_field kind)) ctx)).
  { intros kind. split; [| apply group_union_names_sorted].
    intros name. split.
    - apply context_names_mounted.
    - intros (c & vm & Hm). apply (context_names_of_mount _ _ _ kind name c vm Hni Hnm Hm). }
  split; [exact (H KindRepo) |]. split; [exact (H KindToken) | exact (H KindArtifact)].
Qed.

Lemma TaskBuildContext_names_of_mounts_witness :
  In "github-app-token"%string
    (TaskBuildContext_tokenNames
       (buildJob_context sample_mixed_container sample_mixed_template None)).
Proof.
  destruct (TaskBuildContext_names_of_mounts sample_mixed_container sample_mixed_template None)
    as (_ & (Hin & _) & _).
  - constructor.
  - constructor; [simpl; tauto | constructor].
  - apply Hin. exists sample_mixed_container.
    exists (VolumeMount.mk "token-volume" "/work/github-token" true EmptyString).
    split; [simpl; auto |]. split; [simpl; auto |]. vm_compute. reflexivity.
Defined.

(** The copies of the pre-init callback, when it can be built: first one
    per listed repository, then one per listed token, each from the path
    the manager gives to a file of that name under the staging directory
    of a mounted volume that stands for the resource; in the dry-run mode
    nothing else, otherwise one per listed artifact onto the staging
    directory itself, then the log file and the report if a container
    mounts a Log or a Report volume. *)
Theorem preInitCallback_copies (b : TaskBuilder.t) (rho : range_order)
  (mainContainer : TestJobContainer.t) (tmpl : TestJobTemplateSpec.t)
  (strategyKey : option StrategyKey.t) (copies : list copyPath.t) :
  let spec := addContainersByStrategyKey (TestJobTemplateSpec.Spec tmpl) mainContainer strategyKey in
  let ctx := buildJob_context mainContainer tmpl strategyKey in
  let mgr := TaskBuilder.mgr b in
  range_order_ok rho ->
  preInitCallback b rho ctx = Ok copies ->
  let staged (kind : VolumeKind) (lookup : string -> result string) (file : bool)
        (names : list string) (cps : list copyPath.t) :=
    Forall2
      (fun name cp =>
         lookup name = Ok (copyPath.src cp) /\
         exists c vm,
           mounts_resource spec kind name c vm /\
           let volume := lookup_volume (volumeNameToVolume (TestJobPodSpec.Volumes spec))
                           (VolumeMount.Name vm) in
           let dir := filepath_Join ["/"%string; "tmp"%string; staging_dir kind;
                                     TestJobVolume.Name volume] in
           copyPath.dst cp
           = if file then filepath_Join [dir; filepath_Base (copyPath.src cp)] else dir)
      names cps in
  exists repos tokens rest,
    copies = repos ++ tokens ++ rest /\
    staged KindRepo (ResourceManager.RepositoryPathByName mgr) true
      (TaskBuildContext_repoNames ctx) repos /\
    staged KindToken (ResourceManager.TokenPathByName mgr) true
      (TaskBuildContext_tokenNames ctx) tokens /\
    match TaskBuilder.runMode b with
    | RunModeDryRun => rest = []
    | RunModeKubernetes | RunModeLocal =>
      exists artifacts logs reports,
        rest = artifacts ++ logs ++ reports /\
        staged KindArtifact (ResourceManager.ArtifactPathByName mgr) false
          (TaskBuildContext_artifactNames ctx) artifacts /\
        (if TaskBuildContext_isUsedLogVolume ctx
         then exists logPath, ResourceManager.LogPath mgr = Ok logPath /\
                logs = [copyPath.mk logPath "/tmp/log/kubetest.log"]
         else logs = []) /\
        (if TaskBuildContext_isUsedReportVolume ctx
         then exists reportPath, ResourceManager.ReportPath mgr = Ok reportPath /\
                reports = [copyPath.mk reportPath
                             (filepath_Join ["/tmp/report"%string; filepath_Base reportPath])]
         else reports = [])
    end.
Proof.
  intros spec ctx mgr Hrho Hcb staged.
  assert (Hstaged : forall (kind : VolumeKind) (lookup : string -> result string) (file : bool)
                      (dst_of : string -> string -> string) (cps : list copyPath.t),
             (forall name src,
                dst_of name src
                = let dir := context_path (group_path (staging_field kind)) rho ctx name in
                  if file then filepath_Join [dir; filepath_Base src] else dir) ->
             Forall2 (fun name cp => lookup name = Ok (copyPath.src cp) /\
                                     copyPath.dst cp = dst_of name (copyPath.src cp))
               (group_union_names (group_names (staging_field kind)) ctx) cps ->
             staged kind lookup file (group_union_names (group_names (staging_field kind)) ctx)
               cps).
  { intros kind lookup file dst_of cps Hdst Hall. unfold staged.
    assert (Hsub : forall names cps',
               (forall n, In n names ->
                          In n (group_union_names (group_names (staging_field kind)) ctx)) ->
               Forall2 (fun name cp => lookup name = Ok (copyPath.src cp) /\
                                       copyPath.dst cp = dst_of name (copyPath.src cp))
                 names cps' ->
               Forall2
                 (fun name cp =>
                    lookup name = Ok (copyPath.src cp) /\
                    exists c vm,
                      mounts_resource spec kind name c vm /\
                      let volume := lookup_volume
                                      (volumeNameToVolume (TestJobPodSpec.Volumes spec))
                                      (VolumeMount.Name vm) in
                      let dir := filepath_Join ["/"%string; "tmp"%string; staging_dir kind;
                                                TestJobVolume.Name volume] in
                      copyPath.dst cp
                      = if file then filepath_Join [dir; filepath_Base (copyPath.src cp)]
                        else dir)
                 names cps').
    { intros names cps' Hin Hall'.
      induction Hall' as [| name cp names cps' [Hl Hd] Hall' IH]; constructor.
      - split; [exact Hl |].
        destruct (context_path_staged mainContainer tmpl strategyKey kind rho name Hrho
                    (Hin name (or_introl eq_refl))) as (c & vm & Hm & Hpath).
        exists c, vm. split; [exact Hm |]. cbv zeta.
        rewrite Hd, Hdst. cbv zeta. fold ctx in Hpath. rewrite Hpath. reflexivity.
      - apply IH. intros n Hn. apply Hin. right. exact Hn. }
    apply Hsub; [auto | exact Hall]. }
  unfold preInitCallback in Hcb.
  destruct (getCopyPathForRepository b rho ctx []) as [c1 | e] eqn:E1; [| discriminate].
  destruct (getCopyPathForToken b rho ctx c1) as [c2 | e] eqn:E2; [| discriminate].
  destruct (getCopyPathForArtifact b rho ctx c2) as [c3 | e] eqn:E3; [| discriminate].
  destruct (getCopyPathForLog b ctx c3) as [c4 | e] eqn:E4; [| discriminate].
  unfold getCopyPathForRepository in E1. apply copy_paths_for_Ok in E1.
  destruct E1 as (repos & -> & Hrepos). simpl app in *.
  unfold getCopyPathForToken in E2. apply copy_paths_for_Ok in E2.
  destruct E2 as (tokens & -> & Htokens).
  exists repos, tokens.
  apply (Hstaged KindRepo _ true _ _ (fun _ _ => eq_refl)) in Hrepos.
  apply (Hstaged KindToken _ true _ _ (fun _ _ => eq_refl)) in Htokens.
  unfold getCopyPathForArtifact in E3. unfold getCopyPathForLog in E4.
  unfold getCopyPathForReport in Hcb.
  destruct (TaskBuilder.runMode b) eqn:Emode; cbn [RunMode_eqb] in E3, E4, Hcb.
  - apply copy_paths_for_Ok in E3. destruct E3 as (artifacts & -> & Hart).
    apply (Hstaged KindArtifact _ false _ _ (fun _ _ => eq_refl)) in Hart.
    assert (Hlog : exists logs, c4 = (repos ++ tokens) ++ artifacts ++ logs /\
                     if TaskBuildContext_isUsedLogVolume ctx
                     then exists logPath, ResourceManager.LogPath mgr = Ok logPath /\
                            logs = [copyPath.mk logPath "/tmp/log/kubetest.log"]
                     else logs = []).
    { destruct (TaskBuildContext_isUsedLogVolume ctx).
      - fold mgr in E4. destruct (ResourceManager.LogPath mgr) as [p | e]; [| discriminate].
        injection E4 as <-. exists [copyPath.mk p logMountFilePath].
        rewrite <- !app_assoc. split; [reflexivity |]. exists p. split; reflexivity.
      - injection E4 as <-. exists []. rewrite !app_nil_r. split; reflexivity. }
    destruct Hlog as (logs & -> & Hlogs).
    assert (Hrep : exists reports, copies = (repos ++ tokens) ++ artifacts ++ logs ++ reports /\
                     if TaskBuildContext_isUsedReportVolume ctx
                     then exists reportPath, ResourceManager.ReportPath mgr = Ok reportPath /\
                            reports = [copyPath.mk reportPath
                                         (filepath_Join ["/tmp/report"%string;
                                                         filepath_Base reportPath])]
                     else reports = []).
    { destruct (TaskBuildContext_isUsedReportVolume ctx).
      - fold mgr in Hcb. destruct (ResourceManager.ReportPath mgr) as [p | e]; [| discriminate].
        injection Hcb as <-. eexists. rewrite <- !app_assoc. split; [reflexivity |].
        exists p. split; reflexivity.
      - injection Hcb as <-. exists []. rewrite !app_nil_r. split; reflexivity. }
    destruct Hrep as (reports & -> & Hreports).
    exists (artifacts ++ logs ++ reports).
    split; [rewrite <- !app_assoc; reflexivity |]. split; [exact Hrepos |].
    split; [exact Htokens |]. exists artifacts, logs, reports.
    split; [reflexivity |]. split; [exact Hart |]. split; assumption.
  - apply copy_paths_for_Ok in E3. destruct E3 as (artifacts & -> & Hart).
    apply (Hstaged KindArtifact _ false _ _ (fun _ _ => eq_refl)) in Hart.
    assert (Hlog : exists logs, c4 = (repos ++ tokens) ++ artifacts ++ logs /\
                     if TaskBuildContext_isUsedLogVolume ctx
                     then exists logPath, ResourceManager.LogPath mgr = Ok logPath /\
                            logs = [copyPath.mk logPath "/tmp/log/kubetest.log"]
                     else logs = []).
    { destruct (TaskBuildContext_isUsedLogVolume ctx).
      - fold mgr in E4. destruct (ResourceManager.LogPath mgr) as [p | e]; [| discriminate].
        injection E4 as <-. exists [copyPath.mk p logMountFilePath].
        rewrite <- !app_assoc. split; [reflexivity |]. exists p. split; reflexivity.
      - injection E4 as <-. exists []. rewrite !app_nil_r. split; reflexivity. }
    destruct Hlog as (logs & -> & Hlogs).
    assert (Hrep : exists reports, copies = (repos ++ tokens) ++ artifacts ++ logs ++ reports /\
                     if TaskBuildContext_isUsedReportVolume ctx
                     then exists reportPath, ResourceManager.ReportPath mgr = Ok reportPath /\
                            reports = [copyPath.mk reportPath
                                         (filepath_Join ["/tmp/report"%string;
                                                         filepath_Base reportPath])]
                     else reports = []).
    { destruct (TaskBuildContext_isUsedReportVolume ctx).
      - fold mgr in Hcb. destruct (ResourceManager.ReportPath mgr) as [p | e]; [| discriminate].
        injection Hcb as <-. eexists. rewrite <- !app_assoc. split; [reflexivity |].
        exists p. split; reflexivity.
      - injection Hcb as <-. exists []. rewrite !app_nil_r. split; reflexivity. }
    destruct Hrep as (reports & -> & Hreports).
    exists (artifacts ++ logs ++ reports).
    split; [rewrite <- !app_assoc; reflexivity |]. split; [exact Hrepos |].
    split; [exact Htokens |]. exists artifacts, logs, reports.
    split; [reflexivity |]. split; [exact Hart |]. split; assumption.
  - injection E3 as <-. injection E4 as <-. injection Hcb as <-.
    exists []. split; [rewrite app_nil_r; reflexivity |]. split; [exact Hrepos |].
    split; [exact Htokens | reflexivity].
Qed.

Lemma preInitCallback_copies_witness :
  exists repos tokens rest,
    sample_mixed_copies = repos ++ tokens ++ rest /\
    length repos = 1%nat /\ length tokens = 1%nat.
Proof.
  destruct (preInitCallback_copies sample_builder range_sorted sample_mixed_container
              sample_mixed_template None sample_mixed_copies range_sorted_ok)
    as (repos & tokens & rest & Hcopies & Hrepos & Htokens & _).
  - vm_compute. reflexivity.
  - exists repos, tokens, rest. split; [exact Hcopies |].
    apply Forall2_length in Hrepos. apply Forall2_length in Htokens.
    rewrite <- Hrepos, <- Htokens. split; vm_compute; reflexivity.
Defined.

Example preInitCallback_copies_sample :
  List.map (fun cp => (copyPath.src cp, copyPath.dst cp)) sample_mixed_copies
  = [("/var/kubetest/repo/repo/repo.tar.gz", "/tmp/repo-archive/repo-volume/repo.tar.gz");
     ("/var/kubetest/token/github-app-token/token", "/tmp/token/token-volume/token");
     ("/var/kubetest/log/kubetest.log", "/tmp/log/kubetest.log")]%string.
Proof. vm_compute. reflexivity. Qed.

Lemma resource_is_test_volume (kind : VolumeKind) (volume : TestJobVolume.t) (name : string) :
  resource_name kind volume = Some name -> is_test_volume volume = true.
Proof.
  unfold resource_name, volume_kind, is_test_volume.
  destruct volume as [vname repo artifact token log report src].
  cbn [TestJobVolume.Repo TestJobVolume.Artifact TestJobVolume.Token TestJobVolume.Log
       TestJobVolume.Report].
  destruct repo, artifact, token, log, report, kind; cbn; intros H;
    try discriminate; reflexivity.
Qed.

(** A job cannot be built for a pod that mounts a resource the manager
    does not know.  In a pod whose init containers have distinct names and
    whose main containers have distinct names, if some container mounts a
    volume declared for a repository or a token whose path the manager
    cannot give, [buildJob] returns an error, in every run mode, the
    dry-run mode included; the same holds for an artifact, outside the
    dry-run mode. *)
Theorem buildJob_unknown_resource_fails (json_Marshal : list string -> result string)
  (backend_error : RunMode -> option error) (rhos : nat -> range_order)
  (b : TaskBuilder.t) (mainContainer : TestJobContainer.t) (tmpl : TestJobTemplateSpec.t)
  (strategyKey : option StrategyKey.t) (kind : VolumeKind) (name : string)
  (c : TestJobContainer.t) (vm : VolumeMount.t) (e0 : error) :
  let spec := addContainersByStrategyKey (TestJobTemplateSpec.Spec tmpl) mainContainer strategyKey in
  (forall n : nat, range_order_ok (rhos n)) ->
  List.NoDup (List.map TestJobContainer.Name (TestJobPodSpec.InitContainers spec)) ->
  List.NoDup (List.map TestJobContainer.Name (TestJobPodSpec.Containers spec)) ->
  mounts_resource spec kind name c vm ->
  match kind with
  | KindRepo => ResourceManager.RepositoryPathByName (TaskBuilder.mgr b) name = Err e0
  | KindToken => ResourceManager.TokenPathByName (TaskBuilder.mgr b) name = Err e0
  | KindArtifact =>
    ResourceManager.ArtifactPathByName (TaskBuilder.mgr b) name = Err e0 /\
    TaskBuilder.runMode b <> RunModeDryRun
  | KindLog | KindReport | KindOther => False
  end ->
  exists e,
    TaskBuilder_buildJob json_Marshal backend_error rhos b mainContainer tmpl strategyKey = Err e.
Proof.
  intros spec Hrhos Hni Hnm Hmount Hunknown.
  set (ctx := buildJob_context mainContainer tmpl strategyKey).
  pose proof (context_names_of_mount mainContainer tmpl strategyKey kind name c vm Hni Hnm Hmount)
    as Hlisted. fold ctx in Hlisted.
  assert (Hcb : exists e, preInitCallback b (rhos 3%nat) ctx = Err e).
  { unfold preInitCallback.
    destruct (getCopyPathForRepository b (rhos 3%nat) ctx []) as [c1 | e] eqn:E1; [| eauto].
    destruct (getCopyPathForToken b (rhos 3%nat) ctx c1) as [c2 | e] eqn:E2; [| eauto].
    destruct (getCopyPathForArtifact b (rhos 3%nat) ctx c2) as [c3 | e] eqn:E3; [| eauto].
    exfalso. destruct kind; try contradiction.
    - destruct (copy_paths_for_Err _
                  (fun name src =>
                     filepath_Join [TaskBuildContext_repoNameToArchiveMountPath (rhos 3%nat) ctx name;
                                    filepath_Base src])
                  _ name e0 Hlisted Hunknown []) as [e He].
      discriminate (eq_trans (eq_sym He) E1).
    - destruct Hunknown as [Hunknown Hmode]. unfold getCopyPathForArtifact in E3.
      destruct (RunMode_eqb (TaskBuilder.runMode b) RunModeDryRun) eqn:Em.
      + destruct (TaskBuilder.runMode b); try discriminate. contradiction.
      + destruct (copy_paths_for_Err _
                    (fun name (_ : string) =>
                       TaskBuildContext_artifactNameToMountPath (rhos 3%nat) ctx name)
                    _ name e0 Hlisted Hunknown c2) as [e He].
        discriminate (eq_trans (eq_sym He) E3).
    - destruct (copy_paths_for_Err _
                  (fun name src =>
                     filepath_Join [TaskBuildContext_tokenNameToMountPath (rhos 3%nat) ctx name;
                                    filepath_Base src])
                  _ name e0 Hlisted Hunknown c1) as [e He].
      discriminate (eq_trans (eq_sym He) E2). }
  assert (Hneeds : TaskBuildContext_needsToPreInit (rhos 2%nat) ctx = true).
  { destruct (buildJob_context_groups mainContainer tmpl strategyKey) as (Hi & Hm & Hf).
    cbv zeta in Hi, Hm, Hf. fold spec ctx in Hi, Hm, Hf.
    assert (Hctx : ctx = TaskBuildContext.mk
                           (fst (newTaskContainerGroup (TestJobPodSpec.InitContainers spec)
                                   (TestJobPodSpec.Volumes spec)))
                           (fst (newTaskContainerGroup (TestJobPodSpec.Containers spec)
                                   (TestJobPodSpec.Volumes spec)))
                           (fst (newTaskContainerGroup [TestJobPodSpec.FinalizerContainer spec]
                                   (TestJobPodSpec.Volumes spec)))
                           (TaskBuildContext.spec ctx)).
    { destruct ctx as [gi gm gf sp]. simpl in *. subst gi gm gf. reflexivity. }
    rewrite Hctx.
    apply (needsToPreInit_iff (TestJobPodSpec.Volumes spec) _ _ _ Hni Hnm (rhos 2%nat) _
             (Hrhos 2%nat)).
    destruct Hmount as (Hc & Hvm & Hres). exists c. split; [exact Hc |].
    unfold declares_test_volume. apply existsb_exists. exists vm. split; [exact Hvm |].
    apply (resource_is_test_volume kind _ name Hres). }
  destruct Hcb as [e He].
  unfold TaskBuilder_buildJob. cbv zeta. fold ctx.
  destruct (match strategyKey with Some _ => _ | None => _ end) as [annotations | e1];
    [| eauto].
  destruct (JobBuilder_BuildWithJob _ _ _ _ _ _ _) as [job | e2]; [| eauto].
  rewrite Hneeds, He. eauto.
Qed.

Lemma buildJob_unknown_resource_fails_witness :
  exists e,
    TaskBuilder_buildJob (fun _ => Ok "[]"%string) (fun _ => None) (fun _ => range_sorted)
      sample_dry_run_builder sample_mixed_container sample_mixed_template None
    = Err e.
Proof.
  apply (buildJob_unknown_resource_fails (fun _ => Ok "[]"%string) (fun _ => None)
           (fun _ => range_sorted) sample_dry_run_builder sample_mixed_container
           sample_mixed_template None KindRepo "repo" sample_mixed_container
           (VolumeMount.mk "repo-volume" "/work" false EmptyString)
           "kubetest: failed to find repository path by repo").
  - intros n. exact range_sorted_ok.
  - constructor.
  - constructor; [simpl; tauto | constructor].
  - split; [simpl; auto |]. split; [simpl; auto |]. vm_compute. reflexivity.
  - reflexivity.
Defined.

(** ** Agent paths *)

Lemma agent_fold_Some (l : list TaskContainer.t) :
  forall (m : gmap string string) (n p : string),
    fold_left
      (fun ret c =>
         match TestJobContainer.Agent (TaskContainer.container c) with
         | Some a => <[TestJobContainer.Name (TaskContainer.container c)
                       := TestAgentSpec.InstalledPath a]> ret
         | None => ret
         end) l m !! n = Some p ->
    (exists tc a, In tc l /\ TestJobContainer.Name (TaskContainer.container tc) = n /\
                  TestJobContainer.Agent (TaskContainer.container tc) = Some a /\
                  p = TestAgentSpec.InstalledPath a) \/
    m !! n = Some p.
Proof.
  induction l as [| tc l IH]; intros m n p H; simpl in H.
  - right. exact H.
  - apply IH in H. destruct H as [(tc' & a & Hin & Hn & Ha & Hp) | H].
    + left. exists tc', a. split; [right; exact Hin |]. repeat split; assumption.
    + destruct (TestJobContainer.Agent (TaskContainer.container tc)) as [a |] eqn:Ea.
      * destruct (decide (TestJobContainer.Name (TaskContainer.container tc) = n)) as [Hn | Hn].
        -- rewrite Hn, lookup_insert_eq in H. injection H as <-.
           left. exists tc, a. split; [left; reflexivity |]. repeat split; assumption.
        -- rewrite lookup_insert_ne in H by exact Hn. right. exact H.
      * right. exact H.
Qed.

Lemma agent_fold_other (l : list TaskContainer.t) :
  forall (m : gmap string string) (n : string),
    ~ In n (List.map (fun c => TestJobContainer.Name (TaskContainer.container c)) l) ->
    fold_left
      (fun ret c =>
         match TestJobContainer.Agent (TaskContainer.container c) with
         | Some a => <[TestJobContainer.Name (TaskContainer.container c)
                       := TestAgentSpec.InstalledPath a]> ret
         | None => ret
         end) l m !! n = m !! n.
Proof.
  induction l as [| tc l IH]; intros m n Hn; simpl; [reflexivity |].
  simpl in Hn. rewrite IH by tauto.
  destruct (TestJobContainer.Agent (TaskContainer.container tc)); [| reflexivity].
  apply lookup_insert_ne. tauto.
Qed.

Lemma agent_fold_In (l : list TaskContainer.t) :
  forall (m : gmap string string) (tc : TaskContainer.t) (a : TestAgentSpec.t),
    List.NoDup (List.map (fun c => TestJobContainer.Name (TaskContainer.container c)) l) ->
    In tc l ->
    TestJobContainer.Agent (TaskContainer.container tc) = Some a ->
    fold_left
      (fun ret c =>
         match TestJobContainer.Agent (TaskContainer.container c) with
         | Some a => <[TestJobContainer.Name (TaskContainer.container c)
                       := TestAgentSpec.InstalledPath a]> ret
         | None => ret
         end) l m !! TestJobContainer.Name (TaskContainer.container tc)
    = Some (TestAgentSpec.InstalledPath a).
Proof.
  induction l as [| tc0 l IH]; intros m tc a Hnd Hin Ha; [destruct Hin |].
  simpl in Hnd. apply List.NoDup_cons_iff in Hnd. destruct Hnd as [Hfresh Hnd].
  destruct Hin as [<- | Hin]; simpl.
  - rewrite Ha, (agent_fold_other l _ _ Hfresh). apply lookup_insert_eq.
  - apply IH; assumption.
Qed.

Section AgentPaths.

Variable volumes : list TestJobVolume.t.

(** The agent paths of a group: an entry per container with an agent. *)
Lemma group_agent_paths_Some (rho : range_order) (containers : list TestJobContainer.t)
  (n p : string) :
  range_order_ok rho ->
  TaskContainerGroup_containerNameToInstalledAgentPathMap rho
    (fst (newTaskContainerGroup containers volumes)) !! n = Some p ->
  exists c a, In c containers /\ TestJobContainer.Name c = n /\
              TestJobContainer.Agent c = Some a /\ p = TestAgentSpec.InstalledPath a.
Proof.
  intros Hrho H. unfold TaskContainerGroup_containerNameToInstalledAgentPathMap in H.
  apply agent_fold_Some in H. destruct H as [(tc & a & Hin & Hn & Ha & Hp) | H].
  - apply (group_range_In volumes rho containers tc Hrho) in Hin.
    destruct Hin as (c & Hc & ->).
    exists c, a. split; [exact Hc |].
    pose proof (rewritten_name volumes c) as Hname.
    destruct (rewritten_fields volumes c) as [_ Hagent]. unfold rewritten in Hname, Hagent.
    rewrite Hname in Hn. rewrite Hagent in Ha. repeat split; assumption.
  - rewrite lookup_empty in H. discriminate.
Qed.

Lemma group_range_names (rho : range_order) (containers : list TestJobContainer.t) :
  range_order_ok rho ->
  List.NoDup (List.map (fun c => TestJobContainer.Name (TaskContainer.container c))
                (group_range rho (fst (newTaskContainerGroup containers volumes)))).
Proof.
  intros Hrho. unfold group_range. rewrite List.map_map.
  set (m := TaskContainerGroup.containerMap (fst (newTaskContainerGroup containers volumes))).
  assert (Heq : List.map (fun x => TestJobContainer.Name (TaskContainer.container (snd x)))
                  (rho _ m)
                = List.map fst (rho _ m)).
  { apply map_ext_in. intros [k tc] Hin. cbn [fst snd].
    apply (Permutation_in _ (Hrho _ _)) in Hin.
    apply list_elem_of_In, elem_of_map_to_list in Hin.
    unfold m, newTaskContainerGroup in Hin. cbn [fst TaskContainerGroup.containerMap] in Hin.
    apply containerMap_lookup_Some in Hin. destruct Hin as [(c & _ & Hk & ->) | Hin].
    - rewrite <- Hk. apply (rewritten_name volumes c).
    - rewrite lookup_empty in Hin. discriminate. }
  rewrite Heq.
  apply (Permutation_NoDup (Permutation_sym (Permutation_map fst (Hrho _ m)))).
  apply NoDup_ListNoDup, NoDup_fst_map_to_list.
Qed.

Lemma group_agent_paths_In (rho : range_order) (containers : list TestJobContainer.t)
  (c : TestJobContainer.t) (a : TestAgentSpec.t) :
  range_order_ok rho ->
  List.NoDup (List.map TestJobContainer.Name containers) ->
  In c containers ->
  TestJobContainer.Agent c = Some a ->
  TaskContainerGroup_containerNameToInstalledAgentPathMap rho
    (fst (newTaskContainerGroup containers volumes)) !! TestJobContainer.Name c
  = Some (TestAgentSpec.InstalledPath a).
Proof.
  intros Hrho Hnd Hin Ha. unfold TaskContainerGroup_containerNameToInstalledAgentPathMap.
  pose proof (rewritten_name volumes c) as Hname.
  destruct (rewritten_fields volumes c) as [_ Hagent]. unfold rewritten in Hname, Hagent.
  rewrite <- Hname.
  apply agent_fold_In.
  - apply group_range_names. exact Hrho.
  - apply group_range_build; assumption.
  - rewrite Hagent. exact Ha.
Qed.

End AgentPaths.

Lemma buildJob_agentPaths (json_Marshal : list string -> result string)
  (backend_error : RunMode -> option error) (rhos : nat -> range_order)
  (b : TaskBuilder.t) (mainContainer : TestJobContainer.t) (tmpl : TestJobTemplateSpec.t)
  (strategyKey : option StrategyKey.t) (job : Job.t) :
  TaskBuilder_buildJob json_Marshal backend_error rhos b mainContainer tmpl strategyKey = Ok job ->
  Job.agentPaths job
  = TaskBuildContext_containerNameToInstalledAgentPathMap (rhos 1%nat)
      (buildJob_context mainContainer tmpl strategyKey).
Proof.
  unfold TaskBuilder_buildJob, JobBuilder_BuildWithJob. cbv zeta.
  set (buildCtx := buildJob_context mainContainer tmpl strategyKey).
  intros H.
  destruct (match strategyKey with Some _ => _ | None => _ end) as [annotations | e];
    [| discriminate].
  destruct (backend_error (TaskBuilder.runMode b)); [discriminate |].
  destruct (TaskBuildContext_needsToPreInit (rhos 2%nat) buildCtx).
  - destruct (preInitCallback b (rhos 3%nat) buildCtx) as [callback | e]; [| discriminate].
    injection H as <-. unfold Job.Mount, Job.PreInit.
    destruct (TaskBuilder.runMode b); reflexivity.
  - injection H as <-. unfold Job.Mount. destruct (TaskBuilder.runMode b); reflexivity.
Qed.

Lemma group_preInitAgentPath_spec (volumes : list TestJobVolume.t) (rho : range_order)
  (containers : list TestJobContainer.t) :
  range_order_ok rho ->
  let p := TaskContainerGroup_preInitAgentPath rho
             (fst (newTaskContainerGroup containers volumes)) in
  p = EmptyString \/
  exists c a, In c containers /\ declares_test_volume volumes c = true /\
              TestJobContainer.Agent c = Some a /\ p = TestAgentSpec.InstalledPath a.
Proof.
  intros Hrho. cbv zeta. unfold TaskContainerGroup_preInitAgentPath.
  destruct (List.find _ _) as [tc |] eqn:E; [| left; reflexivity].
  apply find_some in E. destruct E as [Hin Hhas].
  apply andb_true_iff in Hhas. destruct Hhas as [Hhas Hagent].
  apply (group_range_In volumes rho containers tc Hrho) in Hin. destruct Hin as (c & Hc & ->).
  rewrite newTaskContainer_hasTestVolumeMount in Hhas.
  destruct (rewritten_fields volumes c) as [_ Ha]. unfold rewritten in Ha. rewrite Ha.
  destruct (TestJobContainer.Agent c) as [a |] eqn:Eagent; [| left; reflexivity].
  right. exists c, a. repeat split; assumption.
Qed.

(** The agent paths a job is built with.  Every entry is the installed
    path of the agent of a container of the pod, under the container's
    name, or, under the name preinit, the non-empty installed path of the
    agent of an init or main container that mounts a test volume.  When
    the containers of the pod (init, main and finalizer) have pairwise
    different names, every container with an agent, unless it is called
    preinit, has its entry. *)
Theorem buildJob_agent_paths (json_Marshal : list string -> result string)
  (backend_error : RunMode -> option error) (rhos : nat -> range_order)
  (b : TaskBuilder.t) (mainContainer : TestJobContainer.t) (tmpl : TestJobTemplateSpec.t)
  (strategyKey : option StrategyKey.t) (job : Job.t) :
  (forall n : nat, range_order_ok (rhos n)) ->
  TaskBuilder_buildJob json_Marshal backend_error rhos b mainContainer tmpl strategyKey = Ok job ->
  let spec := addContainersByStrategyKey (TestJobTemplateSpec.Spec tmpl) mainContainer strategyKey in
  let paths := Job.agentPaths job in
  (forall n p, paths !! n = Some p ->
     (exists c a, In c (user_containers spec) /\ TestJobContainer.Name c = n /\
                  TestJobContainer.Agent c = Some a /\ p = TestAgentSpec.InstalledPath a) \/
     (n = "preinit"%string /\ p <> EmptyString /\
      exists c a,
        In c (TestJobPodSpec.InitContainers spec ++ TestJobPodSpec.Containers spec) /\
        declares_test_volume (TestJobPodSpec.Volumes spec) c = true /\
        TestJobContainer.Agent c = Some a /\ p = TestAgentSpec.InstalledPath a)) /\
  (List.NoDup (List.map TestJobContainer.Name (user_containers spec)) ->
   forall c a,
     In c (user_containers spec) ->
     TestJobContainer.Agent c = Some a ->
     TestJobContainer.Name c <> "preinit"%string ->
     paths !! TestJobContainer.Name c = Some (TestAgentSpec.InstalledPath a)).
Proof.
  intros Hrhos Hjob spec paths. subst paths.
  rewrite (buildJob_agentPaths _ _ _ _ _ _ _ _ Hjob).
  destruct (buildJob_context_groups mainContainer tmpl strategyKey) as (Hi & Hm & Hf).
  cbv zeta in Hi, Hm, Hf. fold spec in Hi, Hm, Hf.
  set (ctx := buildJob_context mainContainer tmpl strategyKey) in *.
  set (volumes := TestJobPodSpec.Volumes spec) in *.
  set (rho := rhos 1%nat). pose proof (Hrhos 1%nat) as Hrho. fold rho in Hrho.
  unfold TaskBuildContext_containerNameToInstalledAgentPathMap. cbv zeta.
  rewrite Hi, Hm, Hf. unfold assign_all.
  set (mi := TaskContainerGroup_containerNameToInstalledAgentPathMap rho
               (fst (newTaskContainerGroup (TestJobPodSpec.InitContainers spec) volumes))).
  set (mm := TaskContainerGroup_containerNameToInstalledAgentPathMap rho
               (fst (newTaskContainerGroup (TestJobPodSpec.Containers spec) volumes))).
  set (mf := TaskContainerGroup_containerNameToInstalledAgentPathMap rho
               (fst (newTaskContainerGroup [TestJobPodSpec.FinalizerContainer spec] volumes))).
  assert (Hunion : forall n p, (mf ∪ (mm ∪ mi)) !! n = Some p ->
             exists c a, In c (user_containers spec) /\ TestJobContainer.Name c = n /\
                         TestJobContainer.Agent c = Some a /\
                         p = TestAgentSpec.InstalledPath a).
  { intros n p H. unfold user_containers.
    apply lookup_union_Some_raw in H. destruct H as [H | [_ H]].
    - apply (group_agent_paths_Some volumes rho _ n p Hrho) in H.
      destruct H as (c & a & Hc & H). exists c, a. rewrite !in_app_iff. auto.
    - apply lookup_union_Some_raw in H. destruct H as [H | [_ H]].
      + apply (group_agent_paths_Some volumes rho _ n p Hrho) in H.
        destruct H as (c & a & Hc & H). exists c, a. rewrite !in_app_iff. auto.
      + apply (group_agent_paths_Some volumes rho _ n p Hrho) in H.
        destruct H as (c & a & Hc & H). exists c, a. rewrite !in_app_iff. auto. }
  assert (Hin_union : List.NoDup (List.map TestJobContainer.Name (user_containers spec)) ->
             forall c a, In c (user_containers spec) -> TestJobContainer.Agent c = Some a ->
                         (mf ∪ (mm ∪ mi)) !! TestJobContainer.Name c
                         = Some (TestAgentSpec.InstalledPath a)).
  { intros Hnd c a Hc Ha. unfold user_containers in Hnd, Hc.
    rewrite !List.map_app in Hnd.
    apply NoDup_ListNoDup, NoDup_app in Hnd. destruct Hnd as (Hni & Hdis1 & Hnmf).
    apply NoDup_app in Hnmf. destruct Hnmf as (Hnm & Hdis2 & _).
    apply NoDup_ListNoDup in Hni. apply NoDup_ListNoDup in Hnm.
    assert (Hnone : forall (containers : list TestJobContainer.t),
               ~ In (TestJobContainer.Name c) (List.map TestJobContainer.Name containers) ->
               TaskContainerGroup_containerNameToInstalledAgentPathMap rho
                 (fst (newTaskContainerGroup containers volumes)) !! TestJobContainer.Name c
               = None).
    { intros containers Hnot.
      destruct (TaskContainerGroup_containerNameToInstalledAgentPathMap rho _ !! _)
        as [p |] eqn:E; [| reflexivity].
      apply (group_agent_paths_Some volumes rho _ _ p Hrho) in E.
      destruct E as (c' & _ & Hc' & Hn & _). exfalso. apply Hnot. rewrite <- Hn.
      apply in_map. exact Hc'. }
    rewrite !in_app_iff in Hc. destruct Hc as [Hc | [Hc | Hc]].
    - assert (Hc_name : In (TestJobContainer.Name c)
                          (List.map TestJobContainer.Name (TestJobPodSpec.InitContainers spec)))
        by (apply in_map; exact Hc).
      apply lookup_union_Some_raw. right. split.
      + apply Hnone. intros H. apply list_elem_of_In in Hc_name.
        apply (Hdis1 _ Hc_name). apply elem_of_app. right. apply list_elem_of_In. exact H.
      + apply lookup_union_Some_raw. right. split.
        * apply Hnone. intros H. apply list_elem_of_In in Hc_name.
          apply (Hdis1 _ Hc_name). apply elem_of_app. left. apply list_elem_of_In. exact H.
        * apply group_agent_paths_In; assumption.
    - assert (Hc_name : In (TestJobContainer.Name c)
                          (List.map TestJobContainer.Name (TestJobPodSpec.Containers spec)))
        by (apply in_map; exact Hc).
      apply lookup_union_Some_raw. right. split.
      + apply Hnone. intros H. apply list_elem_of_In in Hc_name.
        apply (Hdis2 _ Hc_name). apply list_elem_of_In. exact H.
      + apply lookup_union_Some_raw. left. apply group_agent_paths_In; assumption.
    - apply lookup_union_Some_raw. left. apply group_agent_paths_In; try assumption.
      constructor; [simpl; tauto | constructor]. }
  assert (Hpre : TaskBuildContext_preInitAgentPath rho ctx = EmptyString \/
                 exists c a,
                   In c (TestJobPodSpec.InitContainers spec ++ TestJobPodSpec.Containers spec) /\
                   declares_test_volume volumes c = true /\
                   TestJobContainer.Agent c = Some a /\
                   TaskBuildContext_preInitAgentPath rho ctx = TestAgentSpec.InstalledPath a).
  { unfold TaskBuildContext_preInitAgentPath. cbv zeta. rewrite Hi, Hm.
    destruct (group_preInitAgentPath_spec volumes rho (TestJobPodSpec.InitContainers spec) Hrho)
      as [He | (c & a & Hc & Hd & Ha & Hp)]; cbv zeta in *.
    - rewrite He. cbn [String.eqb negb].
      destruct (group_preInitAgentPath_spec volumes rho (TestJobPodSpec.Containers spec) Hrho)
        as [He' | (c & a & Hc & Hd & Ha & Hp)]; cbv zeta in *.
      + left. exact He'.
      + right. exists c, a. split; [apply in_or_app; right; exact Hc |]. repeat split; assumption.
    - destruct (String.eqb_spec
                  (TaskContainerGroup_preInitAgentPath rho
                     (fst (newTaskContainerGroup (TestJobPodSpec.InitContainers spec) volumes)))
                  EmptyString) as [He | Hne]; cbn [negb].
      + destruct (group_preInitAgentPath_spec volumes rho (TestJobPodSpec.Containers spec) Hrho)
          as [He' | (c' & a' & Hc' & Hd' & Ha' & Hp')]; cbv zeta in *.
        * left. exact He'.
        * right. exists c', a'. split; [apply in_or_app; right; exact Hc' |].
          repeat split; assumption.
      + right. exists c, a. split; [apply in_or_app; left; exact Hc |]. repeat split; assumption. }
  destruct (String.eqb_spec (TaskBuildContext_preInitAgentPath rho ctx) EmptyString)
    as [He | Hne]; cbn [negb].
  - split.
    + intros n p H. left. apply Hunion. exact H.
    + intros Hnd c a Hc Ha _. apply Hin_union; assumption.
  - split.
    + intros n p H. destruct (decide ("preinit"%string = n)) as [<- | Hn].
      * rewrite lookup_insert_eq in H. injection H as <-. right.
        split; [reflexivity |]. split; [exact Hne |].
        destruct Hpre as [He | Hpre]; [contradiction | exact Hpre].
      * rewrite lookup_insert_ne in H by exact Hn. left. apply Hunion. exact H.
    + intros Hnd c a Hc Ha Hname. rewrite lookup_insert_ne by congruence.
      apply Hin_union; assumption.
Qed.

Lemma buildJob_agent_paths_witness :
  Job.agentPaths sample_agent_job !! "test"%string = Some "/bin/kubetest-agent"%string.
Proof.
  destruct (buildJob_agent_paths (fun _ => Ok "[]"%string) (fun _ => None)
              (fun _ => range_sorted) sample_builder sample_agent_container
              sample_agent_template None sample_agent_job) as [_ H].
  - intros n. exact range_sorted_ok.
  - vm_compute. reflexivity.
  - apply (H (ltac:(repeat constructor; simpl; intuition discriminate))
             sample_agent_container (TestAgentSpec.mk "/bin/kubetest-agent")).
    + simpl. auto.
    + reflexivity.
    + discriminate.
Defined.

Example buildJob_agent_paths_sample :
  map_to_list (Job.agentPaths sample_agent_job)
  = [("test", "/bin/kubetest-agent"); ("preinit", "/bin/kubetest-agent")]%string.
Proof. vm_compute. reflexivity. Qed.

(** ** Log and report volumes in use *)

Lemma mount_paths_of_kind_nonempty (kind : VolumeKind) (volumes : list TestJobVolume.t)
  (c : TestJobContainer.t) :
  negb (len (mount_paths_of_kind kind volumes c) =? 0) = true
  <-> exists vm, In vm (Container.VolumeMounts (TestJobContainer.Container c)) /\
                 volume_kind (lookup_volume (volumeNameToVolume volumes) (VolumeMount.Name vm))
                 = kind.
Proof.
  unfold mount_paths_of_kind, len. rewrite length_map, negb_true_iff, Z.eqb_neq.
  set (keep := fun vm => VolumeKind_eqb
                           (volume_kind (lookup_volume (volumeNameToVolume volumes)
                                           (VolumeMount.Name vm))) kind).
  assert (Hkeep : forall vm, keep vm = true
                             <-> volume_kind (lookup_volume (volumeNameToVolume volumes)
                                                (VolumeMount.Name vm)) = kind).
  { intros vm. unfold keep.
    destruct (volume_kind _), kind; cbn; split; intros H; try reflexivity; discriminate. }
  split.
  - intros Hlen.
    destruct (List.filter keep (Container.VolumeMounts (TestJobContainer.Container c)))
      as [| vm rest] eqn:E; [simpl in Hlen; lia |].
    assert (Hin : In vm (List.filter keep (Container.VolumeMounts (TestJobContainer.Container c))))
      by (rewrite E; left; reflexivity).
    apply filter_In in Hin. destruct Hin as [Hin Hk]. exists vm. split; [exact Hin |].
    apply Hkeep. exact Hk.
  - intros (vm & Hin & Hk).
    assert (Hf : In vm (List.filter keep (Container.VolumeMounts (TestJobContainer.Container c))))
      by (apply filter_In; split; [exact Hin | apply Hkeep; exact Hk]).
    destruct (List.filter keep _); [destruct Hf | simpl; lia].
Qed.

Lemma group_range_exists (volumes : list TestJobVolume.t) (rho : range_order)
  (containers : list TestJobContainer.t) (P : TaskContainer.t -> bool) :
  range_order_ok rho ->
  List.NoDup (List.map TestJobContainer.Name containers) ->
  existsb P (group_range rho (fst (newTaskContainerGroup containers volumes))) = true
  <-> exists c, In c containers /\ P (newTaskContainer c volumes) = true.
Proof.
  intros Hrho Hnd. rewrite existsb_exists. split.
  - intros (tc & Hin & HP). apply (group_range_In volumes rho containers tc Hrho) in Hin.
    destruct Hin as (c & Hc & ->). exists c. split; assumption.
  - intros (c & Hc & HP). exists (newTaskContainer c volumes). split; [| exact HP].
    apply group_range_build; assumption.
Qed.

(** The log file and the report are staged for the pod exactly when some
    container (init, main or finalizer) mounts a volume that is taken for a
    Log volume, respectively a Report volume: a volume that also names a
    repository, an artifact or a token does not count, nor does, for the
    report, a volume that is also a Log volume. *)
Theorem TaskBuildContext_isUsedLogVolume_iff (mainContainer : TestJobContainer.t)
  (tmpl : TestJobTemplateSpec.t) (strategyKey : option StrategyKey.t) :
  let spec := addContainersByStrategyKey (TestJobTemplateSpec.Spec tmpl) mainContainer strategyKey in
  let ctx := buildJob_context mainContainer tmpl strategyKey in
  let mounted (kind : VolumeKind) :=
    exists c vm,
      In c (user_containers spec) /\
      In vm (Container.VolumeMounts (TestJobContainer.Container c)) /\
      volume_kind (lookup_volume (volumeNameToVolume (TestJobPodSpec.Volumes spec))
                     (VolumeMount.Name vm)) = kind in
  List.NoDup (List.map TestJobContainer.Name (TestJobPodSpec.InitContainers spec)) ->
  List.NoDup (List.map TestJobContainer.Name (TestJobPodSpec.Containers spec)) ->
  (TaskBuildContext_isUsedLogVolume ctx = true <-> mounted KindLog) /\
  (TaskBuildContext_isUsedReportVolume ctx = true <-> mounted KindReport).
Proof.
  intros spec ctx mounted Hni Hnm.
  destruct (buildJob_context_groups mainContainer tmpl strategyKey) as (Hi & Hm & Hf).
  cbv zeta in Hi, Hm, Hf. fold spec ctx in Hi, Hm, Hf.
  set (volumes := TestJobPodSpec.Volumes spec) in *.
  assert (Hnf : List.NoDup (List.map TestJobContainer.Name [TestJobPodSpec.FinalizerContainer spec]))
    by (constructor; [simpl; tauto | constructor]).
  assert (Hgen : forall (kind : VolumeKind) (field : TaskContainer.t -> list string),
             (forall c, field (newTaskContainer c volumes) = mount_paths_of_kind kind volumes c) ->
             let used g := existsb (fun c => negb (len (field c) =? 0))
                             (group_range range_sorted g) in
             used (TaskBuildContext.initContainers ctx) || used (TaskBuildContext.containers ctx)
             || used (TaskBuildContext.finalizerContainers ctx) = true
             <-> mounted kind).
  { intros kind field Hfield used. unfold used. rewrite Hi, Hm, Hf.
    rewrite !orb_true_iff.
    rewrite !(group_range_exists volumes range_sorted _ _ range_sorted_ok) by assumption.
    unfold mounted, user_containers. split.
    - intros H.
      assert (H' : exists c, In c (TestJobPodSpec.InitContainers spec
                                   ++ TestJobPodSpec.Containers spec
                                   ++ [TestJobPodSpec.FinalizerContainer spec]) /\
                             negb (len (field (newTaskContainer c volumes)) =? 0) = true).
      { destruct H as [[(c & Hc & H) | (c & Hc & H)] | (c & Hc & H)];
          exists c; rewrite !in_app_iff; auto. }
      destruct H' as (c & Hc & Hlen). rewrite Hfield in Hlen.
      apply mount_paths_of_kind_nonempty in Hlen. destruct Hlen as (vm & Hvm & Hk).
      exists c, vm. repeat split; assumption.
    - intros (c & vm & Hc & Hvm & Hk).
      assert (H : negb (len (field (newTaskContainer c volumes)) =? 0) = true).
      { rewrite Hfield. apply mount_paths_of_kind_nonempty. exists vm. split; assumption. }
      rewrite !in_app_iff in Hc. destruct Hc as [Hc | [Hc | Hc]].
      + left. left. exists c. split; assumption.
      + left. right. exists c. split; assumption.
      + right. exists c. split; assumption. }
  split.
  - apply (Hgen KindLog TaskContainer.logOrgMountPaths).
    intros c. apply (newTaskContainer_paths c volumes).
  - apply (Hgen KindReport TaskContainer.reportOrgMountPaths).
    intros c. apply (newTaskContainer_paths c volumes).
Qed.

Lemma TaskBuildContext_isUsedLogVolume_iff_witness :
  TaskBuildContext_isUsedLogVolume
    (buildJob_context sample_mixed_container sample_mixed_template None) = true.
Proof.
  destruct (TaskBuildContext_isUsedLogVolume_iff sample_mixed_container sample_mixed_template None)
    as [[_ H] _].
  - constructor.
  - constructor; [simpl; tauto | constructor].
  - apply H. exists sample_mixed_container.
    exists (VolumeMount.mk "log-volume" "/work/kubetest.log" false EmptyString).
    split; [simpl; auto |]. split; [simpl; auto |]. vm_compute. reflexivity.
Defined.

(** ** Replacement as a relation *)

















(** A mask that overlaps an occurrence already replaced is no longer
    found: of "tok" the bytes "ok" stay readable. *)
Example MaskedMessage_Filter_overlap :
  MaskedMessage_Filter (newMaskedMessage EmptyString ["s3cr3t"; "tok"]%string) "s3cr3tok"
  = "******ok"%string.
Proof. vm_compute. reflexivity. Qed.

(** ** The containers of the pod, field by field *)

(** Building the task container changes the mounts of the container and
    nothing else. *)
Lemma rewritten_container (volumes : list TestJobVolume.t) (c : TestJobContainer.t) :
  TestJobContainer.Container (rewritten volumes c)
  = Container.with_VolumeMounts (TestJobContainer.Container c)
      (List.map (rewritten_mount (volumeNameToVolume volumes))
         (Container.VolumeMounts (TestJobContainer.Container c))).
Proof.
  destruct (rewritten_fields volumes c) as [Hrest _].
  destruct (newTaskContainer_fields c volumes) as (_ & _ & _ & Hmounts).
  cbv zeta in Hmounts. fold (rewritten volumes c) in Hmounts.
  unfold Container_without_mounts, Container.with_VolumeMounts in *.
  destruct (TestJobContainer.Container (rewritten volumes c)) as [n i cmd a w e vms p].
  cbn in Hrest, Hmounts. injection Hrest as -> -> -> -> -> -> ->. rewrite Hmounts.
  reflexivity.
Qed.

(** Rewriting a mount changes its path at most, and not even that when
    its volume is no test volume. *)
Lemma rewritten_mount_path (vols : gmap string TestJobVolume.t) (vm : VolumeMount.t) :
  exists path : string,
    rewritten_mount vols vm = VolumeMount.with_MountPath vm path /\
    (is_test_volume (lookup_volume vols (VolumeMount.Name vm)) = false ->
     path = VolumeMount.MountPath vm).
Proof.
  unfold rewritten_mount, newTaskContainer_step, is_test_volume. cbv zeta.
  destruct (lookup_volume vols (VolumeMount.Name vm)) as [vname repo artifact token log report src].
  cbn [TestJobVolume.Name TestJobVolume.Repo TestJobVolume.Artifact TestJobVolume.Token
       TestJobVolume.Log TestJobVolume.Report TestJobVolume.Source].
  destruct repo as [r |]; [eexists; split; [reflexivity | intros H; discriminate H] |].
  destruct artifact as [a |]; [eexists; split; [reflexivity | intros H; discriminate H] |].
  destruct token as [t |]; [eexists; split; [reflexivity | intros H; discriminate H] |].
  destruct log; [eexists; split; [reflexivity | intros H; discriminate H] |].
  destruct report; [eexists; split; [reflexivity | intros H; discriminate H] |].
  exists (VolumeMount.MountPath vm). split; [destruct vm; reflexivity | reflexivity].
Qed.

(** C6.  When a strategy key with keys k_0..k_{n-1}, env name E and
    concurrent index c is attached, the container list of the built pod
    is the template's containers other than the main one, each kept once
    and in order, followed by n clones of the main container.  Clone j is
    the main container with the name <origName><c>-<j> and with the single
    variable E = k_j added at the end of its environment; image, command,
    arguments, working directory, volume mounts and pull policy are the
    main container's.  No container of the pod bears the main container's
    name any more.  Every container, kept or cloned, reaches the pod with
    its volume mounts moved to their staging paths, which changes the path
    of a mount at most, and only for a mount of a Repo, Artifact, Token,
    Log or Report volume. *)
Theorem strategyKey_pod_containers (json_Marshal : list string -> result string)
  (backend_error : RunMode -> option error) (rhos : nat -> range_order)
  (b : TaskBuilder.t) (mainContainer : TestJobContainer.t) (tmpl : TestJobTemplateSpec.t)
  (sk : StrategyKey.t) (job : Job.t) :
  len (StrategyKey.Keys sk) <= GoInt.int_max ->
  TaskBuilder_buildJob json_Marshal backend_error rhos b mainContainer tmpl (Some sk) = Ok job ->
  let main := TestJobContainer.Container mainContainer in
  let vols := volumeNameToVolume (TestJobPodSpec.Volumes (TestJobTemplateSpec.Spec tmpl)) in
  let staged (c : Container.t) : Container.t :=
    Container.with_VolumeMounts c (List.map (rewritten_mount vols) (Container.VolumeMounts c)) in
  let others :=
    List.filter (fun c => negb (String.eqb (TestJobContainer.Name c) (Container.Name main)))
      (TestJobPodSpec.Containers (TestJobTemplateSpec.Spec tmpl)) in
  let clone (j : nat) (key : string) : Container.t :=
    Container.mk
      (Container.Name main
       ++ (itoa (StrategyKey.ConcurrentIdx sk) ++ "-" ++ itoa (Z.of_nat j)))%string
      (Container.Image main) (Container.Command main) (Container.Args main)
      (Container.WorkingDir main)
      (Container.Env main ++ [EnvVar.mk (StrategyKey.Env sk) key])
      (Container.VolumeMounts main) (Container.ImagePullPolicy main) in
  PodSpec.Containers (Pod.Spec (Job.template job))
  = List.map (fun c => staged (TestJobContainer.Container c)) others
    ++ imap (fun j key => staged (clone j key)) (StrategyKey.Keys sk) /\
  (forall vm : VolumeMount.t,
     exists path : string,
       rewritten_mount vols vm = VolumeMount.with_MountPath vm path /\
       (is_test_volume (lookup_volume vols (VolumeMount.Name vm)) = false ->
        path = VolumeMount.MountPath vm)) /\
  Forall (fun c => Container.Name c <> Container.Name main)
    (PodSpec.Containers (Pod.Spec (Job.template job))).
Proof.
  intros Hmax Hjob main vols staged others clone.
  pose proof (buildJob_pod_containers _ _ _ _ _ _ _ _ Hjob) as Hpod.
  rewrite addContainersByStrategyKey_spec in Hpod by exact Hmax.
  rewrite List.map_app in Hpod. fold main in Hpod.
  assert (Hstaged : forall c,
             TestJobContainer.Container
               (rewritten (TestJobPodSpec.Volumes (TestJobTemplateSpec.Spec tmpl)) c)
             = staged (TestJobContainer.Container c)).
  { intros c. apply rewritten_container. }
  assert (Hcontainers :
            PodSpec.Containers (Pod.Spec (Job.template job))
            = List.map (fun c => staged (TestJobContainer.Container c)) others
              ++ imap (fun j key => staged (clone j key)) (StrategyKey.Keys sk)).
  { rewrite Hpod. f_equal.
    - apply map_ext. exact Hstaged.
    - change (List.map ?f ?l) with (f <$> l). rewrite fmap_imap.
      apply imap_ext. intros j key _. cbn [compose]. rewrite Hstaged. reflexivity. }
  split; [exact Hcontainers |]. split; [intros vm; apply rewritten_mount_path |].
  rewrite Hcontainers.
  apply Forall_app. split; apply List.Forall_forall; intros c Hc.
  - apply in_map_iff in Hc. destruct Hc as (c0 & <- & Hin).
    apply filter_In in Hin. destruct Hin as [_ Hne].
    apply negb_true_iff, String.eqb_neq in Hne. exact Hne.
  - apply list_elem_of_In, elem_of_lookup_imap in Hc. destruct Hc as (j & key & -> & _).
    pose proof (strategyKeyContainer_name_fresh mainContainer sk (Z.of_nat j) key) as Hf.
    exact Hf.
Qed.

Lemma strategyKey_pod_containers_witness :
  PodSpec.Containers (Pod.Spec (Job.template sample_worker_job))
  = [Container.mk "sidecar" "redis" ["redis-server"] [] EmptyString [] [] EmptyString;
     Container.mk "test0-0" "golang:1.21" ["go"] ["test"; "$TEST"] "/work"
       [EnvVar.mk "CGO_ENABLED" "0"; EnvVar.mk "TEST" "A"]
       [VolumeMount.mk "repo-volume" "/tmp/repo-archive/repo-volume" false EmptyString;
        VolumeMount.mk "config" "/etc/settings" true EmptyString]
       "IfNotPresent";
     Container.mk "test0-1" "golang:1.21" ["go"] ["test"; "$TEST"] "/work"
       [EnvVar.mk "CGO_ENABLED" "0"; EnvVar.mk "TEST" "B"]
       [VolumeMount.mk "repo-volume" "/tmp/repo-archive/repo-volume" false EmptyString;
        VolumeMount.mk "config" "/etc/settings" true EmptyString]
       "IfNotPresent"]%string.
Proof.
  destruct (strategyKey_pod_containers (fun _ => Ok "[]"%string) (fun _ => None)
              (fun _ => range_sorted) sample_builder sample_worker sample_worker_template
              sample_strategyKey sample_worker_job) as (Hpod & _ & _).
  - vm_compute. discriminate.
  - vm_compute. reflexivity.
  - rewrite Hpod. vm_compute. reflexivity.
Defined.

(** ** A repository mounted twice *)

Lemma range_empty (rho : range_order) (V : Type) :
  range_order_ok rho -> rho V ∅ = [].
Proof.
  intros Hrho. pose proof (Hrho V ∅) as Hp. rewrite map_to_list_empty in Hp.
  apply Permutation_nil. symmetry. exact Hp.
Qed.

Lemma mountRepository_two_mounts (rho : range_order) :
  range_order_ok rho ->
  mountRepository rho (newTaskContainer sample_two_mounts [sample_repo_volume])
    (sample_exec "test" EmptyString None)
  = ([["rm"; "-rf"; "/src"; "&&"; "mkdir"; "-p"; "/src"; "&&";
       "tar"; "-zxvf"; "/tmp/repo-archive/repo-volume/repo.tar.gz"; "-C"; "/src"]%string],
     None).
Proof.
  intros Hrho. unfold mountRepository.
  pose proof (Hrho _ (TaskContainer.repoNameToArchiveMountPath
                        (newTaskContainer sample_two_mounts [sample_repo_volume]))) as Hp.
  assert (Hm : map_to_list (TaskContainer.repoNameToArchiveMountPath
                              (newTaskContainer sample_two_mounts [sample_repo_volume]))
               = [("repo", "/tmp/repo-archive/repo-volume")]%string)
    by (vm_compute; reflexivity).
  rewrite Hm in Hp. symmetry in Hp. apply Permutation_length_1_inv in Hp. rewrite Hp.
  vm_compute. reflexivity.
Qed.

(** C7.  A pod whose main container mounts the Repo volume repo-volume
    twice, at /work and at /src.  In the pod that [buildJob] builds both
    mounts point at the staging path /tmp/repo-archive/repo-volume, backed
    by the emptyDir volume repo-volume.  The mount callback, whatever the
    order of its ranges, hands [PrepareCommand] a single command for this
    container, the one that unpacks the archive at /src: the original
    paths are kept per repository, the second mount has overwritten the
    first, and nothing restores /work. *)
Theorem repo_mounted_twice_restored_once :
  let cmd (P : string) : list string :=
    ["rm"; "-rf"; P; "&&"; "mkdir"; "-p"; P; "&&";
     "tar"; "-zxvf"; "/tmp/repo-archive/repo-volume/repo.tar.gz"; "-C"; P]%string in
  TaskBuilder_buildJob (fun _ => Ok "[]"%string) (fun _ => None) (fun _ => range_sorted)
    sample_builder sample_two_mounts sample_two_mounts_template None
  = Ok sample_two_mounts_job /\
  List.map (fun vm => (VolumeMount.Name vm, VolumeMount.MountPath vm))
    (Container.VolumeMounts (TestJobContainer.Container sample_two_mounts))
  = [("repo-volume", "/work"); ("repo-volume", "/src")]%string /\
  List.map (fun c => (Container.Name c,
                      List.map (fun vm => (VolumeMount.Name vm, VolumeMount.MountPath vm))
                        (Container.VolumeMounts c)))
    (PodSpec.Containers (Pod.Spec (Job.template sample_two_mounts_job)))
  = [("test", [("repo-volume", "/tmp/repo-archive/repo-volume");
               ("repo-volume", "/tmp/repo-archive/repo-volume")])]%string /\
  PodSpec.Volumes (Pod.Spec (Job.template sample_two_mounts_job))
  = [emptyDirVolume "repo-volume"] /\
  exists ctx : TaskBuildContext.t,
    Job.mountContext sample_two_mounts_job = Some ctx /\
    forall rhos : nat -> range_order,
      (forall n : nat, range_order_ok (rhos n)) ->
      TaskBuilder_mountCallback sample_builder rhos ctx (sample_exec "test" EmptyString None)
        false
      = Done ([cmd "/src"%string], None) /\
      ~ In (cmd "/work"%string) [cmd "/src"%string].
Proof.
  cbv zeta.
  split; [vm_compute; reflexivity |]. split; [reflexivity |].
  split; [vm_compute; reflexivity |]. split; [vm_compute; reflexivity |].
  exists (buildJob_context sample_two_mounts sample_two_mounts_template None).
  split; [vm_compute; reflexivity |].
  intros rhos Hrhos. split; [| intros [H | []]; discriminate H].
  unfold TaskBuilder_mountCallback. cbv zeta.
  assert (Hl : TaskBuildContext_taskContainer
                 (buildJob_context sample_two_mounts sample_two_mounts_template None)
                 (Container.Name (JobExecutor.Container (sample_exec "test" EmptyString None)))
                 false
               = Some (newTaskContainer sample_two_mounts [sample_repo_volume]))
    by (vm_compute; reflexivity).
  rewrite Hl, (mountRepository_two_mounts _ (Hrhos 0%nat)).
  assert (Htok : TaskContainer.tokenNameToMountPath
                   (newTaskContainer sample_two_mounts [sample_repo_volume]) = ∅)
    by (vm_compute; reflexivity).
  assert (Hart : TaskContainer.artifactNameToMountPath
                   (newTaskContainer sample_two_mounts [sample_repo_volume]) = ∅)
    by (vm_compute; reflexivity).
  unfold mountToken, mountArtifact. rewrite Htok, Hart.
  rewrite !range_empty by apply Hrhos.
  vm_compute. reflexivity.
Qed.
